(* ===== verification/_CoqProject ===== *)
-Q . S2P
Prelude.v
Relational.v
Total.v
GoStrings.v
GoTime.v
Json.v
Types.v
Util.v
Codec.v
Backend.v
Memory.v
KVStore.v
KVSpec.v
KVVolumes.v
Scheduler.v
Docker.v
TaskQueue.v
Controller.v
Backups.v
World.v
DockerSpec.v
Cluster.v
Records.v
DockerVolumes.v
Interleaving.v
Retain.v
Cron.v
Manager.v
ManagerSpec.v
Lifecycle.v
Creation.v
Upkeep.v
ManagerDemo.v
Monitor.v
Clients.v
System.v
Provision.v
Teardown.v
Recurring.v
Completion.v
Bringup.v
Attachment.v
Startup.v
Process.v
Resources.v
Api.v
ApiSpec.v
Schema.v
