(* ===== verification/Prelude.v ===== *)
(** * Longhorn manager: a verification development

    The program is the manager that runs on every host of a Longhorn cluster.  A volume
    is a controller container on the host it is attached to, over replica containers on
    other hosts.  The managers share an etcd store; each drives the Docker daemon of
    its own host, and asks the other managers over HTTP for what is to be done there.

    ** The parts

    - The store.  [Backend] is the interface [kvstore.Backend] with the class
      [BackendSpec] of what it promises, and the etcd backend ([kvstore/etcd.go]) over
      an etcd client that meets [KeysAPISpec]; [Memory] is [kvstore/memory.go].  [KVStore]
      is [kvstore/kvstore.go] and [kvstore/volume.go]; [KVSpec] specifies it over an
      abstract store of hosts, settings, volume records, controllers and replicas (the
      relation [Rel]), and [KVVolumes] does so for listings and whole volumes.  The data
      is in [Types] ([types/types.go], [types/schedule.go]), its JSON in [Json], [Codec].
    - The orchestrator.  [Scheduler] is [scheduler/]; [Docker] is [orch/docker/].
      [DockerSpec] says what a schedule item does to the abstract store; [Cluster] puts
      several hosts together, each answering [POST /v1/schedule] ([api/internal.go]);
      [Records] ties the store to the containers of the daemons; [DockerVolumes] is the
      operations on volume records and the containers a failure leaves.  [Interleaving]
      runs an operation while others write to the store between its requests, with the
      relational rules of [Relational].
    - The clients.  [TaskQueue] is [controller/queue.go] and [bgtasks.go]; [Controller] is
      [controller/controller.go], [snapshots.go], [backups.go] and [util/cmd.go];
      [Backups] is [backups/backups.go].
    - The manager.  [Manager] is [manager/manager.go] and [errs.go], over the interfaces
      of [types/types.go] as type classes ([Orchestrator], [ManagerDeps]); [Cron], with
      the loop of [Retain], is [manager/cron.go]; [Monitor] is [monitor.go] and [event.go].
      [ManagerSpec], [Lifecycle], [Creation] and [Upkeep] prove its properties over any
      orchestrator that logs its calls; [ManagerDemo] makes such a log for any.
      [System] is the manager over the Docker orchestrator in a cluster, end to end,
      [Provision] its creation of volumes and [Recurring] its update of recurring jobs.
      [Total] has rules for programs that succeed; with them [Teardown] and [Bringup] show
      when the requests of the orchestrator are served, [Completion] that detaching and
      deleting complete, and [Attachment] that attaching does.
    - The program.  [Clients] is what [main.go] passes to the manager: the holder of
      clients ([controller.Get], [controller.Cleanup]) and [manager.Monitor], which
      implement [ManagerDeps].  [Startup] is [RunManager] with the flags and the start-up
      of [orch/docker/docker.go]; [Process] is [main], [util/server] and [util/daemon]: the
      goroutines of the servers, the signals and how the process ends, a call for the
      help or the version included.
    - The API.  [Resources] and [Schema] are [api/model.go]; [Api] is the handlers and
      the routes of [api/], over the scheduler that an orchestrator may have
      ([ScheduledOrchestrator]) for the internal one; [ApiSpec] their properties.
    - [Util] is [util/util.go]; [GoStrings] and [GoTime] the parts of the Go library that
      are used; [World] a reference environment for the examples: etcd, a daemon per
      host, a clock.

    ** The model

    A Go function with an error result is a program in the monad [M] over the world
    it runs in: [Ok], [Err], or a [Panic] that unwinds the caller.  An error keeps the
    format of its message, not the arguments: the code never looks at a message.  Go
    maps are [gmap]s; every loop over one is in an order chosen by a [MapOrder], and the
    theorems hold for every choice.  An [int] or [int64] is a [Z], and wraps around
    ([wrap64]) where the code computes with it.  A nil pointer is [None] where it can
    arrive.  Goroutines that are waited for run one after the other in any order
    ([GoSched]), each call being one step; of those whose starter panics before it waits
    some have run, as the scheduler lets them; those that outlive their caller are processes
    of the state: the goroutine of a task queue, the one that adds a replica, the ticker
    and the loops of a monitor.  Every handler is one run of its program, which no other
    one interrupts; but for the store, which all managers write to, [Interleaving] runs
    the operations with any writes of others before every one of their requests.

    External systems are type classes: the etcd client, Docker, the file system, the
    clock, HTTP, the [longhorn] command line, the cron library, the JSON text parser.  A
    law is assumed of them only where their documentation gives it, each in a class
    beside ([KeysAPISpec], [DockerSpec], [ContainerSpec], [ClockSpec]), and [World] or a
    [Demo] module has an instance for which the theorems are applied.  What can fail may
    fail at any time in all of these; that it does not, which the theorems on completion
    need, is said by [healthy] for the store and by the classes [LiveDocker] and
    [LiveEngine] for the daemons and the engines they run.  A daemon that answers still
    refuses to remove a container that runs, since the code does not force it: the
    theorems on completion depend on what is stopped before.

    ** What the theorems show

    - Store: a volume that is stored is read back, lists are exact, a deletion removes
      all there is of a volume, and no operation touches another one ([KVVolumes]);
      updates keep instances, marking a replica bad is lost ([DockerVolumes]).
    - Cluster: a schedule item does what it says or nothing ([DockerSpec]); a recorded
      instance keeps its container and host until it is removed, and replicas are spread
      ([Cluster]); the records are true of the daemons ([Records]); the scheduler tries
      every host ([Scheduler]); a failed creation leaves no container, but for a
      controller that does not start ([DockerVolumes]).
    - Manager: the order of the calls of attach, with the detach that comes first, of
      detach and delete, and what must have succeeded before each ([Lifecycle]), and of a
      creation, from a backup too ([Creation]); what a check repairs or detaches, what a
      clean-up removes, and the invariants of the monitors and the count of replicas
      being added ([Upkeep]); when a monitor gives up ([Monitor]); retention from run to
      run, schedules and their restarts, and the termination of the clean-ups ([Cron]).
    - System: after a detach, a deletion or an attach that succeeds, what the store and
      the daemons hold, whichever host asked ([System]); after a creation, the record and
      as many replicas as wanted ([Provision]).
    - Completion: while the store, the daemons, the engines and the managers answer, a
      detach and a deletion succeed and take just the containers of the volume with them
      ([Completion]); an attach succeeds, with the controller on the host that was asked
      and the good replicas up ([Attachment]).
    - Concurrency: an operation on a volume and what others do to other volumes do not
      affect each other; two hosts that record a controller of one volume at once both
      succeed, and one record is lost ([Interleaving]).
    - Program: a start monitors the volumes attached to the host and no others
      ([Startup]); a client is released by its monitor, and only by it ([Clients]); what
      can end the process, and with which status ([Process]).
    - Clients: the task queue is first in, first out, and what its worker runs
      ([TaskQueue]); one controller per volume, and its replicas and backups as the
      engine prints them ([Controller], [Backups]).
    - API: one forwarding at most, actions that fit the state of a volume, settings that
      are read back ([ApiSpec]); schemas that agree with routes and resources ([Schema]).

    Some theorems show what the code does not mean to do: an attach that panics on a bad
    replica, a failed repair that detaches the volume, recurring backups that are never
    made, a negative retention that loops for ever, a client that is never released,
    recurring jobs that are refused but stored ([Recurring]).

    ** Fuel and bounds

    Polling loops ([Util.Backoff], [WaitForAPI], [WaitForDevice]) run at most as often as
    their time-out has units, which the termination theorem proves enough.  The
    clean-up loop of [Retain] is run with fuel: with a bound that is not negative it is
    shown to end whatever the engine answers, and with a negative one to use up any fuel.
    The loops of tickers and monitors take the number of ticks as an argument, and the
    theorems hold for every number.  A request is forwarded along at most the given hops,
    and one is shown to be enough.  The waits for an engine and for its device end when
    one of as many polls as the time-out has seconds is answered ([Bringup]).

    ** Not modelled

    The transport under [util/server] (sockets, HTTP) is that of libraries, whose calls
    return or block; signals other than those the program asks for end it as usual.  The
    library that parses the command line is a parameter, as are UUIDs, MD5 and the
    network interfaces of [util/util.go];
    the text of messages and
    log entries; the matching of URL patterns, the reading and writing of bodies, and
    the reflection of [AddType] (libraries); [vendor/]. *)

From stdpp Require Import base list gmap strings.
From Stdlib Require Import ZArith Lia.

(** ** Go errors

    The message of an error is kept as its format string: the code never
    inspects a message, so the format identifies the branch that produced it. *)

Inductive error : Type :=
| Errorf (fmt : string)                   (* errors.Errorf, errors.New, fmt.Errorf *)
| Wrapf (cause : error) (fmt : string)    (* errors.Wrap, errors.Wrapf on a non-nil error *)
| ExtErr (what : string)                  (* an error value of an external call *)
| KeyNotFound                             (* MemoryKeyNotFoundError, etcd error code 100 *)
| CtrlErr (cause : error)                 (* manager.ctrlErr *)
| Errs (errs : list error).               (* manager.Errs *)

(** The result of a Go call that returns [(T, error)].  [Ok] is a nil error,
    [Err] a non-nil one, [Panic] a run-time panic that unwinds the caller. *)
Inductive outcome (A : Type) : Type :=
| Ok (a : A)
| Err (e : error)
| Panic (why : string).
Arguments Ok {A} _.
Arguments Err {A} _.
Arguments Panic {A} _.

(** Stateful Go code over a world [W]. *)
Definition M (W A : Type) : Type := W → outcome A * W.

#[export] Instance outcome_ret : MRet outcome := @Ok.
#[export] Instance outcome_bind : MBind outcome := λ A B f m,
  match m with Ok a => f a | Err e => Err e | Panic s => Panic s end.
#[export] Instance M_ret {W} : MRet (M W) := λ A a w, (Ok a, w).
#[export] Instance M_bind {W} : MBind (M W) := λ A B f m w,
  match m w with
  | (Ok a, w') => f a w'
  | (Err e, w') => (Err e, w')
  | (Panic s, w') => (Panic s, w')
  end.

Section Monad.
Context {W : Type}.
Implicit Types (A B : Type).

Definition fail {A} (e : error) : M W A := λ w, (Err e, w).
Definition gopanic {A} (why : string) : M W A := λ w, (Panic why, w).
Definition lift {A} (o : outcome A) : M W A := λ w, (o, w).

(** [errors.Wrapf(err, fmt)] on the error a call returns: nil stays nil. *)
Definition wrap_outcome {A} (fmt : string) (o : outcome A) : outcome A :=
  match o with Err e => Err (Wrapf e fmt) | o => o end.

Definition wrap {A} (fmt : string) (m : M W A) : M W A := λ w,
  let '(o, w') := m w in (wrap_outcome fmt o, w').

(** The code keeps the error in a variable and goes on. *)
Definition attempt {A} (m : M W A) : M W (A + error) := λ w,
  match m w with
  | (Ok a, w') => (Ok (inl a), w')
  | (Err e, w') => (Ok (inr e), w')
  | (Panic s, w') => (Panic s, w')
  end.

(** The error of a call is dropped ([_ = f()], or logged only). *)
Definition ignore {A} (m : M W A) : M W unit := attempt m;; mret tt.

(** Reading through a pointer: a nil pointer dereference panics. *)
Definition deref {A} (p : option A) : M W A :=
  match p with
  | Some a => mret a
  | None => gopanic "nil pointer dereference"
  end.

(** [for _, x := range xs { body }] with an early return on error. *)
Fixpoint mfor {A} (f : A → M W unit) (xs : list A) : M W unit :=
  match xs with
  | [] => mret tt
  | x :: xs => f x;; mfor f xs
  end.

(** The goroutine fan-out of the code: every body runs, the errors are collected
    from the channel, and the channel closes after the last one. *)
Fixpoint gather {A} (f : A → M W unit) (xs : list A) : M W (list error) :=
  match xs with
  | [] => mret []
  | x :: xs =>
    r ← attempt (f x);
    es ← gather f xs;
    mret (match r with inl _ => es | inr e => e :: es end)
  end.

Definition wp {A} (m : M W A) (w : W) (Q : outcome A → W → Prop) : Prop :=
  Q (m w).1 (m w).2.
End Monad.

(** Go ranges over a map in an unspecified order.  A [MapOrder] is one choice of
    orders; the theorems hold for every one. *)
Class MapOrder := {
  range : ∀ {V : Type}, gmap string V → list (string * V);
  range_perm : ∀ {V : Type} (m : gmap string V), range m ≡ₚ map_to_list m;
}.

(** One such choice, for examples. *)
Definition list_order : MapOrder := {|
  range V m := map_to_list m;
  range_perm V m := reflexivity _;
|}.

(** ** Reasoning about stateful code

    [wp m w Q] says that running [m] from [w] ends with an outcome and a world
    that satisfy [Q].  The code is total, so [wp] is both a partial and a total
    correctness statement. *)

Section WP.
Context {W : Type}.
Context {A B : Type}.
Implicit Types (m : M W A) (w : W).

Lemma wp_mono m w (Q Q' : outcome A → W → Prop) :
  wp m w Q → (∀ o w', m w = (o, w') → Q o w' → Q' o w') → wp m w Q'.
Proof. unfold wp. destruct (m w) as [o w'] eqn:E; simpl; auto. Qed.

Lemma wp_intro m w (Q : outcome A → W → Prop) :
  (∀ o w', m w = (o, w') → Q o w') → wp m w Q.
Proof. unfold wp. destruct (m w) as [o w'] eqn:E; simpl; auto. Qed.

Lemma wp_elim m w (Q : outcome A → W → Prop) o w' :
  wp m w Q → m w = (o, w') → Q o w'.
Proof. unfold wp. intros H E. by rewrite E in H. Qed.

Lemma wp_ret (a : A) w (Q : outcome A → W → Prop) : Q (Ok a) w → wp (mret a) w Q.
Proof. done. Qed.

Lemma wp_fail e w (Q : outcome A → W → Prop) : Q (Err e) w → wp (fail e) w Q.
Proof. done. Qed.

Lemma wp_panic s w (Q : outcome A → W → Prop) : Q (Panic s) w → wp (gopanic s) w Q.
Proof. done. Qed.

Lemma wp_lift o w (Q : outcome A → W → Prop) : Q o w → wp (lift o) w Q.
Proof. done. Qed.

Lemma wp_bind m (f : A → M W B) w (Q : outcome B → W → Prop) :
  wp m w (λ o w', match o with
                  | Ok a => wp (f a) w' Q
                  | Err e => Q (Err e) w'
                  | Panic s => Q (Panic s) w'
                  end) →
  wp (m ≫= f) w Q.
Proof. unfold wp, mbind, M_bind. destruct (m w) as [[] w'] eqn:E; simpl; auto. Qed.

Lemma wp_wrap fmt m w (Q : outcome A → W → Prop) :
  wp m w (λ o w', Q (wrap_outcome fmt o) w') → wp (wrap fmt m) w Q.
Proof. unfold wp, wrap. by destruct (m w). Qed.

Lemma wp_attempt m w (Q : outcome (A + error) → W → Prop) :
  wp m w (λ o w', match o with
                  | Ok a => Q (Ok (inl a)) w'
                  | Err e => Q (Ok (inr e)) w'
                  | Panic s => Q (Panic s) w'
                  end) →
  wp (attempt m) w Q.
Proof. unfold wp, attempt. by destruct (m w) as [[] ]. Qed.

Lemma wp_ignore m w (Q : outcome unit → W → Prop) :
  wp m w (λ o w', match o with
                  | Ok _ | Err _ => Q (Ok tt) w'
                  | Panic s => Q (Panic s) w'
                  end) →
  wp (ignore m) w Q.
Proof.
  unfold wp, ignore, attempt, mbind, M_bind. by destruct (m w) as [[] ?].
Qed.

Lemma bind_ok_inv m (f : A → M W B) w b w'' :
  (m ≫= f) w = (Ok b, w'') ↔ ∃ a w', m w = (Ok a, w') ∧ f a w' = (Ok b, w'').
Proof.
  unfold mbind, M_bind. split.
  - destruct (m w) as [[] w'] eqn:E; intros H; naive_solver.
  - intros (a & w' & -> & ?). done.
Qed.

Lemma bind_ok m (f : A → M W B) w a w' :
  m w = (Ok a, w') → (m ≫= f) w = f a w'.
Proof. unfold mbind, M_bind. by intros ->. Qed.

Lemma bind_err m (f : A → M W B) w e w' :
  m w = (Err e, w') → (m ≫= f) w = (Err e, w').
Proof. unfold mbind, M_bind. by intros ->. Qed.

Lemma bind_panic m (f : A → M W B) w s w' :
  m w = (Panic s, w') → (m ≫= f) w = (Panic s, w').
Proof. unfold mbind, M_bind. by intros ->. Qed.

Lemma wrap_ok_inv fmt m w a w' :
  wrap fmt m w = (Ok a, w') ↔ m w = (Ok a, w').
Proof. unfold wrap. destruct (m w) as [[] ?]; naive_solver. Qed.

Lemma wrap_panic_inv fmt m w s w' :
  wrap fmt m w = (Panic s, w') ↔ m w = (Panic s, w').
Proof. unfold wrap. destruct (m w) as [[] ?]; naive_solver. Qed.
End WP.

(** The world satisfies [I] after every iteration of a loop. *)
Lemma wp_mfor {W A : Type} (I : list A → W → Prop) (E : outcome unit → W → Prop)
    (f : A → M W unit) (xs : list A) (w : W) :
  I xs w →
  (∀ x xs' w, I (x :: xs') w →
     wp (f x) w (λ o w', match o with Ok _ => I xs' w' | _ => E o w' end)) →
  wp (mfor f xs) w (λ o w', match o with Ok _ => I [] w' | _ => E o w' end).
Proof.
  intros HI Hstep. revert w HI. induction xs as [|x xs IH]; intros w HI; simpl.
  - by apply wp_ret.
  - apply wp_bind. eapply wp_mono; [by apply Hstep|].
    intros [[] | |] w' _ Ho; auto.
Qed.

(** Every body of a fan-out keeps [I]; [gather] itself never returns an error. *)
Lemma wp_gather {W A : Type} (I : W → Prop) (P : A → list error → W → Prop)
    (f : A → M W unit) (xs : list A) (w : W) :
  I w →
  (∀ x w, x ∈ xs → I w → wp (f x) w (λ o w', I w' ∧ ∀ s, o ≠ Panic s)) →
  wp (gather f xs) w (λ o w', I w' ∧ ∃ es, o = Ok es).
Proof.
  revert w. induction xs as [|x xs IH]; intros w HI Hf; simpl.
  - apply wp_ret. eauto.
  - apply wp_bind, wp_attempt. eapply wp_mono; [apply Hf; [left|done]|].
    intros o w' _ [HI' Hp].
    assert (Hrec : wp (gather f xs) w' (λ o w', I w' ∧ ∃ es, o = Ok es)).
    { apply IH; [done|]. intros. apply Hf; [by right|done]. }
    destruct o as [a|e|s]; [| |by destruct (Hp s)];
      apply wp_bind; (eapply wp_mono; [exact Hrec|]);
      intros ? w'' _ [? [es ->]]; apply wp_ret; eauto.
Qed.

(** [go_step] unfolds one layer of a goal [wp m w Q] by the shape of [m]. *)
Ltac go_step :=
  lazymatch goal with
  | |- wp (mret _) _ _ => apply wp_ret
  | |- wp (fail _) _ _ => apply wp_fail
  | |- wp (gopanic _) _ _ => apply wp_panic
  | |- wp (lift _) _ _ => apply wp_lift
  | |- wp (mbind _ _) _ _ => apply wp_bind
  | |- wp (wrap _ _) _ _ => apply wp_wrap
  | |- wp (attempt _) _ _ => apply wp_attempt
  | |- wp (ignore _) _ _ => apply wp_ignore
  | |- wp (deref (Some _)) _ _ => apply wp_ret
  | |- wp (deref None) _ _ => apply wp_panic
  | |- wp (match ?x with _ => _ end) _ _ => destruct x eqn:?
  end.
Ltac go_steps := repeat (go_step; simpl).

(** [go_call H] uses the specification [H] of the call at the head of the goal. *)
Tactic Notation "go_call" uconstr(H) :=
  eapply wp_mono; [eapply H|]; simpl.

(** Inverting a successful run. *)
Ltac go_inv H :=
  lazymatch type of H with
  | (mbind _ _) _ = (Ok _, _) =>
      apply bind_ok_inv in H;
      let x := fresh "x" in let w := fresh "w" in let E := fresh "E" in
      destruct H as (x & w & E & H); go_inv E; go_inv H
  | wrap _ _ _ = (Ok _, _) => apply wrap_ok_inv in H; go_inv H
  | mret _ _ = (Ok _, _) => idtac
  | _ => idtac
  end.

(** ** Frames

    [preserves R m]: every run of [m] relates the worlds before and after by the
    preorder [R], however it ends. *)

Section Preserves.
Context {W : Type} (R : W → W → Prop) `{!PreOrder R}.

Definition preserves {A} (m : M W A) : Prop := ∀ w, wp m w (λ _ w', R w w').

Lemma preserves_at {A} (m : M W A) w : preserves m → wp m w (λ _ w', R w w').
Proof. auto. Qed.

Lemma preserves_ret {A} (a : A) : preserves (mret a).
Proof. intros w. by apply wp_ret. Qed.
Lemma preserves_fail {A} e : preserves (@fail W A e).
Proof. intros w. by apply wp_fail. Qed.
Lemma preserves_panic {A} s : preserves (@gopanic W A s).
Proof. intros w. by apply wp_panic. Qed.
Lemma preserves_lift {A} (o : outcome A) : preserves (lift o).
Proof. intros w. by apply wp_lift. Qed.
Lemma preserves_deref {A} (p : option A) : preserves (deref p).
Proof. destruct p; [apply preserves_ret|apply preserves_panic]. Qed.

(** The rest of a program only runs on what the call can return. *)
Lemma preserves_bind_inv {A B} (m : M W A) (f : A → M W B) :
  preserves m → (∀ a w w', m w = (Ok a, w') → preserves (f a)) → preserves (m ≫= f).
Proof.
  intros Hm Hf w. apply wp_bind. eapply wp_mono; [apply Hm|].
  intros [a|e|s] w' E Hw; [|done..]. eapply wp_mono; [by eapply Hf|]. intros. by etrans.
Qed.

Lemma preserves_bind {A B} (m : M W A) (f : A → M W B) :
  preserves m → (∀ a, preserves (f a)) → preserves (m ≫= f).
Proof. intros Hm Hf. apply preserves_bind_inv; auto. Qed.

Lemma preserves_wrap {A} fmt (m : M W A) : preserves m → preserves (wrap fmt m).
Proof. intros Hm w. apply wp_wrap. eapply wp_mono; [apply Hm|done]. Qed.

Lemma preserves_attempt {A} (m : M W A) : preserves m → preserves (attempt m).
Proof. intros Hm w. apply wp_attempt. eapply wp_mono; [apply Hm|]. by intros [] ? _ ?. Qed.

Lemma preserves_ignore {A} (m : M W A) : preserves m → preserves (ignore m).
Proof. intros Hm w. apply wp_ignore. eapply wp_mono; [apply Hm|]. by intros [] ? _ ?. Qed.

Lemma preserves_mfor {A} (f : A → M W unit) xs :
  (∀ x, x ∈ xs → preserves (f x)) → preserves (mfor f xs).
Proof.
  induction xs as [|x xs IH]; intros Hf; simpl; [apply preserves_ret|].
  apply preserves_bind; [apply Hf; set_solver|]. intros _. apply IH. set_solver.
Qed.

Lemma preserves_gather {A} (f : A → M W unit) xs :
  (∀ x, x ∈ xs → preserves (f x)) → preserves (gather f xs).
Proof.
  induction xs as [|x xs IH]; intros Hf; simpl; [apply preserves_ret|].
  apply preserves_bind; [apply preserves_attempt, Hf; set_solver|]. intros r.
  apply preserves_bind; [apply IH; set_solver|]. intros es. apply preserves_ret.
Qed.
End Preserves.

Create HintDb frame.
#[export] Hint Resolve preserves_ret preserves_fail preserves_panic preserves_lift
  preserves_deref preserves_bind preserves_wrap preserves_attempt preserves_ignore : frame.
#[export] Hint Extern 0 (PreOrder _) => apply _ : frame.

(** [frees] proves that a program keeps a frame, by its structure. *)
Ltac free_step :=
  first [ solve [eauto with frame]
        | apply preserves_bind; [try apply _| |intros ?]
        | apply preserves_wrap | apply preserves_attempt | apply preserves_ignore
        | case_match ].
Ltac frees := repeat free_step.

(** A closed decidable goal, by evaluating its decision. *)
Ltac by_deciding := apply (bool_decide_unpack _); vm_compute; exact I.

(** ** Generic lemmas *)

Lemma elem_of_range `{MapOrder} {V} (m : gmap string V) k x :
  (k, x) ∈ range m ↔ m !! k = Some x.
Proof. rewrite range_perm. apply elem_of_map_to_list. Qed.

Lemma NoDup_range `{MapOrder} {V} (m : gmap string V) : NoDup (range m).
Proof. rewrite range_perm. apply NoDup_map_to_list. Qed.

Lemma filter_all {A} (P : A → Prop) `{∀ x, Decision (P x)} l : Forall P l → filter P l = l.
Proof. induction 1; [done|]. rewrite filter_cons_True by done. by f_equal. Qed.

Lemma filter_none {A} (P : A → Prop) `{∀ x, Decision (P x)} l :
  Forall (λ x, ¬ P x) l → filter P l = [].
Proof. induction 1; [done|]. by rewrite filter_cons_False. Qed.

(** The map built by a loop that looks every key up and stores what it finds
    under the name of the value. *)
Definition collect {K V : Type} (f : K → option V) (name : V → string)
    (l : list K) (acc : gmap string V) : gmap string V :=
  foldl (λ acc k, match f k with Some x => <[name x:=x]> acc | None => acc end) acc l.

Lemma collect_lookup {K V : Type} (f : K → option V) (name : V → string) (l : list K) acc r x :
  (∀ k1 k2 x1 x2, k1 ∈ l → k2 ∈ l → f k1 = Some x1 → f k2 = Some x2 →
     name x1 = name x2 → x1 = x2) →
  (∀ k x y, k ∈ l → f k = Some x → acc !! name x = Some y → y = x) →
  collect f name l acc !! r = Some x ↔
  acc !! r = Some x ∨ ∃ k, k ∈ l ∧ f k = Some x ∧ name x = r.
Proof.
  unfold collect. revert acc. induction l as [|k l IH]; intros acc Hl Ha; simpl.
  { set_solver. }
  rewrite IH.
  - destruct (f k) as [x1|] eqn:E.
    + split.
      * intros [H|(k' & ? & ? & ?)]; [|set_solver].
        destruct (decide (name x1 = r)) as [<-|Hne].
        -- rewrite lookup_insert_eq in H. simplify_eq. right. exists k. set_solver.
        -- rewrite lookup_insert_ne in H by done. by left.
      * intros [H|(k' & [->|Hk']%elem_of_cons & Hf & Hn)].
        -- left. destruct (decide (name x1 = r)) as [<-|Hne].
           ++ rewrite lookup_insert_eq. f_equal. symmetry. eapply (Ha k); set_solver.
           ++ by rewrite lookup_insert_ne.
        -- left. simplify_eq. by rewrite lookup_insert_eq.
        -- right. eauto.
    + split; [intros [H|(k' & ? & ? & ?)]; set_solver|].
      intros [H|(k' & [->|Hk']%elem_of_cons & Hf & Hn)]; [by left|congruence|right; eauto].
  - intros k1 k2 x1 x2 ??. apply Hl; set_solver.
  - intros k' x' y Hk' Hf Hy. destruct (f k) as [x1|] eqn:E; [|eapply Ha; set_solver].
    destruct (decide (name x1 = name x')) as [He|Hne].
    + rewrite He, lookup_insert_eq in Hy. simplify_eq. eapply Hl; set_solver.
    + rewrite lookup_insert_ne in Hy by done. eapply (Ha k'); set_solver.
Qed.

Lemma collect_all {V : Type} (m : gmap string V) (name : V → string) (names : list string) :
  (∀ k x, m !! k = Some x → name x = k ∧ k ∈ names) →
  collect (λ k, m !! k) name names ∅ = m.
Proof.
  intros Hm. apply map_eq. intros k. apply option_eq. intros x. rewrite collect_lookup.
  - rewrite lookup_empty. split.
    + intros [?|(k' & _ & Hk & <-)]; [done|]. by destruct (Hm _ _ Hk) as [-> _].
    + intros Hk. right. exists k. naive_solver.
  - intros k1 k2 x1 x2 _ _ H1 H2 Heq. destruct (Hm _ _ H1) as [<- _], (Hm _ _ H2) as [<- _].
    congruence.
  - intros ? ? ? _ _. by rewrite lookup_empty.
Qed.
