(* ===== verification/Relational.v ===== *)
(** * Two runs side by side

    [related R m1 m2]: run from worlds that [R] relates, [m1] and [m2] end with the same
    outcome, and with worlds that [R] relates.  The rules follow the structure of a
    program, so that one written over an interface is related to itself over two
    implementations of it as soon as their calls are.  [preserves] (Prelude) is the
    corresponding judgement for one run. *)

From stdpp Require Import base list gmap strings.
From Stdlib Require Import ZArith Lia.
From S2P Require Import Prelude.

Section Related.
Context {W1 W2 : Type} (R : W1 → W2 → Prop).

(** The two runs from one pair of worlds. *)
Definition related_at {A} (w1 : W1) (w2 : W2) (m1 : M W1 A) (m2 : M W2 A) : Prop :=
  (m1 w1).1 = (m2 w2).1 ∧ R (m1 w1).2 (m2 w2).2.

Definition related {A} (m1 : M W1 A) (m2 : M W2 A) : Prop :=
  ∀ w1 w2, R w1 w2 → related_at w1 w2 m1 m2.

Lemma related_elim {A} (m1 : M W1 A) (m2 : M W2 A) w1 w2 :
  related m1 m2 → R w1 w2 → related_at w1 w2 m1 m2.
Proof. auto. Qed.

Lemma related_at_bind {A B} (m1 : M W1 A) (m2 : M W2 A) (f1 : A → M W1 B) (f2 : A → M W2 B) w1 w2 :
  related_at w1 w2 m1 m2 →
  (∀ a w1' w2', m1 w1 = (Ok a, w1') → R w1' w2' → related_at w1' w2' (f1 a) (f2 a)) →
  related_at w1 w2 (m1 ≫= f1) (m2 ≫= f2).
Proof.
  intros [Ho HR] Hf. unfold related_at, mbind, M_bind in *.
  destruct (m1 w1) as [o1 w1'], (m2 w2) as [o2 w2']. simpl in *. subst o2.
  destruct o1 as [a|e|s]; [by apply (Hf a)|done..].
Qed.

Lemma related_ret {A} (a : A) : related (mret a) (mret a).
Proof. done. Qed.
Lemma related_fail {A} e : related (@fail W1 A e) (fail e).
Proof. done. Qed.
Lemma related_panic {A} s : related (@gopanic W1 A s) (gopanic s).
Proof. done. Qed.
Lemma related_lift {A} (o : outcome A) : related (lift o) (lift o).
Proof. done. Qed.
Lemma related_deref {A} (p : option A) : related (deref p) (deref p).
Proof. by destruct p. Qed.

(** The rest only runs on what the call can return. *)
Lemma related_bind_inv {A B} (m1 : M W1 A) (m2 : M W2 A) (f1 : A → M W1 B) (f2 : A → M W2 B) :
  related m1 m2 → (∀ a w1 w1', m1 w1 = (Ok a, w1') → related (f1 a) (f2 a)) →
  related (m1 ≫= f1) (m2 ≫= f2).
Proof.
  intros Hm Hf w1 w2 HR. apply related_at_bind; [by apply Hm|].
  intros a w1' w2' E HR'. by apply (Hf a w1 w1' E).
Qed.

Lemma related_bind {A B} (m1 : M W1 A) (m2 : M W2 A) (f1 : A → M W1 B) (f2 : A → M W2 B) :
  related m1 m2 → (∀ a, related (f1 a) (f2 a)) → related (m1 ≫= f1) (m2 ≫= f2).
Proof. intros Hm Hf. apply related_bind_inv; auto. Qed.

Lemma related_at_wrap {A} fmt (m1 : M W1 A) (m2 : M W2 A) w1 w2 :
  related_at w1 w2 m1 m2 → related_at w1 w2 (wrap fmt m1) (wrap fmt m2).
Proof.
  unfold related_at, wrap. destruct (m1 w1) as [o1 w1'], (m2 w2) as [o2 w2']. simpl.
  by intros [-> ?].
Qed.

Lemma related_wrap {A} fmt (m1 : M W1 A) (m2 : M W2 A) :
  related m1 m2 → related (wrap fmt m1) (wrap fmt m2).
Proof. intros Hm w1 w2 HR. by apply related_at_wrap, Hm. Qed.

Lemma related_attempt {A} (m1 : M W1 A) (m2 : M W2 A) :
  related m1 m2 → related (attempt m1) (attempt m2).
Proof.
  intros Hm w1 w2 HR. destruct (Hm _ _ HR) as [Ho HR']. unfold related_at, attempt.
  destruct (m1 w1) as [o1 w1'], (m2 w2) as [o2 w2']. simpl in *. subst. by destruct o2.
Qed.

Lemma related_ignore {A} (m1 : M W1 A) (m2 : M W2 A) :
  related m1 m2 → related (ignore m1) (ignore m2).
Proof. intros Hm. apply related_bind; [by apply related_attempt|]. intros. apply related_ret. Qed.

Lemma related_mfor {A} (f1 : A → M W1 unit) (f2 : A → M W2 unit) xs :
  (∀ x, x ∈ xs → related (f1 x) (f2 x)) → related (mfor f1 xs) (mfor f2 xs).
Proof.
  induction xs as [|x xs IH]; intros Hf; simpl; [apply related_ret|].
  apply related_bind; [apply Hf; left|]. intros _. apply IH. intros. apply Hf. by right.
Qed.
End Related.

Create HintDb related.
#[export] Hint Resolve related_ret related_fail related_panic related_lift related_deref
  related_bind related_wrap related_attempt related_ignore : related.

(** [relates] proves that a program is related to itself, by its structure. *)
Ltac relate_step :=
  first [ solve [eauto with related]
        | apply related_bind; [|intros ?]
        | apply related_wrap | apply related_attempt | apply related_ignore
        | case_match ].
Ltac relates := repeat relate_step.
