(* ===== verification/Total.v ===== *)
(** * Programs that succeed

    [succeeds m w Q]: run from [w], the program returns a value without an error or a
    panic, and the value and the world then satisfy [Q].  Rules by the structure of
    programs, which the theorems on completion use. *)

From stdpp Require Import base list gmap strings.
From S2P Require Import Prelude.

Section Succeeds.
Context {W : Type}.
Implicit Types (A B : Type) (w : W).

Definition succeeds {A} (m : M W A) w (Q : A → W → Prop) : Prop :=
  ∃ a w', m w = (Ok a, w') ∧ Q a w'.

Lemma succeeds_run {A} (m : M W A) w a w' (Q : A → W → Prop) :
  m w = (Ok a, w') → Q a w' → succeeds m w Q.
Proof. intros ??. by exists a, w'. Qed.

Lemma succeeds_mono {A} (m : M W A) w (Q Q' : A → W → Prop) :
  succeeds m w Q → (∀ a w', m w = (Ok a, w') → Q a w' → Q' a w') → succeeds m w Q'.
Proof. intros (a & w' & E & Hq) HQ. exists a, w'. eauto. Qed.

Lemma succeeds_ret {A} (a : A) w (Q : A → W → Prop) : Q a w → succeeds (mret a) w Q.
Proof. by apply succeeds_run. Qed.

Lemma succeeds_lift {A} (a : A) w (Q : A → W → Prop) : Q a w → succeeds (lift (Ok a)) w Q.
Proof. by apply succeeds_run. Qed.

Lemma succeeds_bind {A B} (m : M W A) (f : A → M W B) w (Q : B → W → Prop) :
  succeeds m w (λ a w', succeeds (f a) w' Q) → succeeds (m ≫= f) w Q.
Proof. intros (a & w1 & E & b & w2 & E' & Hq). exists b, w2. by rewrite (bind_ok _ _ _ _ _ E). Qed.

Lemma succeeds_wrap {A} fmt (m : M W A) w (Q : A → W → Prop) :
  succeeds m w Q → succeeds (wrap fmt m) w Q.
Proof. intros (a & w' & E & Hq). exists a, w'. by rewrite wrap_ok_inv. Qed.

Lemma succeeds_attempt {A} (m : M W A) w (Q : A + error → W → Prop) :
  succeeds m w (λ a, Q (inl a)) → succeeds (attempt m) w Q.
Proof. intros (a & w' & E & Hq). exists (inl a), w'. unfold attempt. by rewrite E. Qed.

(** An ignored call only has not to panic. *)
Lemma succeeds_ignore {A} (m : M W A) w (Q : unit → W → Prop) :
  (∀ p, (m w).1 ≠ Panic p) → Q tt (m w).2 → succeeds (ignore m) w Q.
Proof.
  unfold succeeds, ignore, attempt, mbind, M_bind.
  destruct (m w) as [[a|e|p] w'] eqn:E; simpl; intros Hp Hq; [by exists tt, w'..|by destruct (Hp p)].
Qed.

(** What succeeds, and otherwise satisfies a frame. *)
Lemma succeeds_wp {A} (m : M W A) w (Q : A → W → Prop) (R : outcome A → W → Prop) :
  succeeds m w Q → wp m w R → succeeds m w (λ a w', Q a w' ∧ R (Ok a) w').
Proof. intros (a & w' & E & Hq) Hw. exists a, w'. split_and!; [done..|]. by apply (wp_elim _ _ _ _ _ Hw). Qed.

(** Loops: every body succeeds, with an invariant of what is left to do. *)
Lemma succeeds_mfor {A} (I : list A → W → Prop) (f : A → M W unit) xs w :
  I xs w → (∀ x xs w, I (x :: xs) w → succeeds (f x) w (λ _ w', I xs w')) →
  succeeds (mfor f xs) w (λ _ w', I [] w').
Proof.
  intros HI Hf. revert w HI. induction xs as [|x xs IH]; intros w HI; simpl; [by apply succeeds_ret|].
  apply succeeds_bind. eapply succeeds_mono; [by apply Hf|]. simpl. intros _ w' _. apply IH.
Qed.

Lemma succeeds_gather {A} (I : list A → W → Prop) (f : A → M W unit) xs w :
  I xs w → (∀ x xs w, I (x :: xs) w → succeeds (f x) w (λ _ w', I xs w')) →
  succeeds (gather f xs) w (λ es w', es = [] ∧ I [] w').
Proof.
  intros HI Hf. revert w HI. induction xs as [|x xs IH]; intros w HI; simpl; [by apply succeeds_ret|].
  apply succeeds_bind, succeeds_attempt. eapply succeeds_mono; [by apply Hf|]. simpl. intros [] w1 _ HI1.
  apply succeeds_bind. eapply succeeds_mono; [by apply IH|]. simpl. intros es w2 _ [-> ?]. by apply succeeds_ret.
Qed.
End Succeeds.

(** [go_on] applies the rule for the shape of the program. *)
Ltac go_on :=
  lazymatch goal with
  | |- succeeds (mret _) _ _ => apply succeeds_ret
  | |- succeeds (lift (Ok _)) _ _ => apply succeeds_lift
  | |- succeeds (mbind _ _) _ _ => apply succeeds_bind
  | |- succeeds (wrap _ _) _ _ => apply succeeds_wrap
  | |- succeeds (attempt _) _ _ => apply succeeds_attempt
  | |- succeeds (deref (Some _)) _ _ => apply succeeds_ret
  end; cbv beta match.

(** [go_with H]: the program at the head succeeds by [H]. *)
Tactic Notation "go_with" uconstr(H) := eapply succeeds_mono; [eapply H|]; cbn beta.
