(* ===== verification/GoStrings.v ===== *)
(** * Go strings and paths

    The functions of Go's [strings], [strconv] and [path/filepath] packages the
    manager uses, on byte strings, with the lemmas on store keys that the
    key-value layer needs.  White space is the ASCII white space. *)

From stdpp Require Import base list gmap strings.
From Stdlib Require Import ZArith Lia Ascii.
From S2P Require Import Prelude.
Local Open Scope string_scope.
Local Open Scope list_scope.
Arguments String.append !_ _ : simpl nomatch.

(** ** strings *)

Fixpoint HasPrefix (s p : string) {struct p} : bool :=
  match p, s with
  | EmptyString, _ => true
  | String a p', String b s' => if ascii_dec a b then HasPrefix s' p' else false
  | _, _ => false
  end.

Fixpoint sdrop (n : nat) (s : string) : string :=
  match n, s with
  | 0, _ => s
  | S n', String _ s' => sdrop n' s'
  | S _, EmptyString => EmptyString
  end.

Fixpoint stake (n : nat) (s : string) : string :=
  match n, s with
  | S n', String a s' => String a (stake n' s')
  | _, _ => EmptyString
  end.

Definition TrimPrefix (s p : string) : string :=
  if HasPrefix s p then sdrop (String.length p) s else s.

Definition HasSuffix (s p : string) : bool :=
  (String.length p <=? String.length s)%nat &&
  String.eqb (sdrop (String.length s - String.length p) s) p.

Definition TrimSuffix (s p : string) : string :=
  if HasSuffix s p then stake (String.length s - String.length p) s else s.

(** [strings.Split(s, sep)] with a one-byte separator. *)
Fixpoint Split (c : ascii) (s : string) : list string :=
  match s with
  | EmptyString => [EmptyString]
  | String a s' =>
    if ascii_dec a c then EmptyString :: Split c s'
    else match Split c s' with
         | [] => [String a EmptyString]
         | x :: xs => String a x :: xs
         end
  end.

(** [strings.Join]. *)
Fixpoint SJoin (sep : string) (l : list string) : string :=
  match l with
  | [] => EmptyString
  | [x] => x
  | x :: xs => x +:+ sep +:+ SJoin sep xs
  end.

(** [strings.Count(s, c)] for a one-byte [c]. *)
Fixpoint Count (c : ascii) (s : string) : nat :=
  match s with
  | EmptyString => 0
  | String a s' => if ascii_dec a c then S (Count c s') else Count c s'
  end.

(** [strings.Contains(s, c)] for a one-byte [c]. *)
Definition Contains (c : ascii) (s : string) : bool := negb (Count c s =? 0)%nat.

(** [strings.TrimLeft(s, c)] for a one-byte cutset. *)
Fixpoint TrimLeft (c : ascii) (s : string) : string :=
  match s with
  | EmptyString => EmptyString
  | String a s' => if ascii_dec a c then TrimLeft c s' else s
  end.

Definition is_space (a : ascii) : bool :=
  let n := nat_of_ascii a in (n =? 32)%nat || ((9 <=? n)%nat && (n <=? 13)%nat).

Fixpoint trim_space_left (s : string) : string :=
  match s with
  | EmptyString => EmptyString
  | String a s' => if is_space a then trim_space_left s' else s
  end.

Fixpoint trim_space_right (s : string) : string :=
  match s with
  | EmptyString => EmptyString
  | String a s' =>
    match trim_space_right s' with
    | EmptyString => if is_space a then EmptyString else String a EmptyString
    | s'' => String a s''
    end
  end.

(** [strings.TrimSpace]. *)
Definition TrimSpace (s : string) : string := trim_space_right (trim_space_left s).

(** [strings.Fields]: the maximal runs of non-space bytes. *)
Fixpoint Fields (s : string) : list string :=
  match s with
  | EmptyString => []
  | String a s' =>
    if is_space a then Fields s'
    else match s' with
         | EmptyString => [String a EmptyString]
         | String b _ =>
           if is_space b then String a EmptyString :: Fields s'
           else match Fields s' with
                | [] => [String a EmptyString]
                | x :: xs => String a x :: xs
                end
         end
  end.

Definition to_lower (a : ascii) : ascii :=
  let n := nat_of_ascii a in
  if ((65 <=? n) && (n <=? 90))%nat then ascii_of_nat (n + 32) else a.

(** [strings.ToLower] on ASCII. *)
Fixpoint ToLower (s : string) : string :=
  match s with
  | EmptyString => EmptyString
  | String a s' => String (to_lower a) (ToLower s')
  end.

(** [strings.Replace(s, old, new, -1)] for one-byte [old] and [new]. *)
Fixpoint ReplaceAll (old new : ascii) (s : string) : string :=
  match s with
  | EmptyString => EmptyString
  | String a s' => String (if ascii_dec a old then new else a) (ReplaceAll old new s')
  end.

(** The order [<] on strings (byte-wise lexicographic). *)
Fixpoint slt (s t : string) : bool :=
  match s, t with
  | EmptyString, String _ _ => true
  | String a s', String b t' =>
    (nat_of_ascii a <? nat_of_ascii b)%nat ||
    ((nat_of_ascii a =? nat_of_ascii b)%nat && slt s' t')
  | _, EmptyString => false
  end.

(** ** strconv *)

Definition digit (n : Z) : ascii := ascii_of_nat (Z.to_nat n + 48).

Fixpoint format_pos (fuel : nat) (n : Z) (acc : string) : string :=
  match fuel with
  | 0 => acc
  | S fuel' =>
    let acc' := String (digit (n mod 10)) acc in
    if (n <? 10)%Z then acc' else format_pos fuel' (n / 10) acc'
  end.

(** [strconv.FormatInt(n, 10)]; twenty digits are enough for an int64. *)
Definition FormatInt (n : Z) : string :=
  if (n <? 0)%Z then String "-" (format_pos 20 (- n) "") else format_pos 20 n "".

Definition digit_val (a : ascii) : option Z :=
  let n := nat_of_ascii a in
  if ((48 <=? n) && (n <=? 57))%nat then Some (Z.of_nat n - 48)%Z else None.

Fixpoint parse_digits (s : string) (acc : Z) : option Z :=
  match s with
  | EmptyString => Some acc
  | String a s' =>
    match digit_val a with
    | Some d => parse_digits s' (acc * 10 + d)
    | None => None
    end
  end.

Definition parse_uint (s : string) : option Z :=
  match s with EmptyString => None | _ => parse_digits s 0 end.

Definition int64_min : Z := - 2 ^ 63.
Definition int64_max : Z := 2 ^ 63 - 1.
Definition in_int64 (n : Z) : bool := ((int64_min <=? n) && (n <=? int64_max))%Z.

(** [strconv.ParseInt(s, 10, 64)]. *)
Definition ParseInt (s : string) : option Z :=
  let r := match s with
           | String "-" s' => Z.opp <$> parse_uint s'
           | String "+" s' => parse_uint s'
           | _ => parse_uint s
           end in
  match r with
  | Some n => if in_int64 n then Some n else None
  | None => None
  end.

(** ** filepath *)

Definition clean_step (rooted : bool) (stack : list string) (e : string) : list string :=
  if String.eqb e "" || String.eqb e "." then stack
  else if String.eqb e ".." then
    match stack with
    | [] => if rooted then [] else [".."]
    | top :: rest => if String.eqb top ".." then ".." :: stack else rest
    end
  else e :: stack.

(** [filepath.Clean] on Unix. *)
Definition Clean (p : string) : string :=
  if String.eqb p "" then "."
  else
    let rooted := HasPrefix p "/" in
    let body := SJoin "/" (reverse (foldl (clean_step rooted) [] (Split "/" p))) in
    if rooted then "/" +:+ body else if String.eqb body "" then "." else body.

(** [filepath.Join]: the empty leading elements are dropped. *)
Fixpoint Join (elems : list string) : string :=
  match elems with
  | [] => ""
  | e :: rest => if String.eqb e "" then Join rest else Clean (SJoin "/" elems)
  end.

Example join_ex : Join ["/longhorn"; "volumes"] = "/longhorn/volumes".
Proof. reflexivity. Qed.
Example clean_ex : Clean "/a/../../b//c/." = "/b/c".
Proof. reflexivity. Qed.
Example fields_ex : Fields "  tcp://x:9502 RW  [a b]" = ["tcp://x:9502"; "RW"; "[a"; "b]"].
Proof. reflexivity. Qed.
Example format_ex : FormatInt (-1204) = "-1204" ∧ ParseInt "-1204" = Some (-1204)%Z.
Proof. by vm_compute. Qed.
Example trim_ex : TrimSpace "  a b  " = "a b" ∧ TrimSuffix "x:9502" ":9502" = "x".
Proof. by vm_compute. Qed.

(** ** Store keys as component lists

    A key of the store is an absolute path.  On simple names [filepath.Join] is
    concatenation, and a path determines its components. *)

Definition simple_name (n : string) : bool :=
  negb (String.eqb n "") && negb (String.eqb n ".") && negb (String.eqb n "..") &&
  (Count "/" n =? 0)%nat.

Fixpoint path (cs : list string) : string :=
  match cs with
  | [] => ""
  | c :: cs' => String "/" (c +:+ path cs')
  end.

(** [k] is the key [d] or lies below it in the tree of keys. *)
Definition under (d k : string) : Prop := Split "/" d `prefix_of` Split "/" k.
#[export] Instance under_dec d k : Decision (under d k).
Proof. unfold under. apply _. Defined.

Lemma sapp_nil_r (s : string) : s +:+ "" = s.
Proof. induction s as [|a s IH]; simpl; [done|]. by rewrite IH. Qed.

Lemma sapp_assoc (s t u : string) : (s +:+ t) +:+ u = s +:+ (t +:+ u).
Proof. induction s as [|a s IH]; simpl; [done|]. by rewrite IH. Qed.

Lemma Split_nonempty c s : Split c s ≠ [].
Proof. destruct s; simpl; [done|]. case_match; [done|]. by case_match. Qed.

Lemma Split_app c s t x xs :
  Count c s = 0 → Split c t = x :: xs → Split c (s +:+ t) = (s +:+ x) :: xs.
Proof.
  intros Hs Ht. induction s as [|a s IH]; simpl in *; [done|].
  destruct (ascii_dec a c); [done|]. by rewrite IH.
Qed.

Lemma Count_app c s t : Count c (s +:+ t) = (Count c s + Count c t)%nat.
Proof. induction s as [|a s IH]; simpl; [done|]. rewrite IH. by destruct (ascii_dec a c). Qed.

Lemma Split_noslash c s : Count c s = 0 → Split c s = [s].
Proof.
  intros Hs. rewrite <-(sapp_nil_r s) at 1.
  by rewrite (Split_app _ _ "" "" [] Hs eq_refl), sapp_nil_r.
Qed.

Lemma simple_name_spec n :
  simple_name n = true ↔ n ≠ "" ∧ n ≠ "." ∧ n ≠ ".." ∧ Count "/" n = 0.
Proof.
  unfold simple_name. rewrite !andb_true_iff, !negb_true_iff, !String.eqb_neq, Nat.eqb_eq.
  naive_solver.
Qed.

Lemma Split_path_aux cs :
  Forall (λ n, Count "/" n = 0) cs → Split "/" (path cs) = "" :: cs.
Proof.
  induction 1 as [|c cs Hc _ IH]; [done|].
  simpl. by rewrite (Split_app _ _ _ _ _ Hc IH), sapp_nil_r.
Qed.

Lemma simple_noslash cs :
  Forall (λ n, simple_name n = true) cs → Forall (λ n, Count "/" n = 0) cs.
Proof. intros H. eapply Forall_impl; [exact H|]. intros ? ?%simple_name_spec. naive_solver. Qed.

Lemma Split_path cs :
  Forall (λ n, simple_name n = true) cs → Split "/" (path cs) = "" :: cs.
Proof. intros H. by apply Split_path_aux, simple_noslash. Qed.

(** Distinct component lists give distinct keys. *)
Lemma path_inj cs ds :
  Forall (λ n, simple_name n = true) cs → Forall (λ n, simple_name n = true) ds →
  path cs = path ds → cs = ds.
Proof.
  intros Hc Hd E. apply (f_equal (Split "/")) in E.
  rewrite (Split_path _ Hc), (Split_path _ Hd) in E. naive_solver.
Qed.

Lemma path_app cs ds : path (cs ++ ds) = path cs +:+ path ds.
Proof.
  induction cs as [|c cs IH]; [done|]. simpl. by rewrite IH, sapp_assoc.
Qed.

Lemma under_path cs ds :
  Forall (λ n, simple_name n = true) cs → Forall (λ n, simple_name n = true) ds →
  under (path cs) (path ds) ↔ cs `prefix_of` ds.
Proof.
  intros Hc Hd. unfold under. rewrite (Split_path _ Hc), (Split_path _ Hd).
  split; [apply prefix_cons_inv_2|apply prefix_cons].
Qed.

Lemma foldl_clean_simple rooted cs st :
  Forall (λ n, simple_name n = true) cs →
  foldl (clean_step rooted) st cs = reverse cs ++ st.
Proof.
  intros H. revert st. induction H as [|c cs Hc _ IH]; intros st; [done|].
  simpl. rewrite IH. apply simple_name_spec in Hc as (H1 & H2 & H3 & _).
  unfold clean_step. rewrite (proj2 (String.eqb_neq _ _) H1),
    (proj2 (String.eqb_neq _ _) H2), (proj2 (String.eqb_neq _ _) H3). simpl.
  by rewrite reverse_cons, <-app_assoc.
Qed.

Lemma SJoin_path c cs : String "/" (SJoin "/" (c :: cs)) = path (c :: cs).
Proof.
  revert c. induction cs as [|d cs IH]; intros c; simpl in *.
  - by rewrite sapp_nil_r.
  - f_equal. f_equal. rewrite <-IH. done.
Qed.

Lemma Clean_path cs :
  cs ≠ [] → Forall (λ n, simple_name n = true) cs → Clean (path cs) = path cs.
Proof.
  intros Hne H. unfold Clean. destruct cs as [|c cs]; [done|].
  rewrite Split_path by done.
  assert (HasPrefix (path (c :: cs)) "/" = true) as -> by done.
  change (foldl (clean_step true) [] ("" :: c :: cs))
    with (foldl (clean_step true) [] (c :: cs)).
  rewrite foldl_clean_simple by done. rewrite app_nil_r, reverse_involutive.
  change (String.eqb (path (c :: cs)) "") with false. cbv iota.
  apply SJoin_path.
Qed.

(** [filepath.Join(dir, name)] appends one component. *)
Lemma Join_path cs n :
  cs ≠ [] → Forall (λ n, simple_name n = true) cs → simple_name n = true →
  Join [path cs; n] = path (cs ++ [n]).
Proof.
  intros Hne H Hn. destruct cs as [|c cs]; [done|].
  change (Join [path (c :: cs); n]) with (Clean (path (c :: cs) +:+ "/" +:+ n)).
  assert (path (c :: cs) +:+ "/" +:+ n = path ((c :: cs) ++ [n])) as ->.
  { rewrite path_app. cbn [path]. by rewrite sapp_nil_r. }
  apply Clean_path; [done|]. apply Forall_app; auto.
Qed.

Lemma simple_name_no_slash n : simple_name n = true → Count "/" n = 0.
Proof. intros H%simple_name_spec. naive_solver. Qed.

(** Splitting and joining are inverse. *)
Lemma Split_parts c s : Forall (λ n, Count c n = 0) (Split c s).
Proof.
  induction s as [|a s IH]; simpl; [by constructor|].
  destruct (ascii_dec a c) as [->|Hne]; [by constructor|].
  destruct (Split c s) as [|x xs]; simpl; constructor; simpl;
    try (by destruct (ascii_dec a c)); try constructor; inversion IH; subst; auto.
  by destruct (ascii_dec a c).
Qed.

Lemma SJoin_Split c s : SJoin (String c "") (Split c s) = s.
Proof.
  induction s as [|a s IH]; [done|]. simpl.
  destruct (ascii_dec a c) as [->|Hne].
  - destruct (Split c s) as [|x xs] eqn:E; [by destruct (Split_nonempty c s)|].
    simpl in *. by rewrite IH.
  - destruct (Split c s) as [|x [|y xs]] eqn:E; simpl in *; by subst.
Qed.

Lemma Split_SJoin c l :
  l ≠ [] → Forall (λ n, Count c n = 0) l → Split c (SJoin (String c "") l) = l.
Proof.
  intros Hne Hl. induction Hl as [|x l Hx Hl IH]; [done|].
  destruct l as [|y l]; [by apply Split_noslash|].
  change (SJoin (String c "") (x :: y :: l))
    with (x +:+ String c (SJoin (String c "") (y :: l))).
  rewrite (Split_app _ x _ "" (y :: l)); [by rewrite sapp_nil_r|done|].
  simpl. destruct (ascii_dec c c); [|done]. f_equal. by apply IH.
Qed.

Lemma Split_inj c s t : Split c s = Split c t → s = t.
Proof. intros E. by rewrite <-(SJoin_Split c s), <-(SJoin_Split c t), E. Qed.

Lemma under_refl k : under k k.
Proof. unfold under. done. Qed.

Lemma under_antisym j k : under j k → under k j → j = k.
Proof.
  unfold under. intros H1 H2. apply (Split_inj "/").
  apply prefix_length_eq; [done|]. by apply prefix_length.
Qed.

Create HintDb keys discriminated.
#[export] Hint Resolve Forall_nil_2 : keys.
#[export] Hint Extern 1 (Forall _ (_ ++ _)) => apply Forall_app_2 : keys.
#[export] Hint Extern 1 (Forall _ (_ :: _)) => apply Forall_cons_2 : keys.
#[export] Hint Extern 1 (simple_name _ = true) => reflexivity : keys.
