(* ===== verification/GoTime.v ===== *)
(** * Time stamps

    [time.Time] as nanoseconds since the Unix epoch, and the layout RFC3339 of
    Go's [time] package: [util.Now], [util.ParseTime], [util.FormatTimeZ] and
    [util.ParseTimeZ] of [util/time.go] and [util/util.go].  The round trip covers
    every second of the years 0 to 9999. *)

From stdpp Require Import base list strings.
From Stdlib Require Import ZArith Lia Ascii.
From S2P Require Import Prelude GoStrings.
Local Open Scope string_scope.
Local Open Scope Z_scope.

Definition nanos : Z := 1000000000.
Definition Second : Z := nanos.
Definition Minute : Z := 60 * Second.
Definition Hour : Z := 60 * Minute.

(** ** The proleptic Gregorian calendar, in 400-year eras from March 1st, year 0 *)

Definition doe_of (yoe mp d : Z) : Z :=
  yoe * 365 + yoe / 4 - yoe / 100 + (153 * mp + 2) / 5 + d - 1.

Definition days_from_civil (y m d : Z) : Z :=
  let y' := if m <=? 2 then y - 1 else y in
  y' / 400 * 146097 + doe_of (y' mod 400) ((m + 9) mod 12) d - 719468.

(** Year of era, month counted from March, day of month. *)
Definition era_split (doe : Z) : Z * Z * Z :=
  let yoe := (doe - doe / 1460 + doe / 36524 - doe / 146096) / 365 in
  let doy := doe - (365 * yoe + yoe / 4 - yoe / 100) in
  let mp := (5 * doy + 2) / 153 in
  (yoe, mp, doy - (153 * mp + 2) / 5 + 1).

Definition civil_from_days (days : Z) : Z * Z * Z :=
  let z := days + 719468 in
  let '(yoe, mp, d) := era_split (z mod 146097) in
  let m := if mp <? 10 then mp + 3 else mp - 9 in
  let y := yoe + z / 146097 * 400 in
  ((if m <=? 2 then y + 1 else y), m, d).

Definition is_leap (y : Z) : bool :=
  (y mod 4 =? 0) && (negb (y mod 100 =? 0) || (y mod 400 =? 0)).

Definition days_in (m y : Z) : Z :=
  if m =? 2 then if is_leap y then 29 else 28
  else if (m =? 4) || (m =? 6) || (m =? 9) || (m =? 11) then 30 else 31.

(** ** Formatting *)

Definition two (n : Z) (s : string) : string :=
  String (digit (n / 10)) (String (digit (n mod 10)) s).

Definition format_civil (y mo d h mi se : Z) : string :=
  two (y / 100) (two (y mod 100) (String "-" (two mo (String "-" (two d (String "T"
    (two h (String ":" (two mi (String ":" (two se (String "Z" "")))))))))))).

(** [t.UTC().Format(time.RFC3339)], years 0 to 9999. *)
Definition Format (t : Z) : string :=
  let secs := t / nanos in
  let '(y, mo, d) := civil_from_days (secs / 86400) in
  let s := secs mod 86400 in
  format_civil y mo d (s / 3600) (s / 60 mod 60) (s mod 60).

(** ** Parsing *)

Definition num2 (s : string) : option (Z * string) :=
  match s with
  | String a (String b s') =>
    x ← digit_val a; y ← digit_val b; Some (x * 10 + y, s')
  | _ => None
  end.

(** The hour may have one digit. *)
Definition num_hour (s : string) : option (Z * string) :=
  match num2 s with
  | Some r => Some r
  | None => match s with
            | String a s' => x ← digit_val a; Some (x, s')
            | EmptyString => None
            end
  end.

Definition expect (c : ascii) (s : string) : option string :=
  match s with
  | String a s' => if ascii_dec a c then Some s' else None
  | EmptyString => None
  end.

Fixpoint frac_digits (s : string) (n acc : Z) : Z * Z * string :=
  match s with
  | String a s' => match digit_val a with
                   | Some x => frac_digits s' (n + 1) (acc * 10 + x)
                   | None => (n, acc, s)
                   end
  | EmptyString => (n, acc, s)
  end.

(** Fractional seconds are accepted after the seconds, up to nine digits. *)
Definition parse_frac (s : string) : option (Z * string) :=
  match s with
  | String "." (String a _ as s') =>
    match digit_val a with
    | Some _ =>
      let '(n, acc, rest) := frac_digits s' 0 0 in
      if n <=? 9 then Some (acc * 10 ^ (9 - n), rest) else None
    | None => Some (0, s)
    end
  | _ => Some (0, s)
  end.

(** [Z07:00]: the offset in seconds. *)
Definition parse_zone (s : string) : option (Z * string) :=
  match s with
  | String "Z" s' => Some (0, s')
  | String sg s' =>
    if ascii_dec sg "+" then
      '(h, s1) ← num2 s'; s2 ← expect ":" s1; '(m, s3) ← num2 s2;
      Some (h * 3600 + m * 60, s3)
    else if ascii_dec sg "-" then
      '(h, s1) ← num2 s'; s2 ← expect ":" s1; '(m, s3) ← num2 s2;
      Some (- (h * 3600 + m * 60), s3)
    else None
  | EmptyString => None
  end.

Definition in_day (mo d h mi se y : Z) : bool :=
  (1 <=? mo) && (mo <=? 12) && (1 <=? d) && (d <=? days_in mo y) &&
  (h <? 24) && (mi <? 60) && (se <? 60).

(** [time.Parse(time.RFC3339, s)]. *)
Definition Parse (s : string) : option Z :=
  '(y1, s) ← num2 s; '(y2, s) ← num2 s; s ← expect "-" s;
  '(mo, s) ← num2 s; s ← expect "-" s;
  '(d, s) ← num2 s; s ← expect "T" s;
  '(h, s) ← num_hour s; s ← expect ":" s;
  '(mi, s) ← num2 s; s ← expect ":" s;
  '(se, s) ← num2 s;
  '(ns, s) ← parse_frac s;
  '(off, s) ← parse_zone s;
  match s with
  | EmptyString =>
    let y := y1 * 100 + y2 in
    if in_day mo d h mi se y then
      Some ((days_from_civil y mo d * 86400 + h * 3600 + mi * 60 + se - off) * nanos + ns)
    else None
  | _ => None
  end.

(** [util.FormatTimeZ]; [util.Now] is [FormatTimeZ] of the current time. *)
Definition FormatTimeZ (t : Z) : string := Format t.
(** [util.ParseTimeZ] and [util.ParseTime]. *)
Definition ParseTime (s : string) : option Z := Parse s.

Example format_ex1 : Format (1490408820 * nanos) = "2017-03-25T02:27:00Z".
Proof. reflexivity. Qed.
Example parse_ex1 : Parse "2017-03-25T02:27:00Z" = Some (1490408820 * nanos).
Proof. reflexivity. Qed.
Example parse_ex2 : Parse "2016-07-19T01:21:09+05:00" = Parse "2016-07-18T20:21:09Z".
Proof. reflexivity. Qed.
Example parse_ex3 : Parse "2017-02-29T00:00:00Z" = None ∧ Parse "" = None.
Proof. done. Qed.

(** ** The calendar is consistent *)

Definition doe_ok (doe : Z) : bool :=
  let '(yoe, mp, d) := era_split doe in
  let m := if mp <? 10 then mp + 3 else mp - 9 in
  let y := if m <=? 2 then yoe + 1 else yoe in
  (doe_of yoe mp d =? doe) && (0 <=? yoe) && (yoe <? 400) && (0 <=? mp) && (mp <? 12) &&
  (1 <=? d) && (d <=? days_in m y).

Fixpoint all_below (n : nat) (i : Z) (f : Z → bool) : bool :=
  match n with
  | O => true
  | S n' => f i && all_below n' (i + 1) f
  end.

Lemma all_below_spec n i f x :
  all_below n i f = true → i <= x < i + Z.of_nat n → f x = true.
Proof.
  revert i. induction n as [|n IH]; intros i H Hx; [lia|].
  cbn [all_below] in H. apply andb_true_iff in H as [H1 H2].
  destruct (Z.eq_dec x i) as [->|]; [done|]. apply (IH (i + 1)); [done|lia].
Qed.

(** The first day of a year of the era, and the estimate [era_split] divides by 365. *)
Definition year_start (yoe : Z) : Z := 365 * yoe + yoe / 4 - yoe / 100.
Definition year_est (doe : Z) : Z := doe - doe / 1460 + doe / 36524 - doe / 146096.

Lemma year_est_mono a b : 0 <= a <= b → b < 146097 → year_est a <= year_est b.
Proof.
  intros Ha Hb.
  assert (Hstep : ∀ x, 0 <= x → x + 1 < 146097 → year_est x <= year_est (x + 1)).
  { intros x Hx Hx1. unfold year_est. Z.to_euclidean_division_equations. lia. }
  assert (Hn : ∀ n : nat, a + Z.of_nat n < 146097 → year_est a <= year_est (a + Z.of_nat n)).
  { induction n as [|n IH]; intros Hlt; [by rewrite Z.add_0_r|].
    etrans; [apply IH; lia|]. rewrite Nat2Z.inj_succ.
    replace (a + Z.succ (Z.of_nat n)) with (a + Z.of_nat n + 1) by lia. apply Hstep; lia. }
  specialize (Hn (Z.to_nat (b - a))). rewrite Z2Nat.id in Hn by lia.
  replace (a + (b - a)) with b in Hn by lia. apply Hn. lia.
Qed.

(** At the first and at the last day of each of the 400 years the estimate is
    exact, and a year of 366 days is one whose February, in the next calendar
    year, has 29. *)
Definition year_ok (yoe : Z) : bool :=
  (year_est (year_start yoe) / 365 =? yoe) &&
  (year_start (yoe + 1) - year_start yoe <=? 337 + days_in 2 (yoe + 1)).

Definition last_ok (yoe : Z) : bool :=
  (yoe =? 399) || (year_est (year_start (yoe + 1) - 1) / 365 =? yoe).

Definition doy_ok (doy : Z) : bool :=
  let mp := (5 * doy + 2) / 153 in
  let m := if mp <? 10 then mp + 3 else mp - 9 in
  let d := doy - (153 * mp + 2) / 5 + 1 in
  (0 <=? mp) && (mp <? 12) && (1 <=? d) &&
  ((m =? 2) && (d =? doy - 336) || negb (m =? 2) && (d <=? days_in m 1)).

Lemma year_ok_all yoe : 0 <= yoe < 400 → year_ok yoe && last_ok yoe = true.
Proof.
  intros Hy. apply (all_below_spec 400 0 (λ y, year_ok y && last_ok y)); [|lia].
  vm_compute. reflexivity.
Qed.

Lemma doy_ok_all doy : 0 <= doy < 366 → doy_ok doy = true.
Proof.
  intros Hy. apply (all_below_spec 366 0 doy_ok); [|lia]. vm_compute. reflexivity.
Qed.

Lemma year_start_split doe : 0 <= doe < 146097 →
  ∃ yoe, 0 <= yoe < 400 ∧ year_start yoe <= doe ∧ (doe < year_start (yoe + 1) ∨ yoe = 399).
Proof.
  intros Hd. unfold year_start.
  assert (H : ∀ n : nat, (n <= 399)%nat → doe < 365 * (Z.of_nat n + 1) + (Z.of_nat n + 1) / 4 - (Z.of_nat n + 1) / 100 ∨ n = 399%nat →
    ∃ yoe, 0 <= yoe < 400 ∧ 365 * yoe + yoe / 4 - yoe / 100 <= doe ∧
      (doe < 365 * (yoe + 1) + (yoe + 1) / 4 - (yoe + 1) / 100 ∨ yoe = 399)).
  { induction n as [|n IH]; intros Hn Hlt.
    - exists 0. destruct Hlt as [Hlt|?]; [|done]. vm_compute in Hlt.
      split_and!; [done..| |by left]. change (0 <= doe). lia.
    - destruct (Z_lt_ge_dec doe (365 * (Z.of_nat n + 1) + (Z.of_nat n + 1) / 4 - (Z.of_nat n + 1) / 100)) as [Hl|Hl].
      + apply IH; [lia|by left].
      + exists (Z.of_nat n + 1). rewrite Nat2Z.inj_succ in Hlt. unfold Z.succ in Hlt.
        split_and!; [lia..|]. destruct Hlt; [by left|right; lia]. }
  apply (H 399%nat); [lia|by right].
Qed.

Lemma doe_ok_all doe : 0 <= doe < 146097 → doe_ok doe = true.
Proof.
  intros Hd. destruct (year_start_split doe Hd) as (yoe & Hy & Hlo & Hhi).
  pose proof (year_ok_all yoe Hy) as Hok. unfold year_ok, last_ok in Hok.
  rewrite !andb_true_iff, orb_true_iff, !Z.eqb_eq, Z.leb_le in Hok.
  destruct Hok as [[Hest Hfeb] Hlast].
  assert (Hyoe : year_est doe / 365 = yoe).
  { apply Z.le_antisymm.
    - destruct (Z.eq_dec yoe 399) as [->|Hne].
      + transitivity (year_est 146096 / 365); [|done].
        apply Z.div_le_mono; [lia|]. apply year_est_mono; lia.
      + destruct Hlast as [?|Hlast]; [done|]. destruct Hhi as [Hhi|?]; [|done].
        rewrite <-Hlast. apply Z.div_le_mono; [lia|]. apply year_est_mono; [lia|].
        unfold year_start. Z.to_euclidean_division_equations. lia.
    - rewrite <-Hest at 1; apply Z.div_le_mono; [lia|]. apply year_est_mono; [|lia].
      split; [|done]. unfold year_start. Z.to_euclidean_division_equations. lia. }
  assert (Hlen : doe - year_start yoe < 337 + days_in 2 (yoe + 1)).
  { destruct Hhi as [Hhi|Heq]; [lia|]. subst yoe. clear - Hd.
    replace (days_in 2 (399 + 1)) with 29 by reflexivity.
    replace (year_start 399) with 145731 by reflexivity. lia. }
  set (doy := doe - year_start yoe) in *.
  assert (Hdoy : 0 <= doy < 366).
  { split; [unfold doy; lia|]. revert Hlen. unfold days_in. simpl. destruct (is_leap _); lia. }
  pose proof (doy_ok_all doy Hdoy) as Hdk.
  unfold doe_ok, era_split. fold (year_est doe). rewrite Hyoe. fold (year_start yoe). fold doy.
  unfold doy_ok in Hdk. set (mp := (5 * doy + 2) / 153) in *.
  set (m := if mp <? 10 then mp + 3 else mp - 9) in *.
  rewrite !andb_true_iff, orb_true_iff, !andb_true_iff, negb_true_iff, Z.eqb_neq, !Z.eqb_eq, !Z.leb_le, !Z.ltb_lt in *.
  destruct Hdk as (((Hm0 & Hm1) & Hd1) & Hcase).
  split_and!; try lia; [unfold doe_of, doy, year_start; lia|].
  destruct Hcase as [[Hm Hdd]|[Hm Hdd]].
  - rewrite Hm. simpl. rewrite Hdd. lia.
  - etrans; [exact Hdd|]. unfold days_in. apply Z.eqb_neq in Hm. by rewrite Hm.
Qed.

Lemma days_in_shift m y k : days_in m (y + k * 400) = days_in m y.
Proof.
  unfold days_in, is_leap.
  replace ((y + k * 400) mod 4) with (y mod 4)
    by (rewrite <-(Z_mod_plus_full y (k * 100) 4); f_equal; lia).
  replace ((y + k * 400) mod 100) with (y mod 100)
    by (rewrite <-(Z_mod_plus_full y (k * 4) 100); f_equal; lia).
  by rewrite Z_mod_plus_full.
Qed.

Lemma civil_spec days y m d :
  civil_from_days days = (y, m, d) →
  days_from_civil y m d = days ∧ 1 <= m <= 12 ∧ 1 <= d <= days_in m y.
Proof.
  unfold civil_from_days, days_from_civil. set (z := days + 719468).
  pose proof (doe_ok_all (z mod 146097) (Z.mod_pos_bound z 146097 ltac:(lia))) as Hok.
  unfold doe_ok in Hok. destruct (era_split (z mod 146097)) as [[yoe mp] dd].
  rewrite !andb_true_iff, Z.eqb_eq, !Z.leb_le, !Z.ltb_lt in Hok.
  destruct Hok as ((((((Hdoe & Hy0) & Hy1) & Hm0) & Hm1) & Hd0) & Hd1).
  intros [= <- <- <-].
  assert (Hz : z = z / 146097 * 146097 + z mod 146097)
    by (pose proof (Z.div_mod z 146097 ltac:(lia)); lia).
  set (e := z / 146097) in *. clearbody e.
  destruct (Z.ltb_spec mp 10) as [Hmp|Hmp].
  - destruct (Z.leb_spec (mp + 3) 2) as [?|_]; [lia|].
    rewrite Z.div_add, Z_mod_plus_full, (Z.div_small yoe), (Z.mod_small yoe) by lia.
    replace ((mp + 3 + 9) mod 12) with mp
      by (replace (mp + 3 + 9) with (mp + 1 * 12) by lia;
          rewrite Z_mod_plus_full, Z.mod_small; lia).
    rewrite days_in_shift. split_and!; lia.
  - destruct (Z.leb_spec (mp - 9) 2) as [_|?]; [|lia].
    replace (yoe + e * 400 + 1 - 1) with (yoe + e * 400) by lia.
    rewrite Z.div_add, Z_mod_plus_full, (Z.div_small yoe), (Z.mod_small yoe) by lia.
    replace ((mp - 9 + 9) mod 12) with mp by (rewrite Z.mod_small; lia).
    replace (yoe + e * 400 + 1) with (yoe + 1 + e * 400) by lia.
    rewrite days_in_shift. split_and!; lia.
Qed.

(** ** Digits *)

Lemma digit_val_digit n : 0 <= n < 10 → digit_val (digit n) = Some n.
Proof.
  intros Hn. assert (H : all_below 10 0 (λ n, bool_decide (digit_val (digit n) = Some n)) = true)
    by (vm_compute; reflexivity).
  apply (all_below_spec _ _ _ n) in H; [|lia]. by apply bool_decide_eq_true in H.
Qed.

Lemma num2_two n s : 0 <= n < 100 → num2 (two n s) = Some (n, s).
Proof.
  intros Hn. unfold num2, two.
  rewrite !digit_val_digit by (split; [apply Z.div_pos || apply Z.mod_pos_bound|]; try lia;
    try (apply Z.div_lt_upper_bound; lia); apply Z.mod_pos_bound; lia).
  simpl. f_equal. f_equal. pose proof (Z.div_mod n 10 ltac:(lia)). lia.
Qed.

Lemma expect_same c s : expect c (String c s) = Some s.
Proof. simpl. by destruct (ascii_dec c c). Qed.

Arguments in_day : simpl never.
Arguments days_from_civil : simpl never.

Lemma parse_format_civil y mo d h mi se :
  0 <= y <= 9999 → in_day mo d h mi se y = true → 0 <= h → 0 <= mi → 0 <= se →
  Parse (format_civil y mo d h mi se) =
  Some ((days_from_civil y mo d * 86400 + h * 3600 + mi * 60 + se) * nanos).
Proof.
  intros Hy Hin Hh Hmi Hse. pose proof Hin as Hin'. unfold in_day in Hin'.
  rewrite !andb_true_iff, !Z.leb_le, !Z.ltb_lt in Hin'.
  destruct Hin' as ((((((? & ?) & ?) & Hd) & ?) & ?) & ?).
  assert (d < 100) by (revert Hd; unfold days_in; repeat case_match; lia).
  assert (0 <= y / 100 < 100) by (split; [apply Z.div_pos|apply Z.div_lt_upper_bound]; lia).
  pose proof (Z.mod_pos_bound y 100 ltac:(lia)).
  unfold Parse, format_civil, num_hour. repeat (first [rewrite num2_two by lia | rewrite expect_same]; cbn [mbind option_bind]).
  cbn.
  replace (y / 100 * 100 + y mod 100) with y by (pose proof (Z.div_mod y 100 ltac:(lia)); lia).
  rewrite Hin. f_equal. lia.
Qed.

Definition year_of (t : Z) : Z := (civil_from_days (t / nanos / 86400)).1.1.

(** A time stamp of the years 0 to 9999 reads back to the second. *)
Lemma Parse_Format t : 0 <= year_of t <= 9999 → ParseTime (FormatTimeZ t) = Some (t / nanos * nanos).
Proof.
  unfold year_of, ParseTime, FormatTimeZ, Format. intros Hy.
  destruct (civil_from_days (t / nanos / 86400)) as [[y mo] d] eqn:E. simpl in Hy.
  apply civil_spec in E as (Hdays & Hmo & Hd).
  set (n := t / nanos) in *. clearbody n.
  pose proof (Z.mod_pos_bound n 86400 ltac:(lia)) as Hs.
  pose proof (Z.div_mod n 86400 ltac:(lia)) as Hn. set (s := n mod 86400) in *. clearbody s.
  assert (Hh : 0 <= s / 3600 < 24) by (split; [apply Z.div_pos|apply Z.div_lt_upper_bound]; lia).
  pose proof (Z.mod_pos_bound (s / 60) 60 ltac:(lia)). pose proof (Z.mod_pos_bound s 60 ltac:(lia)).
  rewrite parse_format_civil; [|lia| |lia..].
  - rewrite Hdays. f_equal. f_equal. rewrite Hn at 2. Z.to_euclidean_division_equations. lia.
  - unfold in_day. rewrite !andb_true_iff, !Z.leb_le, !Z.ltb_lt. lia.
Qed.

Lemma FormatTimeZ_nonempty t : FormatTimeZ t ≠ "".
Proof. unfold FormatTimeZ, Format. by destruct (civil_from_days _) as [[??]?]. Qed.
