(* ===== verification/Json.v ===== *)
(** * JSON documents

    [encoding/json] at the level of documents: the manager stores and sends the
    JSON of its structs, and reads it back with [json.Unmarshal] into a zero
    struct.  The text of a document is not modelled, its tree is.  Decoding
    follows Go: a missing or null field leaves the zero value, unknown fields are
    ignored, a value of the wrong type or an integer out of range is an error. *)

From stdpp Require Import base list gmap strings.
From Stdlib Require Import ZArith Lia.
From S2P Require Import Prelude GoStrings.
Local Open Scope string_scope.

Inductive json : Type :=
| JNull
| JBool (b : bool)
| JNum (n : Z)
| JStr (s : string)
| JArr (l : list json)
| JObj (l : list (string * json)).

(** The value of a key: the last one when a key is repeated. *)
Definition obj_get (k : string) (l : list (string * json)) : option json :=
  foldl (λ acc kv, if String.eqb kv.1 k then Some kv.2 else acc) None l.

Class JSON (T : Type) := {
  to_json : T → json;
  of_json : json → option T;
}.

(** [in_range x] says that the integers of [x] fit their Go types. *)
Class JSONOk (T : Type) `{JSON T} := {
  in_range : T → Prop;
  json_roundtrip : ∀ x, in_range x → of_json (to_json x) = Some x;
}.

Definition dec_string (j : option json) : option string :=
  match j with
  | None | Some JNull => Some ""
  | Some (JStr s) => Some s
  | _ => None
  end.

Definition dec_bool (j : option json) : option bool :=
  match j with
  | None | Some JNull => Some false
  | Some (JBool b) => Some b
  | _ => None
  end.

Definition dec_int (j : option json) : option Z :=
  match j with
  | None | Some JNull => Some 0%Z
  | Some (JNum n) => if in_int64 n then Some n else None
  | _ => None
  end.

(** A pointer to a struct: null is nil. *)
Definition dec_ptr {T} `{JSON T} (j : option json) : option (option T) :=
  match j with
  | None | Some JNull => Some None
  | Some j => Some <$> of_json j
  end.

(** A slice of structs: null is nil, which has no elements. *)
Definition dec_slice {T} `{JSON T} (j : option json) : option (list T) :=
  match j with
  | None | Some JNull => Some []
  | Some (JArr l) => mapM of_json l
  | _ => None
  end.

Definition dec_strings (j : option json) : option (list string) :=
  match j with
  | None | Some JNull => Some []
  | Some (JArr l) => mapM (λ j, dec_string (Some j)) l
  | _ => None
  end.

(** A map from strings to structs: null is nil. *)
Definition dec_map {T} `{JSON T} (j : option json) : option (option (gmap string T)) :=
  match j with
  | None | Some JNull => Some None
  | Some (JObj l) =>
    kvs ← mapM (λ kv, v ← of_json kv.2; Some (kv.1, v)) l;
    Some (Some (list_to_map (reverse kvs)))
  | _ => None
  end.

Definition enc_ptr {T} `{JSON T} (p : option T) : json :=
  match p with None => JNull | Some x => to_json x end.

Definition enc_slice {T} `{JSON T} (l : list T) : json := JArr (to_json <$> l).

Definition enc_map {T} `{JSON T} (p : option (gmap string T)) : json :=
  match p with
  | None => JNull
  | Some m => JObj ((λ kv, (kv.1, to_json kv.2)) <$> map_to_list m)
  end.

(** The struct tag [omitempty]. *)
Definition omit_string (k s : string) : list (string * json) :=
  if String.eqb s "" then [] else [(k, JStr s)].
Definition omit_int (k : string) (n : Z) : list (string * json) :=
  if (n =? 0)%Z then [] else [(k, JNum n)].

(** A struct is decoded from its fields; null leaves the zero struct. *)
Definition of_fields {T} (f : list (string * json) → option T) (j : json) : option T :=
  match j with
  | JNull => f []
  | JObj l => f l
  | _ => None
  end.

Section Slices.
Context {T : Type} `{JSONOk T}.

Lemma mapM_roundtrip (l : list T) :
  Forall in_range l → mapM of_json (to_json <$> l) = Some l.
Proof.
  intros Hl. apply mapM_fmap_Forall_Some. eapply Forall_impl; [exact Hl|].
  intros x. apply json_roundtrip.
Qed.

Lemma dec_slice_enc (l : list T) :
  Forall in_range l → dec_slice (Some (enc_slice l)) = Some l.
Proof. apply mapM_roundtrip. Qed.

Lemma dec_map_enc_Some (m : gmap string T) :
  map_Forall (λ _, in_range) m → dec_map (Some (enc_map (Some m))) = Some (Some m).
Proof.
  intros Hm. simpl.
  assert (mapM (λ kv, v ← of_json kv.2; Some (kv.1, v))
            ((λ kv, (kv.1, to_json kv.2)) <$> map_to_list m) = Some (map_to_list m)) as ->.
  { apply mapM_fmap_Forall_Some. rewrite map_Forall_to_list in Hm.
    eapply Forall_impl; [exact Hm|]. intros [k x] Hx. simpl in *.
    by rewrite (json_roundtrip x Hx). }
  simpl. f_equal. f_equal.
  rewrite <-(list_to_map_to_list m) at 2.
  apply list_to_map_proper; [|by rewrite reverse_Permutation].
  rewrite reverse_Permutation. apply NoDup_fst_map_to_list.
Qed.
End Slices.

Lemma dec_int_num n : in_int64 n = true → dec_int (Some (JNum n)) = Some n.
Proof. simpl. by intros ->. Qed.

Create HintDb json discriminated.
#[export] Hint Resolve dec_slice_enc dec_map_enc_Some dec_int_num : json.
