(* ===== verification/Types.v ===== *)
(** * Data model

    The structs and constants of [types/types.go] and [types/schedule.go].  A
    pointer that can be nil is an [option]; a nil map is [None] where the code
    tells it from an empty one.  Widths: [int] and [int64] are [Z] with the
    range as a predicate where it matters. *)

From stdpp Require Import base list gmap strings.
From Stdlib Require Import ZArith Lia.
From S2P Require Import Prelude GoStrings Json.
Local Open Scope string_scope.

(** ** Constants *)

Definition VolumeStateNone : string := "".
Definition VolumeStateCreated : string := "created".
Definition VolumeStateDetached : string := "detached".
Definition VolumeStateFaulted : string := "faulted".
Definition VolumeStateHealthy : string := "healthy".
Definition VolumeStateDegraded : string := "degraded".

Definition ReplicaModeRW : string := "RW".
Definition ReplicaModeWO : string := "WO".
Definition ReplicaModeERR : string := "ERR".

Definition InstanceTypeNone : string := "".
Definition InstanceTypeController : string := "controller".
Definition InstanceTypeReplica : string := "replica".

Definition SnapshotTaskName : string := "snapshot".
Definition BackupTaskName : string := "backup".

Definition ScheduleActionCreateController : string := "create-controller".
Definition ScheduleActionCreateReplica : string := "create-replica".
Definition ScheduleActionDeleteInstance : string := "delete".
Definition ScheduleActionStartInstance : string := "start".
Definition ScheduleActionStopInstance : string := "stop".
Definition SchedulePolicyBindingSoftAntiAffinity : string := "soft.anti-affinity".

(** ** Structs *)

Record SettingsInfo := mkSettings {
  si_BackupTarget : string;
  si_EngineImage : string;
}.

Record InstanceInfo := mkInstance {
  i_ID : string;
  i_Type : string;
  i_Name : string;
  i_HostID : string;
  i_Address : string;
  i_Running : bool;
  i_VolumeName : string;
}.

(** [ControllerInfo] embeds [InstanceInfo] and adds nothing. *)
Record ControllerInfo := mkController { c_Instance : InstanceInfo }.

Record ReplicaInfo := mkReplica {
  r_Instance : InstanceInfo;
  r_Mode : string;
  r_BadTimestamp : string;
}.

Record RecurringJob := mkJob {
  j_Name : string;
  j_Cron : string;
  j_Task : string;
  j_Retain : Z;
}.

Record VolumeInfo := mkVolume {
  v_Name : string;
  v_Size : Z;
  v_BaseImage : string;
  v_FromBackup : string;
  v_NumberOfReplicas : Z;
  v_StaleReplicaTimeout : Z;
  v_Controller : option ControllerInfo;
  v_Replicas : option (gmap string ReplicaInfo);
  v_State : string;
  v_EngineImage : string;
  v_Endpoint : string;
  v_Created : string;
  v_RecurringJobs : list RecurringJob;
}.

Record SnapshotInfo := mkSnapshot {
  sn_Name : string;
  sn_Parent : string;
  sn_Children : list string;
  sn_Removed : bool;
  sn_UserCreated : bool;
  sn_Created : string;
  sn_Size : string;
  sn_Labels : gmap string string;
}.

Record HostInfo := mkHost {
  h_UUID : string;
  h_Name : string;
  h_Address : string;
}.

Record BackupInfo := mkBackup {
  b_Name : string;
  b_URL : string;
  b_SnapshotName : string;
  b_SnapshotCreated : string;
  b_Created : string;
  b_Size : string;
  b_VolumeName : string;
  b_VolumeSize : string;
  b_VolumeCreated : string;
}.

Record BackupVolumeInfo := mkBackupVolume {
  bv_Name : string;
  bv_Size : string;
  bv_Created : string;
}.

Record ScheduleInstance := mkScheduleInstance {
  s_ID : string;
  s_Type : string;
  s_HostID : string;
  s_VolumeName : string;
  s_Name : string;
}.

Record ScheduleSpec := mkScheduleSpec { spec_HostID : string }.

(** The payload [Data] is the JSON of the orchestrator's own struct; [None] is the
    empty byte slice. *)
Record ScheduleData := mkScheduleData {
  sd_Orchestrator : string;
  sd_Data : option json;
}.

Record ScheduleItem := mkScheduleItem {
  it_Action : string;
  it_Instance : ScheduleInstance;
  it_Data : ScheduleData;
}.

Record SchedulePolicy := mkPolicy {
  p_Binding : string;
  p_HostIDMap : gset string;
}.

(** ** Field updates and reads of the code *)

Definition set_Controller (c : option ControllerInfo) (v : VolumeInfo) : VolumeInfo :=
  mkVolume (v_Name v) (v_Size v) (v_BaseImage v) (v_FromBackup v) (v_NumberOfReplicas v)
    (v_StaleReplicaTimeout v) c (v_Replicas v) (v_State v) (v_EngineImage v)
    (v_Endpoint v) (v_Created v) (v_RecurringJobs v).

Definition set_Replicas (r : option (gmap string ReplicaInfo)) (v : VolumeInfo) : VolumeInfo :=
  mkVolume (v_Name v) (v_Size v) (v_BaseImage v) (v_FromBackup v) (v_NumberOfReplicas v)
    (v_StaleReplicaTimeout v) (v_Controller v) r (v_State v) (v_EngineImage v)
    (v_Endpoint v) (v_Created v) (v_RecurringJobs v).

Definition set_State (s : string) (v : VolumeInfo) : VolumeInfo :=
  mkVolume (v_Name v) (v_Size v) (v_BaseImage v) (v_FromBackup v) (v_NumberOfReplicas v)
    (v_StaleReplicaTimeout v) (v_Controller v) (v_Replicas v) s (v_EngineImage v)
    (v_Endpoint v) (v_Created v) (v_RecurringJobs v).

Definition set_Endpoint (s : string) (v : VolumeInfo) : VolumeInfo :=
  mkVolume (v_Name v) (v_Size v) (v_BaseImage v) (v_FromBackup v) (v_NumberOfReplicas v)
    (v_StaleReplicaTimeout v) (v_Controller v) (v_Replicas v) (v_State v) (v_EngineImage v)
    s (v_Created v) (v_RecurringJobs v).

Definition set_EngineImage (s : string) (v : VolumeInfo) : VolumeInfo :=
  mkVolume (v_Name v) (v_Size v) (v_BaseImage v) (v_FromBackup v) (v_NumberOfReplicas v)
    (v_StaleReplicaTimeout v) (v_Controller v) (v_Replicas v) (v_State v) s
    (v_Endpoint v) (v_Created v) (v_RecurringJobs v).

Definition set_Created (s : string) (v : VolumeInfo) : VolumeInfo :=
  mkVolume (v_Name v) (v_Size v) (v_BaseImage v) (v_FromBackup v) (v_NumberOfReplicas v)
    (v_StaleReplicaTimeout v) (v_Controller v) (v_Replicas v) (v_State v) (v_EngineImage v)
    (v_Endpoint v) s (v_RecurringJobs v).

Definition set_Size (n : Z) (v : VolumeInfo) : VolumeInfo :=
  mkVolume (v_Name v) n (v_BaseImage v) (v_FromBackup v) (v_NumberOfReplicas v)
    (v_StaleReplicaTimeout v) (v_Controller v) (v_Replicas v) (v_State v) (v_EngineImage v)
    (v_Endpoint v) (v_Created v) (v_RecurringJobs v).

Definition set_RecurringJobs (js : list RecurringJob) (v : VolumeInfo) : VolumeInfo :=
  mkVolume (v_Name v) (v_Size v) (v_BaseImage v) (v_FromBackup v) (v_NumberOfReplicas v)
    (v_StaleReplicaTimeout v) (v_Controller v) (v_Replicas v) (v_State v) (v_EngineImage v)
    (v_Endpoint v) (v_Created v) js.

Definition set_BadTimestamp (t : string) (r : ReplicaInfo) : ReplicaInfo :=
  mkReplica (r_Instance r) (r_Mode r) t.

Definition set_Instance (i : InstanceInfo) (r : ReplicaInfo) : ReplicaInfo :=
  mkReplica i (r_Mode r) (r_BadTimestamp r).

(** Ranging over, or looking up in, a nil map is ranging over the empty one. *)
Definition replicas_of (v : VolumeInfo) : gmap string ReplicaInfo := default ∅ (v_Replicas v).

Definition r_Name (r : ReplicaInfo) : string := i_Name (r_Instance r).
Definition r_Running (r : ReplicaInfo) : bool := i_Running (r_Instance r).

#[export] Instance SettingsInfo_eq_dec : EqDecision SettingsInfo.
Proof. solve_decision. Defined.
#[export] Instance InstanceInfo_eq_dec : EqDecision InstanceInfo.
Proof. solve_decision. Defined.
#[export] Instance ControllerInfo_eq_dec : EqDecision ControllerInfo.
Proof. solve_decision. Defined.
#[export] Instance ReplicaInfo_eq_dec : EqDecision ReplicaInfo.
Proof. solve_decision. Defined.
#[export] Instance RecurringJob_eq_dec : EqDecision RecurringJob.
Proof. solve_decision. Defined.
#[export] Instance VolumeInfo_eq_dec : EqDecision VolumeInfo.
Proof. solve_decision. Defined.
#[export] Instance HostInfo_eq_dec : EqDecision HostInfo.
Proof. solve_decision. Defined.
#[export] Instance ScheduleInstance_eq_dec : EqDecision ScheduleInstance.
Proof. solve_decision. Defined.

(** The fields of a volume's own record: what is left when its instances are
    stored elsewhere. *)
Definition base_of (v : VolumeInfo) : VolumeInfo := set_Replicas None (set_Controller None v).
