(* ===== verification/Util.v ===== *)
(** * Utilities

    [util/util.go] and [util/time.go]: volume sizes, the names of stacks and
    replicas, time periods, and the polling loops.  The clock, the file system and
    the HTTP client are parameters of the model. *)

From stdpp Require Import base list gmap strings.
From Stdlib Require Import ZArith Lia Ascii.
From S2P Require Import Prelude GoStrings GoTime Json Types.
Local Open Scope string_scope.
Local Open Scope Z_scope.

(** ** Interfaces of the environment *)

(** [time.Now] and [time.Sleep], in nanoseconds. *)
Class Clock (W : Type) := {
  clock_Now : W → Z;
  clock_Sleep : Z → W → W;
}.

(** A sleep lasts at least its argument. *)
Class ClockSpec (W : Type) `{Clock W} := {
  sleep_advances : ∀ d w, clock_Now w + d <= clock_Now (clock_Sleep d w);
}.

(** [http.Get] (the body is closed at once), and [os.Stat]: whether the mode has
    the device bit. *)
Class HostOS (W : Type) := {
  http_Get : string → M W unit;
  os_Stat : string → M W bool;
}.

(** [units.RAMInBytes] of [github.com/docker/go-units]. *)
Class Units := { RAMInBytes : string → outcome Z }.

(** [fmt.Sprintf("%x", md5.Sum(..))]. *)
Class MD5 := { md5_hex : string → string }.
Class MD5Spec `{MD5} := { md5_length : ∀ s, String.length (md5_hex s) = 32%nat }.

Definition now {W} `{Clock W} : M W Z := λ w, (Ok (clock_Now w), w).
Definition sleep {W} `{Clock W} (d : Z) : M W unit := λ w, (Ok tt, clock_Sleep d w).

Definition Millisecond : Z := 1000000.

(** ** Volumes *)

Definition CopyVolumeProperties (volume0 : VolumeInfo) : VolumeInfo :=
  set_State VolumeStateNone (set_Replicas None (set_Controller None volume0)).

(** ** Sizes *)

(** Two's complement wrap-around of [int64]. *)
Definition wrap64 (n : Z) : Z := (n + 2 ^ 63) mod 2 ^ 64 - 2 ^ 63.

Definition RoundUpSize (size : Z) : Z :=
  if size <=? 0 then 4096
  else
    let r := Z.rem size 4096 in
    if r =? 0 then size else wrap64 (wrap64 (size - r) + 4096).

(** The dynamic type of the argument of [ConvertSize]. *)
Inductive size_value : Type :=
| SizeInt64 (n : Z)
| SizeInt (n : Z)
| SizeString (s : string)
| SizeOther.

Definition ConvertSize `{Units} (size : size_value) : outcome Z :=
  match size with
  | SizeInt64 n => Ok n
  | SizeInt n => Ok n
  | SizeString s =>
    if String.eqb s "" then Ok 0
    else wrap_outcome "error parsing size '%s'" (RAMInBytes s)
  | SizeOther => Err (Errorf "could not parse size '%v'")
  end.

(** ** Names *)

Definition VolumeStackPrefix : string := "volume-".
Definition ControllerServiceName : string := "controller".
Definition ReplicaServiceName : string := "replica".

Section Names.
Context `{MD5}.

Definition VolumeStackName (volumeName : string) : string :=
  let nameNoUnderscores := ReplaceAll "_" "-" volumeName in
  let stackName := VolumeStackPrefix +:+ nameNoUnderscores in
  if (63 <? String.length stackName)%nat then
    let hash := md5_hex nameNoUnderscores in
    let leftover := (63 - (String.length VolumeStackPrefix + String.length hash + 1))%nat in
    let partialName := stake leftover nameNoUnderscores in
    VolumeStackPrefix +:+ partialName +:+ "-" +:+ hash
  else stackName.

Definition ControllerAddress (volumeName : string) : string :=
  ControllerServiceName +:+ "." +:+ VolumeStackName volumeName +:+ ".rancher.internal".

Definition ReplicaAddress (name volumeName : string) : string := name +:+ ".rancher.internal".

Definition ReplicaName (address volumeName : string) : string :=
  let s := TrimSuffix (TrimPrefix address "tcp://") ":9502" in
  let s := TrimSuffix s ".rancher.internal" in
  TrimSuffix s ("." +:+ VolumeStackName volumeName).
End Names.

(** ** Polling *)

Section Polling.
Context {W : Type} `{Clock W} `{HostOS W}.

(** The loop of [Backoff]; [None] when the fuel runs out. *)
Fixpoint Backoff_loop (fuel : nat) (startTime maxDuration waitTime : Z) (timeoutMessage : string)
    (f : M W bool) : M W (option unit) :=
  match fuel with
  | O => mret None
  | S fuel' =>
    t ← now;
    if maxDuration <? t - startTime then fail (Errorf timeoutMessage)
    else
      done ← f;
      if done : bool then mret (Some tt)
      else
        sleep waitTime;;
        let waitTime := waitTime * 2 in
        let waitTime := if 2 * Second <? waitTime then 2 * Second else waitTime in
        Backoff_loop fuel' startTime maxDuration waitTime timeoutMessage f
  end.

Definition Backoff (fuel : nat) (maxDuration : Z) (timeoutMessage : string) (f : M W bool)
    : M W (option unit) :=
  startTime ← now;
  Backoff_loop fuel startTime maxDuration (150 * Millisecond) timeoutMessage f.

Fixpoint WaitForDevice_loop (n : nat) (dev : string) : M W unit :=
  match n with
  | O => fail (Errorf "timeout waiting for %v")
  | S n' =>
    st ← attempt (os_Stat dev);
    match st with
    | inl is_device =>
      if is_device : bool then mret tt else fail (Errorf "Invalid mode for %v: 0x%x")
    | inr _ => sleep (1 * Second);; WaitForDevice_loop n' dev
    end
  end.

Definition WaitForDevice (dev : string) (timeout : Z) : M W unit :=
  WaitForDevice_loop (Z.to_nat timeout) dev.

Fixpoint WaitForAPI_loop (n : nat) (url : string) : M W unit :=
  match n with
  | O => fail (Errorf "timeout waiting for %v")
  | S n' =>
    resp ← attempt (http_Get url);
    match resp with
    | inl _ => mret tt
    | inr _ => sleep (1 * Second);; WaitForAPI_loop n' url
    end
  end.

Definition WaitForAPI (url : string) (timeout : Z) : M W unit :=
  WaitForAPI_loop (Z.to_nat timeout) url.

Definition Now : M W string := t ← now; mret (FormatTimeZ t).
End Polling.

(** ** Time periods *)

(** A time zone turns wall-clock seconds into an instant. *)
Definition Location : Type := Z → Z.
Definition UTC : Location := λ s, s * nanos.

(** [time.ParseInLocation("2006-01-02T15:04:05", s, loc)]. *)
Definition ParseInLocation (s : string) (loc : Location) : option Z :=
  '(y1, s) ← num2 s; '(y2, s) ← num2 s; s ← expect "-" s;
  '(mo, s) ← num2 s; s ← expect "-" s;
  '(d, s) ← num2 s; s ← expect "T" s;
  '(h, s) ← num_hour s; s ← expect ":" s;
  '(mi, s) ← num2 s; s ← expect ":" s;
  '(se, s) ← num2 s;
  '(ns, s) ← parse_frac s;
  match s with
  | EmptyString =>
    let y := y1 * 100 + y2 in
    if in_day mo d h mi se y then
      Some (loc (days_from_civil y mo d * 86400 + h * 3600 + mi * 60 + se) + ns)
    else None
  | _ => None
  end.

(** The second attempt is made when only the zone is missing; on any other text it
    fails as the first one did. *)
Definition ParseLocalTime (ts : string) (loc : Location) : outcome Z :=
  match Parse ts with
  | Some t => Ok t
  | None => match ParseInLocation ts loc with
            | Some t => Ok t
            | None => Err (ExtErr "parsing time")
            end
  end.

(** The zero [time.Time]: January 1st of the year 1. *)
Definition zero_time : Z := -62135596800 * nanos.

Definition FromMillis (t : Z) : Z := Z.quot t 1000 * nanos + Z.rem t 1000 * 1000000.

Definition LimitToPeriod (p t : Z * Z) : Z * Z :=
  let t0 := if (t.1 <? p.1) || (t.1 =? zero_time) then p.1 else t.1 in
  let t1 := if (p.2 <? t.2) || (t.2 =? zero_time) then p.2 else t.2 in
  (t0, t1).

Definition ParsePeriod {W} `{Clock W} (s : string) (loc : Location) : M W (Z * Z) :=
  if String.eqb s "" then n ← now; mret (0, n)
  else
    match Split "/" s with
    | [_] => t0 ← lift (ParseLocalTime s loc); n ← now; mret (t0, n)
    | [a; b] =>
      t0 ← lift (ParseLocalTime a loc);
      if HasPrefix b "P" then fail (Errorf "Error parsing time interval '%s'")
      else t1 ← lift (ParseLocalTime b loc); mret (t0, t1)
    | _ => fail (Errorf "Error parsing time interval '%s'")
    end.

(** ** The addresses of the host *)

(** [net.IP], 4 or 16 bytes, and the methods of it that are used. *)
Definition IP : Type := list Z.

Definition To4 (ip : IP) : option IP :=
  if decide (length ip = 4%nat) then Some ip
  else if decide (length ip = 16%nat ∧ take 12 ip = (replicate 10 0 ++ [255; 255])%list) then Some (drop 12 ip)
  else None.

Definition IsLoopback (ip : IP) : bool :=
  match To4 ip with
  | Some ip4 => bool_decide (head ip4 = Some 127)
  | None => bool_decide (ip = (replicate 15 0 ++ [1])%list)
  end.

(** [IP.String] of an address that is a version 4 one. *)
Definition dotted (ip4 : IP) : string := SJoin "." (FormatInt <$> ip4).

(** [net.Addr]: a [*net.IPNet] or something else. *)
Inductive Addr : Type :=
| IPNet (ip : IP)
| OtherAddr.

(** The network interfaces of the host. *)
Class NetInterfaces (W : Type) := { net_InterfaceAddrs : M W (list Addr) }.

Definition local_ip (addr : Addr) : list string :=
  match addr with
  | IPNet ip =>
    if negb (IsLoopback ip) then
      match To4 ip with Some ip4 => [dotted ip4] | None => [] end
    else []
  | OtherAddr => []
  end.

Definition GetLocalIPs {W} `{NetInterfaces W} : M W (list string) :=
  addrs ← net_InterfaceAddrs;
  mret (foldl (λ results addr, (results ++ local_ip addr)%list) [] addrs).

(** ** Lemmas on strings *)

Lemma sdrop_app s t : sdrop (String.length s) (s +:+ t) = t.
Proof. induction s as [|a s IH]; simpl; [by destruct t|done]. Qed.

Lemma stake_app s t : stake (String.length s) (s +:+ t) = s.
Proof. induction s as [|a s IH]; simpl; [done|by rewrite IH]. Qed.

Lemma HasPrefix_app s t : HasPrefix (s +:+ t) s = true.
Proof. induction s as [|a s IH]; simpl; [done|]. by destruct (ascii_dec a a). Qed.

Lemma slength_app s t : String.length (s +:+ t) = (String.length s + String.length t)%nat.
Proof. induction s as [|a s IH]; simpl; [done|by rewrite IH]. Qed.

Lemma TrimPrefix_app s t : TrimPrefix (s +:+ t) s = t.
Proof. unfold TrimPrefix. by rewrite HasPrefix_app, sdrop_app. Qed.

Lemma TrimSuffix_app s t : TrimSuffix (s +:+ t) t = s.
Proof.
  unfold TrimSuffix, HasSuffix. rewrite slength_app.
  replace (String.length s + String.length t - String.length t)%nat with (String.length s) by lia.
  rewrite sdrop_app, String.eqb_refl, stake_app.
  by destruct (Nat.leb_spec (String.length t) (String.length s + String.length t)); [|lia].
Qed.

Lemma ReplaceAll_length a b s : String.length (ReplaceAll a b s) = String.length s.
Proof. induction s as [|c s IH]; simpl; [done|]. by rewrite IH. Qed.

Lemma stake_length n s : (String.length (stake n s) <= n)%nat.
Proof. revert s. induction n as [|n IH]; intros [|a s]; simpl; try lia. specialize (IH s). lia. Qed.

Lemma wrap64_id n : in_int64 n = true → wrap64 n = n.
Proof.
  unfold in_int64, int64_min, int64_max, wrap64.
  rewrite andb_true_iff, !Z.leb_le. intros Hn. rewrite Z.mod_small; lia.
Qed.

(** ** Properties *)

(** C40: for every [int64] the size of a volume is rounded up to the least positive
    multiple of 4096 that is not below it, except for the 4095 largest ones, where
    the addition overflows and the result is the least [int64]. *)
Theorem round_up_size_exact size :
  in_int64 size = true →
  (size <= int64_max - 4095 → let n := RoundUpSize size in
     0 < n /\ (4096 | n) /\ size <= n /\ ∀ m, 0 < m → (4096 | m) → size <= m → n <= m) /\
  (int64_max - 4095 < size → RoundUpSize size = int64_min).
Proof.
  intros Hin. pose proof Hin as Hb. unfold in_int64 in Hb.
  rewrite andb_true_iff, !Z.leb_le in Hb.
  unfold RoundUpSize. destruct (Z.leb_spec size 0) as [Hs|Hs].
  { split; [|unfold int64_max in *; lia]. intros _. split_and!; [done|by exists 1|lia|].
    intros m Hm [k ->] _. lia. }
  pose proof (Z.rem_bound_pos size 4096 ltac:(lia) ltac:(lia)) as Hr.
  pose proof (Z.quot_rem size 4096 ltac:(lia)) as Hq.
  set (r := Z.rem size 4096) in *. set (q := Z.quot size 4096) in *. clearbody r q.
  destruct (Z.eqb_spec r 0) as [->|Hr0].
  { split; [|unfold int64_max in *; lia].
    intros _. split_and!; [lia|exists q; lia|lia|auto]. }
  rewrite (wrap64_id (size - r)) by (unfold in_int64, int64_min, int64_max in *; rewrite andb_true_iff, !Z.leb_le; lia).
  split.
  - intros Hle. rewrite wrap64_id
      by (unfold in_int64, int64_max, int64_min in *; rewrite andb_true_iff, !Z.leb_le; lia).
    split_and!; [lia|exists (q + 1); lia|lia|]. intros m Hm [k ->] Hsm. nia.
  - intros Hgt. unfold int64_max, int64_min in *.
    replace (size - r + 4096) with (2 ^ 63) by lia. reflexivity.
Qed.

(** The name of a volume's stack is a valid DNS label: it has at most 63
    bytes, whatever the length of the volume's name. *)
Theorem volume_stack_name_length `{MD5Spec} volumeName :
  (String.length (VolumeStackName volumeName) <= 63)%nat.
Proof.
  unfold VolumeStackName. destruct (Nat.ltb_spec 63 (String.length (VolumeStackPrefix +:+ ReplaceAll "_" "-" volumeName)));
    [|done].
  rewrite !slength_app, md5_length.
  change (63 - (String.length VolumeStackPrefix + 32 + 1))%nat with 23%nat.
  change (String.length VolumeStackPrefix) with 7%nat. change (String.length "-") with 1%nat.
  pose proof (stake_length 23 (ReplaceAll "_" "-" volumeName)). lia.
Qed.

(** The name of a replica is recovered from the address its controller reports
    for it, unless the name itself ends in the suffix of the volume's stack. *)
Theorem replica_name_of_address `{MD5} name volumeName :
  HasSuffix name ("." +:+ VolumeStackName volumeName) = false →
  ReplicaName ("tcp://" +:+ ReplicaAddress name volumeName +:+ ":9502") volumeName = name.
Proof.
  intros Hs. unfold ReplicaName, ReplicaAddress.
  rewrite TrimPrefix_app, TrimSuffix_app, TrimSuffix_app. unfold TrimSuffix. by rewrite Hs.
Qed.

(** A time stamp written by [FormatTimeZ] (and so by [Now]) in the years 0 to
    9999 is read back by [ParseTime], to the second. *)
Theorem time_stamp_roundtrip t :
  0 <= year_of t <= 9999 → ParseTime (FormatTimeZ t) = Some (t / nanos * nanos).
Proof. apply Parse_Format. Qed.

(** What is found is exactly the version 4 addresses outside of 127.0.0.0/8, in order,
    whether they come in four bytes or in sixteen. *)
Lemma local_ip_v4 a b c d :
  a ≠ 127 → let s := dotted [a; b; c; d] in
  local_ip (IPNet [a; b; c; d]) = [s] ∧
  local_ip (IPNet (replicate 10 0 ++ [255; 255; a; b; c; d])%list) = [s].
Proof.
  intros Ha s. assert (H4 : To4 [a; b; c; d] = Some [a; b; c; d]) by done.
  assert (H16 : To4 (replicate 10 0 ++ [255; 255; a; b; c; d])%list = Some [a; b; c; d]) by done.
  unfold local_ip, IsLoopback. rewrite H4, H16, bool_decide_eq_false_2; [done|]. by intros [= ->].
Qed.

Lemma local_ips_in_order addrs :
  foldl (λ results addr, (results ++ local_ip addr)%list) [] addrs = addrs ≫= local_ip.
Proof.
  cut (∀ acc, foldl (λ results addr, (results ++ local_ip addr)%list) acc addrs = (acc ++ (addrs ≫= local_ip))%list).
  { intros Hc. by rewrite Hc. }
  induction addrs as [|a l IH]; intros acc; cbn; [by rewrite app_nil_r|]. by rewrite IH, <-app_assoc.
Qed.

Section PollingLemmas.
Context {W : Type} `{ClockSpec W} `{HostOS W}.

Lemma backoff_loop_ends fuel start maxd wait msg (f : M W bool) w :
  (∀ w, wp f w (λ _ w', clock_Now w <= clock_Now w')) →
  150 * Millisecond <= wait → (1 <= fuel)%nat →
  maxd - (clock_Now w - start) < (Z.of_nat fuel - 1) * (150 * Millisecond) →
  (Backoff_loop fuel start maxd wait msg f w).1 ≠ Ok None.
Proof.
  intros Hf. revert wait w. induction fuel as [|fuel IH]; intros wait w Hw Hfuel Hm; [lia|].
  cbn [Backoff_loop]. unfold mbind at 1, M_bind at 1, now at 1. simpl.
  destruct (Z.ltb_spec maxd (clock_Now w - start)) as [|Hle]; [done|].
  unfold mbind at 1, M_bind at 1. specialize (Hf w) as Hfw. unfold wp in Hfw.
  destruct (f w) as [[[|]|e|s] w1]; simpl in *; try done.
  unfold mbind, M_bind, sleep. pose proof (sleep_advances wait w1) as Hadv.
  unfold Millisecond, Second, nanos in *.
  apply IH; [|lia..]. destruct (Z.ltb_spec (2 * 1000000000) (wait * 2)); lia.
Qed.

(** A [Backoff] ends: when the polled function does not turn the clock back,
    [maxDuration / 150ms + 2] iterations are enough, whatever it answers. *)
Theorem backoff_terminates fuel maxd msg (f : M W bool) w :
  (∀ w, wp f w (λ _ w', clock_Now w <= clock_Now w')) →
  maxd < (Z.of_nat fuel - 1) * (150 * Millisecond) → 0 <= maxd →
  (Backoff fuel maxd msg f w).1 ≠ Ok None.
Proof.
  intros Hf Hfuel Hpos. unfold Backoff, mbind, M_bind, now.
  unfold Millisecond in *. apply backoff_loop_ends; [done|done|lia|unfold Millisecond; lia].
Qed.
End PollingLemmas.

(** ** The properties at concrete inputs *)
Module UtilDemo.
Lemma round_up_size_exact_witness : RoundUpSize 6419 = 8192 /\ RoundUpSize int64_max = int64_min.
Proof.
  split; [reflexivity|].
  apply (proj2 (round_up_size_exact int64_max eq_refl)). reflexivity.
Defined.

Definition md5 : MD5 := {| md5_hex _ := "d41d8cd98f00b204e9800998ecf8427e" |}.
Definition md5_spec : @MD5Spec md5.
Proof. split. reflexivity. Defined.

Lemma volume_stack_name_length_witness :
  (String.length (@VolumeStackName md5 "vol_1") <= 63)%nat.
Proof. exact (@volume_stack_name_length md5 md5_spec "vol_1"). Defined.

Lemma replica_name_of_address_witness :
  @ReplicaName md5 "tcp://replica-XX.rancher.internal:9502" "tt" = "replica-XX".
Proof. exact (@replica_name_of_address md5 "replica-XX" "tt" eq_refl). Defined.

Lemma time_stamp_roundtrip_witness :
  ParseTime (FormatTimeZ (1490408820 * nanos)) = Some (1490408820 * nanos).
Proof. apply (time_stamp_roundtrip (1490408820 * nanos)). vm_compute. split; discriminate. Defined.

(** A clock that only sleeping moves. *)
#[local] Instance clock : Clock Z := {| clock_Now w := w; clock_Sleep d w := w + d |}.
#[local] Instance clock_spec : ClockSpec Z.
Proof. split. intros. simpl. lia. Defined.

Lemma backoff_terminates_witness :
  (Backoff 8 Second "timeout" (mret false) 0).1 ≠ Ok None.
Proof.
  apply (backoff_terminates 8 Second "timeout" (mret false) 0); [|reflexivity|discriminate].
  intros w. apply wp_ret. simpl. lia.
Defined.

Example stack_ex : @VolumeStackName md5 "my_vol" = "volume-my-vol".
Proof. reflexivity. Qed.
Example local_ips_ex :
  (GetLocalIPs (W := unit) (H := {| net_InterfaceAddrs := mret
     [IPNet [127; 0; 0; 1]; OtherAddr; IPNet [10; 0; 0; 5]; IPNet (replicate 15 0 ++ [1])%list] |}) tt).1 =
  Ok ["10.0.0.5"].
Proof. reflexivity. Qed.
Example period_ex :
  (ParsePeriod "2007-03-01T13:00:00/2008-05-11T15:30:00" UTC 0).1 =
  Ok (1172754000 * nanos, 1210519800 * nanos).
Proof. reflexivity. Qed.
Example local_ex :
  ParseLocalTime "2016-07-19T01:21:09" (λ s, (s - 18000) * nanos) =
  ParseLocalTime "2016-07-19T01:21:09+05:00" UTC.
Proof. reflexivity. Qed.
End UtilDemo.
