(* ===== verification/Codec.v ===== *)
(** * The JSON of the stored structs

    The documents that [json.Marshal] writes for the structs of [types/], field
    names and struct tags included, their decoding, and the round trips. *)

From stdpp Require Import base list gmap strings.
From Stdlib Require Import ZArith Lia.
From S2P Require Import Prelude GoStrings Json Types.
Local Open Scope string_scope.

(** ** Encoders and decoders *)

Definition instance_fields (i : InstanceInfo) : list (string * json) :=
  [("ID", JStr (i_ID i)); ("Type", JStr (i_Type i)); ("Name", JStr (i_Name i));
   ("HostID", JStr (i_HostID i)); ("Address", JStr (i_Address i));
   ("Running", JBool (i_Running i)); ("VolumeName", JStr (i_VolumeName i))].

Definition dec_instance (l : list (string * json)) : option InstanceInfo :=
  id ← dec_string (obj_get "ID" l);
  ty ← dec_string (obj_get "Type" l);
  nm ← dec_string (obj_get "Name" l);
  ho ← dec_string (obj_get "HostID" l);
  ad ← dec_string (obj_get "Address" l);
  ru ← dec_bool (obj_get "Running" l);
  vo ← dec_string (obj_get "VolumeName" l);
  Some (mkInstance id ty nm ho ad ru vo).

#[export] Instance InstanceInfo_json : JSON InstanceInfo := {
  to_json i := JObj (instance_fields i);
  of_json := of_fields dec_instance;
}.

(** The fields of the embedded struct are promoted. *)
#[export] Instance ControllerInfo_json : JSON ControllerInfo := {
  to_json c := JObj (instance_fields (c_Instance c));
  of_json := of_fields (λ l, mkController <$> dec_instance l);
}.

#[export] Instance ReplicaInfo_json : JSON ReplicaInfo := {
  to_json r := JObj (instance_fields (r_Instance r) ++
                     [("Mode", JStr (r_Mode r)); ("BadTimestamp", JStr (r_BadTimestamp r))]);
  of_json := of_fields (λ l,
    i ← dec_instance l;
    m ← dec_string (obj_get "Mode" l);
    b ← dec_string (obj_get "BadTimestamp" l);
    Some (mkReplica i m b));
}.

#[export] Instance RecurringJob_json : JSON RecurringJob := {
  to_json j := JObj (omit_string "name" (j_Name j) ++ omit_string "cron" (j_Cron j) ++
                     omit_string "task" (j_Task j) ++ omit_int "retain" (j_Retain j));
  of_json := of_fields (λ l,
    n ← dec_string (obj_get "name" l);
    c ← dec_string (obj_get "cron" l);
    t ← dec_string (obj_get "task" l);
    r ← dec_int (obj_get "retain" l);
    Some (mkJob n c t r));
}.

Definition volume_fields (v : VolumeInfo) : list (string * json) :=
  [("Name", JStr (v_Name v)); ("Size", JNum (v_Size v)); ("BaseImage", JStr (v_BaseImage v));
   ("FromBackup", JStr (v_FromBackup v)); ("NumberOfReplicas", JNum (v_NumberOfReplicas v));
   ("StaleReplicaTimeout", JNum (v_StaleReplicaTimeout v));
   ("Controller", enc_ptr (v_Controller v)); ("Replicas", enc_map (v_Replicas v));
   ("State", JStr (v_State v)); ("EngineImage", JStr (v_EngineImage v));
   ("Endpoint", JStr (v_Endpoint v)); ("Created", JStr (v_Created v));
   ("RecurringJobs", enc_slice (v_RecurringJobs v))].

Definition dec_volume (l : list (string * json)) : option VolumeInfo :=
  nm ← dec_string (obj_get "Name" l);
  sz ← dec_int (obj_get "Size" l);
  bi ← dec_string (obj_get "BaseImage" l);
  fb ← dec_string (obj_get "FromBackup" l);
  nr ← dec_int (obj_get "NumberOfReplicas" l);
  sr ← dec_int (obj_get "StaleReplicaTimeout" l);
  ct ← dec_ptr (obj_get "Controller" l);
  rs ← dec_map (obj_get "Replicas" l);
  st ← dec_string (obj_get "State" l);
  ei ← dec_string (obj_get "EngineImage" l);
  ep ← dec_string (obj_get "Endpoint" l);
  cr ← dec_string (obj_get "Created" l);
  rj ← dec_slice (obj_get "RecurringJobs" l);
  Some (mkVolume nm sz bi fb nr sr ct rs st ei ep cr rj).

#[export] Instance VolumeInfo_json : JSON VolumeInfo := {
  to_json v := JObj (volume_fields v);
  of_json := of_fields dec_volume;
}.

#[export] Instance HostInfo_json : JSON HostInfo := {
  to_json h := JObj [("uuid", JStr (h_UUID h)); ("name", JStr (h_Name h));
                     ("address", JStr (h_Address h))];
  of_json := of_fields (λ l,
    u ← dec_string (obj_get "uuid" l);
    n ← dec_string (obj_get "name" l);
    a ← dec_string (obj_get "address" l);
    Some (mkHost u n a));
}.

#[export] Instance SettingsInfo_json : JSON SettingsInfo := {
  to_json s := JObj [("backupTarget", JStr (si_BackupTarget s));
                     ("engineImage", JStr (si_EngineImage s))];
  of_json := of_fields (λ l,
    b ← dec_string (obj_get "backupTarget" l);
    e ← dec_string (obj_get "engineImage" l);
    Some (mkSettings b e));
}.

(** ** Ranges and round trips *)

Definition job_in_range (j : RecurringJob) : Prop := in_int64 (j_Retain j) = true.

Definition volume_in_range (v : VolumeInfo) : Prop :=
  in_int64 (v_Size v) = true ∧ in_int64 (v_NumberOfReplicas v) = true ∧
  in_int64 (v_StaleReplicaTimeout v) = true ∧ Forall job_in_range (v_RecurringJobs v).

Lemma instance_roundtrip i : dec_instance (instance_fields i) = Some i.
Proof. by destruct i. Qed.

#[export, refine] Instance InstanceInfo_json_ok : JSONOk InstanceInfo := {
  in_range _ := True;
}.
Proof. intros i _. apply instance_roundtrip. Defined.

#[export, refine] Instance ControllerInfo_json_ok : JSONOk ControllerInfo := {
  in_range _ := True;
}.
Proof. by intros [[]] _. Defined.

#[export, refine] Instance ReplicaInfo_json_ok : JSONOk ReplicaInfo := {
  in_range _ := True;
}.
Proof. by intros [[] ??] _. Defined.

#[export, refine] Instance HostInfo_json_ok : JSONOk HostInfo := { in_range _ := True }.
Proof. by intros [] _. Defined.

#[export, refine] Instance SettingsInfo_json_ok : JSONOk SettingsInfo := {
  in_range _ := True;
}.
Proof. by intros [] _. Defined.

Lemma job_roundtrip j : job_in_range j → of_json (to_json j) = Some j.
Proof.
  destruct j as [n c t r]. unfold job_in_range. cbn [j_Retain]. intros Hr.
  unfold to_json, of_json, RecurringJob_json. cbn [j_Name j_Cron j_Task j_Retain].
  unfold omit_string, omit_int.
  destruct (String.eqb_spec n "") as [->|], (String.eqb_spec c "") as [->|],
    (String.eqb_spec t "") as [->|], (Z.eqb_spec r 0) as [->|];
    cbn -[in_int64]; rewrite ?Hr; done.
Qed.

#[export, refine] Instance RecurringJob_json_ok : JSONOk RecurringJob := {
  in_range := job_in_range;
}.
Proof. apply job_roundtrip. Defined.

Lemma volume_roundtrip v : volume_in_range v → of_json (to_json v) = Some v.
Proof.
  intros (Hs & Hn & Ht & Hj). unfold to_json, of_json, VolumeInfo_json, of_fields, dec_volume.
  destruct v as [nm sz bi fb nr sr ct rs st ei ep cr rj]. simpl in Hs, Hn, Ht, Hj.
  unfold volume_fields.
  cbn [v_Name v_Size v_BaseImage v_FromBackup v_NumberOfReplicas v_StaleReplicaTimeout
    v_Controller v_Replicas v_State v_EngineImage v_Endpoint v_Created v_RecurringJobs].
  cbn -[in_int64 enc_ptr enc_map enc_slice dec_ptr dec_map dec_slice dec_int].
  rewrite !dec_int_num by done. cbn -[enc_ptr enc_map enc_slice dec_ptr dec_map dec_slice].
  assert (dec_ptr (Some (enc_ptr ct)) = Some ct) as ->.
  { destruct ct as [[[]]|]; done. }
  assert (dec_map (Some (enc_map rs)) = Some rs) as ->.
  { destruct rs as [m|]; [|done]. apply dec_map_enc_Some. by intros ???. }
  cbn -[enc_slice dec_slice].
  rewrite (dec_slice_enc rj) by done. done.
Qed.

#[export, refine] Instance VolumeInfo_json_ok : JSONOk VolumeInfo := {
  in_range := volume_in_range;
}.
Proof. apply volume_roundtrip. Defined.
