(* ===== verification/Backend.v ===== *)
(** * Store backends

    The interface [kvstore.Backend] and what it promises ([BackendSpec]), and the
    etcd backend of [kvstore/etcd.go] over the client's [KeysAPI], which is an
    external service and so a parameter. *)

From stdpp Require Import base list gmap strings.
From Stdlib Require Import ZArith Lia Ascii.
From S2P Require Import Prelude GoStrings Json.
Local Open Scope string_scope.

(** ** The interface *)

Class Backend (W : Type) := {
  b_set : string → json → M W unit;
  b_get : string → M W json;
  b_delete : string → M W unit;
  b_keys : string → M W (list string);
  is_not_found : error → bool;
}.

(** [Get(key, &obj)] decodes into the type of [obj]. *)
Definition unmarshal {W T} (d : json → option T) (j : json) : M W T :=
  match d j with
  | Some x => mret x
  | None => fail (Wrapf (ExtErr "json: cannot unmarshal") "fail to unmarshal json")
  end.

Definition b_get_as {W T} `{Backend W} (d : json → option T) (k : string) : M W T :=
  j ← b_get k; unmarshal d j.

(** [k] is an immediate child of [p]. *)
Definition is_child (p k : string) : Prop := ∃ c, Split "/" k = (Split "/" p ++ [c])%list.

(** No document is stored strictly above [k]. *)
Definition no_file_above (m : gmap string json) (k : string) : Prop :=
  ∀ f, is_Some (m !! f) → under f k → f = k.

Definition delete_tree (k : string) (m : gmap string json) : gmap string json :=
  filter (λ kv, ¬ under k kv.1) m.

(** What a backend promises.  [view] is the tree of documents, [is_dir] its inner
    nodes (a directory may stay when its last entry goes); [healthy] says that the
    service answers.  A write that fails may or may not have happened. *)
Class BackendSpec (W : Type) `{Backend W} := {
  view : W → gmap string json;
  is_dir : W → string → Prop;
  healthy : W → Prop;
  not_found_wrapped : ∀ e fmt, is_not_found (Wrapf e fmt) = false;
  get_spec : ∀ k w, wp (b_get k) w (λ o w',
    view w' = view w ∧ (healthy w → healthy w') ∧ (∀ d, is_dir w' d → is_dir w d) ∧
    match o with
    | Ok j => view w !! k = Some j
    | Err e => is_not_found e = true → view w !! k = None
    | Panic _ => False
    end);
  get_healthy : ∀ k w, healthy w → ¬ is_dir w k →
    match view w !! k with
    | Some j => (b_get k w).1 = Ok j
    | None => ∃ e, (b_get k w).1 = Err e ∧ is_not_found e = true
    end;
  set_spec : ∀ k j w, wp (b_set k j) w (λ o w',
    (healthy w → healthy w') ∧
    (∀ d, is_dir w' d → is_dir w d ∨ (under d k ∧ d ≠ k)) ∧
    match o with
    | Ok _ => view w' = <[k:=j]> (view w)
    | Err _ => view w' = view w ∨ view w' = <[k:=j]> (view w)
    | Panic _ => False
    end);
  set_healthy : ∀ k j w, healthy w → ¬ is_dir w k → no_file_above (view w) k →
    (b_set k j w).1 = Ok tt;
  delete_spec : ∀ k w, wp (b_delete k) w (λ o w',
    (healthy w → healthy w') ∧ (∀ d, is_dir w' d → is_dir w d) ∧
    match o with
    | Ok _ => view w' = delete_tree k (view w)
    | Err _ => view w' = view w ∨ view w' = delete_tree k (view w)
    | Panic _ => False
    end);
  delete_healthy : ∀ k w, healthy w → (b_delete k w).1 = Ok tt;
  keys_spec : ∀ p w, wp (b_keys p) w (λ o w',
    view w' = view w ∧ (healthy w → healthy w') ∧ (∀ d, is_dir w' d → is_dir w d) ∧
    match o with
    | Ok l => NoDup l ∧
              Forall (λ k, is_child p k ∧ (is_dir w k ∨ is_Some (view w !! k))) l ∧
              ∀ f, is_Some (view w !! f) → under p f → f ≠ p → ∃ k, k ∈ l ∧ under k f
    | Err _ => True
    | Panic _ => False
    end);
  keys_healthy : ∀ p w, healthy w → view w !! p = None → ∃ l, (b_keys p w).1 = Ok l;
}.

(** ** The etcd backend *)

(** A node of the etcd tree as the client returns it. *)
Record Node := mkNode {
  n_Key : string;
  n_Dir : bool;
  n_Value : json;
  n_Nodes : list string;   (* the keys of the child nodes *)
}.

(** [eCli.KeysAPI], the calls the backend makes. *)
Class KeysAPI (W : Type) := {
  kapi_Set : string → json → M W unit;
  kapi_Get : string → M W Node;
  kapi_Delete : string → M W unit;   (* with Recursive: true *)
}.

(** [eCli.IsKeyNotFound]: the error code of the client's error. *)
Definition IsKeyNotFound (e : error) : bool :=
  match e with KeyNotFound => true | _ => false end.

Section ETCD.
Context {W : Type} `{KeysAPI W}.

Definition etcd_Set (key : string) (value : json) : M W unit := kapi_Set key value.

Definition etcd_Get (key : string) : M W json :=
  node ← kapi_Get key;
  if n_Dir node then fail (Errorf "invalid node %v is a directory")
  else mret (n_Value node).

Definition etcd_Keys (prefix : string) : M W (list string) :=
  r ← attempt (kapi_Get prefix);
  match r with
  | inr e => if IsKeyNotFound e then mret [] else fail e
  | inl node =>
    if negb (n_Dir node) then fail (Errorf "invalid node %v is not a directory")
    else mret (n_Nodes node)
  end.

Definition etcd_Delete (key : string) : M W unit :=
  r ← attempt (kapi_Delete key);
  match r with
  | inr e => if IsKeyNotFound e then mret tt else fail e
  | inl _ => mret tt
  end.

#[export] Instance etcd_backend : Backend W := {
  b_set := etcd_Set;
  b_get := etcd_Get;
  b_delete := etcd_Delete;
  b_keys := etcd_Keys;
  is_not_found := IsKeyNotFound;
}.
End ETCD.

(** The documented behaviour of the etcd v2 keys API: files and directories form
    a tree, writing a file creates the directories above it, a directory lists its
    children, a recursive delete removes the subtree, and the error code 100 says
    that there is no such node. *)
Class KeysAPISpec (W : Type) `{KeysAPI W} := {
  tree : W → gmap string json;
  dirs : W → string → Prop;
  online : W → Prop;
  kapi_get_spec : ∀ k w, wp (kapi_Get k) w (λ o w',
    tree w' = tree w ∧ (online w → online w') ∧ (∀ d, dirs w' d → dirs w d) ∧
    match o with
    | Ok n => if n_Dir n then
                dirs w k ∧ NoDup (n_Nodes n) ∧
                Forall (λ c, is_child k c ∧ (dirs w c ∨ is_Some (tree w !! c))) (n_Nodes n) ∧
                ∀ f, is_Some (tree w !! f) → under k f → f ≠ k →
                     ∃ c, c ∈ n_Nodes n ∧ under c f
              else tree w !! k = Some (n_Value n)
    | Err e => (online w → IsKeyNotFound e = true) ∧
               (IsKeyNotFound e = true → tree w !! k = None ∧
                  ∀ f, is_Some (tree w !! f) → under k f → f = k)
    | Panic _ => False
    end);
  kapi_set_spec : ∀ k j w, wp (kapi_Set k j) w (λ o w',
    (online w → online w') ∧ (∀ d, dirs w' d → dirs w d ∨ (under d k ∧ d ≠ k)) ∧
    match o with
    | Ok _ => tree w' = <[k:=j]> (tree w)
    | Err _ => (tree w' = tree w ∨ tree w' = <[k:=j]> (tree w)) ∧
               (online w → dirs w k ∨ ¬ no_file_above (tree w) k)
    | Panic _ => False
    end);
  kapi_delete_spec : ∀ k w, wp (kapi_Delete k) w (λ o w',
    (online w → online w') ∧ (∀ d, dirs w' d → dirs w d) ∧
    match o with
    | Ok _ => tree w' = delete_tree k (tree w)
    | Err e => (online w → IsKeyNotFound e = true) ∧
               (tree w' = tree w ∨ tree w' = delete_tree k (tree w)) ∧
               (IsKeyNotFound e = true → tree w' = delete_tree k (tree w))
    | Panic _ => False
    end);
}.

(** The etcd backend keeps the promise of the interface. *)
Section ETCDSpec.
Context {W : Type} `{KeysAPISpec W}.

Lemma etcd_get_spec k w : wp (etcd_Get k) w (λ o w',
  tree w' = tree w ∧ (online w → online w') ∧ (∀ d, dirs w' d → dirs w d) ∧
  match o with
  | Ok j => tree w !! k = Some j
  | Err e => (IsKeyNotFound e = true → tree w !! k = None) ∧
             (online w → IsKeyNotFound e = true ∨ dirs w k)
  | Panic _ => False
  end).
Proof.
  unfold etcd_Get. go_step. go_call (kapi_get_spec k w).
  intros [n|e|s] w' _ (Ht & Ho & Hd & Hr); [|naive_solver..].
  destruct (n_Dir n); go_step; naive_solver.
Qed.

Lemma etcd_keys_spec p w : wp (etcd_Keys p) w (λ o w',
  tree w' = tree w ∧ (online w → online w') ∧ (∀ d, dirs w' d → dirs w d) ∧
  match o with
  | Ok l => NoDup l ∧
            Forall (λ k, is_child p k ∧ (dirs w k ∨ is_Some (tree w !! k))) l ∧
            ∀ f, is_Some (tree w !! f) → under p f → f ≠ p → ∃ k, k ∈ l ∧ under k f
  | Err _ => online w → is_Some (tree w !! p)
  | Panic _ => False
  end).
Proof.
  unfold etcd_Keys. go_step. go_step. go_call (kapi_get_spec p w).
  intros [n|e|s] w' _ (Ht & Ho & Hd & Hr); [..|done].
  - destruct (n_Dir n); simpl; go_step; naive_solver.
  - destruct (IsKeyNotFound e) eqn:E; go_step; [|naive_solver].
    split_and!; [done..|constructor|constructor|].
    intros f Hf Hu Hne. destruct Hne. naive_solver.
Qed.

Lemma etcd_delete_spec k w : wp (etcd_Delete k) w (λ o w',
  (online w → online w') ∧ (∀ d, dirs w' d → dirs w d) ∧
  match o with
  | Ok _ => tree w' = delete_tree k (tree w)
  | Err _ => ¬ online w ∧ (tree w' = tree w ∨ tree w' = delete_tree k (tree w))
  | Panic _ => False
  end).
Proof.
  unfold etcd_Delete. go_step. go_step. go_call (kapi_delete_spec k w).
  intros [n|e|s] w' _ (Ho & Hd & Hr); [by go_step|..|done].
  destruct (IsKeyNotFound e) eqn:E; go_step; naive_solver.
Qed.

#[export, refine] Instance etcd_backend_spec : BackendSpec W := {
  view := tree;
  is_dir := dirs;
  healthy := online;
}.
Proof.
  - done.
  - intros k w. go_call (etcd_get_spec k w). intros [] ??; naive_solver.
  - intros k w Hw Hd. pose proof (etcd_get_spec k w) as Hg. unfold wp in Hg. simpl.
    destruct (etcd_Get k w) as [[j|e|s] w'] eqn:E; simpl in *.
    + destruct Hg as (_ & _ & _ & ->). done.
    + destruct Hg as (_ & _ & _ & Hnf & Hon). destruct (Hon Hw) as [Hk|]; [|done].
      rewrite (Hnf Hk). eauto.
    + naive_solver.
  - intros k j w. go_call (kapi_set_spec k j w). intros [] ??; naive_solver.
  - intros k j w Hw Hd Hf. pose proof (kapi_set_spec k j w) as Hs. unfold wp in Hs.
    simpl. unfold etcd_Set. destruct (kapi_Set k j w) as [[[]|e|s] w']; simpl in *;
      naive_solver.
  - intros k w. go_call (etcd_delete_spec k w). intros [] ??; naive_solver.
  - intros k w Hw. pose proof (etcd_delete_spec k w) as Hs. unfold wp in Hs. simpl.
    destruct (etcd_Delete k w) as [[[]|e|s] w']; simpl in *; naive_solver.
  - intros p w. go_call (etcd_keys_spec p w). intros [] ??; naive_solver.
  - intros p w Hw Hp. pose proof (etcd_keys_spec p w) as Hs. unfold wp in Hs. simpl.
    destruct (etcd_Keys p w) as [[l|e|s] w']; simpl in *; [eauto| |naive_solver].
    destruct Hs as (_ & _ & _ & Hs). destruct (Hs Hw). congruence.
Defined.
End ETCDSpec.

(** ** A reference etcd

    A concrete server that behaves as documented: it shows that the description
    above can be met, and it runs the examples of the development. *)
Module EtcdRef.
Record etcd := mkEtcd { files : gmap string json; up : bool }.

Definition below (k f : string) : bool := bool_decide (under k f ∧ f ≠ k).

Definition child_toward (k f : string) : string :=
  SJoin "/" (take (S (length (Split "/" k))) (Split "/" f)).

Definition children (k : string) (m : gmap string json) : list string :=
  remove_dups (child_toward k <$> (map_to_list (filter (λ kv, below k kv.1 = true) m)).*1).

Definition has_below (k : string) (m : gmap string json) : bool :=
  existsb (below k) (map_to_list m).*1.

Definition file_above (k : string) (m : gmap string json) : bool :=
  existsb (λ f, below f k) (map_to_list m).*1.

Definition get (k : string) : M etcd Node := λ w,
  if negb (up w) then (Err (ExtErr "etcd: unavailable"), w)
  else match files w !! k with
       | Some j => (Ok (mkNode k false j []), w)
       | None => if has_below k (files w)
                 then (Ok (mkNode k true JNull (children k (files w))), w)
                 else (Err KeyNotFound, w)
       end.

Definition set (k : string) (j : json) : M etcd unit := λ w,
  if negb (up w) then (Err (ExtErr "etcd: unavailable"), w)
  else if has_below k (files w) || file_above k (files w)
  then (Err (ExtErr "etcd: not a file"), w)
  else (Ok tt, mkEtcd (<[k:=j]> (files w)) (up w)).

Definition delete (k : string) : M etcd unit := λ w,
  if negb (up w) then (Err (ExtErr "etcd: unavailable"), w)
  else match files w !! k with
       | None => if has_below k (files w)
                 then (Ok tt, mkEtcd (delete_tree k (files w)) (up w))
                 else (Err KeyNotFound, w)
       | Some _ => (Ok tt, mkEtcd (delete_tree k (files w)) (up w))
       end.

#[global] Instance etcd_api : KeysAPI etcd := {
  kapi_Set := set;
  kapi_Get := get;
  kapi_Delete := delete;
}.

Lemma below_spec k f : below k f = true ↔ under k f ∧ f ≠ k.
Proof. unfold below. apply bool_decide_eq_true. Qed.

Lemma in_keys (m : gmap string json) f : f ∈ (map_to_list m).*1 ↔ is_Some (m !! f).
Proof.
  rewrite list_elem_of_fmap. split.
  - intros ([k j] & -> & Hk%elem_of_map_to_list). eauto.
  - intros [j Hj]. exists (f, j). split; [done|]. by apply elem_of_map_to_list.
Qed.

Lemma has_below_spec k m :
  has_below k m = true ↔ ∃ f, is_Some (m !! f) ∧ under k f ∧ f ≠ k.
Proof.
  unfold has_below. rewrite existsb_exists. setoid_rewrite <-list_elem_of_In.
  setoid_rewrite in_keys. by setoid_rewrite below_spec.
Qed.

Lemma file_above_spec k m :
  file_above k m = true ↔ ∃ f, is_Some (m !! f) ∧ under f k ∧ k ≠ f.
Proof.
  unfold file_above. rewrite existsb_exists. setoid_rewrite <-list_elem_of_In.
  setoid_rewrite in_keys. by setoid_rewrite below_spec.
Qed.

Lemma child_toward_spec k f :
  under k f → f ≠ k → is_child k (child_toward k f) ∧ under (child_toward k f) f.
Proof.
  intros [l Hl] Hne. unfold is_child, child_toward, under.
  assert (Hs : take (S (length (Split "/" k))) (Split "/" f) ≠ []).
  { pose proof (Split_nonempty "/" f). by destruct (Split "/" f). }
  rewrite Split_SJoin; [|done|apply Forall_take, Split_parts].
  split; [|apply prefix_take].
  destruct l as [|c l]; [destruct Hne; apply (Split_inj "/"); by rewrite app_nil_r in Hl|].
  exists c. rewrite Hl, take_app_ge by lia.
  by replace (S (length (Split "/" k)) - length (Split "/" k))%nat with 1%nat by lia.
Qed.

Lemma children_spec k m :
  NoDup (children k m) ∧
  Forall (λ c, is_child k c ∧ (has_below c m = true ∨ is_Some (m !! c))) (children k m) ∧
  ∀ f, is_Some (m !! f) → under k f → f ≠ k → ∃ c, c ∈ children k m ∧ under c f.
Proof.
  unfold children. split_and!.
  - apply NoDup_remove_dups.
  - apply Forall_forall. intros c Hc. rewrite elem_of_remove_dups in Hc.
    apply list_elem_of_fmap in Hc as (f & -> & Hf%in_keys).
    destruct Hf as [j [Hf [Hu Hne]%below_spec]%map_lookup_filter_Some].
    assert (is_Some (m !! f)) as Hj by eauto.
    destruct (child_toward_spec k f Hu Hne) as [Hc Hcf]. split; [done|].
    destruct (decide (f = child_toward k f)) as [<-|Hne']; [by right|left].
    apply has_below_spec. eauto.
  - intros f Hf Hu Hne. exists (child_toward k f). split.
    + rewrite elem_of_remove_dups. apply list_elem_of_fmap. exists f. split; [done|].
      apply in_keys. destruct Hf as [j Hf]. exists j.
      apply map_lookup_filter_Some. split; [done|by apply below_spec].
    + by apply child_toward_spec.
Qed.

Lemma delete_tree_id k m :
  m !! k = None → has_below k m = false → delete_tree k m = m.
Proof.
  intros Hk Hb. unfold delete_tree. apply map_filter_id. intros f j Hf Hu. simpl in *.
  destruct (decide (f = k)) as [->|Hne]; [congruence|].
  assert (has_below k m = true) by (apply has_below_spec; eauto). congruence.
Qed.

#[global, refine] Instance etcd_api_spec : KeysAPISpec etcd := {
  tree := files;
  dirs w d := has_below d (files w) = true;
  online w := up w = true;
}.
Proof.
  - intros k w. unfold wp, kapi_Get, etcd_api, get. destruct (up w) eqn:Hu; simpl.
    + destruct (files w !! k) eqn:Hk; [done|]. destruct (has_below k (files w)) eqn:Hb.
      * simpl. pose proof (children_spec k (files w)). naive_solver.
      * simpl. split_and!; [done..|]. intros _. split; [done|].
        intros f Hf Huf. destruct (decide (f = k)) as [|Hne]; [done|].
        assert (has_below k (files w) = true) by (apply has_below_spec; eauto). congruence.
    + naive_solver.
  - intros k j w. unfold wp, kapi_Set, etcd_api, set. destruct (up w) eqn:Hu; simpl.
    + destruct (has_below k (files w)) eqn:Hb; simpl; [naive_solver|].
      destruct (file_above k (files w)) eqn:Ha; simpl.
      * split_and!; [done|naive_solver|by left|]. intros _. right. intros Hno.
        apply file_above_spec in Ha as (f & ? & ? & ?). by destruct (Hno f).
      * split_and!; [done| |done]. intros d (f & Hf & Hd & Hne)%has_below_spec.
        destruct (decide (f = k)) as [->|Hfk]; [by right|left].
        apply has_below_spec. rewrite lookup_insert_ne in Hf by done. eauto.
    + naive_solver.
  - intros k w. unfold wp, kapi_Delete, etcd_api, delete.
    assert (Hdel : ∀ d, has_below d (delete_tree k (files w)) = true →
                        has_below d (files w) = true).
    { intros d (f & [j Hf] & ? & ?)%has_below_spec. apply has_below_spec.
      apply map_lookup_filter_Some in Hf as [??]. eauto. }
    destruct (up w) eqn:Hu; simpl; [|naive_solver].
    destruct (files w !! k) eqn:Hk; simpl; [naive_solver|].
    destruct (has_below k (files w)) eqn:Hb; simpl; [naive_solver|].
    rewrite delete_tree_id by done. naive_solver.
Defined.
End EtcdRef.
