(* ===== verification/Memory.v ===== *)
(** * The in-memory backend

    [kvstore/memory.go]: a cache of documents, with the prefix scan that [Keys]
    and [Delete] are built on.  The order in which Go ranges over the cache is the
    parameter [items]. *)

From stdpp Require Import base list gmap strings.
From Stdlib Require Import ZArith Lia Ascii.
From S2P Require Import Prelude GoStrings Json Backend.
Local Open Scope string_scope.

(** The loop [for i := 0; i < prefixLevel+1; i++ { k = filepath.Join(k, entries[i]) }]. *)
Fixpoint join_entries (n : nat) (k : string) (entries : list string) : outcome string :=
  match n with
  | 0 => Ok k
  | S n' => match entries with
            | [] => Panic "index out of range"
            | e :: es => join_entries n' (Join [k; e]) es
            end
  end.

(** One iteration of the scan of [Keys]. *)
Definition mem_keys_step (prefix : string) (keys : list string) (key : string)
    : outcome (list string) :=
  if existsb (λ k, HasPrefix key k) keys then Ok keys
  else if negb (HasPrefix key prefix) then Ok keys
  else if String.eqb key prefix then Ok (keys ++ [key])%list
  else
    let entries := Split "/" (TrimLeft "/" key) in
    k ← join_entries (S (Count "/" prefix)) "" entries;
    Ok (keys ++ ["/" +:+ k])%list.

Fixpoint mem_scan (prefix : string) (keys items : list string) : outcome (list string) :=
  match items with
  | [] => Ok keys
  | key :: rest => keys' ← mem_keys_step prefix keys key; mem_scan prefix keys' rest
  end.

Section Memory.
Context (items : gmap string json → list string).

Definition mem_Set (key : string) (value : json) : M (gmap string json) unit := λ m, (Ok tt, <[key:=value]> m).

Definition mem_Get (key : string) : M (gmap string json) json := λ m,
  match m !! key with
  | None => (Err KeyNotFound, m)
  | Some value => (Ok value, m)
  end.

Definition mem_Keys (prefix : string) : M (gmap string json) (list string) := λ m,
  (mem_scan prefix [] (items m), m).

Definition mem_Delete (key : string) : M (gmap string json) unit :=
  keys ← mem_Keys key;
  mfor (λ k m, (Ok tt, delete k m)) keys.

Definition mem_IsNotFoundError (e : error) : bool :=
  match e with KeyNotFound => true | _ => false end.

Definition memory_backend : Backend (gmap string json) := {|
  b_set := mem_Set;
  b_get := mem_Get;
  b_delete := mem_Delete;
  b_keys := mem_Keys;
  is_not_found := mem_IsNotFoundError;
|}.

Hypothesis items_perm : ∀ m, items m ≡ₚ (map_to_list m).*1.

Lemma mem_scan_other prefix keys l :
  Forall (λ k, HasPrefix k prefix = false ∨ existsb (λ p, HasPrefix k p) keys = true) l →
  mem_scan prefix keys l = Ok keys.
Proof.
  induction 1 as [|k l Hk _ IH]; [done|]. simpl. unfold mem_keys_step.
  destruct Hk as [Hk|Hk]; rewrite Hk; simpl; [|done]. by case_match.
Qed.

Lemma HasPrefix_refl s : HasPrefix s s = true.
Proof. induction s as [|a s IH]; [done|]. simpl. by destruct (ascii_dec a a). Qed.

(** A key that no other key extends is deleted, and only that key. *)
Lemma mem_delete_leaf k (m : gmap string json) :
  (∀ k', is_Some (m !! k') → HasPrefix k' k = true → k' = k) →
  mem_Delete k m = (Ok tt, delete k m).
Proof.
  intros Hk. unfold mem_Delete, mem_Keys, mbind, M_bind.
  assert (Hin : ∀ k', k' ∈ items m → is_Some (m !! k')).
  { intros k' Hk'. rewrite items_perm in Hk'. by apply EtcdRef.in_keys. }
  destruct (decide (k ∈ items m)) as [Hi|Hi].
  - apply list_elem_of_split in Hi as (l1 & l2 & Hl).
    assert (Hnd : NoDup (items m)) by (rewrite items_perm; apply NoDup_fst_map_to_list).
    assert (Hl1 : ∀ k', k' ∈ (l1 ++ l2)%list → HasPrefix k' k = false).
    { intros k' Hk'. destruct (HasPrefix k' k) eqn:E; [|done]. exfalso.
      assert (k' = k) as ->.
      { apply Hk; [|done]. apply Hin. rewrite Hl. set_solver. }
      rewrite Hl in Hnd. rewrite <-Permutation_middle in Hnd. by apply NoDup_cons in Hnd as [??]. }
    assert (mem_scan k [] (items m) = Ok [k]) as ->; [|done].
    rewrite Hl. clear Hl Hnd Hin. induction l1 as [|x l1 IH]; simpl; unfold mem_keys_step; simpl.
    + rewrite HasPrefix_refl, String.eqb_refl. simpl. apply mem_scan_other.
      apply Forall_forall. intros k' Hk'. left. apply Hl1. set_solver.
    + rewrite (Hl1 x) by set_solver. simpl. apply IH. intros k' ?. apply Hl1. set_solver.
  - rewrite mem_scan_other.
    + simpl. change (base.delete k m) with (delete k m). f_equal. symmetry. apply delete_id.
      destruct (m !! k) eqn:E; [|done].
      destruct Hi. rewrite items_perm. apply EtcdRef.in_keys. eauto.
    + apply Forall_forall. intros k' Hk'. left. destruct (HasPrefix k' k) eqn:E; [|done].
      destruct Hi. by rewrite <-(Hk k' (Hin k' Hk') E).
Qed.
End Memory.

(** [map_to_list] gives one admissible order. *)
Definition mem_items (m : gmap string json) : list string := (map_to_list m).*1.

(** Deleting the volume [vol1] also deletes the record of [vol10], and leaves the
    instances of [vol1] behind. *)
Example mem_delete_volume :
  let m : gmap string json :=
    {[ "/l/volumes/vol1/base" := JNull; "/l/volumes/vol1/instances/controller" := JNull;
       "/l/volumes/vol10/base" := JNull ]} in
  map_to_list (mem_Delete mem_items "/l/volumes/vol1" m).2 =
  [("/l/volumes/vol1/instances/controller", JNull)].
Proof. vm_compute. reflexivity. Qed.

(** Deleting a replica panics when another replica's name extends its name and is
    visited first. *)
Example mem_delete_replica :
  let m : gmap string json :=
    {[ "/l/volumes/v/instances/replicas/r1" := JNull;
       "/l/volumes/v/instances/replicas/r10" := JNull ]} in
  (mem_Delete mem_items "/l/volumes/v/instances/replicas/r1" m).1 =
    Panic "index out of range".
Proof. vm_compute. reflexivity. Qed.
