(* ===== verification/KVStore.v ===== *)
(** * The key-value store of the manager

    [kvstore/kvstore.go] and [kvstore/volume.go]: hosts, settings and volumes as
    documents under a prefix, over
    the [Backend] interface. *)

From stdpp Require Import base list gmap strings.
From Stdlib Require Import ZArith Lia Ascii.
From S2P Require Import Prelude GoStrings Json Types Codec Backend.
Local Open Scope string_scope.

Definition keyHosts : string := "hosts".
Definition keySettings : string := "settings".
Definition keyVolumes : string := "volumes".
Definition keyVolumeBase : string := "base".
Definition keyVolumeInstances : string := "instances".
Definition keyVolumeInstanceController : string := "controller".
Definition keyVolumeInstanceReplicas : string := "replicas".

(** The methods of [VolumeKey], whose only field is the root key. *)
Definition VolumeKey_Base (rootKey : string) : string := Join [rootKey; keyVolumeBase].
Definition VolumeKey_Instances (rootKey : string) : string := Join [rootKey; keyVolumeInstances].
Definition VolumeKey_Controller (rootKey : string) : string :=
  Join [VolumeKey_Instances rootKey; keyVolumeInstanceController].
Definition VolumeKey_Replicas (rootKey : string) : string :=
  Join [VolumeKey_Instances rootKey; keyVolumeInstanceReplicas].
Definition VolumeKey_Replica (rootKey replicaName : string) : string :=
  Join [VolumeKey_Replicas rootKey; replicaName].

Section KVStore.
Context {W : Type} `{Backend W} `{MapOrder}.
Context (Prefix : string).

Definition kv_key (key : string) : string := Join [Prefix; key].
Definition hostKey (id : string) : string := Join [kv_key keyHosts; id].
Definition settingsKey : string := kv_key keySettings.
Definition volumeRootKey (id : string) : string := Join [kv_key keyVolumes; id].

(** The shape shared by the [get...ByKey] functions: a missing key is nil. *)
Definition get_or_nil {T} (d : json → option T) (key : string) : M W (option T) :=
  r ← attempt (b_get_as d key);
  match r with
  | inl x => mret (Some x)
  | inr e => if is_not_found e then mret None else fail e
  end.

(** ** Hosts and settings *)

Definition SetHost (host : HostInfo) : M W unit := b_set (hostKey (h_UUID host)) (to_json host).

Definition getHostByKey (key : string) : M W (option HostInfo) := get_or_nil of_json key.

Definition GetHost (id : string) : M W (option HostInfo) :=
  wrap "unable to get host" (getHostByKey (hostKey id)).

Fixpoint ListHosts_loop (keys : list string) (hosts : gmap string HostInfo)
    : M W (gmap string HostInfo) :=
  match keys with
  | [] => mret hosts
  | key :: keys' =>
    host ← wrap "invalid key %v" (getHostByKey key);
    ListHosts_loop keys' (match host with Some h => <[h_UUID h:=h]> hosts | None => hosts end)
  end.

Definition ListHosts : M W (gmap string HostInfo) :=
  hostKeys ← b_keys (kv_key keyHosts);
  ListHosts_loop hostKeys ∅.

Definition SetSettings (settings : SettingsInfo) : M W unit :=
  b_set settingsKey (to_json settings).

(** [Get] is handed a pointer to the pointer: a null document makes it nil. *)
Definition GetSettings : M W (option SettingsInfo) :=
  r ← attempt (b_get_as (λ j, dec_ptr (Some j)) settingsKey);
  match r with
  | inl settings => mret settings
  | inr e => if is_not_found e then mret None
             else fail (Wrapf e "unable to get settings")
  end.

Definition kvNuclear (nuclearCode : string) : M W unit :=
  if negb (String.eqb nuclearCode "nuke key value store")
  then fail (Errorf "invalid nuclear code!")
  else b_delete (kv_key "").

(** ** Volumes *)

Definition SetVolumeBase (volume : VolumeInfo) : M W unit :=
  b_set (VolumeKey_Base (volumeRootKey (v_Name volume))) (to_json (base_of volume)).

Definition SetVolumeController (controller : ControllerInfo) : M W unit :=
  let i := c_Instance controller in
  if String.eqb (i_VolumeName i) "" then
    fail (Errorf "controller doesn't have valid volume name: %+v")
  else b_set (VolumeKey_Controller (volumeRootKey (i_VolumeName i))) (to_json controller).

Definition SetVolumeReplica (replica : ReplicaInfo) : M W unit :=
  let i := r_Instance replica in
  if String.eqb (i_VolumeName i) "" then
    fail (Errorf "replica doesn't have valid volume name: %+v")
  else b_set (VolumeKey_Replica (volumeRootKey (i_VolumeName i)) (i_Name i)) (to_json replica).

Definition SetVolumeReplicas (replicas : gmap string ReplicaInfo) : M W unit :=
  mfor (λ kr, wrap "unable to set volume's replicas: %+v" (SetVolumeReplica kr.2))
       (range replicas).

Definition getVolumeBaseByKey (key : string) : M W (option VolumeInfo) :=
  volume ← get_or_nil of_json key;
  match volume with
  | None => mret None
  | Some v =>
    match v_Controller v, v_Replicas v with
    | None, None => mret (Some v)
    | _, _ => fail (Errorf "BUG: volume base shouldn't have instances info: %+v")
    end
  end.

Definition GetVolumeBase (id : string) : M W (option VolumeInfo) :=
  wrap "unable to get volume %v" (getVolumeBaseByKey (VolumeKey_Base (volumeRootKey id))).

Definition getVolumeControllerByKey (key : string) : M W (option ControllerInfo) :=
  get_or_nil of_json key.

Definition GetVolumeController (volumeName : string) : M W (option ControllerInfo) :=
  wrap "unable to get controller of volume %v"
    (getVolumeControllerByKey (VolumeKey_Controller (volumeRootKey volumeName))).

Definition getVolumeReplicaByKey (key : string) : M W (option ReplicaInfo) :=
  get_or_nil of_json key.

Definition GetVolumeReplica (volumeName replicaName : string) : M W (option ReplicaInfo) :=
  wrap "unable to get replica %v of volume %v"
    (getVolumeReplicaByKey (VolumeKey_Replica (volumeRootKey volumeName) replicaName)).

Fixpoint getVolumeReplicas_loop (keys : list string) (replicas : gmap string ReplicaInfo)
    : M W (gmap string ReplicaInfo) :=
  match keys with
  | [] => mret replicas
  | key :: keys' =>
    replica ← getVolumeReplicaByKey key;
    getVolumeReplicas_loop keys'
      (match replica with Some r => <[r_Name r:=r]> replicas | None => replicas end)
  end.

Definition getVolumeReplicasByKey (key : string) : M W (gmap string ReplicaInfo) :=
  replicaKeys ← b_keys key;
  getVolumeReplicas_loop replicaKeys ∅.

Definition GetVolumeReplicas (volumeName : string) : M W (gmap string ReplicaInfo) :=
  wrap "unable to get replicas of volume %v"
    (getVolumeReplicasByKey (VolumeKey_Replicas (volumeRootKey volumeName))).

Definition DeleteVolumeController (volumeName : string) : M W unit :=
  wrap "unable to remove controller of volume %v"
    (b_delete (VolumeKey_Controller (volumeRootKey volumeName))).

Definition DeleteVolumeReplicas (volumeName : string) : M W unit :=
  wrap "unable to remove replicas of volume %v"
    (b_delete (VolumeKey_Replicas (volumeRootKey volumeName))).

Definition DeleteVolumeReplica (volumeName replicaName : string) : M W unit :=
  wrap "unable to remove replica %v of volume %v"
    (b_delete (VolumeKey_Replica (volumeRootKey volumeName) replicaName)).

Definition SetVolume (volume : VolumeInfo) : M W unit :=
  wrap "unable to set volume %+v" (
    SetVolumeBase volume;;
    DeleteVolumeController (v_Name volume);;
    match v_Controller volume with
    | Some c => SetVolumeController c
    | None => mret tt
    end;;
    DeleteVolumeReplicas (v_Name volume);;
    match v_Replicas volume with
    | Some rs => SetVolumeReplicas rs
    | None => mret tt
    end).

Definition getVolumeByKey (key : string) : M W (option VolumeInfo) :=
  volume ← getVolumeBaseByKey (VolumeKey_Base key);
  match volume with
  | None => mret None
  | Some v =>
    controller ← getVolumeControllerByKey (VolumeKey_Controller key);
    replicas ← getVolumeReplicasByKey (VolumeKey_Replicas key);
    let v := set_Controller controller v in
    mret (Some (set_Replicas (if decide (size replicas = 0) then None else Some replicas) v))
  end.

Definition GetVolume (id : string) : M W (option VolumeInfo) :=
  wrap "unable to get volume %v" (getVolumeByKey (volumeRootKey id)).

Definition DeleteVolume (id : string) : M W unit :=
  wrap "unable to remove volume" (b_delete (volumeRootKey id)).

Fixpoint ListVolumes_loop (keys : list string) (volumes : list VolumeInfo)
    : M W (list VolumeInfo) :=
  match keys with
  | [] => mret volumes
  | key :: keys' =>
    volume ← wrap "unable to list volumes" (getVolumeByKey key);
    ListVolumes_loop keys' (match volume with Some v => volumes ++ [v] | None => volumes end)%list
  end.

Definition ListVolumes : M W (list VolumeInfo) :=
  volumeKeys ← wrap "unable to list volumes" (b_keys (kv_key keyVolumes));
  ListVolumes_loop volumeKeys [].
End KVStore.
