(* ===== verification/KVSpec.v ===== *)
(** * The abstract store and its refinement

    The documents under the prefix are a store of hosts, settings, volume records,
    controllers and replicas ([store]).  [Rel w st] ties the tree of the backend to
    a store; every operation of [KVStore] is specified by what it does to it. *)

From stdpp Require Import base functions list gmap strings.
From Stdlib Require Import ZArith Lia Ascii.
From S2P Require Import Prelude GoStrings Json Types Codec Backend KVStore.
Local Open Scope string_scope.
Local Open Scope list_scope.

(** ** Keys *)

Inductive skey : Type :=
| KSettings
| KHost (id : string)
| KBase (n : string)
| KCtrl (n : string)
| KRep (n r : string).

#[export] Instance skey_eq_dec : EqDecision skey.
Proof. solve_decision. Defined.

Definition comps (k : skey) : list string :=
  match k with
  | KSettings => ["settings"]
  | KHost id => ["hosts"; id]
  | KBase n => ["volumes"; n; "base"]
  | KCtrl n => ["volumes"; n; "instances"; "controller"]
  | KRep n r => ["volumes"; n; "instances"; "replicas"; r]
  end.

Definition simple_key (k : skey) : Prop :=
  match k with
  | KSettings => True
  | KHost n | KBase n | KCtrl n => simple_name n = true
  | KRep n r => simple_name n = true ∧ simple_name r = true
  end.

Lemma comps_simple k : simple_key k → Forall (λ n, simple_name n = true) (comps k).
Proof. destruct k; simpl; intros; destruct_and?; repeat constructor; done. Qed.

Lemma comps_antichain k k' : comps k `prefix_of` comps k' → k = k'.
Proof. intros [l Hl]. destruct k, k'; simpl in Hl; congruence. Qed.

Lemma comps_prefix k k' : comps k `prefix_of` comps k' ↔ k' = k.
Proof. split; [intros ?%comps_antichain; done|by intros ->]. Qed.

(** ** Stores *)

Record store := mkStore {
  st_hosts : gmap string HostInfo;
  st_settings : option SettingsInfo;
  st_base : string → option VolumeInfo;
  st_ctrl : string → option ControllerInfo;
  st_reps : string → gmap string ReplicaInfo;
}.

(** The document a key holds. *)
Definition doc (st : store) (k : skey) : option json :=
  match k with
  | KSettings => to_json <$> st_settings st
  | KHost id => to_json <$> st_hosts st !! id
  | KBase n => to_json <$> st_base st n
  | KCtrl n => to_json <$> st_ctrl st n
  | KRep n r => to_json <$> st_reps st n !! r
  end.

(** Every record names itself, its names are simple, and a volume record holds no
    instances. *)
Record store_wf (st : store) : Prop := {
  wf_host : ∀ id h, st_hosts st !! id = Some h → h_UUID h = id ∧ simple_name id = true;
  wf_base : ∀ n v, st_base st n = Some v →
    v_Name v = n ∧ simple_name n = true ∧ v_Controller v = None ∧ v_Replicas v = None ∧
    volume_in_range v;
  wf_ctrl : ∀ n c, st_ctrl st n = Some c →
    i_VolumeName (c_Instance c) = n ∧ simple_name n = true;
  wf_rep : ∀ n r x, st_reps st n !! r = Some x →
    r_Name x = r ∧ i_VolumeName (r_Instance x) = n ∧ simple_name n = true ∧
    simple_name r = true;
}.

(** A volume as [GetVolume] presents it. *)
Definition vol_of (st : store) (n : string) : option VolumeInfo :=
  b ← st_base st n;
  Some (set_Replicas (if decide (size (st_reps st n) = 0) then None else Some (st_reps st n))
         (set_Controller (st_ctrl st n) b)).

Definition put_settings (s : SettingsInfo) (st : store) : store :=
  mkStore (st_hosts st) (Some s) (st_base st) (st_ctrl st) (st_reps st).
Definition put_host (h : HostInfo) (st : store) : store :=
  mkStore (<[h_UUID h:=h]> (st_hosts st)) (st_settings st) (st_base st) (st_ctrl st) (st_reps st).
Definition put_base (n : string) (b : option VolumeInfo) (st : store) : store :=
  mkStore (st_hosts st) (st_settings st) (<[n:=b]> (st_base st)) (st_ctrl st) (st_reps st).
Definition put_ctrl (n : string) (c : option ControllerInfo) (st : store) : store :=
  mkStore (st_hosts st) (st_settings st) (st_base st) (<[n:=c]> (st_ctrl st)) (st_reps st).
Definition put_reps (n : string) (m : gmap string ReplicaInfo) (st : store) : store :=
  mkStore (st_hosts st) (st_settings st) (st_base st) (st_ctrl st) (<[n:=m]> (st_reps st)).

(** Removing a volume removes its record and its instances. *)
Definition drop_volume (n : string) (st : store) : store :=
  put_reps n ∅ (put_ctrl n None (put_base n None st)).

(** Stores are compared entry by entry. *)
#[export] Instance store_equiv : Equiv store := λ st st',
  st_hosts st = st_hosts st' ∧ st_settings st = st_settings st' ∧
  (∀ n, st_base st n = st_base st' n) ∧ (∀ n, st_ctrl st n = st_ctrl st' n) ∧
  (∀ n, st_reps st n = st_reps st' n).

#[export] Instance store_equivalence : Equivalence (≡@{store}).
Proof.
  split.
  - intros st. by split_and!.
  - intros st st' (?&?&?&?&?). by split_and!.
  - intros st1 st2 st3 (?&?&?&?&?) (?&?&?&?&?).
    split_and!; intros; etrans; eauto.
Qed.

#[export] Instance doc_proper : Proper ((≡) ==> (=) ==> (=)) doc.
Proof.
  intros st st' (Eh & Es & Eb & Ec & Er) k ? <-.
  destruct k; simpl; by rewrite ?Eh, ?Es, ?Eb, ?Ec, ?Er.
Qed.

#[export] Instance vol_of_proper : Proper ((≡) ==> (=) ==> (=)) vol_of.
Proof.
  intros st st' (Eh & Es & Eb & Ec & Er) n ? <-. unfold vol_of. by rewrite Eb, Ec, Er.
Qed.

#[export] Instance store_wf_proper : Proper ((≡) ==> iff) store_wf.
Proof.
  assert (Hone : ∀ st st', st ≡ st' → store_wf st → store_wf st').
  { intros st st' (Eh & Es & Eb & Ec & Er) [Hh Hb Hc Hr].
    split; intros *; rewrite <-?Eh, <-?Eb, <-?Ec, <-?Er; eauto. }
  intros st st' E. split; apply Hone; [done|by symmetry].
Qed.

(** [same_except n st st']: nothing but the volume [n] differs. *)
Definition same_except (n : string) (st st' : store) : Prop :=
  st_hosts st = st_hosts st' ∧ st_settings st = st_settings st' ∧
  ∀ m, m ≠ n → st_base st m = st_base st' m ∧ st_ctrl st m = st_ctrl st' m ∧
               st_reps st m = st_reps st' m.

#[export] Instance same_except_preorder n : PreOrder (same_except n).
Proof.
  split.
  - intros st. by split_and!.
  - intros st1 st2 st3 (?&?&H1) (?&?&H2). split_and!; [congruence..|].
    intros m Hm. destruct (H1 m Hm) as (?&?&?), (H2 m Hm) as (?&?&?). split_and!; congruence.
Qed.

Lemma same_except_vol n st st' m :
  same_except n st st' → m ≠ n → vol_of st m = vol_of st' m.
Proof. intros (_ & _ & E) Hm. destruct (E m Hm) as (Eb & Ec & Er). unfold vol_of. by rewrite Eb, Ec, Er. Qed.

Lemma same_except_put_base n b st : same_except n st (put_base n b st).
Proof. split_and!; [done..|]. intros m Hm. simpl. by rewrite fn_lookup_insert_ne. Qed.
Lemma same_except_put_ctrl n c st : same_except n st (put_ctrl n c st).
Proof. split_and!; [done..|]. intros m Hm. simpl. by rewrite fn_lookup_insert_ne. Qed.
Lemma same_except_put_reps n r st : same_except n st (put_reps n r st).
Proof. split_and!; [done..|]. intros m Hm. simpl. by rewrite fn_lookup_insert_ne. Qed.
#[export] Hint Resolve same_except_put_base same_except_put_ctrl same_except_put_reps : keys.

Lemma same_except_drop n st : same_except n st (drop_volume n st).
Proof.
  etrans; [apply (same_except_put_base n None)|].
  etrans; [apply (same_except_put_ctrl n None)|]. apply same_except_put_reps.
Qed.

(** The volume [v] with its instances. *)
Definition put_volume (v : VolumeInfo) (st : store) : store :=
  put_reps (v_Name v) (replicas_of v)
    (put_ctrl (v_Name v) (v_Controller v) (put_base (v_Name v) (Some (base_of v)) st)).

Ltac solve_doc :=
  intros []; simpl; repeat case_decide; simplify_eq/=;
  rewrite ?fn_lookup_insert, ?lookup_insert_eq, ?lookup_delete_eq; try done;
  repeat match goal with
  | |- context [<[?a:=_]> ?f ?b] =>
      destruct (decide (a = b)) as [<-|]; [rewrite fn_lookup_insert|rewrite fn_lookup_insert_ne by done]
  | |- context [<[?a:=_]> _ !! ?b] =>
      destruct (decide (a = b)) as [<-|]; [rewrite lookup_insert_eq|rewrite lookup_insert_ne by done]
  | |- context [base.delete ?a _ !! ?b] =>
      destruct (decide (a = b)) as [<-|]; [rewrite lookup_delete_eq|rewrite lookup_delete_ne by done]
  end; naive_solver.

Lemma doc_put_settings s st k :
  doc (put_settings s st) k = if decide (k = KSettings) then Some (to_json s) else doc st k.
Proof. revert k. solve_doc. Qed.

Lemma doc_put_host h st k :
  doc (put_host h st) k = if decide (k = KHost (h_UUID h)) then Some (to_json h) else doc st k.
Proof. revert k. solve_doc. Qed.

Lemma doc_put_base n b st k :
  doc (put_base n b st) k = if decide (k = KBase n) then to_json <$> b else doc st k.
Proof. revert k. solve_doc. Qed.

Lemma doc_put_ctrl n c st k :
  doc (put_ctrl n c st) k = if decide (k = KCtrl n) then to_json <$> c else doc st k.
Proof. revert k. solve_doc. Qed.

Lemma doc_insert_rep n r x st k :
  doc (put_reps n (<[r:=x]> (st_reps st n)) st) k =
  if decide (k = KRep n r) then Some (to_json x) else doc st k.
Proof. revert k. solve_doc. Qed.

Lemma doc_delete_rep n r st k :
  doc (put_reps n (delete r (st_reps st n)) st) k =
  if decide (k = KRep n r) then None else doc st k.
Proof. revert k. solve_doc. Qed.

Lemma doc_drop_reps n st k :
  doc (put_reps n ∅ st) k =
  if decide (["volumes"; n; "instances"; "replicas"] `prefix_of` comps k) then None else doc st k.
Proof.
  destruct k as [|id|m|m|m r]; case_decide as Hp; try done;
    try (destruct Hp as [l Hl]; simplify_eq/=; done); simpl.
  - destruct Hp as [l Hl]. simplify_eq/=. by rewrite fn_lookup_insert, lookup_empty.
  - rewrite fn_lookup_insert_ne; [done|]. intros <-. destruct Hp. by exists [r].
Qed.

Lemma doc_drop_volume n st k :
  doc (drop_volume n st) k =
  if decide (["volumes"; n] `prefix_of` comps k) then None else doc st k.
Proof.
  destruct k as [|id|m|m|m r]; case_decide as Hp; try done;
    try (destruct Hp as [l Hl]; simplify_eq/=; by rewrite fn_lookup_insert); simpl;
    rewrite fn_lookup_insert_ne; try done; intros <-; destruct Hp; eexists; done.
Qed.

(** Well-formedness is kept by the updates. *)
Ltac solve_wf :=
  lazymatch goal with H : store_wf _ |- _ => destruct H as [Hh Hb Hc Hr] end;
  split; simpl; intros *; eauto;
  repeat match goal with
  | |- context [<[?a:=_]> ?f ?b] =>
      destruct (decide (a = b)) as [<-|]; [rewrite fn_lookup_insert|rewrite fn_lookup_insert_ne by done]
  | |- context [<[?a:=_]> _ !! ?b] =>
      destruct (decide (a = b)) as [<-|]; [rewrite lookup_insert_eq|rewrite lookup_insert_ne by done]
  end; eauto; try naive_solver.

Lemma wf_put_settings s st : store_wf st → store_wf (put_settings s st).
Proof. intros. solve_wf. Qed.

Lemma wf_put_host h st :
  store_wf st → simple_name (h_UUID h) = true → store_wf (put_host h st).
Proof. intros. solve_wf. Qed.

Lemma wf_put_base v st :
  store_wf st → simple_name (v_Name v) = true → volume_in_range v →
  store_wf (put_base (v_Name v) (Some (base_of v)) st).
Proof. intros. solve_wf. Qed.

Lemma wf_drop_base n st : store_wf st → store_wf (put_base n None st).
Proof. intros. solve_wf. Qed.

Lemma wf_put_ctrl c st :
  store_wf st → simple_name (i_VolumeName (c_Instance c)) = true →
  store_wf (put_ctrl (i_VolumeName (c_Instance c)) (Some c) st).
Proof. intros. solve_wf. Qed.

Lemma wf_drop_ctrl n st : store_wf st → store_wf (put_ctrl n None st).
Proof. intros. solve_wf. Qed.

Lemma wf_put_rep x st :
  store_wf st → simple_name (i_VolumeName (r_Instance x)) = true →
  simple_name (r_Name x) = true →
  store_wf (put_reps (i_VolumeName (r_Instance x))
              (<[r_Name x:=x]> (st_reps st (i_VolumeName (r_Instance x)))) st).
Proof. intros. solve_wf. Qed.

Lemma wf_sub_reps n m st :
  store_wf st → m ⊆ st_reps st n → store_wf (put_reps n m st).
Proof.
  intros Hwf Hm. split; simpl; [apply Hwf..|]. intros n' r x.
  destruct (decide (n = n')) as [<-|]; [rewrite fn_lookup_insert|rewrite fn_lookup_insert_ne by done].
  - intros Hx. by apply (wf_rep _ Hwf), (lookup_weaken _ _ _ _ Hx Hm).
  - apply (wf_rep _ Hwf).
Qed.

#[export] Hint Resolve wf_put_settings wf_put_host wf_put_base wf_drop_base wf_put_ctrl
  wf_drop_ctrl wf_put_rep : keys.

(** ** The relation *)

Section Rel.
Context {W : Type} `{BackendSpec W}.
Context (ps : list string).
Hypothesis ps_nonempty : ps ≠ [].
Hypothesis ps_simple : Forall (λ n, simple_name n = true) ps.

Definition key_of (k : skey) : string := path (ps ++ comps k).

Record Rel (w : W) (st : store) : Prop := {
  rel_wf : store_wf st;
  rel_doc : ∀ k, simple_key k → view w !! key_of k = doc st k;
  rel_keys : ∀ f, is_Some (view w !! f) → ∃ k, simple_key k ∧ f = key_of k;
  rel_dirs : ∀ d, is_dir w d → ∃ k, simple_key k ∧ under d (key_of k) ∧ d ≠ key_of k;
}.

Lemma key_simple k :
  simple_key k → Forall (λ n, simple_name n = true) (ps ++ comps k).
Proof. intros Hk. apply Forall_app_2; [done|by apply comps_simple]. Qed.

Lemma key_of_inj k k' : simple_key k → simple_key k' → key_of k = key_of k' → k = k'.
Proof.
  intros Hk Hk' E. apply path_inj in E; [|by apply key_simple..].
  apply app_inv_head in E. apply comps_antichain. by rewrite E.
Qed.

Lemma under_key cs k :
  Forall (λ n, simple_name n = true) cs → simple_key k →
  under (path (ps ++ cs)) (key_of k) ↔ cs `prefix_of` comps k.
Proof.
  intros Hcs Hk. unfold key_of. rewrite under_path; [|by apply Forall_app_2|by apply key_simple].
  split; [apply prefix_app_inv|apply prefix_app].
Qed.

Lemma under_key_key k k' :
  simple_key k → simple_key k' → under (key_of k) (key_of k') → k = k'.
Proof.
  intros Hk Hk' Hu. apply under_key in Hu; [|by apply comps_simple|done].
  by apply comps_antichain.
Qed.

Lemma key_not_dir w st k : Rel w st → simple_key k → ¬ is_dir w (key_of k).
Proof.
  intros Hr Hk Hd. apply (rel_dirs _ _ Hr) in Hd as (k' & Hk' & Hu & Hne).
  apply under_key_key in Hu; [by subst|done..].
Qed.

Lemma key_no_file_above w st k : Rel w st → simple_key k → no_file_above (view w) (key_of k).
Proof.
  intros Hr Hk f Hf Hu. apply (rel_keys _ _ Hr) in Hf as (k' & Hk' & ->).
  apply under_key_key in Hu; [by subst|done..].
Qed.

Lemma Rel_frame w w' st :
  Rel w st → view w' = view w → (∀ d, is_dir w' d → is_dir w d) → Rel w' st.
Proof. intros [Hwf Hd Hk Hi] Hv Hm. split; rewrite ?Hv; auto. Qed.

#[export] Instance Rel_proper w : Proper ((≡) ==> iff) (Rel w).
Proof.
  intros st st' E. split; intros [Hwf Hd Hk Hi]; split; eauto.
  - by rewrite <-E.
  - intros k ?. rewrite <-E. auto.
  - by rewrite E.
  - intros k ?. rewrite E. auto.
Qed.

(** *** Generic reads and writes *)

(** Outcome of a call on a healthy backend. *)
Definition served (w : W) {A} (o : outcome A) (w' : W) : Prop :=
  healthy w → healthy w' ∧ ∃ a, o = Ok a.

Lemma set_key k j st st' w :
  Rel w st → simple_key k → store_wf st' →
  (∀ k', doc st' k' = if decide (k' = k) then Some j else doc st k') →
  wp (b_set (key_of k) j) w (λ o w', served w o w' ∧
    match o with
    | Ok _ => Rel w' st'
    | Err _ => Rel w' st ∨ Rel w' st'
    | Panic _ => False
    end).
Proof.
  intros Hr Hk Hwf Hdoc. apply wp_intro. intros o w' E.
  pose proof (wp_elim _ _ _ _ _ (set_spec (key_of k) j w) E) as (Hh & Hd & Ho).
  assert (Hnew : view w' = <[key_of k:=j]> (view w) → Rel w' st').
  { intros Hv. split; [done|..].
    - intros k' Hk'. rewrite Hv, Hdoc. destruct (decide (k' = k)) as [->|Hne].
      + apply lookup_insert_eq.
      + rewrite lookup_insert_ne by (intros ?%key_of_inj; naive_solver).
        by apply (rel_doc _ _ Hr).
    - intros f Hf. rewrite Hv in Hf. destruct (decide (key_of k = f)) as [<-|Hne].
      + eauto.
      + rewrite lookup_insert_ne in Hf by done. by apply (rel_keys _ _ Hr).
    - intros d [Hd'|Hd']%Hd; [by apply (rel_dirs _ _ Hr)|]. naive_solver. }
  split.
  - intros Hw. split; [auto|].
    pose proof (set_healthy (key_of k) j w Hw (key_not_dir _ _ _ Hr Hk)
                  (key_no_file_above _ _ _ Hr Hk)) as Hok.
    rewrite E in Hok. simpl in Hok. eauto.
  - destruct o as [?|e|s]; [auto| |done].
    destruct Ho as [Hv|Hv]; [left|right; auto].
    split; [apply Hr|..]; rewrite ?Hv; try apply Hr.
    intros d [Hd'|Hd']%Hd; [by apply (rel_dirs _ _ Hr)|]. naive_solver.
Qed.

Lemma delete_keys cs st st' w :
  Rel w st → Forall (λ n, simple_name n = true) cs → store_wf st' →
  (∀ k', doc st' k' = if decide (cs `prefix_of` comps k') then None else doc st k') →
  wp (b_delete (path (ps ++ cs))) w (λ o w', served w o w' ∧
    match o with
    | Ok _ => Rel w' st'
    | Err _ => Rel w' st ∨ Rel w' st'
    | Panic _ => False
    end).
Proof.
  intros Hr Hcs Hwf Hdoc. apply wp_intro. intros o w' E.
  pose proof (wp_elim _ _ _ _ _ (delete_spec _ w) E) as (Hh & Hd & Ho).
  assert (Hnew : view w' = delete_tree (path (ps ++ cs)) (view w) → Rel w' st').
  { intros Hv. unfold delete_tree in Hv. split; [done|..].
    - intros k' Hk'. rewrite Hv, Hdoc, <-(rel_doc _ _ Hr) by done.
      destruct (decide (cs `prefix_of` comps k')) as [Hp|Hp].
      + apply map_lookup_filter_None_2. right. intros j _ Hn. destruct Hn. simpl.
        by apply under_key.
      + destruct (view w !! key_of k') as [j|] eqn:Ej.
        * apply map_lookup_filter_Some_2; [done|]. simpl. by rewrite under_key.
        * apply map_lookup_filter_None_2. by left.
    - intros f [j Hf]. rewrite Hv in Hf. apply map_lookup_filter_Some in Hf as [Hf _].
      apply (rel_keys _ _ Hr). eauto.
    - intros d Hd'%Hd. by apply (rel_dirs _ _ Hr). }
  split.
  - intros Hw. split; [auto|]. pose proof (delete_healthy (path (ps ++ cs)) w Hw) as Hok.
    rewrite E in Hok. simpl in Hok. eauto.
  - destruct o as [?|e|s]; [auto| |done].
    destruct Ho as [Hv|Hv]; [left|right; auto]. by eapply Rel_frame.
Qed.

Lemma get_key {T} (d : json → option T) k st w :
  Rel w st → simple_key k → (∀ j, doc st k = Some j → is_Some (d j)) →
  wp (get_or_nil d (key_of k)) w (λ o w', served w o w' ∧ Rel w' st ∧
    match o with
    | Ok x => x = (doc st k ≫= d)
    | Err _ => True
    | Panic _ => False
    end).
Proof.
  intros Hr Hk Hdec. unfold get_or_nil, b_get_as. do 3 go_step. apply wp_intro.
  intros o w' E. pose proof (wp_elim _ _ _ _ _ (get_spec (key_of k) w) E) as (Hv & Hh & Hd & Ho).
  pose proof (get_healthy (key_of k) w) as Hok. rewrite E in Hok. simpl in Hok.
  assert (Rel w' st) as Hr' by by eapply Rel_frame.
  rewrite (rel_doc _ _ Hr k Hk) in Ho, Hok.
  destruct o as [j|e|s]; [..|done].
  - destruct (Hdec j Ho) as [x Hx]. unfold unmarshal. rewrite Hx. go_step. simpl. go_step.
    unfold served. rewrite Ho. naive_solver.
  - destruct (is_not_found e) eqn:En; go_step.
    + rewrite Ho by done. unfold served. naive_solver.
    + split; [|done]. intros Hw. exfalso. specialize (Hok Hw (key_not_dir _ _ _ Hr Hk)).
      destruct (doc st k); [congruence|]. destruct Hok as (e' & ? & ?). congruence.
Qed.

(** *** Specifications of the operations *)

(** A call that reads [x] and changes nothing. *)
Definition reads {A} (w : W) (st : store) (x : A) (o : outcome A) (w' : W) : Prop :=
  served w o w' ∧ Rel w' st ∧
  match o with Ok y => y = x | Err _ => True | Panic _ => False end.

(** A call that takes the store from [st] to [st'], or fails. *)
Definition writes (w : W) (st st' : store) (o : outcome unit) (w' : W) : Prop :=
  served w o w' ∧
  match o with Ok _ => Rel w' st' | Err _ => Rel w' st ∨ Rel w' st' | Panic _ => False end.

Lemma served_Ok {A B} w (a : A) (b : B) w' : served w (Ok a) w' → served w (Ok b) w'.
Proof. intros Hs Hw. destruct (Hs Hw). eauto. Qed.

Lemma served_Err {A B} w e e' w' : served w (@Err A e) w' → served w (@Err B e') w'.
Proof. intros Hs Hw. destruct (Hs Hw) as [_ [??]]. done. Qed.

Lemma served_wrap {A} w (o : outcome A) fmt w' :
  served w o w' → served w (wrap_outcome fmt o) w'.
Proof. intros Hs Hw. destruct (Hs Hw) as [? [a ->]]. simpl. eauto. Qed.

Lemma reads_wrap {A} fmt (m : M W A) w st x :
  wp m w (reads w st x) → wp (wrap fmt m) w (reads w st x).
Proof.
  intros Hm. go_step. go_call Hm. intros o w' _ (Hs & Hr & Ho).
  split; [by apply served_wrap|]. by destruct o.
Qed.

Lemma writes_wrap fmt (m : M W unit) w st st' :
  wp m w (writes w st st') → wp (wrap fmt m) w (writes w st st').
Proof.
  intros Hm. go_step. go_call Hm. intros o w' _ (Hs & Ho).
  split; [by apply served_wrap|]. by destruct o.
Qed.

Lemma kv_key_path n : simple_name n = true → kv_key (path ps) n = path (ps ++ [n]).
Proof. intros. by apply Join_path. Qed.

Lemma Join_ps cs n :
  Forall (λ n, simple_name n = true) cs → simple_name n = true →
  Join [path (ps ++ cs); n] = path (ps ++ cs ++ [n]).
Proof.
  intros. rewrite Join_path, <-app_assoc; [done| |by apply Forall_app_2|done].
  intros [-> _]%app_eq_nil. done.
Qed.

Lemma root_key n : simple_name n = true → volumeRootKey (path ps) n = path (ps ++ ["volumes"; n]).
Proof.
  intros Hn. unfold volumeRootKey. rewrite kv_key_path by done.
  by rewrite Join_ps by auto with keys.
Qed.

Lemma host_key id : simple_name id = true → hostKey (path ps) id = key_of (KHost id).
Proof.
  intros Hn. unfold hostKey. rewrite kv_key_path by done.
  by rewrite Join_ps by auto with keys.
Qed.

Lemma settings_key : settingsKey (path ps) = key_of KSettings.
Proof. by apply kv_key_path. Qed.

Lemma volume_keys n :
  simple_name n = true →
  let root := path (ps ++ ["volumes"; n]) in
  VolumeKey_Base root = key_of (KBase n) ∧
  VolumeKey_Controller root = key_of (KCtrl n) ∧
  VolumeKey_Replicas root = path (ps ++ ["volumes"; n; "instances"; "replicas"]) ∧
  ∀ r, simple_name r = true → VolumeKey_Replica root r = key_of (KRep n r).
Proof.
  intros Hn root. unfold VolumeKey_Base, VolumeKey_Controller, VolumeKey_Replica,
    VolumeKey_Replicas, VolumeKey_Instances. subst root.
  split_and!; intros; rewrite !Join_ps by eauto 10 with keys; done.
Qed.

Lemma SetHost_spec h st w :
  Rel w st → simple_name (h_UUID h) = true →
  wp (SetHost (path ps) h) w (writes w st (put_host h st)).
Proof.
  intros Hr Hh. unfold SetHost. rewrite host_key by done.
  apply set_key; [done..| |apply doc_put_host].
  apply wf_put_host; [apply Hr|done].
Qed.

Lemma SetSettings_spec s st w :
  Rel w st → wp (SetSettings (path ps) s) w (writes w st (put_settings s st)).
Proof.
  intros Hr. unfold SetSettings. rewrite settings_key.
  apply set_key; [done..| |apply doc_put_settings]. apply wf_put_settings, Hr.
Qed.

Lemma SetVolumeBase_spec v st w :
  Rel w st → simple_name (v_Name v) = true → volume_in_range v →
  wp (SetVolumeBase (path ps) v) w (writes w st (put_base (v_Name v) (Some (base_of v)) st)).
Proof.
  intros Hr Hn Hv. unfold SetVolumeBase. rewrite root_key by done.
  destruct (volume_keys (v_Name v) Hn) as (-> & _).
  apply set_key; [done..| |apply doc_put_base]. apply wf_put_base; [apply Hr|done..].
Qed.

Lemma simple_nonempty n : simple_name n = true → String.eqb n "" = false.
Proof. intros Hn%simple_name_spec. apply String.eqb_neq. naive_solver. Qed.

Lemma SetVolumeController_spec c st w :
  Rel w st → simple_name (i_VolumeName (c_Instance c)) = true →
  wp (SetVolumeController (path ps) c) w
     (writes w st (put_ctrl (i_VolumeName (c_Instance c)) (Some c) st)).
Proof.
  intros Hr Hn. unfold SetVolumeController. rewrite simple_nonempty, root_key by done.
  destruct (volume_keys _ Hn) as (_ & -> & _).
  apply set_key; [done..| |apply doc_put_ctrl]. apply wf_put_ctrl; [apply Hr|done].
Qed.

Lemma SetVolumeReplica_spec x st w :
  let n := i_VolumeName (r_Instance x) in
  Rel w st → simple_name n = true → simple_name (r_Name x) = true →
  wp (SetVolumeReplica (path ps) x) w
     (writes w st (put_reps n (<[r_Name x:=x]> (st_reps st n)) st)).
Proof.
  intros n Hr Hn Hx. unfold SetVolumeReplica. fold n.
  rewrite simple_nonempty, root_key by done.
  destruct (volume_keys _ Hn) as (_ & _ & _ & ->); [|done].
  apply set_key; [done..| |apply doc_insert_rep]. apply wf_put_rep; [apply Hr|done..].
Qed.

Lemma DeleteVolumeController_spec n st w :
  Rel w st → simple_name n = true →
  wp (DeleteVolumeController (path ps) n) w (writes w st (put_ctrl n None st)).
Proof.
  intros Hr Hn. apply writes_wrap. rewrite root_key by done.
  destruct (volume_keys _ Hn) as (_ & -> & _).
  apply delete_keys; [done|by apply (comps_simple (KCtrl n))|apply wf_drop_ctrl, Hr|].
  intros k. rewrite doc_put_ctrl. apply decide_ext. symmetry. apply (comps_prefix (KCtrl n)).
Qed.

Lemma DeleteVolumeReplica_spec n r st w :
  Rel w st → simple_name n = true → simple_name r = true →
  wp (DeleteVolumeReplica (path ps) n r) w
     (writes w st (put_reps n (delete r (st_reps st n)) st)).
Proof.
  intros Hr Hn Hx. apply writes_wrap. rewrite root_key by done.
  destruct (volume_keys _ Hn) as (_ & _ & _ & ->); [|done].
  apply delete_keys; [done|by apply (comps_simple (KRep n r))| |].
  - apply wf_sub_reps; [apply Hr|apply delete_subseteq].
  - intros k. rewrite doc_delete_rep. apply decide_ext. symmetry. apply (comps_prefix (KRep n r)).
Qed.

Lemma DeleteVolumeReplicas_spec n st w :
  Rel w st → simple_name n = true →
  wp (DeleteVolumeReplicas (path ps) n) w (writes w st (put_reps n ∅ st)).
Proof.
  intros Hr Hn. apply writes_wrap. rewrite root_key by done.
  destruct (volume_keys _ Hn) as (_ & _ & -> & _).
  apply delete_keys; [done|auto 10 with keys|apply wf_sub_reps; [apply Hr|apply map_empty_subseteq]|].
  apply doc_drop_reps.
Qed.

Lemma DeleteVolume_spec n st w :
  Rel w st → simple_name n = true →
  wp (DeleteVolume (path ps) n) w (writes w st (drop_volume n st)).
Proof.
  intros Hr Hn. apply writes_wrap. rewrite root_key by done.
  apply delete_keys; [done|auto 10 with keys| |apply doc_drop_volume].
  apply wf_sub_reps; [apply wf_drop_ctrl, wf_drop_base, Hr|apply map_empty_subseteq].
Qed.

Lemma get_doc {T} `{JSONOk T} k (x : option T) st w :
  Rel w st → simple_key k → doc st k = to_json <$> x → (∀ y, x = Some y → in_range y) →
  wp (get_or_nil of_json (key_of k)) w (reads w st x).
Proof.
  intros Hr Hk Hd Hx. eapply wp_mono; [eapply (get_key of_json k st w); [done..|]|].
  - intros j Hj. rewrite Hd in Hj. destruct x as [y|]; [|done]. simplify_eq/=.
    rewrite json_roundtrip by auto. eauto.
  - intros o w' _ (Hs & Hr' & Ho). split_and!; [done..|]. destruct o; [|done..]. subst.
    rewrite Hd. destruct x as [y|]; [|done]. simpl. by rewrite json_roundtrip by auto.
Qed.

Lemma GetHost_spec id st w :
  Rel w st → simple_name id = true →
  wp (GetHost (path ps) id) w (reads w st (st_hosts st !! id)).
Proof.
  intros Hr Hn. apply reads_wrap. unfold getHostByKey. rewrite host_key by done.
  by apply get_doc.
Qed.

Lemma GetVolumeController_spec n st w :
  Rel w st → simple_name n = true →
  wp (GetVolumeController (path ps) n) w (reads w st (st_ctrl st n)).
Proof.
  intros Hr Hn. apply reads_wrap. unfold getVolumeControllerByKey. rewrite root_key by done.
  destruct (volume_keys _ Hn) as (_ & -> & _). by apply get_doc.
Qed.

Lemma GetVolumeReplica_spec n r st w :
  Rel w st → simple_name n = true → simple_name r = true →
  wp (GetVolumeReplica (path ps) n r) w (reads w st (st_reps st n !! r)).
Proof.
  intros Hr Hn Hx. apply reads_wrap. unfold getVolumeReplicaByKey. rewrite root_key by done.
  destruct (volume_keys _ Hn) as (_ & _ & _ & ->); [|done]. by apply get_doc.
Qed.

Lemma base_in_range st n v : store_wf st → st_base st n = Some v → volume_in_range v.
Proof. intros Hwf Hv. apply (wf_base _ Hwf) in Hv. naive_solver. Qed.

Lemma getVolumeBase_spec n st w :
  Rel w st → simple_name n = true →
  wp (getVolumeBaseByKey (key_of (KBase n))) w (reads w st (st_base st n)).
Proof.
  intros Hr Hn. unfold getVolumeBaseByKey. go_step.
  go_call (get_doc (KBase n) (st_base st n) st w); [done..| |].
  { intros v Hv. eapply base_in_range; [apply Hr|done]. }
  intros [x|e|s] w' _ (Hs & Hr' & Ho); [..|done].
  - subst x. destruct (st_base st n) as [v|] eqn:Hv.
    + destruct (wf_base _ (rel_wf _ _ Hr) _ _ Hv) as (_ & _ & -> & -> & _).
      go_step. split; [by eapply served_Ok|done].
    + go_step. split; [by eapply served_Ok|done].
  - split; [by eapply served_Err|done].
Qed.

Lemma GetVolumeBase_spec n st w :
  Rel w st → simple_name n = true →
  wp (GetVolumeBase (path ps) n) w (reads w st (st_base st n)).
Proof.
  intros Hr Hn. apply reads_wrap. rewrite root_key by done.
  destruct (volume_keys _ Hn) as (-> & _). by apply getVolumeBase_spec.
Qed.

Lemma GetSettings_spec st w :
  Rel w st → wp (GetSettings (path ps)) w (reads w st (st_settings st)).
Proof.
  intros Hr. unfold GetSettings. rewrite settings_key.
  assert (Hg : wp (get_or_nil (λ j, dec_ptr (Some j)) (key_of KSettings)) w
                  (reads w st (Some <$> st_settings st))).
  { eapply wp_mono; [eapply (get_key _ KSettings st w); [done..|]|].
    - simpl. intros j Hj. destruct (st_settings st) as [[]|]; simplify_eq/=. eauto.
    - intros o w' _ (Hs & Hr' & Ho). split_and!; [done..|]. destruct o; [|done..]. subst.
      simpl. by destruct (st_settings st) as [[]|]. }
  unfold get_or_nil, wp, mbind, M_bind, attempt in *.
  destruct (b_get_as _ _ w) as [[a|e|s] w1]; simpl in *.
  - destruct Hg as (Hs & Hr' & Ho). split_and!; [by eapply served_Ok|done|].
    destruct (st_settings st); simplify_eq/=; done.
  - destruct (is_not_found e); simpl in *; destruct Hg as (Hs & Hr' & Ho);
      (split_and!; [first [by eapply served_Ok|by eapply served_Err]|done|]);
      destruct (st_settings st); done.
  - by destruct Hg as (_ & _ & []).
Qed.
End Rel.
