(* ===== verification/KVVolumes.v ===== *)
(** * Listings and whole volumes

    The operations that enumerate keys: [ListHosts], [GetVolume], [ListVolumes],
    and [SetVolume], which writes a volume with its instances. *)

From stdpp Require Import base functions list gmap strings.
From Stdlib Require Import ZArith Lia Ascii.
From S2P Require Import Prelude GoStrings Json Types Codec Backend KVStore KVSpec.
Local Open Scope string_scope.
Local Open Scope list_scope.

Section Volumes.
Context {W : Type} `{BackendSpec W} `{MapOrder}.
Context (ps : list string).
Hypothesis ps_nonempty : ps ≠ [].
Hypothesis ps_simple : Forall (λ n, simple_name n = true) ps.
Implicit Types (w : W) (st : store).

Local Abbreviation Rel := (Rel ps).
Local Abbreviation key_of := (key_of ps).
Local Abbreviation reads := (reads ps).
Local Abbreviation writes := (writes ps).

(** Every node listed under a directory of the store is one more component. *)
Lemma child_key cs k w st :
  Rel w st → Forall (λ n, simple_name n = true) cs →
  is_child (path (ps ++ cs)) k → is_dir w k ∨ is_Some (view w !! k) →
  ∃ c sk, simple_name c = true ∧ k = path (ps ++ cs ++ [c]) ∧ simple_key sk ∧
          cs ++ [c] `prefix_of` comps sk.
Proof.
  intros Hr Hcs [c Hc] Hk.
  assert (∃ sk, simple_key sk ∧ under k (key_of sk)) as (sk & Hsk & Hu).
  { destruct Hk as [(sk & ? & ? & ?)%(rel_dirs _ _ _ Hr)|(sk & ? & ->)%(rel_keys _ _ _ Hr)];
      eauto using under_refl. }
  unfold under in Hu. rewrite Hc in Hu. unfold KVSpec.key_of in Hu.
  rewrite !Split_path in Hu by (auto using Forall_app_2, comps_simple).
  assert (Hp : cs ++ [c] `prefix_of` comps sk).
  { apply prefix_app_inv with ps. rewrite app_assoc. by apply (prefix_cons_inv_2 "" ""). }
  assert (Hs : Forall (λ n, simple_name n = true) (cs ++ [c])).
  { destruct Hp as [l Hl]. pose proof (comps_simple sk Hsk) as Hf. rewrite Hl in Hf.
    by apply Forall_app in Hf as [? _]. }
  exists c, sk. split_and!; [apply Forall_app in Hs as [_ Hs]; by inversion Hs| |done..].
  apply (Split_inj "/"). rewrite Hc, !Split_path by (auto using Forall_app_2).
  simpl. by rewrite <-app_assoc.
Qed.

Lemma keys_children cs w st :
  Rel w st → Forall (λ n, simple_name n = true) cs → (∀ sk, comps sk ≠ cs) →
  wp (b_keys (path (ps ++ cs))) w (λ o w', served w o w' ∧ Rel w' st ∧
    match o with
    | Ok l => ∃ names, l = (λ c, path (ps ++ cs ++ [c])) <$> names ∧ NoDup names ∧
        Forall (λ c, simple_name c = true ∧
                     ∃ sk, simple_key sk ∧ cs ++ [c] `prefix_of` comps sk) names ∧
        ∀ sk c, simple_key sk → is_Some (doc st sk) → cs ++ [c] `prefix_of` comps sk → c ∈ names
    | Err _ => True
    | Panic _ => False
    end).
Proof.
  intros Hr Hcs Hno. apply wp_intro. intros o w' E.
  pose proof (wp_elim _ _ _ _ _ (keys_spec _ w) E) as (Hv & Hh & Hd & Ho).
  assert (Rel w' st) as Hr' by by eapply Rel_frame.
  assert (Hfile : view w !! path (ps ++ cs) = None).
  { destruct (view w !! _) eqn:Ef; [|done].
    destruct (rel_keys _ _ _ Hr (path (ps ++ cs))) as (sk & Hsk & Hp); [eauto|].
    apply path_inj in Hp; [|by apply Forall_app_2|by apply key_simple].
    apply app_inv_head in Hp. by destruct (Hno sk). }
  split_and!; [|done|].
  - intros Hw. split; [auto|]. destruct (keys_healthy _ w Hw Hfile) as [l Hl].
    rewrite E in Hl. simpl in Hl. eauto.
  - destruct o as [l|e|s]; [|done..]. destruct Ho as (Hnd & Hall & Hcomp).
    assert (∃ names, l = (λ c, path (ps ++ cs ++ [c])) <$> names ∧
        Forall (λ c, simple_name c = true ∧
                     ∃ sk, simple_key sk ∧ cs ++ [c] `prefix_of` comps sk) names)
      as (names & -> & Hnames).
    { clear Hnd Hcomp E Hh. induction Hall as [|k l [Hc Hk] _ (names & -> & Hn)].
      - by exists [].
      - destruct (child_key cs k w st Hr Hcs Hc Hk) as (c & sk & ? & -> & ? & ?).
        exists (c :: names). split; [done|]. constructor; eauto. }
    exists names. split_and!; [done|by eapply NoDup_fmap_1|done|].
    intros sk c Hsk [j Hj] Hp.
    assert (Hcc : Forall (λ n, simple_name n = true) (cs ++ [c])).
    { destruct Hp as [l Hl]. pose proof (comps_simple sk Hsk) as Hf. rewrite Hl in Hf.
      by apply Forall_app in Hf as [? _]. }
    destruct (Hcomp (key_of sk)) as (k & Hk & Hu).
    + rewrite (rel_doc _ _ _ Hr) by done. eauto.
    + apply under_key; [done..|]. etrans; [by apply prefix_app_r|exact Hp].
    + intros Heq. apply path_inj in Heq; [|by apply key_simple|by apply Forall_app_2].
      apply app_inv_head in Heq. by destruct (Hno sk).
    + apply list_elem_of_fmap in Hk as (c' & -> & Hc').
      rewrite Forall_forall in Hnames. destruct (Hnames c' Hc') as [Hs' _].
      apply under_key in Hu; [|done|by auto using Forall_app_2|done].
      destruct Hp as [l1 Hl1], Hu as [l2 Hl2]. rewrite Hl1 in Hl2.
      rewrite <-!app_assoc in Hl2. apply app_inv_head in Hl2. by simplify_eq/=.
Qed.

(** ** Hosts *)

Lemma ListHosts_loop_spec names acc w st :
  Rel w st → Forall (λ c, simple_name c = true) names →
  wp (ListHosts_loop ((λ c, key_of (KHost c)) <$> names) acc) w
     (reads w st (collect (λ c, st_hosts st !! c) h_UUID names acc)).
Proof.
  intros Hr Hn. revert acc w Hr. induction Hn as [|c names Hc _ IH]; intros acc w Hr; simpl.
  - go_step. split_and!; [intros Hw; eauto|done..].
  - go_step. go_call (reads_wrap ps "invalid key %v" (getHostByKey (key_of (KHost c))) w st).
    { by apply (get_doc ps ps_simple (KHost c)). }
    intros [x|e|s] w' _ (Hs & Hr' & Ho); [..|done].
    + subst x. go_call (IH _ w' Hr'). intros o w'' _ (Hs' & Hr'' & Ho').
      split_and!; [|done..]. intros Hw. apply Hs'. by apply Hs.
    + split_and!; [by eapply served_Err|done..].
Qed.

Lemma ListHosts_spec w st :
  Rel w st → wp (ListHosts (path ps)) w (reads w st (st_hosts st)).
Proof.
  intros Hr. unfold ListHosts. rewrite kv_key_path by done. go_step.
  eapply wp_mono; [apply (keys_children ["hosts"] w st Hr); [auto with keys|]|].
  { by intros []. }
  intros [l|e|s] w' _ (Hs & Hr' & Ho); [..|done].
  - destruct Ho as (names & -> & Hnd & Hall & Hcomp).
    assert (Hsn : Forall (λ c, simple_name c = true) names).
    { eapply Forall_impl; [exact Hall|]. naive_solver. }
    go_call (ListHosts_loop_spec names ∅ w' st Hr' Hsn).
    intros o w'' _ (Hs' & Hr'' & Ho'). split_and!; [|done|].
    + intros Hw. apply Hs'. by apply Hs.
    + destruct o; [|done..]. subst. apply collect_all. intros id h Hh.
      destruct (wf_host _ (rel_wf _ _ _ Hr) _ _ Hh) as [<- Hsi]. split; [done|].
      apply (Hcomp (KHost (h_UUID h))); [done| |done]. simpl. rewrite Hh. eauto.
  - split_and!; [by eapply served_Err|done..].
Qed.

(** ** Volumes *)

Lemma replicas_loop_spec n names acc w st :
  Rel w st → simple_name n = true → Forall (λ c, simple_name c = true) names →
  wp (getVolumeReplicas_loop ((λ c, key_of (KRep n c)) <$> names) acc) w
     (reads w st (collect (λ c, st_reps st n !! c) r_Name names acc)).
Proof.
  intros Hr Hn Hns. revert acc w Hr. induction Hns as [|c names Hc _ IH]; intros acc w Hr; simpl.
  - go_step. split_and!; [intros Hw; eauto|done..].
  - go_step. go_call (get_doc ps ps_simple (KRep n c) (st_reps st n !! c) st w); [done..|].
    intros [x|e|s] w' _ (Hs & Hr' & Ho); [..|done].
    + subst x. go_call (IH _ w' Hr'). intros o w'' _ (Hs' & Hr'' & Ho').
      split_and!; [|done..]. intros Hw. apply Hs'. by apply Hs.
    + split_and!; [by eapply served_Err|done..].
Qed.

Lemma getVolumeReplicasByKey_spec n w st :
  Rel w st → simple_name n = true →
  wp (getVolumeReplicasByKey (path (ps ++ ["volumes"; n; "instances"; "replicas"]))) w
     (reads w st (st_reps st n)).
Proof.
  intros Hr Hn. unfold getVolumeReplicasByKey. go_step.
  eapply wp_mono; [apply (keys_children ["volumes"; n; "instances"; "replicas"] w st Hr)|].
  { auto 10 with keys. }
  { by intros []. }
  intros [l|e|s] w' _ (Hs & Hr' & Ho); [..|done].
  - destruct Ho as (names & -> & Hnd & Hall & Hcomp).
    assert (Hsn : Forall (λ c, simple_name c = true) names).
    { eapply Forall_impl; [exact Hall|]. naive_solver. }
    go_call (replicas_loop_spec n names ∅ w' st Hr' Hn Hsn).
    intros o w'' _ (Hs' & Hr'' & Ho'). split_and!; [|done|].
    + intros Hw. apply Hs'. by apply Hs.
    + destruct o; [|done..]. subst. apply collect_all. intros r x Hx.
      destruct (wf_rep _ (rel_wf _ _ _ Hr) _ _ _ Hx) as (<- & _ & _ & Hsr). split; [done|].
      apply (Hcomp (KRep n (r_Name x))); [done| |done]. simpl. rewrite Hx. eauto.
  - split_and!; [by eapply served_Err|done..].
Qed.

Lemma reads_bind {A B} (m : M W A) (f : A → M W B) x y w st :
  wp m w (reads w st x) → (∀ w', Rel w' st → wp (f x) w' (reads w' st y)) →
  wp (m ≫= f) w (reads w st y).
Proof.
  intros Hm Hf. go_step. go_call Hm.
  intros [a|e|s] w' _ (Hs & Hr & Ho); [..|done].
  - subst a. go_call (Hf w' Hr). intros o w'' _ (Hs' & ? & ?).
    split_and!; [|done..]. intros Hw. apply Hs'. by apply Hs.
  - split_and!; [by eapply served_Err|done..].
Qed.

Lemma reads_ret {A} (x : A) w st : Rel w st → wp (mret x) w (reads w st x).
Proof. intros Hr. go_step. split_and!; [intros Hw; eauto|done..]. Qed.

Lemma getVolumeByKey_spec n w st :
  Rel w st → simple_name n = true →
  wp (getVolumeByKey (path (ps ++ ["volumes"; n]))) w (reads w st (vol_of st n)).
Proof.
  intros Hr Hn. unfold getVolumeByKey.
  destruct (volume_keys ps ps_nonempty ps_simple n Hn) as (-> & -> & -> & _).
  eapply reads_bind; [by apply getVolumeBase_spec|]. intros w1 Hr1. unfold vol_of.
  destruct (st_base st n) as [v|]; [|by apply reads_ret].
  eapply reads_bind; [by apply (get_doc ps ps_simple (KCtrl n))|]. intros w2 Hr2.
  eapply reads_bind; [by apply getVolumeReplicasByKey_spec|]. intros w3 Hr3.
  by apply reads_ret.
Qed.

Lemma GetVolume_spec n w st :
  Rel w st → simple_name n = true →
  wp (GetVolume (path ps) n) w (reads w st (vol_of st n)).
Proof.
  intros Hr Hn. apply reads_wrap. rewrite root_key by done. by apply getVolumeByKey_spec.
Qed.

Lemma ListVolumes_loop_spec names acc w st :
  Rel w st → Forall (λ c, simple_name c = true) names →
  wp (ListVolumes_loop ((λ c, path (ps ++ ["volumes"; c])) <$> names) acc) w
     (reads w st (acc ++ omap (vol_of st) names)).
Proof.
  intros Hr Hn. revert acc w Hr. induction Hn as [|c names Hc _ IH]; intros acc w Hr; simpl.
  - rewrite app_nil_r. by apply reads_ret.
  - eapply reads_bind; [by apply reads_wrap, getVolumeByKey_spec|]. intros w' Hr'.
    destruct (vol_of st c) as [v|]; [|by apply IH].
    go_call (IH (acc ++ [v]) w' Hr'). intros o w'' _. by rewrite <-app_assoc.
Qed.

(** [ListVolumes] returns every volume once. *)
Lemma ListVolumes_spec w st :
  Rel w st →
  wp (ListVolumes (path ps)) w (λ o w', served w o w' ∧ Rel w' st ∧
    match o with
    | Ok l => ∃ names, NoDup names ∧ l = omap (vol_of st) names ∧
                       ∀ n, is_Some (vol_of st n) → n ∈ names
    | Err _ => True
    | Panic _ => False
    end).
Proof.
  intros Hr. unfold ListVolumes. rewrite kv_key_path by done. do 2 go_step.
  eapply wp_mono; [apply (keys_children ["volumes"] w st Hr); [auto with keys|]|].
  { by intros []. }
  intros [l|e|s] w' _ (Hs & Hr' & Ho); [..|done].
  - destruct Ho as (names & -> & Hnd & Hall & Hcomp).
    assert (Hsn : Forall (λ c, simple_name c = true) names).
    { eapply Forall_impl; [exact Hall|]. naive_solver. }
    simpl. go_call (ListVolumes_loop_spec names [] w' st Hr' Hsn).
    intros o w'' _ (Hs' & Hr'' & Ho'). split_and!; [|done|].
    + intros Hw. apply Hs'. by apply Hs.
    + destruct o; [|done..]. exists names. split_and!; [done|done|].
      unfold vol_of. intros n [v Hv]. destruct (st_base st n) as [b|] eqn:Hb; [|done].
      apply (Hcomp (KBase n)); [|simpl; rewrite Hb; eauto|by exists ["base"]].
      destruct (wf_base _ (rel_wf _ _ _ Hr) _ _ Hb) as (_ & ? & _). done.
  - split_and!; [by eapply served_Err|done..].
Qed.

(** ** Writing a whole volume *)

(** The instances of a volume carry its name, and a replica its own key. *)
Record volume_wf (v : VolumeInfo) : Prop := {
  vw_name : simple_name (v_Name v) = true;
  vw_range : volume_in_range v;
  vw_ctrl : ∀ c, v_Controller v = Some c → i_VolumeName (c_Instance c) = v_Name v;
  vw_reps : ∀ r x, replicas_of v !! r = Some x →
    r_Name x = r ∧ i_VolumeName (r_Instance x) = v_Name v ∧ simple_name r = true;
}.

(** A call that may change the volume [n] only. *)
Definition frames (n : string) (w : W) (st : store) (Q : store → Prop)
    (o : outcome unit) (w' : W) : Prop :=
  served w o w' ∧ (∀ s, o ≠ Panic s) ∧
  ∃ st', Rel w' st' ∧ same_except n st st' ∧ (∀ a, o = Ok a → Q st').

Lemma writes_frames n w st st' o w' (Q : store → Prop) :
  writes w st st' o w' → same_except n st st' → Q st' → frames n w st Q o w'.
Proof.
  intros (Hs & Ho) Hsame HQ. split; [done|]. destruct o as [a|e|s]; [..|done].
  - split; [done|]. exists st'. naive_solver.
  - split; [done|]. destruct Ho as [Hr|Hr]; [exists st|exists st']; naive_solver.
Qed.

Lemma frames_bind n (m k : M W unit) w st (P Q : store → Prop) :
  wp m w (frames n w st P) →
  (∀ w' st', Rel w' st' → P st' → wp k w' (frames n w' st' Q)) →
  wp (m;; k) w (frames n w st Q).
Proof.
  intros Hm Hk. go_step. go_call Hm. intros [a|e|s] w' _ (Hs & Hp & st' & Hr & Hsame & HP).
  - go_call (Hk w' st' Hr (HP a eq_refl)). intros o w'' _ (Hs' & Hp' & st'' & ? & ? & ?).
    split_and!; [intros Hw; apply Hs'; by apply Hs|done|].
    exists st''. split_and!; [done|by etrans|done].
  - split_and!; [by eapply served_Err|done|]. exists st'. naive_solver.
  - by destruct (Hp s).
Qed.

Lemma frames_ret n w st (Q : store → Prop) : Rel w st → Q st → wp (mret tt) w (frames n w st Q).
Proof. intros Hr HQ. go_step. split_and!; [intros Hw; eauto|done|]. exists st. naive_solver. Qed.

Lemma frames_wrap n fmt (m : M W unit) w st Q :
  wp m w (frames n w st Q) → wp (wrap fmt m) w (frames n w st Q).
Proof.
  intros Hm. go_step. go_call Hm. intros o w' _ (Hs & Hp & st' & ? & ? & ?).
  split_and!; [by apply served_wrap|by destruct o|]. exists st'.
  split_and!; [done..|]. by destruct o.
Qed.

Lemma SetVolumeReplicas_loop n l st w :
  Rel w st → simple_name n = true →
  Forall (λ kr : string * ReplicaInfo,
    i_VolumeName (r_Instance kr.2) = n ∧ simple_name (r_Name kr.2) = true) l →
  wp (mfor (λ kr, wrap "unable to set volume's replicas: %+v"
                    (SetVolumeReplica (path ps) kr.2)) l) w
     (frames n w st (λ st', st' ≡ put_reps n
        (collect (λ kr, Some kr.2) r_Name l (st_reps st n)) st)).
Proof.
  intros Hr Hn Hl. revert st w Hr. induction Hl as [|[k x] l [Hv Hx] _ IH]; intros st w Hr; simpl.
  - apply frames_ret; [done|]. split_and!; try done. intros m. simpl.
    destruct (decide (n = m)) as [<-|]; by rewrite ?fn_lookup_insert, ?fn_lookup_insert_ne.
  - simpl in *. eapply frames_bind.
    + apply frames_wrap. go_call (SetVolumeReplica_spec ps ps_nonempty ps_simple x st w);
        [done|by rewrite Hv|done|].
      intros o w' _ Ho. eapply (writes_frames n _ _ _ _ _ (λ st', st' = _)); [exact Ho| |done].
      rewrite Hv. auto with keys.
    + intros w' st' Hr' ->. rewrite Hv. go_call (IH _ w'); [by rewrite Hv in Hr'|].
      intros o w'' _ (Hs & Hp & st'' & ? & ? & HQ). split_and!; [done..|].
      exists st''. split_and!; [done..|]. intros a Ha. rewrite (HQ a Ha). simpl.
      rewrite fn_lookup_insert. split_and!; try done. intros m. simpl.
      destruct (decide (n = m)) as [<-|]; [by rewrite !fn_lookup_insert|].
      by rewrite !fn_lookup_insert_ne.
Qed.

Lemma collect_range (m : gmap string ReplicaInfo) :
  (∀ r x, m !! r = Some x → r_Name x = r) →
  collect (λ kr : string * ReplicaInfo, Some kr.2) r_Name (range m) ∅ = m.
Proof.
  intros Hm. apply map_eq. intros r. apply option_eq. intros x.
  assert (Hin : ∀ kr, kr ∈ range m → m !! r_Name kr.2 = Some kr.2).
  { intros [k y] Hk%elem_of_range. simpl. by rewrite (Hm k y Hk). }
  rewrite collect_lookup.
  - rewrite lookup_empty. split.
    + intros [?|(kr & Hk%Hin & ? & <-)]; [done|]. by simplify_eq/=.
    + intros Hx. right. exists (r, x). rewrite elem_of_range. split_and!; auto.
  - intros k1 k2 x1 x2 H1'%Hin H2'%Hin ? ? Heq. simplify_eq/=. rewrite Heq in H1'. congruence.
  - intros ? ? ? _ _. by rewrite lookup_empty.
Qed.

Lemma SetVolume_spec v st w :
  Rel w st → volume_wf v →
  wp (SetVolume (path ps) v) w (frames (v_Name v) w st (λ st', st' ≡ put_volume v st)).
Proof.
  intros Hr [Hn Hrange Hc Hrs]. unfold SetVolume. apply frames_wrap.
  eapply frames_bind.
  { go_call (SetVolumeBase_spec ps ps_nonempty ps_simple v st w); [done..|].
    intros o w' _ Ho. eapply (writes_frames _ _ _ _ _ _ (λ st', st' = _)); [exact Ho| |done].
    auto with keys. }
  intros w1 ? Hr1 ->. eapply frames_bind.
  { go_call (DeleteVolumeController_spec ps ps_nonempty ps_simple (v_Name v) _ w1); [done..|].
    intros o w' _ Ho. eapply (writes_frames _ _ _ _ _ _ (λ st', st' = _)); [exact Ho| |done].
    auto with keys. }
  intros w2 ? Hr2 ->.
  eapply (frames_bind _ _ _ _ _ (λ st', st' ≡ put_ctrl (v_Name v) (v_Controller v)
            (put_base (v_Name v) (Some (base_of v)) st))).
  { destruct (v_Controller v) as [c|] eqn:Ec.
    - go_call (SetVolumeController_spec ps ps_nonempty ps_simple c _ w2); [done|by rewrite (Hc c)|].
      intros o w' _ Ho. rewrite (Hc c eq_refl) in Ho.
      eapply writes_frames; [exact Ho|auto with keys|].
      split_and!; try done. intros m. simpl.
      destruct (decide (v_Name v = m)) as [<-|]; [by rewrite !fn_lookup_insert|].
      by rewrite !fn_lookup_insert_ne.
    - by apply frames_ret. }
  intros w3 st3 Hr3 Hst3. eapply frames_bind.
  { go_call (DeleteVolumeReplicas_spec ps ps_nonempty ps_simple (v_Name v) _ w3); [done..|].
    intros o w' _ Ho. eapply (writes_frames _ _ _ _ _ _ (λ st', st' = _)); [exact Ho| |done].
    auto with keys. }
  intros w4 ? Hr4 ->.
  assert (Hfin : ∀ m, m = replicas_of v → ∀ st', st' ≡ put_reps (v_Name v) m
            (put_reps (v_Name v) ∅ st3) → st' ≡ put_volume v st).
  { intros m -> st' ->. destruct Hst3 as (?&?&?&?&?). split_and!; try done. intros m. simpl.
    destruct (decide (v_Name v = m)) as [<-|]; [by rewrite !fn_lookup_insert|].
    rewrite !fn_lookup_insert_ne by done. done. }
  unfold replicas_of in *. destruct (v_Replicas v) as [rs|] eqn:Ers.
  - unfold SetVolumeReplicas. go_call (SetVolumeReplicas_loop (v_Name v) (range rs) _ w4); [done|done| |].
    { apply Forall_forall. intros [k x] Hk%elem_of_range. simpl.
      destruct (Hrs k x Hk) as (-> & -> & ?). done. }
    intros o w' _ (Hs & Hp & st'' & ? & ? & HQ). split_and!; [done..|]. exists st''.
    split_and!; [done..|]. intros a Ha. eapply (Hfin rs); [done|]. rewrite (HQ a Ha).
    simpl. rewrite fn_lookup_insert, collect_range; [done|]. intros r x Hx. by apply Hrs.
  - apply frames_ret; [done|]. apply (Hfin ∅); [done|]. split_and!; try done. intros m. simpl.
    destruct (decide (v_Name v = m)) as [<-|]; [by rewrite !fn_lookup_insert|].
    by rewrite !fn_lookup_insert_ne.
Qed.

(** What [GetVolume] gives back for a stored volume: an empty replica map reads
    back as a nil one. *)
Definition stored (v : VolumeInfo) : VolumeInfo :=
  set_Replicas (if decide (size (replicas_of v) = 0) then None else Some (replicas_of v)) v.

Lemma vol_of_put_volume v st : vol_of (put_volume v st) (v_Name v) = Some (stored v).
Proof. unfold vol_of. simpl. rewrite !fn_lookup_insert. simpl. by destruct v. Qed.

Lemma vol_of_drop n st : vol_of (drop_volume n st) n = None.
Proof. unfold vol_of. simpl. by rewrite !fn_lookup_insert. Qed.

Lemma reads_healthy {A} (m : M W A) w st x :
  wp m w (reads w st x) → healthy w → ∃ w', m w = (Ok x, w') ∧ healthy w' ∧ Rel w' st.
Proof.
  unfold wp. destruct (m w) as [o w']. simpl. intros (Hs & Hr & Ho) Hw.
  destruct (Hs Hw) as [? [a ->]]. subst. eauto.
Qed.

Lemma frames_healthy n (m : M W unit) w st Q :
  wp m w (frames n w st Q) → healthy w →
  ∃ w' st', m w = (Ok tt, w') ∧ healthy w' ∧ Rel w' st' ∧ same_except n st st' ∧ Q st'.
Proof.
  unfold wp. destruct (m w) as [o w']. simpl. intros (Hs & _ & st' & Hr & Hsame & HQ) Hw.
  destruct (Hs Hw) as [? [[] ->]]. eauto 10.
Qed.

Lemma DeleteVolume_frames n w st :
  Rel w st → simple_name n = true →
  wp (DeleteVolume (path ps) n) w (frames n w st (λ st', st' = drop_volume n st)).
Proof.
  intros Hr Hn. go_call (DeleteVolume_spec ps ps_nonempty ps_simple n st w); [done..|].
  intros o w' _ Ho. eapply writes_frames; [exact Ho|apply same_except_drop|done].
Qed.

(** ** Properties *)

(** C14: a volume written with [SetVolume] to an answering backend is read back
    by [GetVolume] as it was written, and every other volume still reads as
    before. *)
Theorem set_volume_get_volume v st w :
  Rel w st → healthy w → volume_wf v →
  ∃ w1, SetVolume (path ps) v w = (Ok tt, w1) ∧
    (∃ w2, GetVolume (path ps) (v_Name v) w1 = (Ok (Some (stored v)), w2)) ∧
    ∀ m, m ≠ v_Name v → simple_name m = true →
      ∃ w2, GetVolume (path ps) m w1 = (Ok (vol_of st m), w2).
Proof.
  intros Hr Hw Hv.
  destruct (frames_healthy _ _ _ _ _ (SetVolume_spec v st w Hr Hv) Hw)
    as (w1 & st1 & E1 & Hw1 & Hr1 & Hsame & Hst1).
  exists w1. split; [done|].
  assert (Hget : ∀ m, simple_name m = true →
    ∃ w2, GetVolume (path ps) m w1 = (Ok (vol_of st1 m), w2)).
  { intros m Hm. destruct (reads_healthy _ _ _ _ (GetVolume_spec m w1 st1 Hr1 Hm) Hw1)
      as (w2 & ? & _). eauto. }
  split.
  - destruct (Hget (v_Name v)) as [w2 E2]; [apply Hv|]. exists w2.
    by rewrite E2, Hst1, vol_of_put_volume.
  - intros m Hm Hs. destruct (Hget m Hs) as [w2 E2]. exists w2.
    by rewrite E2, (same_except_vol _ _ _ _ Hsame Hm).
Qed.

(** After [DeleteVolume] on an answering backend the volume, its controller
    and each of its replicas are gone, and every other volume is untouched. *)
Theorem delete_volume_gone n st w :
  Rel w st → healthy w → simple_name n = true →
  ∃ w1, DeleteVolume (path ps) n w = (Ok tt, w1) ∧
    (∃ w2, GetVolume (path ps) n w1 = (Ok None, w2)) ∧
    (∃ w2, GetVolumeController (path ps) n w1 = (Ok None, w2)) ∧
    (∀ r, simple_name r = true → ∃ w2, GetVolumeReplica (path ps) n r w1 = (Ok None, w2)) ∧
    ∀ m, m ≠ n → simple_name m = true →
      ∃ w2, GetVolume (path ps) m w1 = (Ok (vol_of st m), w2).
Proof.
  intros Hr Hw Hn.
  destruct (frames_healthy _ _ _ _ _ (DeleteVolume_frames n w st Hr Hn) Hw)
    as (w1 & ? & E1 & Hw1 & Hr1 & Hsame & ->).
  exists w1. split; [done|].
  assert (Hrd : ∀ {A} (m : M W A) x, wp m w1 (reads w1 (drop_volume n st) x) →
    ∃ w2, m w1 = (Ok x, w2)).
  { intros A m x Hm. destruct (reads_healthy _ _ _ _ Hm Hw1) as (w2 & ? & _). eauto. }
  split_and!.
  - rewrite <-(vol_of_drop n st). by apply Hrd, GetVolume_spec.
  - apply Hrd. go_call (GetVolumeController_spec ps ps_nonempty ps_simple n _ w1); [done..|].
    intros o w' _. simpl. by rewrite fn_lookup_insert.
  - intros r Hx. apply Hrd.
    go_call (GetVolumeReplica_spec ps ps_nonempty ps_simple n r _ w1); [done..|].
    intros o w' _. simpl. by rewrite fn_lookup_insert, lookup_empty.
  - intros m Hm Hs. rewrite (same_except_vol _ _ _ _ Hsame Hm). by apply Hrd, GetVolume_spec.
Qed.

(** C23: [ListVolumes] on an answering backend returns exactly the stored volumes,
    each of them once. *)
Theorem list_volumes_exact st w :
  Rel w st → healthy w →
  ∃ l w1, ListVolumes (path ps) w = (Ok l, w1) ∧
    NoDup (v_Name <$> l) ∧ ∀ v, v ∈ l ↔ vol_of st (v_Name v) = Some v.
Proof.
  intros Hr Hw. pose proof (ListVolumes_spec w st Hr) as Hl. unfold wp in Hl.
  destruct (ListVolumes (path ps) w) as [o w1]. simpl in Hl.
  destruct Hl as (Hs & _ & Ho). destruct (Hs Hw) as [_ [l ->]].
  destruct Ho as (names & Hnd & -> & Hall). exists (omap (vol_of st) names), w1.
  assert (Hname : ∀ n v, vol_of st n = Some v → v_Name v = n).
  { unfold vol_of. intros n v Hv. destruct (st_base st n) eqn:Hb; [|done]. simplify_eq/=.
    by destruct (wf_base _ (rel_wf _ _ _ Hr) _ _ Hb) as (-> & _). }
  split_and!; [done|..].
  - clear Hall Hs. induction Hnd as [|n names Hn Hnd IH]; simpl; [constructor|].
    destruct (vol_of st n) as [v|] eqn:Ev; simpl; [|done]. constructor; [|done].
    rewrite (Hname _ _ Ev). intros (v' & -> & Hv')%list_elem_of_fmap.
    apply list_elem_of_omap in Hv' as (n' & ? & Hv'). by destruct Hn; rewrite (Hname _ _ Hv').
  - intros v. rewrite list_elem_of_omap. split.
    + intros (n & _ & Hv). by rewrite (Hname _ _ Hv).
    + intros Hv. exists (v_Name v). split; [|done]. apply Hall. eauto.
Qed.

(** Whatever the backend answers, a write of one volume leaves the stored
    data of every other volume as it was, and never panics. *)
Theorem set_volume_isolated v st w o w' :
  Rel w st → volume_wf v → SetVolume (path ps) v w = (o, w') →
  (∀ s, o ≠ Panic s) ∧
  ∃ st', Rel w' st' ∧ ∀ m, m ≠ v_Name v → vol_of st' m = vol_of st m.
Proof.
  intros Hr Hv E. pose proof (wp_elim _ _ _ _ _ (SetVolume_spec v st w Hr Hv) E)
    as (_ & Hp & st' & Hr' & Hsame & _).
  split; [done|]. exists st'. split; [done|]. intros m Hm. symmetry.
  by eapply same_except_vol.
Qed.
End Volumes.


(** ** The properties at a concrete store *)

Module KVDemo.
Definition ps : list string := ["longhorn"].
Definition etcd : EtcdRef.etcd := EtcdRef.mkEtcd ∅ true.
Definition empty_store : store :=
  mkStore ∅ None (λ _, None) (λ _, None) (λ _, ∅).
#[export] Existing Instance list_order.

Definition inst (ty name : string) : InstanceInfo :=
  mkInstance ("id-" +:+ name) ty name "host1" "10.0.0.1" true "vol".
Definition vol : VolumeInfo :=
  mkVolume "vol" 8388608 "" "" 2 0
    (Some (mkController (inst "controller" "vol-controller")))
    (Some {[ "r1" := mkReplica (inst "replica" "r1") "" "";
             "r2" := mkReplica (inst "replica" "r2") "RW" "2017-03-25T02:27:00Z" ]})
    "" "image" "" "2017-03-25T02:25:53Z" [mkJob "nightly" "0 0 * * *" "backup" 3].

Lemma ps_ok : ps ≠ [] ∧ Forall (λ n, simple_name n = true) ps.
Proof. split; [done|]. by repeat constructor. Qed.

Lemma rel_empty : Rel ps etcd empty_store.
Proof.
  split.
  - split; simpl; done.
  - intros [] _; simpl; rewrite ?lookup_empty; done.
  - intros f [j Hf]. simpl in Hf. by rewrite lookup_empty in Hf.
  - intros d Hd. simpl in Hd. by apply EtcdRef.has_below_spec in Hd as (f & [j Hf] & _).
Qed.

Lemma vol_ok : volume_wf vol.
Proof.
  split; simpl.
  - done.
  - split_and!; [done..|]. by repeat constructor.
  - by intros ? [= <-].
  - unfold vol, replicas_of. simpl. intros r x Hx.
    apply lookup_insert_Some in Hx as [[<- <-]|[_ Hx]]; [done|].
    apply lookup_singleton_Some in Hx as [<- <-]. done.
Qed.

Lemma set_volume_get_volume_witness :
  ∃ w1, SetVolume (path ps) vol etcd = (Ok tt, w1) ∧
    (∃ w2, GetVolume (path ps) "vol" w1 = (Ok (Some (stored vol)), w2)) ∧
    ∀ m, m ≠ "vol" → simple_name m = true →
      ∃ w2, GetVolume (path ps) m w1 = (Ok (vol_of empty_store m), w2).
Proof.
  exact (set_volume_get_volume ps (proj1 ps_ok) (proj2 ps_ok) vol empty_store etcd
           rel_empty eq_refl vol_ok).
Defined.

Lemma delete_volume_gone_witness :
  ∃ w1, DeleteVolume (path ps) "vol" etcd = (Ok tt, w1) ∧
    (∃ w2, GetVolume (path ps) "vol" w1 = (Ok None, w2)).
Proof.
  destruct (delete_volume_gone ps (proj1 ps_ok) (proj2 ps_ok) "vol" empty_store etcd
              rel_empty eq_refl eq_refl) as (w1 & H1 & H2 & _).
  exists w1. exact (conj H1 H2).
Defined.

(** Once a volume is written it is listed. *)
Lemma rel_written : ∃ st1, Rel ps (SetVolume (path ps) vol etcd).2 st1 ∧
  healthy (SetVolume (path ps) vol etcd).2 ∧ vol_of st1 "vol" = Some (stored vol).
Proof.
  destruct (frames_healthy ps _ _ _ _ _ (SetVolume_spec ps (proj1 ps_ok) (proj2 ps_ok) vol empty_store etcd
    rel_empty vol_ok) eq_refl) as (w1 & st1 & E1 & Hw1 & Hr1 & _ & Hst1).
  exists st1. rewrite E1. split; [exact Hr1|]. split; [exact Hw1|]. change "vol" with (v_Name vol). by rewrite Hst1, vol_of_put_volume.
Qed.

Lemma list_volumes_exact_witness :
  ∃ l w1, ListVolumes (path ps) (SetVolume (path ps) vol etcd).2 = (Ok l, w1) ∧
    NoDup (v_Name <$> l) ∧ stored vol ∈ l.
Proof.
  destruct rel_written as (st1 & Hr & Hw & Hv).
  destruct (list_volumes_exact ps (proj1 ps_ok) (proj2 ps_ok) st1 _ Hr Hw) as (l & w1 & El & Hnd & Hin).
  exists l, w1. split; [exact El|]. split; [exact Hnd|]. apply Hin. exact Hv.
Defined.

Lemma set_volume_isolated_witness :
  ∃ o w', SetVolume (path ps) vol etcd = (o, w') ∧ (∀ s, o ≠ Panic s) ∧
  ∃ st', Rel ps w' st' ∧ ∀ m, m ≠ "vol" → vol_of st' m = vol_of empty_store m.
Proof.
  destruct (SetVolume (path ps) vol etcd) as [o w'] eqn:E. exists o, w'. split; [reflexivity|].
  exact (set_volume_isolated ps (proj1 ps_ok) (proj2 ps_ok) vol empty_store etcd o w'
           rel_empty vol_ok E).
Defined.

(** The whole path runs: two volumes written, one deleted, the other listed. *)
Example kv_run :
  let w1 := (SetVolume (path ps) vol etcd).2 in
  let w2 := (SetVolumeBase (path ps) (mkVolume "vol1" 4096 "" "" 1 0 None None "" "i" "" "" [])
               w1).2 in
  let w3 := (DeleteVolume (path ps) "vol" w2).2 in
  (ListVolumes (path ps) w3).1 =
  Ok [mkVolume "vol1" 4096 "" "" 1 0 None None "" "i" "" "" []].
Proof. vm_compute. reflexivity. Qed.
End KVDemo.
