(* ===== verification/Scheduler.v ===== *)
(** * The scheduler

    [scheduler/scheduler.go] and [scheduler/client.go]: a schedule item is run on
    the host it names, or on the first host of a priority list that accepts it.
    The scheduler sees the orchestrator through [types.ScheduleOps]; another host
    is reached by an HTTP POST, a parameter of the model.  A request and a response
    carry the structs themselves: their JSON is that of the exported fields. *)

From stdpp Require Import base list gmap strings.
From Stdlib Require Import ZArith Lia Ascii.
From S2P Require Import Prelude GoStrings Json Types.
Local Open Scope string_scope.
Local Open Scope list_scope.

(** [api.ScheduleInput] and [api.ScheduleOutput]. *)
Record ScheduleInput := mkScheduleInput { in_Spec : ScheduleSpec; in_Item : ScheduleItem }.
Record ScheduleOutput := mkScheduleOutput { out_Instance : InstanceInfo }.

(** An HTTP response: its status and its body, [None] when it does not decode. *)
Record http_response := mkResponse { StatusCode : Z; Body : option ScheduleOutput }.

Class HTTPClient (W : Type) := {
  http_Do : string → string → ScheduleInput → M W http_response;   (* method, URL, body *)
}.

(** [types.ScheduleOps]. *)
Class ScheduleOps (W : Type) := {
  so_ListHosts : M W (gmap string HostInfo);
  so_GetHost : string → M W (option HostInfo);
  so_GetCurrentHostID : string;
  so_ProcessSchedule : ScheduleItem → M W (option InstanceInfo);
}.

Section Client.
Context {W : Type} `{HTTPClient W}.

Record schedulerClient := mkClient { cl_hostID : string; cl_address : string }.

Definition newSchedulerClient (host : HostInfo) : schedulerClient :=
  mkClient (h_UUID host) ("http://" +:+ h_Address host +:+ "/v1").

Definition client_do (c : schedulerClient) (method path : string) (req : ScheduleInput)
    : M W ScheduleOutput :=
  httpResp ← http_Do method (cl_address c +:+ path) req;
  if (300 <=? StatusCode httpResp)%Z then fail (Errorf "Bad response: %d %s: %s")
  else match Body httpResp with
       | Some output => mret output
       | None => fail (ExtErr "json: cannot decode response")
       end.

Definition client_post (c : schedulerClient) (path : string) (req : ScheduleInput)
    : M W ScheduleOutput := client_do c "POST" path req.

Definition client_Schedule (c : schedulerClient) (item : ScheduleItem) : M W InstanceInfo :=
  output ← wrap "schedule failure"
             (client_post c "/schedule" (mkScheduleInput (mkScheduleSpec (cl_hostID c)) item));
  if String.eqb (i_ID (out_Instance output)) "" then
    fail (Errorf "Invalid response with empty instance ID")
  else mret (out_Instance output).
End Client.

Section Scheduler.
Context {W : Type} `{HTTPClient W} `{ScheduleOps W} `{MapOrder}.

Definition Process (spec : ScheduleSpec) (item : ScheduleItem) : M W InstanceInfo :=
  if negb (String.eqb so_GetCurrentHostID (spec_HostID spec)) then
    fail (Errorf "wrong host routing, should be at %v")
  else
    instance ← wrap "fail to process schedule request" (so_ProcessSchedule item);
    match instance with
    | None => fail (Errorf "missing key fields from schedule response %+v")
    | Some i =>
      if String.eqb (i_ID i) "" || String.eqb (i_Type i) InstanceTypeNone then
        fail (Errorf "missing key fields from schedule response %+v")
      else mret i
    end.

Definition ScheduleProcess (spec : ScheduleSpec) (item : ScheduleItem) : M W InstanceInfo :=
  if String.eqb so_GetCurrentHostID (spec_HostID spec) then Process spec item
  else
    host ← wrap "cannot find host %v" (so_GetHost (spec_HostID spec));
    h ← deref host;
    wrap "Fail to schedule on host %v(%v %v)" (client_Schedule (newSchedulerClient h) item).

(** The loop that sorts the hosts into the two priority lists. *)
Fixpoint sort_hosts (policy : option SchedulePolicy) (ids normal low : list string)
    : outcome (list string * list string) :=
  match ids with
  | [] => Ok (normal, low)
  | id :: ids' =>
    match policy with
    | Some p =>
      if String.eqb (p_Binding p) SchedulePolicyBindingSoftAntiAffinity then
        if decide (id ∈ p_HostIDMap p) then sort_hosts policy ids' normal (low ++ [id])
        else sort_hosts policy ids' (normal ++ [id]) low
      else Err (Errorf "Unsupported schedule policy binding %v")
    | None => sort_hosts policy ids' (normal ++ [id]) low
    end
  end%list.

(** The loop that tries the hosts in turn. *)
Fixpoint try_hosts (ids : list string) (item : ScheduleItem) : M W InstanceInfo :=
  match ids with
  | [] => fail (Errorf "unable to find suitable host for scheduling")
  | id :: ids' =>
    r ← attempt (ScheduleProcess (mkScheduleSpec id) item);
    match r with
    | inl ret => mret ret
    | inr _ => try_hosts ids' item
    end
  end.

Definition Schedule (item : ScheduleItem) (policy : option SchedulePolicy) : M W InstanceInfo :=
  let i := it_Instance item in
  if String.eqb (s_ID i) "" || String.eqb (s_Type i) InstanceTypeNone then
    fail (Errorf "instance ID and type required for scheduling")
  else if negb (String.eqb (s_HostID i) "") then
    ScheduleProcess (mkScheduleSpec (s_HostID i)) item
  else
    hosts ← wrap "fail to schedule" so_ListHosts;
    lists ← lift (sort_hosts policy (range hosts).*1 [] []);
    try_hosts (lists.1 ++ lists.2)%list item.

(** ** Lemmas *)

Lemma process_inv spec item w r w' :
  Process spec item w = (Ok r, w') →
  i_ID r ≠ "" ∧ i_Type r ≠ InstanceTypeNone ∧ so_ProcessSchedule item w = (Ok (Some r), w').
Proof.
  unfold Process. intros E. destruct (negb _); [done|]. go_inv E.
  destruct x as [i|]; [|done].
  destruct (String.eqb_spec (i_ID i) ""), (String.eqb_spec (i_Type i) InstanceTypeNone);
    simpl in E; try done. injection E as <- <-. done.
Qed.

Lemma client_schedule_inv host item w r w' :
  client_Schedule (newSchedulerClient host) item w = (Ok r, w') →
  i_ID r ≠ "" ∧ ∃ resp,
    http_Do "POST" (("http://" +:+ h_Address host +:+ "/v1") +:+ "/schedule")
      (mkScheduleInput (mkScheduleSpec (h_UUID host)) item) w = (Ok resp, w') ∧
    (StatusCode resp < 300)%Z ∧ Body resp = Some (mkScheduleOutput r).
Proof.
  unfold client_Schedule, client_post, client_do. intros E. go_inv E.
  destruct (Z.leb_spec 300 (StatusCode x0)); [done|].
  destruct (Body x0) as [out|] eqn:Hb; [|done]. injection E0 as <- <-.
  destruct (String.eqb_spec (i_ID (out_Instance out)) ""); [done|].
  injection E as <- <-. split; [done|]. exists x0. split_and!; [done..|]. by destruct out.
Qed.

(** [tried item ids w w']: the hosts [ids] were asked in turn and each refused. *)
Inductive tried (item : ScheduleItem) : list string → W → W → Prop :=
| tried_nil w : tried item [] w w
| tried_cons id ids e w w1 w' :
    ScheduleProcess (mkScheduleSpec id) item w = (Err e, w1) →
    tried item ids w1 w' → tried item (id :: ids) w w'.

Lemma try_hosts_inv ids item w o w' :
  try_hosts ids item w = (o, w') →
  (∃ pre id post w1 r, ids = pre ++ id :: post ∧ tried item pre w w1 ∧ o = Ok r ∧
     ScheduleProcess (mkScheduleSpec id) item w1 = (Ok r, w')) ∨
  ((∃ e, o = Err e) ∧ tried item ids w w') ∨ (∃ s, o = Panic s).
Proof.
  revert w. induction ids as [|id ids IH]; intros w E; simpl in E.
  { injection E as <- <-. right. left. split; [eauto|constructor]. }
  unfold mbind, M_bind, attempt in E.
  destruct (ScheduleProcess (mkScheduleSpec id) item w) as [[r|e|s] w1] eqn:E1.
  - injection E as <- <-. left. exists [], id, ids, w, r. split_and!; [done|constructor|done..].
  - apply IH in E as [(pre & id' & post & w2 & r & -> & Ht & -> & Er)|[[He Ht]|Hp]].
    + left. exists (id :: pre), id', post, w2, r.
      split_and!; [done|by econstructor|done..].
    + right. left. split; [done|by econstructor].
    + right. by right.
  - injection E as <- <-. right. right. eauto.
Qed.

(** The two lists split the hosts by the policy. *)
Lemma sort_hosts_spec policy ids normal low n l :
  sort_hosts policy ids normal low = Ok (n, l) →
  ∃ dn dl, n = normal ++ dn ∧ l = low ++ dl ∧ ids ≡ₚ dn ++ dl ∧
    ∀ p, policy = Some p → Forall (λ id, id ∉ p_HostIDMap p) dn ∧
                           Forall (λ id, id ∈ p_HostIDMap p) dl.
Proof.
  revert normal low. induction ids as [|id ids IH]; intros normal low E; simpl in E.
  { injection E as <- <-. exists [], []. rewrite !app_nil_r. split_and!; auto. }
  assert (Hn : sort_hosts policy ids (normal ++ [id]) low = Ok (n, l) →
    (∀ p, policy = Some p → id ∉ p_HostIDMap p) →
    ∃ dn dl, n = normal ++ dn ∧ l = low ++ dl ∧ id :: ids ≡ₚ dn ++ dl ∧
      ∀ p, policy = Some p → Forall (λ id, id ∉ p_HostIDMap p) dn ∧
                             Forall (λ id, id ∈ p_HostIDMap p) dl).
  { intros (dn & dl & -> & -> & Hp & Hf)%IH Hid. exists (id :: dn), dl.
    rewrite <-app_assoc. split_and!; [done|done|by rewrite Hp|].
    intros p Hpol. destruct (Hf p Hpol). split; [|done]. constructor; eauto. }
  destruct policy as [p|]; [|by apply Hn].
  destruct (String.eqb _ _); [|done]. case_decide as Hid.
  - apply IH in E as (dn & dl & -> & -> & Hp & Hf). exists dn, (id :: dl).
    rewrite <-app_assoc. split_and!; [done|done|by rewrite <-Permutation_middle, Hp|].
    intros p' [= <-]. destruct (Hf p eq_refl). split; [done|]. by constructor.
  - apply Hn; [done|]. by intros ? [= <-].
Qed.

(** ** Properties *)

(** An item that names a host is run by that host: by the local
    orchestrator when it is the current host, and otherwise by one POST to the
    address registered for it, addressed to it by name; the instance that comes
    back has an ID. *)
Theorem schedule_pinned item policy w r w' :
  let h := s_HostID (it_Instance item) in
  h ≠ "" → Schedule item policy w = (Ok r, w') →
  i_ID r ≠ "" ∧
  ((h = so_GetCurrentHostID ∧ i_Type r ≠ InstanceTypeNone ∧
    so_ProcessSchedule item w = (Ok (Some r), w')) ∨
   (h ≠ so_GetCurrentHostID ∧ ∃ host w1 resp,
      so_GetHost h w = (Ok (Some host), w1) ∧
      http_Do "POST" (("http://" +:+ h_Address host +:+ "/v1") +:+ "/schedule")
        (mkScheduleInput (mkScheduleSpec (h_UUID host)) item) w1 = (Ok resp, w') ∧
      (StatusCode resp < 300)%Z ∧ Body resp = Some (mkScheduleOutput r))).
Proof.
  intros h Hh E. unfold Schedule in E. fold h in E.
  destruct (_ || _); [done|]. rewrite (proj2 (String.eqb_neq _ _) Hh) in E. simpl in E.
  unfold ScheduleProcess in E. simpl in E.
  destruct (String.eqb_spec so_GetCurrentHostID h) as [Hcur|Hcur].
  - apply process_inv in E as (HID & Hty & E). eauto.
  - go_inv E. destruct x as [host|]; [|done]. simpl in *.
    match goal with H : mret host _ = _ |- _ => injection H as <- <- end.
    apply client_schedule_inv in E as (HID & resp & E & Hs & Hb).
    split; [done|]. right. split; [done|]. eauto 10.
Qed.

(** Soft anti-affinity.  When an item with an anti-affinity policy is placed on a
    host that the policy lists, then every host that it does not list was tried
    before and refused. *)
Lemma schedule_anti_affinity item p w r w' :
  s_HostID (it_Instance item) = "" →
  Schedule item (Some p) w = (Ok r, w') →
  ∃ hosts w0 failed id w1,
    so_ListHosts w = (Ok hosts, w0) ∧ tried item failed w0 w1 ∧
    is_Some (hosts !! id) ∧
    ScheduleProcess (mkScheduleSpec id) item w1 = (Ok r, w') ∧
    (id ∈ p_HostIDMap p →
       ∀ h, is_Some (hosts !! h) → h ∉ p_HostIDMap p → h ∈ failed).
Proof.
  intros Hpin E. unfold Schedule in E. rewrite Hpin in E.
  destruct (_ || _); [done|]. simpl in E. go_inv E.
  match goal with H : so_ListHosts w = (Ok ?h, ?w1) |- _ => rename h into hosts, w1 into w0, H into EL end.
  match goal with H : lift _ _ = (Ok ?x, ?w1) |- _ => destruct x as [n l]; injection H as Es <- end.
  apply sort_hosts_spec in Es as (dn & dl & -> & -> & Hperm & Hf). simpl in E.
  destruct (Hf p eq_refl) as [Hn Hl].
  assert (Hdom : ∀ h, h ∈ (range hosts).*1 ↔ is_Some (hosts !! h)).
  { intros h. rewrite list_elem_of_fmap. split.
    - intros ([k x] & -> & ?%elem_of_range). eauto.
    - intros [x Hx]. exists (h, x). by rewrite elem_of_range. }
  apply try_hosts_inv in E as [(pre & id & post & w1 & r' & Hids & Ht & [= <-] & Er)|[[[??]?]|[??]]];
    [|done..].
  exists hosts, w0, pre, id, w1. split_and!; [done..| | |].
  - apply Hdom. rewrite Hperm, Hids. set_solver.
  - done.
  - intros Hid h Hh%Hdom Hnot. rewrite Hperm in Hh.
    rewrite Forall_forall in Hn. rewrite Forall_forall in Hl.
    apply elem_of_app in Hh as [Hh|Hh]; [|by destruct Hnot; apply Hl].
    destruct (decide (h ∈ pre)) as [|Hpre]; [done|exfalso].
    (* [pre] is at least the normal list, since [id] is not in it *)
    apply app_eq_inv in Hids as [(k & -> & Hk)|(k & -> & Hk)].
    + destruct k as [|x k]; simplify_eq/=; [set_solver|].
      apply (Hn x); [set_solver|done].
    + set_solver.
Qed.

(** The scheduler gives up only after every known host has been asked once
    and has refused. *)
Theorem schedule_exhaustive item p w e w' hosts w0 :
  s_ID (it_Instance item) ≠ "" → s_Type (it_Instance item) ≠ InstanceTypeNone →
  s_HostID (it_Instance item) = "" →
  p_Binding p = SchedulePolicyBindingSoftAntiAffinity →
  so_ListHosts w = (Ok hosts, w0) →
  Schedule item (Some p) w = (Err e, w') →
  ∃ order, order ≡ₚ (map_to_list hosts).*1 ∧ tried item order w0 w'.
Proof.
  intros Hid Hty Hpin Hb EL E. unfold Schedule in E.
  rewrite Hpin, (proj2 (String.eqb_neq _ _) Hid), (proj2 (String.eqb_neq _ _) Hty) in E. simpl in E.
  erewrite bind_ok in E by by apply wrap_ok_inv.
  assert (Hsort : ∀ ids n l, ∃ n' l', sort_hosts (Some p) ids n l = Ok (n', l')).
  { induction ids as [|x ids IH]; intros n l; simpl; [eauto|].
    rewrite Hb. simpl. case_decide; apply IH. }
  destruct (Hsort (range hosts).*1 [] []) as (n & l & Es).
  erewrite bind_ok in E by (unfold lift; by rewrite Es). simpl in E.
  apply sort_hosts_spec in Es as (dn & dl & -> & -> & Hperm & _). simpl in E.
  apply try_hosts_inv in E as [(? & ? & ? & ? & ? & _ & _ & ? & _)|[[_ Ht]|[??]]]; [done| |done].
  exists (dn ++ dl)%list. split; [|done]. by rewrite <-Hperm, range_perm.
Qed.
End Scheduler.

(** ** The properties at a concrete cluster

    Three hosts.  The current one, [h1], refuses every item; [h2] serves and [h3]
    answers with an error status.  The world is the list of the requests made. *)
Module SchedDemo.
Definition inst : InstanceInfo := mkInstance "c1" "replica" "r" "h2" "10.0.0.2" false "v".
Definition hosts : gmap string HostInfo :=
  {[ "h1" := mkHost "h1" "one" "10.0.0.1:9500"; "h2" := mkHost "h2" "two" "10.0.0.2:9500";
     "h3" := mkHost "h3" "three" "10.0.0.3:9500" ]}.

#[export] Instance http : HTTPClient (list string) := {|
  http_Do method url req w :=
    if String.eqb url "http://10.0.0.2:9500/v1/schedule"
    then (Ok (mkResponse 200 (Some (mkScheduleOutput inst))), w ++ [url])
    else (Ok (mkResponse 422 None), w ++ [url])
|}.
#[export] Instance ops : ScheduleOps (list string) := {|
  so_ListHosts w := (Ok hosts, w);
  so_GetHost id w := (Ok (hosts !! id), w);
  so_GetCurrentHostID := "h1";
  so_ProcessSchedule item w := (Err (ExtErr "no space left"), w ++ ["local"]);
|}.
#[export] Existing Instance list_order.

Definition item (host : string) : ScheduleItem :=
  mkScheduleItem "create-replica" (mkScheduleInstance "r" "replica" host "v" "r")
    (mkScheduleData "docker" None).
Definition policy (l : gset string) : SchedulePolicy :=
  mkPolicy SchedulePolicyBindingSoftAntiAffinity l.

Lemma schedule_pinned_witness :
  Schedule (item "h2") None [] = (Ok inst, ["http://10.0.0.2:9500/v1/schedule"]) ∧
  i_ID inst ≠ "".
Proof.
  assert (E : Schedule (item "h2") None [] = (Ok inst, ["http://10.0.0.2:9500/v1/schedule"]))
    by (vm_compute; reflexivity).
  split; [exact E|].
  destruct (schedule_pinned (item "h2") None [] inst _ ltac:(discriminate) E) as [H _].
  exact H.
Defined.

Definition lone : ScheduleOps (list string) := {|
  so_ListHosts w := (Ok {[ "h1" := mkHost "h1" "one" ""; "h3" := mkHost "h3" "three" "x" ]}, w);
  so_GetHost id w := (Ok (hosts !! id), w);
  so_GetCurrentHostID := "h1";
  so_ProcessSchedule item w := (Err (ExtErr "no space left"), w ++ ["local"]);
|}.

Lemma schedule_exhaustive_witness :
  ∃ order w', tried (H0 := lone) (item "") order [] w' ∧ length order = 2.
Proof.
  destruct (Schedule (H0 := lone) (item "") (Some (policy ∅)) []) as [o w'] eqn:E.
  assert (Ho : o = Err (Errorf "unable to find suitable host for scheduling")).
  { change o with (o, w').1. rewrite <-E. vm_compute. reflexivity. }
  subst o.
  destruct (schedule_exhaustive (H0 := lone) (item "") (policy ∅) [] _ w' _ _
              ltac:(discriminate) ltac:(discriminate) eq_refl eq_refl eq_refl E)
    as (order & Hp & Ht).
  exists order, w'. split; [exact Ht|]. rewrite Hp. vm_compute. reflexivity.
Defined.
End SchedDemo.
