(* ===== verification/Docker.v ===== *)
(** * The Docker orchestrator

    [orch/docker/docker.go] and [orch/docker/instance.go]: volumes as records in the
    key-value store, instances as containers on the hosts, and the handler of the
    schedule items that create, start, stop and delete them.  The Docker client, the
    operating system of the host and the clock are parameters.  The start-up of
    [docker.go] is in [Startup]. *)

From stdpp Require Import base list gmap strings.
From Stdlib Require Import ZArith Lia Ascii.
From S2P Require Import Prelude GoStrings GoTime Json Types Util Codec Backend KVStore Scheduler.
Local Open Scope string_scope.
Local Open Scope list_scope.

Definition OrcName : string := "docker".
Definition ContainerStopTimeout : Z := Minute.
Definition WaitDeviceTimeout : Z := 30.
Definition WaitAPITimeout : Z := 30.
Definition DefaultPort : Z := 9500.
Definition cfgDirectory : string := "/var/lib/rancher/longhorn/".
Definition hostUUIDFile : string := cfgDirectory +:+ ".physical_host_uuid".

(** ** The Docker client *)

(** The fields of [container.Config] and [container.HostConfig] the code sets. *)
Record ContainerConfig := mkConfig {
  cc_Image : string;
  cc_Cmd : list string;
  cc_Volumes : list string;
  cc_Binds : list string;
  cc_Privileged : bool;
  cc_NetworkMode : string;
  cc_Name : string;
}.

(** The fields of [types.ContainerJSON] the code reads; a network without an entry
    is a nil endpoint. *)
Record ContainerJSON := mkInspect {
  cj_ID : string;
  cj_Name : string;
  cj_Running : bool;
  cj_IPAddress : string;
  cj_Networks : gmap string string;
}.

(** The daemon is named by the connection: each host has its own. *)
Class DockerCli (W : Type) := {
  ContainerCreate : string → ContainerConfig → M W string;
  ContainerStart : string → string → M W unit;
  ContainerStop : string → string → Z → M W unit;
  ContainerRemove : string → string → bool → M W unit;     (* RemoveVolumes *)
  ContainerInspect : string → string → M W ContainerJSON;
  ContainerList : string → M W unit;
}.

Record dockerOrc := mkOrc {
  d_EngineImage : string;
  d_Network : string;
  d_IP : string;
  d_currentHost : HostInfo;
  d_cli : string;
}.

Record dockerScheduleData := mkDockerData {
  ds_InstanceName : string;
  ds_VolumeName : string;
  ds_VolumeSize : string;
  ds_EngineImage : string;
  ds_ReplicaURLs : list string;
}.

Definition docker_data_fields (d : dockerScheduleData) : list (string * json) :=
  [("InstanceName", JStr (ds_InstanceName d)); ("VolumeName", JStr (ds_VolumeName d));
   ("VolumeSize", JStr (ds_VolumeSize d)); ("EngineImage", JStr (ds_EngineImage d));
   ("ReplicaURLs", JArr (JStr <$> ds_ReplicaURLs d))].

Definition dec_docker_data (l : list (string * json)) : option dockerScheduleData :=
  inst ← dec_string (obj_get "InstanceName" l);
  vol ← dec_string (obj_get "VolumeName" l);
  size ← dec_string (obj_get "VolumeSize" l);
  image ← dec_string (obj_get "EngineImage" l);
  urls ← dec_strings (obj_get "ReplicaURLs" l);
  Some (mkDockerData inst vol size image urls).

#[export] Instance docker_data_json : JSON dockerScheduleData := {|
  to_json d := JObj (docker_data_fields d);
  of_json := of_fields dec_docker_data;
|}.

(** The zero value, which an empty payload leaves in place. *)
Definition no_data : dockerScheduleData := mkDockerData "" "" "" "" [].

Definition getDeviceName (volumeName : string) : string := Join ["/dev/longhorn/"; volumeName].

Definition getScheduleInstanceFromInstance (i : InstanceInfo) : outcome ScheduleInstance :=
  if String.eqb (i_ID i) "" || String.eqb (i_HostID i) "" ||
     String.eqb (i_Type i) InstanceTypeNone || String.eqb (i_VolumeName i) "" ||
     String.eqb (i_Name i) ""
  then Err (Errorf "Invalid instance info for schedule %+v")
  else Ok (mkScheduleInstance (i_ID i) (i_Type i) (i_HostID i) (i_VolumeName i) (i_Name i)).

(** The test that opens [updateInstanceMetadata] and [removeInstanceMetadata]. *)
Definition incomplete (i : InstanceInfo) : bool :=
  String.eqb (i_ID i) "" || String.eqb (i_Name i) "" || String.eqb (i_HostID i) "" ||
  String.eqb (i_Type i) InstanceTypeNone || String.eqb (i_VolumeName i) "".

Definition other_instance (i j : InstanceInfo) : bool :=
  negb (String.eqb (i_ID i) (i_ID j)) || negb (String.eqb (i_HostID i) (i_HostID j)).

Definition prepareCreateReplicaPolicy `{MapOrder} (volume : VolumeInfo) : SchedulePolicy :=
  mkPolicy SchedulePolicyBindingSoftAntiAffinity
    (foldl (λ m kr, if String.eqb (r_BadTimestamp kr.2) ""
                    then m ∪ {[ i_HostID (r_Instance kr.2) ]} else m)
           ∅ (range (replicas_of volume))).

Definition prepareCreateReplica (volume : VolumeInfo) (replicaName : string)
    : outcome ScheduleData :=
  if (v_Size volume =? 0)%Z then Err (Errorf "invalid volume size 0")
  else Ok (mkScheduleData OrcName (Some (to_json
         (mkDockerData replicaName (v_Name volume) (FormatInt (v_Size volume))
            (v_EngineImage volume) [])))).

(** The loop over the replica names in [prepareCreateController]. *)
Fixpoint replica_urls (replicas : gmap string ReplicaInfo) (names urls : list string)
    : outcome (list string) :=
  match names with
  | [] => Ok urls
  | name :: names' =>
    match replicas !! name with
    | None => Err (Errorf "cannot find replica %v")
    | Some r =>
      if String.eqb (i_Address (r_Instance r)) "" then
        Err (Errorf "invalid empty address of replica %v")
      else replica_urls replicas names'
             (urls ++ ["tcp://" +:+ i_Address (r_Instance r) +:+ ":9502"])
    end
  end.

Section Docker.
Context {W : Type} `{Backend W} `{DockerCli W} `{HostOS W} `{Clock W} `{MapOrder}.
Context (Prefix : string) (d : dockerOrc).

Definition GetCurrentHostID : string := h_UUID (d_currentHost d).

(** ** Volumes, hosts and settings *)

Definition orc_GetHost (id : string) : M W (option HostInfo) := GetHost Prefix id.
Definition orc_ListHosts : M W (gmap string HostInfo) := ListHosts Prefix.

Definition GetAddress (hostID : string) : M W string :=
  if String.eqb hostID (h_UUID (d_currentHost d)) then mret (h_Address (d_currentHost d))
  else host ← orc_GetHost hostID; h ← deref host; mret (h_Address h).

Definition CreateVolume (volume : VolumeInfo) : M W VolumeInfo :=
  r ← attempt (GetVolumeBase Prefix (v_Name volume));
  match r with
  | inl (Some _) => fail (Errorf "volume %v already exists %+v")
  | _ =>
    wrap "fail to create new volume metadata" (SetVolumeBase Prefix volume);;
    mret volume
  end.

Definition orc_DeleteVolume (volumeName : string) : M W unit := DeleteVolume Prefix volumeName.
Definition orc_GetVolume (volumeName : string) : M W (option VolumeInfo) :=
  GetVolume Prefix volumeName.

Definition UpdateVolume (volume : VolumeInfo) : M W unit :=
  r ← attempt (GetVolumeBase Prefix (v_Name volume));
  match r with
  | inr _ => fail (Errorf "cannot update volume %v because it doesn't exists %+v")
  | inl _ => SetVolumeBase Prefix volume
  end.

Definition orc_ListVolumes : M W (list VolumeInfo) := ListVolumes Prefix.

(** The loop of [MarkBadReplica]: the first replica of that name is marked. *)
Fixpoint mark_replica (l : list (string * ReplicaInfo)) (name t : string)
    (rs : gmap string ReplicaInfo) : gmap string ReplicaInfo :=
  match l with
  | [] => rs
  | (k, r) :: l' =>
    if String.eqb (r_Name r) name then <[k:=set_BadTimestamp t r]> rs
    else mark_replica l' name t rs
  end.

Definition MarkBadReplica (volumeName : string) (replica : ReplicaInfo) : M W unit :=
  volume ← wrap "fail to mark bad replica, cannot get volume" (GetVolume Prefix volumeName);
  v ← deref volume;
  t ← Now;
  let v' := set_Replicas ((λ m, mark_replica (range m) (r_Name replica) t m) <$> v_Replicas v) v in
  wrap "fail to mark bad replica, cannot update volume" (UpdateVolume v').

Definition orc_GetSettings : M W SettingsInfo :=
  settings ← GetSettings Prefix;
  mret (match settings with
        | None => mkSettings "" (d_EngineImage d)
        | Some s => s
        end).

Definition orc_SetSettings (settings : SettingsInfo) : M W unit := SetSettings Prefix settings.

(** ** Instances *)

Definition startContainer (id : string) : M W unit := ContainerStart (d_cli d) id.
Definition stopContainer (id : string) : M W unit :=
  ContainerStop (d_cli d) id ContainerStopTimeout.
Definition removeContainer (id : string) : M W unit := ContainerRemove (d_cli d) id true.

Definition refreshInstanceInfo (instance : InstanceInfo) : M W InstanceInfo :=
  inspectJSON ← wrap "fail to inspect %v instance %v"
                  (ContainerInspect (d_cli d) (i_ID instance));
  address ← (if String.eqb (d_Network d) "" then mret (cj_IPAddress inspectJSON)
             else deref (cj_Networks inspectJSON !! d_Network d));
  let info := mkInstance (cj_ID inspectJSON) (i_Type instance)
                (TrimPrefix (cj_Name inspectJSON) "/") GetCurrentHostID address
                (cj_Running inspectJSON) (i_VolumeName instance) in
  if i_Running info && String.eqb (i_Address info) "" then
    fail (Errorf "BUG: Cannot find IP address of %v")
  else mret info.

Definition startInstance (instance : InstanceInfo) : M W InstanceInfo :=
  wrap "fail to start instance '%v' type %v" (startContainer (i_ID instance));;
  refreshInstanceInfo instance.

Definition stopInstance (instance : InstanceInfo) : M W InstanceInfo :=
  wrap "fail to start instance '%v'" (stopContainer (i_ID instance));;
  refreshInstanceInfo instance.

Definition removeInstance (instance : InstanceInfo) : M W InstanceInfo :=
  wrap "Fail to remove instance %v" (removeContainer (i_ID instance));;
  mret instance.

Definition controller_config (data : dockerScheduleData) : ContainerConfig :=
  mkConfig (ds_EngineImage data)
    (["launch"; "controller"; "--listen"; "0.0.0.0:9501"; "--frontend"; "tgt"] ++
     concat ((λ url, ["--replica"; url]) <$> ds_ReplicaURLs data) ++ [ds_VolumeName data])
    [] ["/dev:/host/dev"; "/proc:/host/proc"] true (d_Network d) (ds_InstanceName data).

(** The deferred clean-up runs when the named results hold an error and an
    instance: not when the start itself failed, which returns a nil instance. *)
Definition createController (data : dockerScheduleData) : M W InstanceInfo :=
  id ← wrap "fail to create controller container"
         (ContainerCreate (d_cli d) (controller_config data));
  instance ← wrap "fail to start controller container"
    (startInstance (mkInstance id InstanceTypeController (ds_InstanceName data)
                      GetCurrentHostID "" false (ds_VolumeName data)));
  let url := "http://" +:+ i_Address instance +:+ ":9501/v1" in
  r ← attempt (
    wrap "fail to wait for api endpoint at %v" (WaitForAPI url WaitAPITimeout);;
    wrap "fail to create controller for %v"
      (WaitForDevice (getDeviceName (ds_VolumeName data)) WaitDeviceTimeout));
  match r with
  | inl _ => mret instance
  | inr e => ignore (removeInstance instance);; fail e
  end.

Definition replica_config (data : dockerScheduleData) : ContainerConfig :=
  mkConfig (ds_EngineImage data)
    ["launch"; "replica"; "--listen"; "0.0.0.0:9502"; "--size"; ds_VolumeSize data; "/volume"]
    ["/volume"] [] true (d_Network d) (ds_InstanceName data).

Definition createReplica (data : dockerScheduleData) : M W InstanceInfo :=
  id ← wrap "fail to create replica for %v"
         (ContainerCreate (d_cli d) (replica_config data));
  let input := mkInstance id InstanceTypeReplica (ds_InstanceName data)
                 GetCurrentHostID "" false (ds_VolumeName data) in
  r ← attempt (refreshInstanceInfo input);
  match r with
  | inl instance => mret instance
  | inr e => ignore (removeInstance input);; fail (Wrapf e "fail to create replica for %v")
  end.

Definition updateInstanceMetadata (instance : InstanceInfo) : M W unit :=
  if incomplete instance then fail (Errorf "invalid instance to update metadata: %+v")
  else if String.eqb (i_Type instance) InstanceTypeController then
    r ← attempt (GetVolumeController Prefix (i_VolumeName instance));
    match r with
    | inr _ => fail (Errorf "unable to update instance metadata: cannot get controller for volume %v")
    | inl controller =>
      if match controller with
         | Some c => other_instance (c_Instance c) instance
         | None => false
         end
      then fail (Errorf "unable to update instance metadata: metadata conflict: %+v %+v")
      else wrap "fail to update controller metadata: %+v"
             (SetVolumeController Prefix (mkController instance))
    end
  else if String.eqb (i_Type instance) InstanceTypeReplica then
    replica ← wrap "unable to update instance metadata: cannot get replica %v for volume %v"
                (GetVolumeReplica Prefix (i_VolumeName instance) (i_Name instance));
    match replica with
    | Some r =>
      if other_instance (r_Instance r) instance then
        fail (Errorf "unable to update instance metadata: replica %v metadata conflict: %+v %+v")
      else wrap "fail to update replica metadata: %+v"
             (SetVolumeReplica Prefix (set_Instance instance r))
    | None => wrap "fail to update replica metadata: %+v"
                (SetVolumeReplica Prefix (mkReplica instance "" ""))
    end
  else mret tt.

Definition removeInstanceMetadata (instance : InstanceInfo) : M W unit :=
  if incomplete instance then fail (Errorf "invalid instance to update metadata for %+v")
  else if String.eqb (i_Type instance) InstanceTypeController then
    r ← attempt (GetVolumeController Prefix (i_VolumeName instance));
    match r with
    | inr _ => fail (Errorf "unable to remove instance metadata: cannot get controller for volume %v")
    | inl None =>
      fail (Errorf "unable to remove instance metadata: unable to find controller for volume %v")
    | inl (Some c) =>
      if other_instance (c_Instance c) instance then
        fail (Errorf "unable to remove instance metadata: metadata conflict: %+v %+v")
      else wrap "unable to remove instance metadata: %+v"
             (DeleteVolumeController Prefix (i_VolumeName instance))
    end
  else if String.eqb (i_Type instance) InstanceTypeReplica then
    replica ← wrap "unable to remove instance metadata: cannot get replica %v for volume %v"
                (GetVolumeReplica Prefix (i_VolumeName instance) (i_Name instance));
    match replica with
    | None => fail (Errorf "unable to remove instance metadata: unable to find replica: %+v")
    | Some r =>
      if other_instance (r_Instance r) instance then
        fail (Errorf "unable to remove instance metadata: metadata conflict: %+v %+v")
      else wrap "unable to remove instance metadata: %+v"
             (DeleteVolumeReplica Prefix (i_VolumeName (r_Instance r)) (r_Name r))
    end
  else mret tt.

(** The [switch] on the action of an item. *)
Definition run_action (action : string) (data : dockerScheduleData) (input : InstanceInfo)
    : M W InstanceInfo :=
  if String.eqb action ScheduleActionCreateController then createController data
  else if String.eqb action ScheduleActionCreateReplica then createReplica data
  else if String.eqb action ScheduleActionStartInstance then startInstance input
  else if String.eqb action ScheduleActionStopInstance then stopInstance input
  else removeInstance input.

Definition known_action (action : string) : bool :=
  String.eqb action ScheduleActionCreateController ||
  String.eqb action ScheduleActionCreateReplica ||
  String.eqb action ScheduleActionStartInstance ||
  String.eqb action ScheduleActionStopInstance ||
  String.eqb action ScheduleActionDeleteInstance.

Definition schedule_payload (data : ScheduleData) : outcome dockerScheduleData :=
  match sd_Data data with
  | None => Ok no_data
  | Some j => match of_json j with
              | Some x => Ok x
              | None => Err (Wrapf (ExtErr "json: cannot unmarshal") "fail to parse schedule data")
              end
  end.

Definition ProcessSchedule (item : ScheduleItem) : M W InstanceInfo :=
  if negb (String.eqb (sd_Orchestrator (it_Data item)) OrcName) then
    fail (Errorf "received request for the wrong orchestrator %v")
  else
    data ← lift (schedule_payload (it_Data item));
    let si := it_Instance item in
    let action := it_Action item in
    if String.eqb (s_ID si) "" then fail (Errorf "empty instance ID")
    else
      let input := mkInstance (s_ID si) (s_Type si) (s_Name si) (s_HostID si) "" false
                     (s_VolumeName si) in
      if negb (known_action action) then fail (Errorf "cannot find specified action %v")
      else
        instance ← wrap "failed to process schedule" (run_action action data input);
        r ← attempt (if String.eqb action ScheduleActionDeleteInstance
                     then removeInstanceMetadata instance
                     else updateInstanceMetadata instance);
        match r with
        | inl _ => mret instance
        | inr e =>
          (if String.eqb action ScheduleActionCreateController ||
              String.eqb action ScheduleActionCreateReplica
           then ignore (removeInstance instance) else mret tt);;
          fail (Wrapf e "failed to update instance metadata for %+v")
        end.

(** The orchestrator as the scheduler sees it. *)
Definition orc_ops : ScheduleOps W := {|
  so_ListHosts := orc_ListHosts;
  so_GetHost := orc_GetHost;
  so_GetCurrentHostID := GetCurrentHostID;
  so_ProcessSchedule item := (i ← ProcessSchedule item; mret (Some i));
|}.
End Docker.

(** ** The orchestrator's requests, through the scheduler *)

Section Requests.
Context {W : Type} `{Backend W} `{DockerCli W} `{HostOS W} `{Clock W} `{MapOrder} `{HTTPClient W}.
Context (Prefix : string) (d : dockerOrc).

Definition orc_schedule (item : ScheduleItem) (policy : option SchedulePolicy) : M W InstanceInfo :=
  Schedule (H0 := orc_ops Prefix d) item policy.

(** A missing volume wraps a nil error: the result is a nil pointer and no error. *)
Definition prepareCreateController (volumeName controllerName : string)
    (replicaNames : list string) : M W (option ScheduleData) :=
  volume ← wrap "unable to create controller" (GetVolume Prefix volumeName);
  match volume with
  | None => mret None
  | Some v =>
    urls ← lift (replica_urls (replicas_of v) replicaNames []);
    mret (Some (mkScheduleData OrcName (Some (to_json
      (mkDockerData controllerName volumeName "" (v_EngineImage v) urls)))))
  end.

Definition CreateController (volumeName controllerName : string)
    (replicas : gmap string ReplicaInfo) : M W ControllerInfo :=
  let replicaNames := (range replicas).*1 in
  data ← wrap "Fail to create controller for %v"
           (prepareCreateController volumeName controllerName replicaNames);
  data ← deref data;
  let schedule := mkScheduleItem ScheduleActionCreateController
    (mkScheduleInstance controllerName InstanceTypeController (GetCurrentHostID d) volumeName "")
    data in
  instance ← wrap "Fail to create controller for %v" (orc_schedule schedule None);
  mret (mkController instance).

(** [None]: the volume does not exist. *)
Definition CreateReplica (volumeName replicaName : string) : M W (option ReplicaInfo) :=
  volume ← wrap "unable to create replica" (GetVolume Prefix volumeName);
  match volume with
  | None => mret None
  | Some v =>
    data ← lift (wrap_outcome "Fail to create replica for %v" (prepareCreateReplica v replicaName));
    let schedule := mkScheduleItem ScheduleActionCreateReplica
      (mkScheduleInstance replicaName InstanceTypeReplica "" volumeName "") data in
    let policy := prepareCreateReplicaPolicy v in
    instance ← wrap "Fail to create replica for %v" (orc_schedule schedule (Some policy));
    mret (Some (mkReplica instance "" ""))
  end.

(** The body shared by [StartInstance], [StopInstance] and [RemoveInstance]. *)
Definition instance_request (action invalid failed : string) (instance : InstanceInfo)
    : M W InstanceInfo :=
  si ← lift (wrap_outcome invalid (getScheduleInstanceFromInstance instance));
  wrap failed (orc_schedule (mkScheduleItem action si (mkScheduleData OrcName None)) None).

Definition StartInstance (instance : InstanceInfo) : M W InstanceInfo :=
  instance_request ScheduleActionStartInstance
    "fail to start instance" "Fail to start instance %v" instance.

Definition StopInstance (instance : InstanceInfo) : M W InstanceInfo :=
  instance_request ScheduleActionStopInstance
    "fail to stop instance" "Fail to stop instance %v" instance.

Definition RemoveInstance (instance : InstanceInfo) : M W InstanceInfo :=
  instance_request ScheduleActionDeleteInstance
    "fail to remove instance" "Fail to remove instance %v" instance.
End Requests.
