(* ===== verification/TaskQueue.v ===== *)
(** * Background tasks of a controller

    [controller/queue.go]: a queue served by one goroutine, which owns the pending
    tasks and the waiting takers; and [controller/bgtasks.go]: the worker that takes
    tasks off it and runs them.  The queue is a state machine over the requests that
    arrive on its channel; a reply channel is identified by a number. *)

From stdpp Require Import base list gmap strings.
From Stdlib Require Import ZArith Lia Ascii.
From S2P Require Import Prelude GoStrings GoTime Json Types Util.
Local Open Scope string_scope.
Local Open Scope list_scope.

(** ** Tasks *)

Section Tasks.
Context {W : Type}.

(** [types.BackupBgTask]; the hook runs in the world of the manager. *)
Record BackupBgTask := mkBackupTask {
  bt_Snapshot : string;
  bt_BackupTarget : string;
  bt_CleanupHook : option (M W unit);
}.

(** The dynamic type of the field [Task interface{}]. *)
Inductive task_value : Type :=
| BackupPtr (t : BackupBgTask)     (* *types.BackupBgTask *)
| BackupVal (t : BackupBgTask)     (* types.BackupBgTask *)
| OtherTask.

Record BgTask := mkTask {
  bg_Num : Z;
  bg_Err : option error;
  bg_Finished : string;
  bg_Started : string;
  bg_Submitted : string;
  bg_Task : task_value;
}.

Definition new_task (t : task_value) : BgTask := mkTask 0 None "" "" "" t.

Definition set_submitted (n : Z) (at_ : string) (t : BgTask) : BgTask :=
  mkTask n (bg_Err t) (bg_Finished t) (bg_Started t) at_ (bg_Task t).
Definition set_started (at_ : string) (t : BgTask) : BgTask :=
  mkTask (bg_Num t) (bg_Err t) (bg_Finished t) at_ (bg_Submitted t) (bg_Task t).
Definition set_finished (at_ : string) (e : option error) (t : BgTask) : BgTask :=
  mkTask (bg_Num t) e at_ (bg_Started t) (bg_Submitted t) (bg_Task t).
End Tasks.
Arguments BackupBgTask : clear implicits.
Arguments task_value : clear implicits.
Arguments BgTask : clear implicits.

(** ** The queue *)

Section Queue.
Context {W : Type}.
Implicit Types (t : BgTask W).

Record taskQueue := mkQueue {
  tq_queue : list (BgTask W);
  tq_takeReqs : list nat;       (* reply channels of waiting takers *)
  tq_i : Z;                     (* the counter of [runQueue] *)
  tq_closed : bool;             (* [reqCh] is closed *)
}.

Inductive queue_req : Type :=
| listReq (r : nat)
| putReq (t : BgTask W)
| takeReq (r : nat).

(** What goes out on a reply channel; closing one makes the receiver read nil. *)
Inductive reply : Type :=
| ReplyList (r : nat) (l : list (BgTask W))
| ReplyTask (r : nat) (t : BgTask W)
| ReplyClosed (r : nat).

Definition TaskQueue : taskQueue := mkQueue [] [] 0 false.

(** One round of the loop of [runQueue], at the time [now]. *)
Definition runQueue_step (tq : taskQueue) (now : Z) (r : queue_req) : taskQueue * list reply :=
  match r with
  | listReq r => (tq, [ReplyList r (tq_queue tq)])
  | putReq t =>
    let i := wrap64 (tq_i tq + 1) in
    let t := set_submitted i (FormatTimeZ now) t in
    match tq_takeReqs tq with
    | r :: rs => (mkQueue (tq_queue tq) rs i (tq_closed tq), [ReplyTask r t])
    | [] => (mkQueue (tq_queue tq ++ [t]) [] i (tq_closed tq), [])
    end
  | takeReq r =>
    match tq_queue tq with
    | t :: ts => (mkQueue ts (tq_takeReqs tq) (tq_i tq) (tq_closed tq), [ReplyTask r t])
    | [] => (mkQueue [] (tq_takeReqs tq ++ [r]) (tq_i tq) (tq_closed tq), [])
    end
  end.

(** The end of [runQueue], when the request channel is closed. *)
Definition runQueue_end (tq : taskQueue) : list reply := ReplyClosed <$> tq_takeReqs tq.

(** A client's send: on a closed channel it panics, which the client recovers
    from and returns the zero value. *)
Definition queue_send (tq : taskQueue) (now : Z) (r : queue_req) : taskQueue * list reply :=
  if tq_closed tq then
    (tq, match r with
         | listReq r | takeReq r => [ReplyClosed r]
         | putReq _ => []
         end)
  else runQueue_step tq now r.

Definition tq_List (r : nat) := λ tq now, queue_send tq now (listReq r).
Definition tq_Put (t : BgTask W) := λ tq now, queue_send tq now (putReq t).
Definition tq_Take (r : nat) := λ tq now, queue_send tq now (takeReq r).

Definition tq_Close (tq : taskQueue) : taskQueue * list reply :=
  if tq_closed tq then (tq, [])
  else (mkQueue (tq_queue tq) (tq_takeReqs tq) (tq_i tq) true, runQueue_end tq).

(** Requests served one after the other, each at its time. *)
Fixpoint serve (tq : taskQueue) (rs : list (Z * queue_req)) : taskQueue * list reply :=
  match rs with
  | [] => (tq, [])
  | (now, r) :: rs =>
    let '(tq1, out1) := runQueue_step tq now r in
    let '(tq2, out2) := serve tq1 rs in
    (tq2, out1 ++ out2)
  end.

(** ** First in, first out *)

Definition delivered (out : list reply) : list (nat * BgTask W) :=
  omap (λ r, match r with ReplyTask c t => Some (c, t) | _ => None end) out.

Definition takers (rs : list (Z * queue_req)) : list nat :=
  omap (λ r, match r.2 with takeReq c => Some c | _ => None end) rs.

(** The tasks put, with the number and the time they get. *)
Fixpoint puts (i : Z) (rs : list (Z * queue_req)) : list (BgTask W) :=
  match rs with
  | [] => []
  | (now, putReq t) :: rs =>
    set_submitted (wrap64 (i + 1)) (FormatTimeZ now) t :: puts (wrap64 (i + 1)) rs
  | _ :: rs => puts i rs
  end.

(** The queue never holds a task while a taker waits. *)
Definition tq_inv (tq : taskQueue) : Prop := tq_queue tq = [] ∨ tq_takeReqs tq = [].

Lemma tq_inv_step tq now r : tq_inv tq → tq_inv (runQueue_step tq now r).1.
Proof.
  destruct tq as [q ts i c]. unfold tq_inv. simpl.
  destruct r as [r|t|r]; simpl; destruct q, ts; simpl; naive_solver.
Qed.

Lemma serve_fifo tq rs :
  tq_inv tq →
  let '(tq', out) := serve tq rs in
  let ts := tq_queue tq ++ puts (tq_i tq) rs in
  let cs := tq_takeReqs tq ++ takers rs in
  delivered out = zip cs ts ∧ tq_queue tq' = drop (length cs) ts ∧
  tq_takeReqs tq' = drop (length ts) cs.
Proof.
  revert tq. induction rs as [|[now r] rs IH]; intros tq Hinv; simpl.
  - rewrite !app_nil_r. destruct Hinv as [-> | ->]; simpl; rewrite ?drop_0, ?drop_nil; by destruct tq as [[] []].
  - pose proof (tq_inv_step tq now r Hinv) as Hinv1.
    destruct (runQueue_step tq now r) as [tq1 out1] eqn:E1. specialize (IH tq1 Hinv1).
    destruct (serve tq1 rs) as [tq2 out2]. simpl.
    destruct IH as (Hd & Hq & Ht). unfold delivered in *. rewrite omap_app, Hd, Hq, Ht.
    clear Hd Hq Ht Hinv1.
    destruct tq as [q ts i c]. unfold tq_inv in Hinv. simpl in *.
    destruct r as [r|t|r]; simpl in *.
    + by simplify_eq/=.
    + destruct ts as [|c0 ts]; simplify_eq/=.
      * by rewrite <-app_assoc.
      * destruct Hinv as [-> | ?]; [|done]. done.
    + destruct q as [|t q]; simplify_eq/=.
      * by rewrite <-app_assoc.
      * destruct Hinv as [? | ->]; [done|]. done.
Qed.

(** C24: the queue is first in, first out, and loses nothing.  However puts, takes
    and listings arrive, the [k]-th task put goes to the [k]-th taker and to no one
    else; what has not been taken is in the queue in the order it was put, takers wait
    in the order they came, and tasks are numbered from 1. *)
Theorem task_queue_fifo rs tq out :
  serve TaskQueue rs = (tq, out) →
  let ts := puts 0 rs in
  let cs := takers rs in
  delivered out = zip cs ts ∧ tq_queue tq = drop (length cs) ts ∧
  tq_takeReqs tq = drop (length ts) cs ∧
  (∀ k t, (Z.of_nat (length ts) < 2 ^ 63)%Z → ts !! k = Some t → bg_Num t = Z.of_nat k + 1)%Z.
Proof.
  intros E ts cs. pose proof (serve_fifo TaskQueue rs ltac:(by left)) as H. rewrite E in H.
  simpl in H. destruct H as (? & ? & ?). split_and!; [done..|].
  assert (Hn : ∀ rs i k t, (0 <= i)%Z → (i + Z.of_nat (length (puts i rs)) < 2 ^ 63)%Z →
    puts i rs !! k = Some t → bg_Num t = (i + Z.of_nat k + 1)%Z).
  { clear. induction rs as [|[now r] rs IH]; intros i k t Hi Hl Hk; [done|].
    destruct r as [r|x|r]; simpl in *; [by apply IH| |by apply IH].
    rewrite (wrap64_id (i + 1)) in *
      by (unfold in_int64, int64_min, int64_max; rewrite andb_true_iff, !Z.leb_le; lia).
    destruct k as [|k]; simplify_eq/=; [lia|].
    apply IH in Hk; lia. }
  intros k t Hl Hk. subst ts. rewrite (Hn rs 0%Z k t); [lia..|done].
Qed.

(** Closing the queue wakes every waiting taker with nil, once, and later
    requests get nil at once; a second close does nothing. *)
Theorem task_queue_close tq now r c :
  tq_closed tq = false →
  let '(tq', out) := tq_Close tq in
  out = ReplyClosed <$> tq_takeReqs tq ∧ tq_Close tq' = (tq', []) ∧
  queue_send tq' now (takeReq r) = (tq', [ReplyClosed r]) ∧
  queue_send tq' now (listReq c) = (tq', [ReplyClosed c]) ∧
  ∀ t, queue_send tq' now (putReq t) = (tq', []).
Proof. intros Hc. unfold tq_Close. rewrite Hc. done. Qed.
End Queue.
Arguments taskQueue : clear implicits.
Arguments queue_req : clear implicits.
Arguments reply : clear implicits.

(** ** The worker *)

(** [exec.Command(..).Run()] on the engine's command line: the error holds the exit
    status. *)
Class EngineRun (W : Type) := { engine_Run : list string → M W unit }.

Section Worker.
Context {W : Type} `{Clock W} `{EngineRun W}.

(** The fields of [controller] that the worker owns. *)
Record bgTasks := mkBgTasks {
  lastRunBgTask : option (BgTask W);
  runningBgTask : option (BgTask W);
}.

Definition LatestBgTasks (c : bgTasks) : list (BgTask W) :=
  match lastRunBgTask c with Some t => [t] | None => [] end ++
  match runningBgTask c with Some t => [t] | None => [] end.

(** The deferred hook runs after the command, whatever its result; its own error is
    only logged. *)
Definition runBackup (url : string) (t : BackupBgTask W) : M W unit :=
  r ← attempt (wrap "error creating backup for snapshot '%s', backupTarget '%s': %s"
    (engine_Run ["--url"; url; "backup"; "create"; "--dest"; bt_BackupTarget t; bt_Snapshot t]));
  match bt_CleanupHook t with
  | Some hook => ignore hook
  | None => mret tt
  end;;
  match r with
  | inl _ => mret tt
  | inr e => fail e
  end.

Definition task_begin (c : bgTasks) (t : BgTask W) : M W bgTasks :=
  n ← now;
  mret (mkBgTasks (lastRunBgTask c) (Some (set_started (FormatTimeZ n) t))).

(** The deferred function of [runTask]. *)
Definition task_end (c : bgTasks) (err : option error) : M W bgTasks :=
  n ← now;
  t ← deref (runningBgTask c);
  mret (mkBgTasks (Some (set_finished (FormatTimeZ n) err t)) None).

Definition runTask (url : string) (c : bgTasks) (t : BgTask W) : M W bgTasks :=
  c ← task_begin c t;
  r ← attempt (match bg_Task t with
               | BackupPtr b => runBackup url b
               | _ => fail (Errorf "unknown task type: %#v")
               end);
  task_end c (match r with inl _ => None | inr e => Some e end).

(** The loop of the worker over the tasks it takes, until [Take] returns nil. *)
Fixpoint runBgTasks (url : string) (c : bgTasks) (taken : list (option (BgTask W))) : M W bgTasks :=
  match taken with
  | [] | None :: _ => mret c
  | Some t :: taken' => c ← runTask url c t; runBgTasks url c taken'
  end.

(** A backup task is run once and accounted for.  When neither the command nor
    the hook panics, the task that was taken is the last one run, keeps its number and
    its payload, and holds the result of the command; none is running, and the
    clean-up hook ran once, after the command, also when the backup failed. *)
Theorem run_task_backup url c t b w o w1 h w2 :
  bg_Task t = BackupPtr b →
  engine_Run ["--url"; url; "backup"; "create"; "--dest"; bt_BackupTarget b; bt_Snapshot b] w
    = (o, w1) → (∀ s, o ≠ Panic s) →
  match bt_CleanupHook b with Some hook => hook w1 | None => (Ok tt, w1) end = (h, w2) →
  (∀ s, h ≠ Panic s) →
  ∃ t', runTask url c t w = (Ok (mkBgTasks (Some t') None), w2) ∧
    bg_Num t' = bg_Num t ∧ bg_Task t' = bg_Task t ∧ bg_Submitted t' = bg_Submitted t ∧
    (bg_Err t' = None ↔ o = Ok tt) ∧ bg_Finished t' ≠ "".
Proof.
  intros Ht E Ho Eh Hh.
  set (err := match o with Ok _ => None
              | Err e => Some (Wrapf e "error creating backup for snapshot '%s', backupTarget '%s': %s")
              | Panic _ => None end).
  assert (Hrun : attempt (runBackup url b) w = (Ok (match err with None => inl tt | Some e => inr e end), w2)).
  { unfold attempt at 1, runBackup, mbind, M_bind, attempt, wrap. rewrite E.
    destruct o as [[]|e|s]; [..|by destruct (Ho s)]; simpl;
      (destruct (bt_CleanupHook b) as [hook|]; simpl in *;
       [unfold ignore, mbind, M_bind, attempt; rewrite Eh;
        destruct h as [?|?|s]; [done|done|by destruct (Hh s)]
       |by simplify_eq/=]). }
  eexists. split.
  - unfold runTask, task_begin, mbind, M_bind at 1, now. simpl. rewrite Ht.
    unfold mbind, M_bind at 1. rewrite Hrun. unfold task_end. done.
  - simpl. split_and!; [done..| |apply FormatTimeZ_nonempty].
    destruct o as [[]|e|s]; [done| |by destruct (Ho s)]. simpl. split; discriminate.
Qed.

(** A task whose payload is a [BackupBgTask] value, not a pointer to one, is never
    run: no command is issued, its hook is not called, and it ends with an error. *)
Lemma run_task_value url c t b w :
  bg_Task t = BackupVal b →
  ∃ t', runTask url c t w = (Ok (mkBgTasks (Some t') None), w) ∧
    bg_Err t' = Some (Errorf "unknown task type: %#v").
Proof. intros Ht. unfold runTask, task_begin. simpl. rewrite Ht. by eexists. Qed.
End Worker.
Arguments bgTasks : clear implicits.

(** ** The properties at concrete inputs *)
Module QueueDemo.
Definition t (s : string) : BgTask unit := new_task (BackupPtr (mkBackupTask s "target" None)).
Definition reqs : list (Z * queue_req unit) :=
  [(0%Z, takeReq 1); (0%Z, putReq (t "a")); (0%Z, putReq (t "b")); (0%Z, listReq 7);
   (0%Z, takeReq 2); (0%Z, takeReq 3)].

Lemma task_queue_fifo_witness :
  ∃ tq out, serve TaskQueue reqs = (tq, out) ∧
    delivered out = [(1, set_submitted 1 (FormatTimeZ 0) (t "a"));
                     (2, set_submitted 2 (FormatTimeZ 0) (t "b"))] ∧
    tq_takeReqs tq = [3].
Proof.
  destruct (serve TaskQueue reqs) as [tq out] eqn:E. exists tq, out. split; [reflexivity|].
  destruct (task_queue_fifo reqs tq out E) as (Hd & _ & Ht & _). split.
  - rewrite Hd. vm_compute. reflexivity.
  - rewrite Ht. vm_compute. reflexivity.
Defined.

Lemma task_queue_close_witness :
  queue_send (tq_Close (@TaskQueue unit)).1 0 (takeReq 5) = ((tq_Close TaskQueue).1, [ReplyClosed 5]).
Proof.
  exact (proj1 (proj2 (proj2 (task_queue_close (@TaskQueue unit) 0 5 6 eq_refl)))).
Defined.

(** The world is the list of what was run. *)
#[local] Instance clock : Clock (list string) :=
  {| clock_Now _ := 0%Z; clock_Sleep _ w := w |}.
#[local] Instance engine : EngineRun (list string) :=
  {| engine_Run args w := (Err (ExtErr "exit status 1"), w ++ ["backup"]) |}.
Definition hook : M (list string) unit := λ w, (Ok tt, w ++ ["cleanup"]).
Definition b : BackupBgTask (list string) := mkBackupTask "snap" "target" (Some hook).

Lemma run_task_backup_witness :
  ∃ t', runTask "http://c:9501" (mkBgTasks None None) (new_task (BackupPtr b)) []
          = (Ok (mkBgTasks (Some t') None), ["backup"; "cleanup"]) ∧ bg_Err t' ≠ None.
Proof.
  destruct (@run_task_backup _ clock engine "http://c:9501" (mkBgTasks None None) (new_task (BackupPtr b)) b []
              (Err (ExtErr "exit status 1")) ["backup"] (Ok tt) ["backup"; "cleanup"]
              eq_refl eq_refl ltac:(discriminate) eq_refl ltac:(discriminate))
    as (t' & E & _ & _ & _ & Herr & _).
  exists t'. split; [exact E|]. intros H. apply Herr in H. discriminate H.
Defined.
End QueueDemo.
