(* ===== verification/Controller.v ===== *)
(** * Controllers

    [controller/controller.go], [controller/snapshots.go] and
    [controller/backups.go]: a controller drives the engine of an attached volume
    through the [longhorn] command line, which is a parameter.  [util.Execute] and
    [util.ExecuteWithTimeout] are here too. *)

From stdpp Require Import base list gmap strings.
From Stdlib Require Import ZArith Lia Ascii.
From S2P Require Import Prelude GoStrings GoTime Json Types Util TaskQueue.
Local Open Scope string_scope.
Local Open Scope list_scope.

(** ** The command line *)

(** A command whose output is read line by line: no pipe, not started, or the lines
    it printed and what waiting for it returned. *)
Inductive scan : Type :=
| NoPipe (e : error)
| NotStarted (e : error)
| Scanned (lines : list string) (wait : option error).

(** Running [longhorn args..]: the combined output or the failure, [None] when it
    has not ended after the given time; its output line by line; its standard output,
    when only its start is checked, or with its failure. *)
Class Engine (W : Type) := {
  cmd_CombinedOutput : list string → Z → M W (option (string + error));
  cmd_Scan : list string → M W scan;
  cmd_Stdout : list string → M W string;
  cmd_Output : list string → M W (string * option error);
}.

(** [json.Decoder] on a text. *)
Class JsonText := { json_decode : string → option json }.

Definition cmdTimeout : Z := Minute.
Definition purgeTimeout : Z := (15 * Minute)%Z.
Definition VolumeHeadName : string := "volume-head".

Section Execute.
Context {W : Type} `{Engine W}.

(** The argument is not used: the time waited is [cmdTimeout]. *)
Definition ExecuteWithTimeout (timeout : Z) (args : list string) : M W string :=
  r ← cmd_CombinedOutput args cmdTimeout;
  match r with
  | None => fail (Errorf "Timeout executing: %v %v, output %v, error %v")
  | Some (inr _) => fail (Errorf "Failed to execute: %v %v, output %v, error %v")
  | Some (inl output) => mret output
  end.

(** [CmdOutLines]: what comes out of the channel of lines and of that of errors. *)
Definition CmdOutLines (args : list string) : M W (list string * option error) :=
  r ← cmd_Scan args;
  mret (match r with
        | NoPipe err => ([], Some (Wrapf err "error obtaining stdout of `%s`"))
        | NotStarted err => ([], Some (Wrapf err "error starting cmd `%s`"))
        | Scanned lines wait => (lines, wait)
        end).

Definition Execute (args : list string) : M W string := ExecuteWithTimeout cmdTimeout args.
End Execute.

(** ** Interfaces

    [types.SnapshotOps], [types.VolumeBackupOps] and [types.Controller]. *)

Record SnapshotOps (W : Type) := mkSnapshotOps {
  sn_Create : string → gmap string string → M W string;
  sn_List : M W (list (option SnapshotInfo));
  sn_Get : string → M W (option SnapshotInfo);
  sn_Delete : string → M W unit;
  sn_Revert : string → M W unit;
  sn_Purge : M W unit;
}.
Arguments sn_Create {W} _ _ _.
Arguments sn_List {W} _.
Arguments sn_Get {W} _ _.
Arguments sn_Delete {W} _ _.
Arguments sn_Revert {W} _ _.
Arguments sn_Purge {W} _.

Record VolumeBackupOps (W : Type) := mkBackupOps {
  vb_StartBackup : string → string → M W unit;
  vb_Restore : string → M W unit;
  vb_DeleteBackup : string → M W unit;
}.
Arguments vb_StartBackup {W} _ _ _.
Arguments vb_Restore {W} _ _.
Arguments vb_DeleteBackup {W} _ _.

Record Controller (W : Type) := mkCtrl {
  ct_Name : string;
  ct_Endpoint : M W string;
  ct_GetReplicaStates : M W (list ReplicaInfo);
  ct_AddReplica : ReplicaInfo → M W unit;
  ct_RemoveReplica : ReplicaInfo → M W unit;
  ct_PutTask : BgTask W → M W unit;            (* BgTaskQueue().Put *)
  ct_ListTasks : M W (list (BgTask W));        (* BgTaskQueue().List *)
  ct_LatestBgTasks : M W (list (BgTask W));
  ct_SnapshotOps : SnapshotOps W;
  ct_BackupOps : VolumeBackupOps W;
}.
Arguments ct_Name {W} _.
Arguments ct_Endpoint {W} _.
Arguments ct_GetReplicaStates {W} _.
Arguments ct_AddReplica {W} _ _.
Arguments ct_RemoveReplica {W} _ _.
Arguments ct_PutTask {W} _ _.
Arguments ct_ListTasks {W} _.
Arguments ct_LatestBgTasks {W} _.
Arguments ct_SnapshotOps {W} _.
Arguments ct_BackupOps {W} _.

(** ** Addresses and the listing of replicas *)

Definition getControllerURL (address : string) : string := "http://" +:+ address +:+ ":9501".
Definition getReplicaURL (address : string) : string := "tcp://" +:+ address +:+ ":9502".

(** [strings.Split(url, ":")[1]]: an address without a colon is out of range. *)
Definition getIPFromURL (url : string) : outcome string :=
  match Split ":" url !! 1 with
  | Some s => Ok (TrimPrefix s "//")
  | None => Panic "index out of range"
  end.

Definition modes (s : string) : option string :=
  if String.eqb s "RW" then Some ReplicaModeRW
  else if String.eqb s "WO" then Some ReplicaModeWO
  else if String.eqb s "ERR" then Some ReplicaModeERR
  else None.

Definition address_only (a : string) : InstanceInfo := mkInstance "" "" "" "" a false "".

Definition parseReplica (s : string) : outcome ReplicaInfo :=
  match Fields s with
  | f0 :: f1 :: _ =>
    let mode := default ReplicaModeERR (modes f1) in
    a ← getIPFromURL f0;
    Ok (mkReplica (address_only a) mode "")
  | _ => Err (Errorf "cannot parse line `%s`")
  end.

(** The loop over the lines of the listing. *)
Fixpoint parse_lines (lines : list string) (replicas : list ReplicaInfo)
    : outcome (list ReplicaInfo) :=
  match lines with
  | [] => Ok replicas
  | s :: lines' =>
    if HasPrefix s "ADDRESS" then parse_lines lines' replicas
    else
      r ← wrap_outcome "error parsing replica status from `%s`" (parseReplica s);
      parse_lines lines' (replicas ++ [r])
  end.

(** ** The JSON the engine prints *)

Definition dec_labels (j : option json) : option (gmap string string) :=
  match j with
  | None | Some JNull => Some ∅
  | Some (JObj l) =>
    kvs ← mapM (λ kv, v ← dec_string (Some kv.2); Some (kv.1, v)) l;
    Some (list_to_map (reverse kvs))
  | _ => None
  end.

Definition dec_snapshot (l : list (string * json)) : option SnapshotInfo :=
  nm ← dec_string (obj_get "name" l);
  pa ← dec_string (obj_get "parent" l);
  ch ← dec_strings (obj_get "children" l);
  re ← dec_bool (obj_get "removed" l);
  us ← dec_bool (obj_get "usercreated" l);
  cr ← dec_string (obj_get "created" l);
  sz ← dec_string (obj_get "size" l);
  la ← dec_labels (obj_get "labels" l);
  Some (mkSnapshot nm pa ch re us cr sz la).

(** [map[string]*SnapshotInfo]: a null entry is a nil pointer. *)
Definition dec_snapshots (j : json) : option (gmap string (option SnapshotInfo)) :=
  match j with
  | JNull => Some ∅
  | JObj l =>
    kvs ← mapM (λ kv, v ← (match kv.2 with
                           | JNull => Some None
                           | JObj fs => Some <$> dec_snapshot fs
                           | _ => None
                           end); Some (kv.1, v)) l;
    Some (list_to_map (reverse kvs))
  | _ => None
  end.

Record volumeInfo := mkVolumeInfo { vi_Name : string; vi_ReplicaCount : Z; vi_Endpoint : string }.

Definition dec_volumeInfo (j : json) : option volumeInfo :=
  of_fields (λ l,
    nm ← dec_string (obj_get "name" l);
    rc ← dec_int (obj_get "replicaCount" l);
    en ← dec_string (obj_get "endpoint" l);
    Some (mkVolumeInfo nm rc en)) j.

(** ** The operations *)

Section Operations.
Context {W : Type} `{Engine W} `{JsonText} `{MapOrder}.
Context (name url : string).

Definition GetReplicaStates : M W (list ReplicaInfo) :=
  out ← CmdOutLines ["--url"; url; "ls"];
  replicas ← lift (parse_lines out.1 []);
  match out.2 with
  | Some err => fail err
  | None => mret replicas
  end.

Definition AddReplica (replica : ReplicaInfo) : M W unit :=
  wrap "failed to add replica address='%s' to controller '%s'"
    (Execute ["--url"; url; "add"; getReplicaURL (i_Address (r_Instance replica))]);;
  mret tt.

Definition RemoveReplica (replica : ReplicaInfo) : M W unit :=
  wrap "failed to rm replica address='%s' from controller '%s'"
    (Execute ["--url"; url; "rm"; getReplicaURL (i_Address (r_Instance replica))]);;
  mret tt.

Definition ctrl_info : M W volumeInfo :=
  output ← wrap "cannot get volume info" (Execute ["--url"; url; "info"]);
  match json_decode output ≫= dec_volumeInfo with
  | Some info => mret info
  | None => fail (Wrapf (ExtErr "json") "cannot decode volume info: %v")
  end.

Definition Endpoint : M W string :=
  r ← attempt ctrl_info;
  mret (match r with inl info => vi_Endpoint info | inr _ => "" end).

(** *** Snapshots *)

Definition snap_Create (snap : string) (labels : gmap string string) : M W string :=
  let args := ["--url"; url; "snapshot"; "create"] ++
              concat ((λ kv, ["--label"; kv.1 +:+ "=" +:+ kv.2]) <$> range labels) ++ [snap] in
  output ← wrap "error creating snapshot '%s'" (Execute args);
  mret (TrimSpace output).

Definition snap_list : M W (gmap string (option SnapshotInfo)) :=
  out ← wrap "error starting cmd '%v'" (cmd_Stdout ["--url"; url; "snapshot"; "info"]);
  match json_decode out ≫= dec_snapshots with
  | Some data => mret (delete VolumeHeadName data)
  | None => fail (Wrapf (ExtErr "json") "error parsing data from cmd '%v'")
  end.

Definition snap_List : M W (list (option SnapshotInfo)) :=
  data ← snap_list;
  mret (range data).*2.

Definition snap_Get (snap : string) : M W (option SnapshotInfo) :=
  data ← snap_list;
  mret (mjoin (data !! snap)).

Definition snap_Delete (snap : string) : M W unit :=
  wrap "error deleting snapshot '%s'" (Execute ["--url"; url; "snapshot"; "rm"; snap]);; mret tt.

Definition snap_Revert (snap : string) : M W unit :=
  wrap "error reverting to snapshot '%s'" (Execute ["--url"; url; "snapshot"; "revert"; snap]);;
  mret tt.

(** [Purge] when [pending] purges are already in the channel of capacity 2. *)
Definition snap_Purge (pending : nat) : M W unit :=
  if (pending <? 2)%nat then
    wrap "error purging snapshots"
      (ExecuteWithTimeout purgeTimeout ["--url"; url; "snapshot"; "purge"]);;
    mret tt
  else mret tt.

(** *** Backups *)

Definition StartBackup (put : BgTask W → M W unit) (snapName backupTarget : string) : M W unit :=
  snap ← wrap "error getting snapshot '%s', volume '%s'" (snap_Get snapName);
  match snap with
  | None => fail (Errorf "could not find snapshot '%s' to backup, volume '%s'")
  | Some _ => put (new_task (BackupPtr (mkBackupTask snapName backupTarget None)))
  end.

Definition Restore (backup : string) : M W unit :=
  wrap "error restoring backup '%s'" (Execute ["--url"; url; "backup"; "restore"; backup]);;
  mret tt.

Definition DeleteBackup (backup : string) : M W unit :=
  wrap "error deleting backup '%s'" (Execute ["--url"; url; "backup"; "rm"; backup]);; mret tt.
End Operations.

(** ** The holder of controllers

    [holdControllers]: one goroutine owns the map from volume names to controllers.
    A controller made for an address runs a worker on a queue of its own until that
    queue is closed; controllers are told apart by a number. *)

Record controller := mkController' { co_id : nat; co_name : string; co_url : string }.

Record holder := mkHolder {
  hd_cs : gmap string controller;
  hd_next : nat;
  hd_open : gset nat;          (* controllers whose queue is open *)
}.

Definition holder0 : holder := mkHolder ∅ 0 ∅.

Definition running (v : VolumeInfo) : option InstanceInfo :=
  match v_Controller v with
  | Some c => if i_Running (c_Instance c) then Some (c_Instance c) else None
  | None => None
  end.

(** One round of the loop: the request and the controller sent back, if any. *)
Definition holdControllers_step (h : holder) (v : VolumeInfo) : holder * option controller :=
  match running v with
  | None =>
    let opened := match hd_cs h !! v_Name v with
                  | Some c => hd_open h ∖ {[ co_id c ]}
                  | None => hd_open h
                  end in
    (mkHolder (delete (v_Name v) (hd_cs h)) (hd_next h) opened, None)
  | Some i =>
    let cURL := getControllerURL (i_Address i) in
    let fresh := mkController' (hd_next h) (v_Name v) cURL in
    let made := mkHolder (<[v_Name v := fresh]> (hd_cs h)) (S (hd_next h))
                  (hd_open h ∪ {[ hd_next h ]}) in
    match hd_cs h !! v_Name v with
    | Some c => if String.eqb (co_url c) cURL then (h, Some c) else (made, Some fresh)
    | None => (made, Some fresh)
    end
  end.

(** [controller.Get]: nil for a volume without a running controller. *)
Definition ctrl_Get (h : holder) (volume : option VolumeInfo) : holder * option controller :=
  match volume with
  | None => (h, None)
  | Some v => match running v with
              | None => (h, None)
              | Some _ => holdControllers_step h v
              end
  end.

(** [controller.Cleanup]. *)
Definition ctrl_Cleanup (h : holder) (volume : VolumeInfo) : holder :=
  (holdControllers_step h (set_Controller None (CopyVolumeProperties volume))).1.

Inductive holder_req : Type := HGet (v : VolumeInfo) | HCleanup (v : VolumeInfo).

Definition holder_step (h : holder) (r : holder_req) : holder :=
  match r with
  | HGet v => (ctrl_Get h (Some v)).1
  | HCleanup v => ctrl_Cleanup h v
  end.

Record holder_wf (h : holder) : Prop := {
  hw_name : ∀ n c, hd_cs h !! n = Some c → co_name c = n ∧ co_id c < hd_next h ∧ co_id c ∈ hd_open h;
  hw_inj : ∀ n m c, hd_cs h !! n = Some c → hd_cs h !! m = Some c → n = m;
  hw_ids : ∀ n m c c', hd_cs h !! n = Some c → hd_cs h !! m = Some c' → co_id c = co_id c' → n = m;
  hw_open : ∀ i, i ∈ hd_open h → i < hd_next h;
}.

Lemma holder0_wf : holder_wf holder0.
Proof. split; simpl; set_solver. Qed.

Lemma holdControllers_wf h v : holder_wf h → holder_wf (holdControllers_step h v).1.
Proof.
  intros [Hn Hinj Hids Ho]. unfold holdControllers_step.
  assert (Hmade : ∀ url, holder_wf (mkHolder
    (<[v_Name v := mkController' (hd_next h) (v_Name v) url]> (hd_cs h)) (S (hd_next h))
    (hd_open h ∪ {[ hd_next h ]}))).
  { intros url. split; simpl.
    - intros n c [[<- <-]|[Hne Hc]]%lookup_insert_Some; simpl; [set_solver by lia|].
      destruct (Hn _ _ Hc) as (? & ? & ?). split_and!; [done|lia|set_solver].
    - intros n m c Hc Hc'. apply lookup_insert_Some in Hc as [[<- <-]|[Hne Hc]];
        apply lookup_insert_Some in Hc' as [[<- Hq]|[Hne' Hc']]; [done| | |by eapply Hinj].
      + apply Hn in Hc' as (_ & Hlt & _). simpl in Hlt. lia.
      + subst c. apply Hn in Hc as (_ & Hlt & _). simpl in Hlt. lia.
    - intros n m c c' Hc Hc' Hid. apply lookup_insert_Some in Hc as [[<- <-]|[Hne Hc]];
        apply lookup_insert_Some in Hc' as [[<- <-]|[Hne' Hc']]; [done| | |by eapply Hids].
      + apply Hn in Hc' as (_ & Hlt & _). simpl in Hid. lia.
      + apply Hn in Hc as (_ & Hlt & _). simpl in Hid. lia.
    - intros i. rewrite elem_of_union, elem_of_singleton. intros [Hi%Ho| ->]; lia. }
  destruct (running v) as [i|].
  - destruct (hd_cs h !! v_Name v) as [c|]; [|apply Hmade].
    destruct (String.eqb _ _); [done|apply Hmade].
  - split; simpl.
    + intros n c [Hne Hc]%lookup_delete_Some. destruct (Hn _ _ Hc) as (? & ? & ?).
      split_and!; [done..|]. destruct (hd_cs h !! v_Name v) as [c0|] eqn:E; [|done].
      apply elem_of_difference. split; [done|]. rewrite elem_of_singleton. intros Hq.
      destruct Hne. by eapply Hids.
    + intros n m c [_ ?]%lookup_delete_Some [_ ?]%lookup_delete_Some. by eapply Hinj.
    + intros n m c c' [_ ?]%lookup_delete_Some [_ ?]%lookup_delete_Some. by eapply Hids.
    + intros i Hi. apply Ho. destruct (hd_cs h !! v_Name v); set_solver.
Qed.

Lemma holder_step_wf h r : holder_wf h → holder_wf (holder_step h r).
Proof.
  intros Hh. destruct r as [v|v]; simpl; [|by apply holdControllers_wf].
  destruct (running v); [by apply holdControllers_wf|done].
Qed.

Lemma holder_reachable_wf rs : holder_wf (foldl holder_step holder0 rs).
Proof.
  rewrite <-(reverse_involutive rs). induction (reverse rs) as [|r l IH]; [apply holder0_wf|].
  rewrite reverse_cons, foldl_app. simpl. by apply holder_step_wf.
Qed.

(** The controller of a running volume has its name and address, and an open queue. *)
Lemma ctrl_Get_running h v i :
  holder_wf h → running v = Some i →
  let '(h1, r) := ctrl_Get h (Some v) in
  holder_wf h1 ∧ ∃ c, r = Some c ∧ hd_cs h1 !! v_Name v = Some c ∧
    co_url c = getControllerURL (i_Address i) ∧ co_id c ∈ hd_open h1.
Proof.
  intros Hwf Hi. unfold ctrl_Get. rewrite Hi. pose proof (holdControllers_wf h v Hwf) as Hwf1.
  destruct (holdControllers_step h v) as [h1 r] eqn:E. simpl in Hwf1. split; [done|].
  assert (Hr : ∃ c, r = Some c ∧ hd_cs h1 !! v_Name v = Some c ∧
                    co_url c = getControllerURL (i_Address i)).
  { unfold holdControllers_step in E. rewrite Hi in E.
    destruct (hd_cs h !! v_Name v) as [c|] eqn:Ec;
      [destruct (String.eqb_spec (co_url c) (getControllerURL (i_Address i)))|];
      simplify_eq/=; eexists; (split_and!; [done| |done]); by rewrite ?lookup_insert_eq. }
  destruct Hr as (c & -> & Hc & Hurl). exists c. split_and!; [done..|]. by apply (hw_name _ Hwf1 _ _ Hc).
Qed.

(** After a clean-up there is no controller, and the queue of the last one is closed. *)
Lemma ctrl_Cleanup_released h v :
  hd_cs (ctrl_Cleanup h v) !! v_Name v = None ∧
  ∀ c, hd_cs h !! v_Name v = Some c → co_id c ∉ hd_open (ctrl_Cleanup h v).
Proof.
  unfold ctrl_Cleanup, holdControllers_step. simpl. split; [apply lookup_delete_eq|].
  intros c ->. set_solver.
Qed.

(** C25: there is one controller per attached volume and address.  After any history
    of requests, getting the controller of a running volume gives one for exactly its
    name and address, with an open queue, and getting it again gives the same one;
    after a clean-up its queue is closed and the next one is new. *)
Theorem controller_unique rs v i :
  running v = Some i →
  let h := foldl holder_step holder0 rs in
  let '(h1, r) := ctrl_Get h (Some v) in
  ∃ c, r = Some c ∧ co_name c = v_Name v ∧ co_url c = getControllerURL (i_Address i) ∧
    co_id c ∈ hd_open h1 ∧ ctrl_Get h1 (Some v) = (h1, Some c) ∧
    (co_id c ∉ hd_open (ctrl_Cleanup h1 v)) ∧
    ∀ c', (ctrl_Get (ctrl_Cleanup h1 v) (Some v)).2 = Some c' → co_id c' ≠ co_id c.
Proof.
  intros Hi h. assert (Hwf : holder_wf h) by apply holder_reachable_wf. clearbody h.
  pose proof (ctrl_Get_running h v i Hwf Hi) as Hg.
  destruct (ctrl_Get h (Some v)) as [h1 r]. destruct Hg as (Hwf1 & c & -> & Hc & Hurl & Hopen).
  destruct (hw_name _ Hwf1 _ _ Hc) as (Hname & Hlt & _). exists c.
  split_and!; [done..| | |].
  - unfold ctrl_Get, holdControllers_step. by rewrite Hi, Hc, Hurl, String.eqb_refl.
  - by apply ctrl_Cleanup_released.
  - unfold ctrl_Get. rewrite Hi. unfold ctrl_Cleanup, holdControllers_step. simpl.
    rewrite Hi, lookup_delete_eq. simpl. intros c' [= <-]. simpl. lia.
Qed.

(** ** Purging

    Any number of callers of [Purge]: each one either finds two purges in the
    channel and returns, or enters it, waits for the lock of the controller, runs the
    command and leaves. *)

Record purges := mkPurges { pu_waiting : nat; pu_running : nat; pu_channel : nat }.

Inductive purge_step : purges → purges → Prop :=
| purge_enter p : (pu_channel p < 2)%nat →
    purge_step p (mkPurges (S (pu_waiting p)) (pu_running p) (S (pu_channel p)))
| purge_skip p : (2 <= pu_channel p)%nat → purge_step p p
| purge_lock w c : purge_step (mkPurges (S w) 0 c) (mkPurges w 1 c)
| purge_leave w c : purge_step (mkPurges w 1 c) (mkPurges w 0 (pred c)).

(** At most one purge of a volume runs at a time and at most one more waits,
    however many are asked for. *)
Theorem purge_exclusive p :
  rtc purge_step (mkPurges 0 0 0) p →
  (pu_running p <= 1)%nat ∧ (pu_waiting p + pu_running p <= 2)%nat.
Proof.
  intros Hr.
  assert (Hinv : (pu_running p <= 1 ∧ pu_channel p = pu_waiting p + pu_running p ∧ pu_channel p <= 2)%nat).
  { revert p Hr. apply rtc_ind_r; simpl; [lia|]. intros p1 p2 _ Hs IH.
    inversion Hs; subst; simpl in *; lia. }
  lia.
Qed.

(** ** The listing of replicas *)

Fixpoint no_space (s : string) : bool :=
  match s with
  | EmptyString => true
  | String a s' => negb (is_space a) && no_space s'
  end.

Lemma Fields_word w sp rest :
  no_space w = true → w ≠ "" → is_space sp = true →
  Fields (w +:+ String sp rest) = w :: Fields rest.
Proof.
  intros Hw Hne Hsp. induction w as [|a w IH]; [done|]. simpl in *.
  apply andb_true_iff in Hw as [Ha Hw]. apply negb_true_iff in Ha. rewrite Ha.
  destruct w as [|b w]; simpl in *.
  - by rewrite Hsp.
  - apply andb_true_iff in Hw as [Hb Hw]. rewrite Hb in IH. simpl in IH.
    apply negb_true_iff in Hb. rewrite Hb in *.
    by rewrite IH.
Qed.

Lemma no_space_app s t : no_space (s +:+ t) = no_space s && no_space t.
Proof. induction s as [|a s IH]; simpl; [done|]. by rewrite IH, andb_assoc. Qed.

(** A row of [longhorn ls]: the address of the replica, its mode, and its chain. *)
Definition ls_row (r : string * string * string) : string :=
  let '(a, m, chain) := r in getReplicaURL a +:+ " " +:+ m +:+ " " +:+ chain.

Definition row_ok (r : string * string * string) : Prop :=
  let '(a, m, _) := r in
  Count ":" a = 0 ∧ no_space a = true ∧ no_space m = true ∧ m ≠ "".

Lemma replica_url_ip a : Count ":" a = 0 → getIPFromURL (getReplicaURL a) = Ok a.
Proof.
  intros Ha. unfold getIPFromURL.
  assert (Split ":" (getReplicaURL a) = ["tcp"; "//" +:+ a; "9502"]) as ->.
  { unfold getReplicaURL. simpl. rewrite (Split_app ":" a ":9502" "" ["9502"]) by done.
    simpl. by rewrite sapp_nil_r. }
  cbn [lookup list_lookup]. by rewrite TrimPrefix_app.
Qed.

Lemma parse_row r : row_ok r →
  parseReplica (ls_row r) =
  Ok (mkReplica (address_only r.1.1) (default ReplicaModeERR (modes r.1.2)) "").
Proof.
  destruct r as [[a m] chain]. intros (Hc & Ha & Hm & Hne). unfold parseReplica, ls_row.
  change (getReplicaURL a +:+ " " +:+ m +:+ " " +:+ chain) with
    (getReplicaURL a +:+ String " " (m +:+ String " " chain)).
  rewrite Fields_word; [|..].
  - rewrite (Fields_word m " " chain) by done. simpl. by rewrite replica_url_ip.
  - unfold getReplicaURL. by rewrite !no_space_app, Ha.
  - done.
  - done.
Qed.

(** The states of the replicas are read exactly.  From what the engine prints,
    a header and one row per replica, [GetReplicaStates] returns one replica per row, in
    order, with the address and the mode of the row; an unknown mode counts as an
    error. *)
Theorem replica_states_exact {W} `{Engine W} url header (rows : list (string * string * string)) w w' :
  HasPrefix header "ADDRESS" = true → Forall row_ok rows →
  cmd_Scan ["--url"; url; "ls"] w = (Ok (Scanned (header :: (ls_row <$> rows)) None), w') →
  GetReplicaStates url w =
    (Ok ((λ r, mkReplica (address_only r.1.1) (default ReplicaModeERR (modes r.1.2)) "") <$> rows), w').
Proof.
  intros Hh Hrows E. unfold GetReplicaStates, CmdOutLines.
  erewrite bind_ok by (erewrite bind_ok by exact E; reflexivity).
  assert (Hp : ∀ acc, parse_lines (ls_row <$> rows) acc =
    Ok (acc ++ ((λ r, mkReplica (address_only r.1.1) (default ReplicaModeERR (modes r.1.2)) "") <$> rows))).
  { clear E. induction Hrows as [|r rows Hr _ IH]; intros acc; [simpl; by rewrite app_nil_r|].
    rewrite !fmap_cons. cbn [parse_lines].
    assert (HasPrefix (ls_row r) "ADDRESS" = false) as -> by by destruct r as [[??]?].
    rewrite (parse_row r Hr). simpl. by rewrite IH, <-app_assoc. }
  erewrite bind_ok; [|unfold lift; cbn [fst parse_lines]; rewrite Hh, Hp; reflexivity]. done.
Qed.

(** ** The properties at concrete inputs *)
Module CtrlDemo.
Definition attached (addr : string) : VolumeInfo :=
  mkVolume "vol" 4096 "" "" 1 0
    (Some (mkController (mkInstance "c" "controller" "vol-controller" "h" addr true "vol")))
    None "" "" "" "" [].
Definition old : list holder_req := [HGet (attached "10.0.0.1"); HGet (attached "10.0.0.2")].

Lemma controller_unique_witness :
  ∃ c, (ctrl_Get (foldl holder_step holder0 old) (Some (attached "10.0.0.2"))).2 = Some c ∧
    co_url c = "http://10.0.0.2:9501".
Proof.
  destruct (controller_unique old (attached "10.0.0.2")
              (mkInstance "c" "controller" "vol-controller" "h" "10.0.0.2" true "vol") eq_refl)
    as (c & Hc & _ & Hurl & _).
  exists c. exact (conj Hc Hurl).
Defined.

(** The controller for the first address is replaced but its queue stays open, also
    after the clean-up. *)
Example replaced_queue_leaks :
  let h := ctrl_Cleanup (foldl holder_step holder0 old) (attached "10.0.0.2") in
  hd_cs h = ∅ ∧ elements (hd_open h) = [0].
Proof. split; vm_compute; reflexivity. Qed.

Lemma purge_exclusive_witness :
  ∃ p, rtc purge_step (mkPurges 0 0 0) p ∧ pu_running p = 1 ∧ (pu_running p <= 1)%nat.
Proof.
  exists (mkPurges 1 1 2).
  assert (Hr : rtc purge_step (mkPurges 0 0 0) (mkPurges 1 1 2)).
  { eapply rtc_l; [apply purge_enter; simpl; lia|].
    eapply rtc_l; [apply purge_enter; simpl; lia|].
    eapply rtc_l; [apply (purge_lock 1 2)|]. apply rtc_refl. }
  split; [exact Hr|]. split; [reflexivity|]. exact (proj1 (purge_exclusive _ Hr)).
Defined.

#[local] Instance engine : Engine unit := {|
  cmd_CombinedOutput _ _ := mret None;
  cmd_Scan _ := mret (Scanned ["ADDRESS MODE CHAIN"; "tcp://10.0.0.7:9502 RW [a b]";
                               "tcp://10.0.0.8:9502 ERR [a]"] None);
  cmd_Stdout _ := mret "";
  cmd_Output _ := mret ("", None);
|}.

Lemma replica_states_exact_witness :
  GetReplicaStates "http://c:9501" tt =
  (Ok [mkReplica (address_only "10.0.0.7") "RW" ""; mkReplica (address_only "10.0.0.8") "ERR" ""], tt).
Proof.
  exact (replica_states_exact "http://c:9501" "ADDRESS MODE CHAIN"
           [("10.0.0.7", "RW", "[a b]"); ("10.0.0.8", "ERR", "[a]")] tt tt eq_refl
           ltac:(repeat constructor; done) eq_refl).
Defined.
End CtrlDemo.
