(* ===== verification/Backups.v ===== *)
(** * Backups

    [backups/backups.go]: the backups of a target, listed, inspected and removed
    through the [longhorn] command line.  [mapstructure.Decode] is a parameter.  The
    text a failed decoding has read is taken to be all of the output. *)

From stdpp Require Import base list gmap strings.
From Stdlib Require Import ZArith Lia Ascii.
From S2P Require Import Prelude GoStrings GoTime Json Types Util TaskQueue Controller.
Local Open Scope string_scope.
Local Open Scope list_scope.

(** [types.ManagerBackupOps]. *)
Record ManagerBackupOps (W : Type) := mkManagerBackupOps {
  mb_List : string → M W (list BackupInfo);
  mb_Get : string → M W (option BackupInfo);
  mb_Delete : string → M W unit;
  mb_ListVolumes : M W (list BackupVolumeInfo);
  mb_GetVolume : string → M W BackupVolumeInfo;
}.
Arguments mb_List {W} _ _.
Arguments mb_Get {W} _ _.
Arguments mb_Delete {W} _ _.
Arguments mb_ListVolumes {W} _.
Arguments mb_GetVolume {W} _ _.

(** [mapstructure.Decode] into a [BackupInfo]. *)
Class Mapstructure := { mapstructure_Decode : json → option BackupInfo }.

Record backupVolume := mkBackupVol {
  bk_Name : string;
  bk_Size : string;
  bk_Created : string;
  bk_LastBackupName : string;
  bk_SpaceUsage : string;
  bk_Backups : gmap string json;
}.

Definition dec_backupVolume (l : list (string * json)) : option backupVolume :=
  nm ← dec_string (obj_get "Name" l);
  sz ← dec_string (obj_get "Size" l);
  cr ← dec_string (obj_get "Created" l);
  la ← dec_string (obj_get "LastBackupName" l);
  sp ← dec_string (obj_get "SpaceUsage" l);
  bs ← (match obj_get "Backups" l with
        | None | Some JNull => Some ∅
        | Some (JObj fs) => Some (list_to_map (reverse fs))
        | _ => None
        end);
  Some (mkBackupVol nm sz cr la sp bs).

(** [map[string]*backupVolume]. *)
Definition dec_backupVolumes (j : json) : option (gmap string (option backupVolume)) :=
  match j with
  | JNull => Some ∅
  | JObj l =>
    kvs ← mapM (λ kv, v ← (match kv.2 with
                           | JNull => Some None
                           | JObj fs => Some <$> dec_backupVolume fs
                           | _ => None
                           end); Some (kv.1, v)) l;
    Some (list_to_map (reverse kvs))
  | _ => None
  end.

(** The test for the engine's answer that there is nothing there. *)
Definition cannot_find (out : string) : bool := HasPrefix (ToLower (TrimSpace out)) "cannot find ".

Definition parse_failure {A} (out : string) (nothing : A) : outcome A :=
  if cannot_find out then Ok nothing
  else Err (Wrapf (ExtErr "json") "error parsing backups: \n%s").

Section Parsing.
Context `{JsonText} `{Mapstructure} `{MapOrder}.

Definition parseBackup (v : json) : outcome BackupInfo :=
  match mapstructure_Decode v with
  | Some b => Ok b
  | None => Err (Wrapf (ExtErr "mapstructure") "Error parsing backup info %+v")
  end.

(** A backup with the fields of its volume filled in. *)
Definition with_volume (v : backupVolume) (b : BackupInfo) : BackupInfo :=
  mkBackup (b_Name b) (b_URL b) (b_SnapshotName b) (b_SnapshotCreated b) (b_Created b) (b_Size b)
    (bk_Name v) (bk_Size v) (bk_Created v).

Fixpoint parse_backups (v : backupVolume) (l : list json) (backups : list BackupInfo)
    : outcome (list BackupInfo) :=
  match l with
  | [] => Ok backups
  | j :: l' => b ← parseBackup j; parse_backups v l' (backups ++ [with_volume v b])
  end.

Definition parseBackupsList (out volumeName : string) : outcome (list BackupInfo) :=
  match json_decode out ≫= dec_backupVolumes with
  | None => parse_failure out []
  | Some data =>
    match mjoin (data !! volumeName) with
    | None => Panic "nil pointer dereference"
    | Some v => parse_backups v (range (bk_Backups v)).*2 []
    end
  end.

Fixpoint backup_volumes (l : list (string * option backupVolume)) (acc : list BackupVolumeInfo)
    : outcome (list BackupVolumeInfo) :=
  match l with
  | [] => Ok acc
  | (_, None) :: _ => Panic "nil pointer dereference"
  | (name, Some v) :: l' =>
    backup_volumes l' (acc ++ [mkBackupVolume name (bk_Size v) (bk_Created v)])
  end.

Definition parseBackupVolumesList (out : string) : outcome (list BackupVolumeInfo) :=
  match json_decode out ≫= dec_backupVolumes with
  | None => parse_failure out []
  | Some data => backup_volumes (range data) []
  end.

Definition parseOneBackup (out : string) : outcome (option BackupInfo) :=
  match json_decode out with
  | Some (JObj l) => b ← parseBackup (JObj l); Ok (Some b)
  | Some JNull => b ← parseBackup JNull; Ok (Some b)
  | _ => parse_failure out None
  end.
End Parsing.

Section Backups.
Context {W : Type} `{Engine W} `{JsonText} `{Mapstructure} `{MapOrder}.
Context (BackupTarget : string).

Definition bk_ListVolumes : M W (list BackupVolumeInfo) :=
  stdout ← wrap "error starting cmd '%v'" (cmd_Stdout ["backup"; "ls"; "--volume-only"; BackupTarget]);
  lift (parseBackupVolumesList stdout).

(** The first of the list; an empty list is out of range. *)
Definition bk_GetVolume (volumeName : string) : M W BackupVolumeInfo :=
  stdout ← wrap "error starting cmd '%v'"
    (cmd_Stdout ["backup"; "ls"; "--volume"; volumeName; "--volume-only"; BackupTarget]);
  l ← lift (parseBackupVolumesList stdout);
  match l with
  | v :: _ => mret v
  | [] => gopanic "index out of range"
  end.

Definition bk_List (volumeName : string) : M W (list BackupInfo) :=
  if String.eqb volumeName "" then mret []
  else
    stdout ← wrap "error starting cmd '%v'"
      (cmd_Stdout ["backup"; "ls"; "--volume"; volumeName; BackupTarget]);
    lift (parseBackupsList stdout volumeName).

Definition bk_Get (url : string) : M W (option BackupInfo) :=
  stdout ← wrap "error starting cmd '%v'" (cmd_Stdout ["backup"; "inspect"; url]);
  lift (parseOneBackup stdout).

Definition bk_Delete (url : string) : M W unit :=
  out ← cmd_Output ["backup"; "rm"; url];
  match out.2 with
  | None => mret tt
  | Some err =>
    if cannot_find out.1 then mret tt else fail (Wrapf err "Error deleting backup: %s")
  end.

Definition backup_ops : ManagerBackupOps W :=
  mkManagerBackupOps W bk_List bk_Get bk_Delete bk_ListVolumes bk_GetVolume.
End Backups.

(** The listing of a volume's backups is complete.  When the engine prints the
    volume and every entry decodes, each entry gives one backup, with the name, the
    size and the creation time of the volume, whatever the order of the entries. *)
Theorem backups_list_complete {W} `{Engine W} `{JsonText} `{Mapstructure} `{MapOrder}
    target n (w w' : W) out data v (f : json → BackupInfo) :
  n ≠ "" → cmd_Stdout ["backup"; "ls"; "--volume"; n; target] w = (Ok out, w') →
  json_decode out ≫= dec_backupVolumes = Some data → data !! n = Some (Some v) →
  map_Forall (λ _ j, mapstructure_Decode j = Some (f j)) (bk_Backups v) →
  ∃ l, bk_List target n w = (Ok l, w') ∧
    l ≡ₚ (λ kj, with_volume v (f kj.2)) <$> map_to_list (bk_Backups v).
Proof.
  intros Hn E Hdec Hv Hall.
  assert (Hp : ∀ l acc, (∀ j, j ∈ l → mapstructure_Decode j = Some (f j)) →
    parse_backups v l acc = Ok (acc ++ ((λ j, with_volume v (f j)) <$> l))).
  { induction l as [|j l IH]; intros acc Hl; simpl; [by rewrite app_nil_r|].
    unfold parseBackup. rewrite (Hl j) by set_solver. cbn.
    rewrite IH by set_solver. by rewrite <-app_assoc. }
  exists ((λ j, with_volume v (f j)) <$> (range (bk_Backups v)).*2). split.
  - unfold bk_List. rewrite (proj2 (String.eqb_neq _ _) Hn).
    erewrite bind_ok by by apply wrap_ok_inv.
    unfold lift, parseBackupsList. rewrite Hdec, Hv. simpl. rewrite Hp; [done|].
    intros j ([k x] & -> & Hk%elem_of_range)%list_elem_of_fmap. exact (Hall k x Hk).
  - rewrite <-list_fmap_compose. rewrite range_perm. done.
Qed.

Module BackupsDemo.
#[export] Existing Instance list_order.
Definition backup (n : string) : BackupInfo := mkBackup n "" "" "" "" "" "" "" "".
#[local] Instance decode : Mapstructure := {|
  mapstructure_Decode j := match j with JStr s => Some (backup s) | _ => None end
|}.
Definition doc : json := JObj [("vol", JObj [("Name", JStr "vol"); ("Size", JStr "4096");
  ("Backups", JObj [("b1", JStr "b1"); ("b2", JStr "b2")])])].
#[local] Instance text : JsonText := {|
  json_decode s := if String.eqb s "listing" then Some doc else None
|}.
#[local] Instance engine : Engine unit := {|
  cmd_CombinedOutput _ _ := mret None;
  cmd_Scan _ := mret (Scanned [] None);
  cmd_Stdout args := mret (if decide ("ghost" ∈ args) then "Cannot find volume" else "listing");
  cmd_Output _ := mret ("", None);
|}.

Definition v : backupVolume :=
  mkBackupVol "vol" "4096" "" "" "" {[ "b1" := JStr "b1"; "b2" := JStr "b2" ]}.

Lemma backups_list_complete_witness :
  ∃ l, bk_List "target" "vol" tt = (Ok l, tt) ∧ length l = 2.
Proof.
  destruct (backups_list_complete "target" "vol" tt tt "listing" {[ "vol" := Some v ]} v
              (λ j, match j with JStr s => backup s | _ => backup "" end)) as (l & E & Hl).
  - discriminate.
  - reflexivity.
  - vm_compute. reflexivity.
  - reflexivity.
  - intros k j Hj. unfold v in Hj. cbn [bk_Backups] in Hj.
    apply lookup_insert_Some in Hj as [[_ <-]|[_ Hj]]; [reflexivity|].
    apply lookup_singleton_Some in Hj as [_ <-]. reflexivity.
  - exists l. split; [exact E|]. rewrite Hl. vm_compute. reflexivity.
Defined.

(** A volume that the target does not have: the listing is empty, and asking for
    the volume itself is out of range. *)
Example ghost_volume :
  bk_List "target" "ghost" tt = (Ok [], tt) ∧
  bk_GetVolume "target" "ghost" tt = (Panic "index out of range", tt).
Proof. done. Qed.
End BackupsDemo.
