(* ===== verification/World.v ===== *)
(** * A reference environment

    A concrete world in which the programs of the development run: the reference
    etcd, one Docker daemon per host, and a clock.  It meets the descriptions of the
    environment that the theorems use, so it instantiates their witnesses.  A
    container whose image is [broken] cannot be started, and one that runs is not removed:
    the removals of the program do not force it. *)

From stdpp Require Import base list gmap strings pretty.
From Stdlib Require Import ZArith Lia Ascii.
From S2P Require Import Prelude GoStrings GoTime Json Types Util Codec Backend KVStore Scheduler Docker TaskQueue Controller.
Local Open Scope string_scope.
Local Open Scope list_scope.

Record container := mkContainer { ct_name : string; ct_image : string; ct_running : bool }.

Record world := mkWorld {
  w_etcd : EtcdRef.etcd;
  w_docker : gmap string (gmap string container);   (* daemon, container ID *)
  w_names : gmap string (gmap string string);       (* of every container there ever was *)
  w_fresh : nat;
  w_clock : Z;
  w_holder : holder;                                (* the clients of a manager *)
}.

(** Running a part of the world. *)
Definition zoom {A} (m : M EtcdRef.etcd A) : M world A := λ w,
  let '(o, e) := m (w_etcd w) in (o, mkWorld e (w_docker w) (w_names w) (w_fresh w) (w_clock w) (w_holder w)).

#[global] Instance world_api : KeysAPI world := {
  kapi_Set k j := zoom (kapi_Set k j);
  kapi_Get k := zoom (kapi_Get k);
  kapi_Delete k := zoom (kapi_Delete k);
}.

Lemma wp_zoom {A} (m : M EtcdRef.etcd A) w (Q : outcome A → EtcdRef.etcd → Prop) :
  wp m (w_etcd w) Q → wp (zoom m) w (λ o w', Q o (w_etcd w')).
Proof. unfold wp, zoom. by destruct (m (w_etcd w)). Qed.

#[global, refine] Instance world_api_spec : KeysAPISpec world := {
  tree w := tree (w_etcd w);
  dirs w d := dirs (w_etcd w) d;
  online w := online (w_etcd w);
}.
Proof.
  - intros k w. apply (wp_zoom _ w _ (kapi_get_spec k (w_etcd w))).
  - intros k j w. apply (wp_zoom _ w _ (kapi_set_spec k j (w_etcd w))).
  - intros k w. apply (wp_zoom _ w _ (kapi_delete_spec k (w_etcd w))).
Defined.

Definition containers_of (cli : string) (w : world) : gmap string container :=
  default ∅ (w_docker w !! cli).

Definition set_containers (cli : string) (m : gmap string container) (w : world) : world :=
  mkWorld (w_etcd w) (<[cli:=m]> (w_docker w)) (w_names w) (w_fresh w) (w_clock w) (w_holder w).

Definition names_of (cli : string) (w : world) : gmap string string :=
  default ∅ (w_names w !! cli).

(** Container IDs are numbered; the highest one is taken. *)
Definition fresh_id (w : world) : string := "c" +:+ pretty (w_fresh w).

Definition create (cli : string) (cfg : ContainerConfig) : M world string := λ w,
  if negb (simple_name (cc_Name cfg)) then (Err (ExtErr "invalid container name"), w)
  else if decide (is_Some (containers_of cli w !! fresh_id w) ∨
                  is_Some (names_of cli w !! fresh_id w)) then (Err (ExtErr "conflict"), w)
  else (Ok (fresh_id w),
        mkWorld (w_etcd w)
          (<[cli := <[fresh_id w := mkContainer (cc_Name cfg) (cc_Image cfg) false]>
                      (containers_of cli w)]> (w_docker w))
          (<[cli := <[fresh_id w := cc_Name cfg]> (names_of cli w)]> (w_names w))
          (S (w_fresh w)) (w_clock w) (w_holder w)).

Definition on_container {A} (cli id : string)
    (f : container → world → outcome A * world) : M world A := λ w,
  match containers_of cli w !! id with
  | None => (Err (ExtErr "no such container"), w)
  | Some c => if simple_name (ct_name c) && bool_decide (names_of cli w !! id = Some (ct_name c))
              then f c w
              else (Err (ExtErr "invalid container name"), w)
  end.

Definition set_running (cli id : string) (b : bool) : M world unit :=
  on_container cli id (λ c w,
    if b && String.eqb (ct_image c) "broken" then (Err (ExtErr "cannot start"), w)
    else (Ok tt, set_containers cli (<[id := mkContainer (ct_name c) (ct_image c) b]>
                                       (containers_of cli w)) w)).

#[global] Instance world_docker : DockerCli world := {
  ContainerCreate := create;
  ContainerStart cli id := set_running cli id true;
  ContainerStop cli id _ := set_running cli id false;
  ContainerRemove cli id _ := on_container cli id (λ c w,
    if ct_running c then (Err (ExtErr "You cannot remove a running container"), w)
    else (Ok tt, set_containers cli (delete id (containers_of cli w)) w));
  ContainerInspect cli id := on_container cli id (λ c w,
    (Ok (mkInspect id ("/" +:+ ct_name c) (ct_running c)
           (if ct_running c then "10.0.0." +:+ id else "")
           (if ct_running c then {[ "bridge" := "10.0.0." +:+ id ]} else ∅)), w));
  ContainerList _ := mret tt;
}.

#[global] Instance world_os : HostOS world := {
  http_Get _ := mret tt;
  os_Stat _ := mret true;
}.

#[global] Instance world_clock : Clock world := {
  clock_Now := w_clock;
  clock_Sleep d w := mkWorld (w_etcd w) (w_docker w) (w_names w) (w_fresh w) (w_clock w + d)%Z (w_holder w);
}.

#[global] Instance world_clock_spec : ClockSpec world.
Proof. split. intros. simpl. lia. Qed.

#[global] Existing Instance list_order.

Definition world0 : world := mkWorld (EtcdRef.mkEtcd ∅ true) ∅ ∅ 0 (1490408820 * nanos)%Z holder0.
