(* ===== verification/DockerSpec.v ===== *)
(** * What the Docker orchestrator does to the store and to the containers

    Every schedule item is specified by its effect on the abstract store of
    [KVSpec]; container operations leave the store alone. *)

From stdpp Require Import base functions list gmap strings.
From Stdlib Require Import ZArith Lia Ascii.
From S2P Require Import Prelude GoStrings GoTime Json Types Util Codec Backend KVStore KVSpec KVVolumes Scheduler Docker World.
Local Open Scope string_scope.
Local Open Scope list_scope.

(** ** The environment

    Containers, the host and the clock have nothing to do with the key-value
    store.  A container's name is one path component (Docker admits letters, digits,
    [_], [.] and [-]).  Docker also takes the name of a container or the first digits of
    its ID for the ID; only the inspection of a full ID is of the container with that
    very ID.  A daemon never gives an ID a second time, and a container keeps its name:
    [names] are those of every container a daemon ever had, by their full IDs.  An inspection that follows the stop
    of a container finds it stopped. *)

Class ContainerNames (W : Type) := {
  full_id : string → Prop;
  names : W → string → gmap string string;
}.
Definition names_kept {W} `{ContainerNames W} (w w' : W) : Prop :=
  ∀ cli, names w cli ⊆ names w' cli.
#[global] Instance names_kept_preorder {W} `{ContainerNames W} : PreOrder (names_kept (W := W)).
Proof.
  split; [intros w cli; apply map_subseteq_spec; auto|].
  intros w1 w2 w3 H1 H2 cli. exact (transitivity (H1 cli) (H2 cli)).
Qed.

Section Frame.
Context {W : Type} `{BackendSpec W} `{ContainerNames W}.

Definition kv_frame (w w' : W) : Prop :=
  view w' = view w ∧ (∀ d, is_dir w' d → is_dir w d) ∧ (healthy w → healthy w') ∧ names_kept w w'.

#[global] Instance kv_frame_preorder : PreOrder kv_frame.
Proof.
  split.
  - intros w. by split_and!.
  - intros w1 w2 w3 (?&?&?&?) (?&?&?&?). split_and!; [congruence|auto..|by etrans].
Qed.

Lemma kv_free_rel {A} ps (m : M W A) w st o w' :
  preserves kv_frame m → Rel ps w st → m w = (o, w') → Rel ps w' st.
Proof.
  intros Hm Hr E. pose proof (wp_elim _ _ _ _ _ (Hm w) E) as (?&?&_). by eapply Rel_frame.
Qed.
End Frame.

(** A computation that leaves the store alone. *)
Abbreviation kv_free := (preserves kv_frame).

Class DockerSpec (W : Type) `{BackendSpec W} `{ContainerNames W} `{DockerCli W} `{HostOS W} `{Clock W} := {
  create_free : ∀ cli cfg, kv_free (ContainerCreate cli cfg);
  start_free : ∀ cli id, kv_free (ContainerStart cli id);
  stop_free : ∀ cli id t, kv_free (ContainerStop cli id t);
  remove_free : ∀ cli id v, kv_free (ContainerRemove cli id v);
  inspect_free : ∀ cli id, kv_free (ContainerInspect cli id);
  http_free : ∀ url, kv_free (http_Get url);
  stat_free : ∀ dev, kv_free (os_Stat dev);
  clock_free : ∀ d w, kv_frame w (clock_Sleep d w);
  inspect_result : ∀ cli id w j w', ContainerInspect cli id w = (Ok j, w') →
    (full_id id → cj_ID j = id) ∧ names w' cli !! cj_ID j = Some (TrimPrefix (cj_Name j) "/") ∧
    simple_name (TrimPrefix (cj_Name j) "/") = true;
  names_full : ∀ w cli id n, names w cli !! id = Some n → full_id id;
  stopped_result : ∀ cli id t w w1 j w2, ContainerStop cli id t w = (Ok tt, w1) →
    ContainerInspect cli id w1 = (Ok j, w2) → cj_Running j = false;
  get_names : ∀ k, preserves names_kept (b_get k);
  set_names : ∀ k j, preserves names_kept (b_set k j);
  delete_names : ∀ k, preserves names_kept (b_delete k);
  keys_names : ∀ k, preserves names_kept (b_keys k);
}.
#[export] Hint Resolve create_free start_free stop_free remove_free inspect_free http_free
  stat_free : frame.

(** ** Instances in the store *)

Definition is_controller (i : InstanceInfo) : bool := String.eqb (i_Type i) InstanceTypeController.
Definition is_replica (i : InstanceInfo) : bool := String.eqb (i_Type i) InstanceTypeReplica.

(** The instance the store has in the place of [i]. *)
Definition recorded (st : store) (i : InstanceInfo) : option InstanceInfo :=
  if is_controller i then c_Instance <$> st_ctrl st (i_VolumeName i)
  else if is_replica i then r_Instance <$> st_reps st (i_VolumeName i) !! i_Name i
  else None.

Definition conflict (st : store) (i : InstanceInfo) : bool :=
  match recorded st i with Some j => other_instance j i | None => false end.

Definition record_instance (i : InstanceInfo) (st : store) : store :=
  let n := i_VolumeName i in
  if is_controller i then put_ctrl n (Some (mkController i)) st
  else if is_replica i then
    put_reps n (<[i_Name i := match st_reps st n !! i_Name i with
                              | Some r => set_Instance i r
                              | None => mkReplica i "" ""
                              end]> (st_reps st n)) st
  else st.

Definition forget_instance (i : InstanceInfo) (st : store) : store :=
  let n := i_VolumeName i in
  if is_controller i then put_ctrl n None st
  else if is_replica i then put_reps n (delete (i_Name i) (st_reps st n)) st
  else st.

(** The names of an instance are path components. *)
Definition named (i : InstanceInfo) : Prop :=
  simple_name (i_VolumeName i) = true ∧ simple_name (i_Name i) = true.

Lemma other_instance_false i j :
  other_instance i j = false ↔ i_ID i = i_ID j ∧ i_HostID i = i_HostID j.
Proof.
  unfold other_instance. rewrite orb_false_iff, !negb_false_iff, !String.eqb_eq. done.
Qed.

Lemma controller_not_replica i : is_controller i = true → is_replica i = false.
Proof. unfold is_controller, is_replica. intros ->%String.eqb_eq. done. Qed.

(** Recording an instance changes its volume only, and neither record nor the
    other kind of instance. *)
Lemma record_same_except i st : same_except (i_VolumeName i) st (record_instance i st).
Proof.
  unfold record_instance. destruct (is_controller i); [|destruct (is_replica i)];
    split_and!; try done; intros m Hm; simpl; by rewrite ?fn_lookup_insert_ne by done.
Qed.

Lemma forget_same_except i st : same_except (i_VolumeName i) st (forget_instance i st).
Proof.
  unfold forget_instance. destruct (is_controller i); [|destruct (is_replica i)];
    split_and!; try done; intros m Hm; simpl; by rewrite ?fn_lookup_insert_ne by done.
Qed.

Lemma recorded_record i st :
  is_controller i = true ∨ is_replica i = true → recorded (record_instance i st) i = Some i.
Proof.
  unfold recorded, record_instance. destruct (is_controller i); simpl.
  - by rewrite fn_lookup_insert.
  - intros [?|Hi]; [done|]. rewrite Hi. simpl. rewrite fn_lookup_insert, lookup_insert_eq.
    by destruct (st_reps st (i_VolumeName i) !! i_Name i).
Qed.

Lemma recorded_forget i st : recorded (forget_instance i st) i = None.
Proof.
  unfold recorded, forget_instance. destruct (is_controller i); simpl.
  - by rewrite fn_lookup_insert.
  - destruct (is_replica i); [|done]. simpl. by rewrite fn_lookup_insert, lookup_delete_eq.
Qed.

Section Metadata.
Context {W : Type} `{BackendSpec W} `{MapOrder}.
Context (ps : list string).
Hypothesis ps_nonempty : ps ≠ [].
Hypothesis ps_simple : Forall (λ n, simple_name n = true) ps.
Implicit Types (w : W) (st : store) (i : InstanceInfo).

Local Abbreviation Rel := (Rel ps).

(** A call that takes the store to [st'] if [c] holds of [st], and otherwise fails
    and leaves it. *)
Definition checked (c : bool) (st st' : store) (o : outcome unit) (w' : W) : Prop :=
  match o with
  | Ok _ => c = true ∧ Rel w' st'
  | Err _ => Rel w' st ∨ (c = true ∧ Rel w' st')
  | Panic _ => False
  end.

Lemma writes_checked w st st' o w' : writes ps w st st' o w' → checked true st st' o w'.
Proof. intros (_ & Ho). destruct o; naive_solver. Qed.

Lemma wrap_checked fmt (m : M W unit) w c st st' :
  wp m w (checked c st st') → wp (wrap fmt m) w (checked c st st').
Proof. intros Hm. go_step. go_call Hm. by intros [] ? _ ?. Qed.

Lemma updateInstanceMetadata_spec i st w :
  Rel w st → named i →
  wp (updateInstanceMetadata (path ps) i) w
     (checked (negb (incomplete i) && negb (conflict st i)) st (record_instance i st)).
Proof.
  intros Hr [Hv Hn]. unfold updateInstanceMetadata, conflict, recorded, record_instance.
  destruct (incomplete i) eqn:Hinc; [go_step; by left|].
  fold (is_controller i). fold (is_replica i). destruct (is_controller i) eqn:Hc.
  { do 2 go_step. go_call (GetVolumeController_spec ps ps_nonempty ps_simple _ st w Hr Hv).
    intros [c|e|s] w' _ (_ & Hr' & Ho); [..|done]; [|go_step; by left].
    subst c. destruct (st_ctrl st (i_VolumeName i)) as [c|]; simpl;
      [destruct (other_instance _ _)|]; try (go_step; by left); apply wrap_checked;
      (go_call (SetVolumeController_spec ps ps_nonempty ps_simple (mkController i) st w' Hr' Hv));
      intros ???; apply writes_checked. }
  destruct (is_replica i) eqn:Hrep.
  - do 2 go_step. go_call (GetVolumeReplica_spec ps ps_nonempty ps_simple _ _ st w Hr Hv Hn).
    intros [x|e|s] w' _ (_ & Hr' & Ho); [..|done]; [|simpl; by left].
    subst x. simpl. destruct (st_reps st (i_VolumeName i) !! i_Name i) as [x|] eqn:Hx; simpl;
      [destruct (other_instance _ _)|]; try (go_step; by left); apply wrap_checked.
    + go_call (SetVolumeReplica_spec ps ps_nonempty ps_simple (set_Instance i x) st w' Hr' Hv Hn).
      intros ???. apply writes_checked.
    + go_call (SetVolumeReplica_spec ps ps_nonempty ps_simple (mkReplica i "" "") st w' Hr' Hv Hn).
      intros ???. apply writes_checked.
  - by go_step.
Qed.

Definition present (st : store) (i : InstanceInfo) : bool :=
  match recorded st i with Some _ => true | None => negb (is_controller i || is_replica i) end.

Lemma removeInstanceMetadata_spec i st w :
  Rel w st → named i →
  wp (removeInstanceMetadata (path ps) i) w
     (checked (negb (incomplete i) && (present st i && negb (conflict st i))) st
        (forget_instance i st)).
Proof.
  intros Hr [Hv Hn].
  unfold removeInstanceMetadata, present, conflict, recorded, forget_instance.
  destruct (incomplete i) eqn:Hinc; [go_step; by left|].
  fold (is_controller i). fold (is_replica i). destruct (is_controller i) eqn:Hc.
  { do 2 go_step. go_call (GetVolumeController_spec ps ps_nonempty ps_simple _ st w Hr Hv).
    intros [c|e|s] w' _ (_ & Hr' & Ho); [..|done]; [|go_step; by left].
    subst c. destruct (st_ctrl st (i_VolumeName i)) as [c|]; simpl; [|go_step; by left].
    destruct (other_instance _ _); [go_step; by left|]. apply wrap_checked.
    go_call (DeleteVolumeController_spec ps ps_nonempty ps_simple _ st w' Hr' Hv).
    intros ???. apply writes_checked. }
  destruct (is_replica i) eqn:Hrep.
  - do 2 go_step. go_call (GetVolumeReplica_spec ps ps_nonempty ps_simple _ _ st w Hr Hv Hn).
    intros [x|e|s] w' _ (_ & Hr' & Ho); [..|done]; [|simpl; by left].
    subst x. simpl. destruct (st_reps st (i_VolumeName i) !! i_Name i) as [x|] eqn:Hx; simpl;
      [|go_step; by left]. destruct (other_instance _ _); [go_step; by left|]. apply wrap_checked.
    destruct (wf_rep _ (rel_wf _ _ _ Hr') _ _ _ Hx) as (-> & -> & _).
    go_call (DeleteVolumeReplica_spec ps ps_nonempty ps_simple _ _ st w' Hr' Hv Hn).
    intros ???. apply writes_checked.
  - by go_step.
Qed.
End Metadata.

(** ** Schedule items *)

Section Schedule.
Context {W : Type} `{DockerSpec W} `{MapOrder}.
Context (ps : list string).
Hypothesis ps_nonempty : ps ≠ [].
Hypothesis ps_simple : Forall (λ n, simple_name n = true) ps.
Implicit Types (w : W) (st : store) (i : InstanceInfo) (d : dockerOrc) (item : ScheduleItem).

Local Abbreviation Rel := (Rel ps).

Lemma kv_free_now : preserves (W := W) kv_frame now.
Proof. intros w. by unfold wp. Qed.
Lemma kv_free_sleep t : preserves (W := W) kv_frame (sleep t).
Proof. intros w. unfold wp, sleep. simpl. apply clock_free. Qed.
Hint Resolve kv_free_now kv_free_sleep : frame.

Lemma WaitForAPI_free url t : kv_free (WaitForAPI url t).
Proof. unfold WaitForAPI. induction (Z.to_nat t) as [|n IH]; simpl; frees. Qed.

Lemma WaitForDevice_free dev t : kv_free (WaitForDevice dev t).
Proof. unfold WaitForDevice. induction (Z.to_nat t) as [|n IH]; simpl; frees. Qed.

Lemma refresh_free d i : kv_free (refreshInstanceInfo d i).
Proof. unfold refreshInstanceInfo. frees. Qed.
Hint Resolve WaitForAPI_free WaitForDevice_free refresh_free : frame.

Lemma start_instance_free d i : kv_free (startInstance d i).
Proof. unfold startInstance, startContainer. frees. Qed.
Lemma stop_instance_free d i : kv_free (stopInstance d i).
Proof. unfold stopInstance, stopContainer. frees. Qed.
Lemma remove_instance_free d i : kv_free (removeInstance d i).
Proof. unfold removeInstance, removeContainer. frees. Qed.
Hint Resolve start_instance_free stop_instance_free remove_instance_free : frame.

Lemma createController_free d data : kv_free (createController d data).
Proof. unfold createController. frees. Qed.
Lemma createReplica_free d data : kv_free (createReplica d data).
Proof. unfold createReplica. frees. Qed.
Hint Resolve createController_free createReplica_free : frame.

Lemma run_action_free d action data i : kv_free (run_action d action data i).
Proof. unfold run_action. frees. Qed.

(** What an inspection fills in. *)
Definition refreshed d (ty vol : string) (i : InstanceInfo) (w' : W) : Prop :=
  i_Type i = ty ∧ i_VolumeName i = vol ∧ i_HostID i = GetCurrentHostID d ∧
  simple_name (i_Name i) = true ∧ (i_Running i = true → i_Address i ≠ "") ∧
  names w' (d_cli d) !! i_ID i = Some (i_Name i).

Lemma refreshed_kept d ty vol i w w' :
  refreshed d ty vol i w → names_kept w w' → refreshed d ty vol i w'.
Proof.
  intros (?&?&?&?&?&Hn) Hk. split_and!; [done..|]. exact (lookup_weaken _ _ _ _ Hn (Hk _)).
Qed.

Lemma free_names {A} (m : M W A) : kv_free m → preserves names_kept m.
Proof. intros Hm w. go_call (Hm w). by intros ??? (_&_&_&?). Qed.

Lemma refresh_inv d i w j w' :
  refreshInstanceInfo d i w = (Ok j, w') →
  refreshed d (i_Type i) (i_VolumeName i) j w' ∧ (full_id (i_ID i) → i_ID j = i_ID i) ∧
  ∃ x w1, ContainerInspect (d_cli d) (i_ID i) w = (Ok x, w1) ∧ i_Running j = cj_Running x.
Proof.
  unfold refreshInstanceInfo. intros E. apply bind_ok_inv in E as (x & w1 & Ei & E).
  apply wrap_ok_inv in Ei. pose proof (inspect_result _ _ _ _ _ Ei) as (Hid & Hn & Hs).
  apply bind_ok_inv in E as (a & w2 & Ea & E).
  assert (w2 = w1) as ->.
  { destruct (String.eqb (d_Network d) ""); [by injection Ea as _ <-|].
    destruct (cj_Networks x !! d_Network d); [by injection Ea as _ <-|done]. }
  cbn [i_Running i_Address] in E.
  destruct (cj_Running x) eqn:Hrun, (String.eqb_spec a ""); cbn [andb] in E; try discriminate E;
    injection E as <- <-; unfold refreshed; cbn; split_and!; auto; try congruence;
    eexists _, _; split; eauto.
Qed.

Lemma createController_inv d data w j w' :
  createController d data w = (Ok j, w') →
  refreshed d InstanceTypeController (ds_VolumeName data) j w'.
Proof.
  unfold createController, startInstance. intros E. go_inv E.
  match goal with H : refreshInstanceInfo _ _ _ = _ |- _ => apply refresh_inv in H as [Hj _] end.
  match goal with H : attempt ?m ?w0 = (Ok ?r, ?w1) |- _ =>
    assert (Hf : preserves (W := W) kv_frame (attempt m)) by frees;
    pose proof (wp_elim _ _ _ _ _ (free_names _ Hf w0) H) as Hk; destruct r as [?|e] end.
  - injection E as <- <-. by eapply refreshed_kept.
  - apply bind_ok_inv in E as (? & ? & _ & E). done.
Qed.

Lemma createReplica_inv d data w j w' :
  createReplica d data w = (Ok j, w') →
  refreshed d InstanceTypeReplica (ds_VolumeName data) j w'.
Proof.
  unfold createReplica. intros E. go_inv E.
  match goal with H : attempt (refreshInstanceInfo _ ?i) ?w0 = _ |- _ =>
    unfold attempt in H; destruct (refreshInstanceInfo d i w0) as [[k|e|s] w2] eqn:Er;
    simplify_eq end.
  - injection E as <- <-. by apply refresh_inv in Er as [? _].
  - apply bind_ok_inv in E as (? & ? & _ & E). done.
Qed.

(** The volume and the type of the instance an item is about. *)
Definition creates (action : string) : bool :=
  String.eqb action ScheduleActionCreateController ||
  String.eqb action ScheduleActionCreateReplica.
Definition deletes (action : string) : bool := String.eqb action ScheduleActionDeleteInstance.

Definition target_type item : string :=
  if String.eqb (it_Action item) ScheduleActionCreateController then InstanceTypeController
  else if String.eqb (it_Action item) ScheduleActionCreateReplica then InstanceTypeReplica
  else s_Type (it_Instance item).

Definition target_volume item (data : dockerScheduleData) : string :=
  if creates (it_Action item) then ds_VolumeName data else s_VolumeName (it_Instance item).

(** The instance an item is about has names that are path components. *)
Definition item_ok item : Prop :=
  (∀ data, schedule_payload (it_Data item) = Ok data →
     simple_name (target_volume item data) = true) ∧
  (deletes (it_Action item) = true → simple_name (s_Name (it_Instance item)) = true).

(** [subject d item i w']: the instance [i] is what item [item] on host [d] is about,
    and unless it is removed it carries the name of its container, which has the ID the
    item gives if that is a full one. *)
Definition subject d item i (w' : W) : Prop :=
  named i ∧ i_Type i = target_type item ∧
  (∃ data, schedule_payload (it_Data item) = Ok data ∧ i_VolumeName i = target_volume item data) ∧
  if deletes (it_Action item)
  then i_ID i = s_ID (it_Instance item) ∧ i_HostID i = s_HostID (it_Instance item) ∧
       i_Name i = s_Name (it_Instance item)
  else i_HostID i = GetCurrentHostID d ∧ (i_Running i = true → i_Address i ≠ "") ∧
       names w' (d_cli d) !! i_ID i = Some (i_Name i) ∧
       (creates (it_Action item) = false → full_id (s_ID (it_Instance item)) →
        i_ID i = s_ID (it_Instance item)) ∧
       (it_Action item = ScheduleActionStopInstance → i_Running i = false).

Lemma subject_kept d item i w w' : subject d item i w → names_kept w w' → subject d item i w'.
Proof.
  intros (?&?&?&Hs) Hk. split_and!; [done..|]. destruct (deletes _); [done|].
  destruct Hs as (?&?&Hn&?). split_and!; [done..| |tauto|tauto]. exact (lookup_weaken _ _ _ _ Hn (Hk _)).
Qed.

Lemma run_action_inv d item data w i w' :
  item_ok item → known_action (it_Action item) = true →
  schedule_payload (it_Data item) = Ok data →
  let si := it_Instance item in
  run_action d (it_Action item) data
    (mkInstance (s_ID si) (s_Type si) (s_Name si) (s_HostID si) "" false (s_VolumeName si)) w
    = (Ok i, w') →
  subject d item i w'.
Proof.
  intros [Hvol Hdel] Hk Hp si E. specialize (Hvol data Hp).
  assert (Hmk : deletes (it_Action item) = false →
            refreshed d (target_type item) (target_volume item data) i w' →
            (creates (it_Action item) = false → full_id (s_ID (it_Instance item)) →
             i_ID i = s_ID (it_Instance item)) →
            (it_Action item = ScheduleActionStopInstance → i_Running i = false) →
            subject d item i w').
  { intros Hd (? & Hv & ? & ? & ? & ?) ??. unfold subject, named. rewrite Hd, Hv. eauto 15. }
  revert E Hmk. unfold run_action, known_action, subject, target_type, target_volume, creates, deletes in *.
  destruct (String.eqb_spec (it_Action item) ScheduleActionCreateController) as [->|_].
  { intros E%createController_inv Hmk. by apply Hmk. }
  destruct (String.eqb_spec (it_Action item) ScheduleActionCreateReplica) as [->|_].
  { intros E%createReplica_inv Hmk. by apply Hmk. }
  destruct (String.eqb_spec (it_Action item) ScheduleActionStartInstance) as [->|_].
  { intros E Hmk. apply bind_ok_inv in E as (? & ? & _ & (Hj & Hid & _)%refresh_inv). by apply Hmk. }
  destruct (String.eqb_spec (it_Action item) ScheduleActionStopInstance) as [->|_].
  { intros E Hmk. apply bind_ok_inv in E as ([] & ? & Es & (Hj & Hid & x & w1 & Ei & Hrun)%refresh_inv).
    apply wrap_ok_inv in Es. apply Hmk; [done..|]. intros _. rewrite Hrun. by eapply stopped_result. }
  simpl in *. destruct (String.eqb_spec (it_Action item) ScheduleActionDeleteInstance); [|done].
  intros E _. apply bind_ok_inv in E as (? & ? & _ & E). injection E as <- <-.
  unfold named. simpl. eauto 10.
Qed.

(** The abstract effect of an item on instance [i]: [None] when a field is missing,
    the store has another instance in its place, or there is none to delete. *)
Definition apply_item item i st : option store :=
  if incomplete i || conflict st i then None
  else if deletes (it_Action item) then
    if present st i then Some (forget_instance i st) else None
  else Some (record_instance i st).

Definition processed d item st (o : outcome InstanceInfo) (w' : W) : Prop :=
  match o with
  | Ok i => subject d item i w' ∧ ∃ st', apply_item item i st = Some st' ∧ Rel w' st'
  | _ => Rel w' st ∨
         ∃ i st', subject d item i w' ∧ apply_item item i st = Some st' ∧ Rel w' st'
  end.

(** Writing the store leaves the names of the containers alone. *)
Lemma metadata_names item i :
  preserves names_kept (if deletes (it_Action item) then removeInstanceMetadata (path ps) i
                        else updateInstanceMetadata (path ps) i).
Proof.
  pose proof get_names. pose proof set_names. pose proof delete_names.
  unfold removeInstanceMetadata, updateInstanceMetadata, GetVolumeController, GetVolumeReplica,
    getVolumeControllerByKey, getVolumeReplicaByKey, SetVolumeController, SetVolumeReplica,
    DeleteVolumeController, DeleteVolumeReplica, get_or_nil, b_get_as, unmarshal. frees.
Qed.

Lemma metadata_spec item i st w :
  Rel w st → named i →
  wp (if deletes (it_Action item) then removeInstanceMetadata (path ps) i
      else updateInstanceMetadata (path ps) i) w (λ o w',
    match o with
    | Ok _ => ∃ st', apply_item item i st = Some st' ∧ Rel w' st'
    | Err _ => Rel w' st ∨ ∃ st', apply_item item i st = Some st' ∧ Rel w' st'
    | Panic _ => False
    end).
Proof.
  intros Hr Hi. unfold apply_item. destruct (deletes _).
  - go_call (removeInstanceMetadata_spec ps ps_nonempty ps_simple i st w Hr Hi).
    intros o w' _ Ho. destruct (incomplete i), (conflict st i), (present st i); destruct o; naive_solver.
  - go_call (updateInstanceMetadata_spec ps ps_nonempty ps_simple i st w Hr Hi).
    intros o w' _ Ho. destruct (incomplete i), (conflict st i); destruct o; naive_solver.
Qed.

(** The same of an instance that has [Q], when [Q] holds of what the action returns. *)
Definition processed_with (Q : InstanceInfo → Prop) d item st (o : outcome InstanceInfo) (w' : W) : Prop :=
  match o with
  | Ok i => Q i ∧ subject d item i w' ∧ ∃ st', apply_item item i st = Some st' ∧ Rel w' st'
  | _ => Rel w' st ∨
         ∃ i st', Q i ∧ subject d item i w' ∧ apply_item item i st = Some st' ∧ Rel w' st'
  end.

Lemma process_schedule_with (Q : InstanceInfo → Prop) d item w st :
  Rel w st → item_ok item →
  (∀ data i j w1, schedule_payload (it_Data item) = Ok data →
     run_action d (it_Action item) data j w = (Ok i, w1) → Q i) →
  wp (ProcessSchedule (path ps) d item) w (processed_with Q d item st).
Proof.
  intros Hr Hok HQ. unfold ProcessSchedule.
  destruct (negb (String.eqb _ OrcName)); [go_step; by left|]. go_step. apply wp_lift.
  destruct (schedule_payload (it_Data item)) as [data|e|s] eqn:Hp; [|by left..].
  destruct (String.eqb (s_ID _) ""); [go_step; by left|].
  destruct (known_action (it_Action item)) eqn:Hk; simpl; [|go_step; by left].
  do 2 go_step. apply wp_intro. intros o w1 E.
  assert (Hr1 : Rel w1 st) by (eapply kv_free_rel; [apply run_action_free|done|done]).
  destruct o as [i|e|s]; simpl; [|by left..].
  pose proof (run_action_inv d item data w i w1 Hok Hk Hp E) as Hi. specialize (HQ _ _ _ _ eq_refl E).
  pose proof (metadata_names item i w1) as Hnm.
  do 2 go_step. fold (deletes (it_Action item)).
  apply wp_intro. intros o w2 E2.
  pose proof (wp_elim _ _ _ _ _ (metadata_spec item i st w1 Hr1 (proj1 Hi)) E2) as Ho.
  apply (wp_elim _ _ _ _ _ Hnm), (subject_kept _ _ _ _ _ Hi) in E2. clear Hi Hnm.
  destruct o as [?|e|s]; [by go_step| |done]. go_step.
  assert (Hfree : kv_free (if String.eqb (it_Action item) ScheduleActionCreateController ||
              String.eqb (it_Action item) ScheduleActionCreateReplica
           then ignore (removeInstance d i) else mret tt)) by frees.
  apply wp_intro. intros o w3 E3.
  pose proof (wp_elim _ _ _ _ _ (free_names _ Hfree w2) E3) as Hk3.
  apply (subject_kept _ _ _ _ _ E2) in Hk3.
  assert (Hfin : Rel w3 st ∨ ∃ i st', Q i ∧ subject d item i w3 ∧ apply_item item i st = Some st' ∧ Rel w3 st').
  { destruct Ho as [Ho|(st' & ? & Ho)]; [left|right; exists i, st'; split_and!; [done..|]];
      by eapply kv_free_rel. }
  destruct o as [?|?|s]; [by go_step|done..].
Qed.

Lemma process_schedule_spec d item w st :
  Rel w st → item_ok item →
  wp (ProcessSchedule (path ps) d item) w (processed d item st).
Proof.
  intros Hr Hok. eapply wp_mono; [by apply (process_schedule_with (λ _, True))|].
  intros [i|e|x] w' _ Ho; simpl in *; naive_solver.
Qed.

(** *** Placement is permanent

    Any number of hosts process any schedule items, one after the other; between
    two items anything may happen that leaves the store alone. *)
Inductive runs : list (dockerOrc * ScheduleItem) → W → W → Prop :=
| runs_nil w : runs [] w w
| runs_other tr w w1 w' : kv_frame w w1 → runs tr w1 w' → runs tr w w'
| runs_cons d item tr w o w1 w' :
    ProcessSchedule (path ps) d item w = (o, w1) → runs tr w1 w' →
    runs ((d, item) :: tr) w w'.

(** [i] and [j] have the same place in the store. *)
Definition same_place i j : bool :=
  String.eqb (i_VolumeName i) (i_VolumeName j) &&
  ((is_controller i && is_controller j) ||
   (is_replica i && is_replica j && String.eqb (i_Name i) (i_Name j))).

Lemma recorded_same_place st i j : same_place i j = true → recorded st i = recorded st j.
Proof.
  unfold same_place, recorded.
  rewrite andb_true_iff, orb_true_iff, !andb_true_iff, !String.eqb_eq.
  intros [-> [[-> ->]|[[Hi Hj] ->]]]; [done|]. rewrite Hi, Hj.
  destruct (is_controller i) eqn:Hci; [apply controller_not_replica in Hci; congruence|].
  destruct (is_controller j) eqn:Hcj; [apply controller_not_replica in Hcj; congruence|]. done.
Qed.

Lemma record_other st i j : same_place i j = false → recorded (record_instance i st) j = recorded st j.
Proof.
  unfold same_place, recorded, record_instance.
  destruct (decide (i_VolumeName j = i_VolumeName i)) as [E|Hne].
  - rewrite E, String.eqb_refl. simpl. intros Hp.
    destruct (is_controller i) eqn:Hci; simpl in *.
    + apply orb_false_iff in Hp as [-> _]. by destruct (is_replica j).
    + destruct (is_replica i) eqn:Hri; simpl in *; [|done].
      destruct (is_controller j); [done|]. destruct (is_replica j); [|done]. simpl in *.
      apply String.eqb_neq in Hp. by rewrite fn_lookup_insert, lookup_insert_ne.
  - intros _. destruct (is_controller i), (is_replica i); simpl;
      by rewrite ?fn_lookup_insert_ne by done.
Qed.

Lemma forget_other st i j : same_place i j = false → recorded (forget_instance i st) j = recorded st j.
Proof.
  unfold same_place, recorded, forget_instance.
  destruct (decide (i_VolumeName j = i_VolumeName i)) as [E|Hne].
  - rewrite E, String.eqb_refl. simpl. intros Hp.
    destruct (is_controller i) eqn:Hci; simpl in *.
    + apply orb_false_iff in Hp as [-> _]. by destruct (is_replica j).
    + destruct (is_replica i) eqn:Hri; simpl in *; [|done].
      destruct (is_controller j); [done|]. destruct (is_replica j); [|done]. simpl in *.
      apply String.eqb_neq in Hp. by rewrite fn_lookup_insert, lookup_delete_ne.
  - intros _. destruct (is_controller i), (is_replica i); simpl;
      by rewrite ?fn_lookup_insert_ne by done.
Qed.

Lemma apply_item_keeps item i st st' j k :
  apply_item item i st = Some st' → recorded st j = Some k →
  deletes (it_Action item) = false ∨ i_ID i ≠ i_ID k →
  ∃ k', recorded st' j = Some k' ∧ i_ID k' = i_ID k ∧ i_HostID k' = i_HostID k.
Proof.
  unfold apply_item, conflict. intros Ha Hj Hdel.
  destruct (incomplete i); [done|]. cbn [orb] in Ha. destruct (same_place i j) eqn:Hp.
  - pose proof (recorded_same_place st i j Hp) as Heq. rewrite Heq, Hj in Ha.
    destruct (other_instance k i) eqn:Hk; [done|]. apply other_instance_false in Hk as [Hid Hh].
    destruct (deletes _); [naive_solver|]. simplify_eq. exists i.
    rewrite <-(recorded_same_place _ i j Hp), recorded_record; [done|].
    unfold same_place in Hp. rewrite andb_true_iff, orb_true_iff, !andb_true_iff in Hp. naive_solver.
  - exists k. destruct (match recorded st i with Some j => other_instance j i | None => false end); [done|].
    destruct (deletes _).
    + destruct (present st i); simplify_eq. by rewrite forget_other.
    + simplify_eq. by rewrite record_other.
Qed.

Lemma processed_keeps d item st o w' j k :
  processed d item st o w' → recorded st j = Some k →
  deletes (it_Action item) = false ∨ s_ID (it_Instance item) ≠ i_ID k →
  ∃ st', Rel w' st' ∧ (∀ n, st_base st' n = st_base st n) ∧
    ∃ k', recorded st' j = Some k' ∧ i_ID k' = i_ID k ∧ i_HostID k' = i_HostID k.
Proof.
  intros Hpr Hj Hdel.
  assert (Hone : ∀ i st', subject d item i w' → apply_item item i st = Some st' → Rel w' st' →
    ∃ st', Rel w' st' ∧ (∀ n, st_base st' n = st_base st n) ∧
      ∃ k', recorded st' j = Some k' ∧ i_ID k' = i_ID k ∧ i_HostID k' = i_HostID k).
  { intros i st' Hsub Ha Hr. exists st'. split_and!; [done| |].
    - intros n. revert Ha. unfold apply_item, record_instance, forget_instance.
      repeat case_match; intros; by simplify_eq/=.
    - eapply apply_item_keeps; [done..|]. destruct Hdel as [?|Hne]; [by left|].
      destruct (deletes (it_Action item)) eqn:Hd; [right|by left].
      destruct Hsub as (_ & _ & _ & Hsub). rewrite Hd in Hsub. destruct Hsub as [-> _]. done. }
  destruct o as [i|e|s]; simpl in Hpr; naive_solver.
Qed.

(** An instance recorded in the store stays recorded with its container ID and its
    host, whatever items are processed and however they end, as long as none
    deletes that container; and no volume record changes. *)
Lemma runs_keep tr w st w' j k :
  Rel w st → runs tr w w' →
  Forall (λ di, item_ok di.2) tr →
  recorded st j = Some k →
  Forall (λ di, deletes (it_Action di.2) = false ∨ s_ID (it_Instance di.2) ≠ i_ID k) tr →
  ∃ st', Rel w' st' ∧ (∀ n, st_base st' n = st_base st n) ∧
    ∃ k', recorded st' j = Some k' ∧ i_ID k' = i_ID k ∧ i_HostID k' = i_HostID k.
Proof.
  intros Hr Hruns. revert st k Hr. induction Hruns as [w|tr w w1 w' Hf _ IH|d item tr w o w1 w' E _ IH];
    intros st k Hr Hok Hj Hdel.
  - exists st. eauto 10.
  - destruct Hf as (? & ? & _). eapply IH; [by eapply Rel_frame|done..].
  - apply Forall_cons in Hok as [Hok1 Hok], Hdel as [Hdel1 Hdel].
    pose proof (wp_elim _ _ _ _ _ (process_schedule_spec d item w st Hr Hok1) E) as Hpr.
    destruct (processed_keeps _ _ _ _ _ j k Hpr Hj Hdel1)
      as (st1 & Hr1 & Hb1 & k1 & Hj1 & Hid1 & Hh1).
    rewrite <-Hid1 in Hdel. destruct (IH st1 k1 Hr1 Hok Hj1 Hdel) as (st' & Hr' & Hb & k' & Hj' & ? & ?).
    exists st'. split; [done|]. split; [intros n; by rewrite Hb|]. exists k'.
    split_and!; [done|congruence..].
Qed.

(** C16: a schedule item does to the store what it says.  A successful one has
    recorded (or, for a deletion, removed) exactly the instance it returns, which is
    of the right type and volume and on this host, and only if the store had no
    other container in its place; a failed one changes nothing or has had that
    same effect. *)
Theorem process_schedule_refines d item w st o w' :
  Rel w st → item_ok item → ProcessSchedule (path ps) d item w = (o, w') →
  processed d item st o w'.
Proof. intros Hr Hok E. exact (wp_elim _ _ _ _ _ (process_schedule_spec d item w st Hr Hok) E). Qed.
End Schedule.
