(* ===== verification/Cluster.v ===== *)
(** * The cluster

    The hosts of a cluster share the key-value store and reach each other through
    [POST /v1/schedule] ([api/internal.go], [manager.ProcessSchedule] and
    [scheduler.Process]).  With the nodes given, the HTTP client of the scheduler is
    no longer a parameter: a request runs the handler of the node it is addressed to. *)

From stdpp Require Import base functions list gmap strings.
From Stdlib Require Import ZArith Lia Ascii.
From S2P Require Import Prelude GoStrings GoTime Json Types Util Codec Backend KVStore KVSpec KVVolumes Scheduler Docker World DockerSpec.
Local Open Scope string_scope.
Local Open Scope list_scope.

Section Nodes.
Context {W : Type} `{Backend W} `{DockerCli W} `{HostOS W} `{Clock W} `{MapOrder}.
Context (Prefix : string) (nodes : list dockerOrc).

(** [net/http] recovers a panic of a handler and drops the connection. *)
Definition served_by {A} (m : M W A) : M W A := λ w,
  match m w with
  | (Panic _, w') => (Err (ExtErr "EOF"), w')
  | r => r
  end.

(** [manager.ProcessSchedule] with the scheduler of the Docker orchestrator. *)
Definition man_ProcessSchedule (d : dockerOrc) (spec : ScheduleSpec) (item : ScheduleItem)
    : M W InstanceInfo :=
  Process (H0 := orc_ops Prefix d) spec item.

(** [Server.Schedule]: an error is written with status 500. *)
Definition handle_Schedule (d : dockerOrc) (input : ScheduleInput) : M W http_response :=
  r ← attempt (wrap "fail to execute %v %+v"
                 (man_ProcessSchedule d (in_Spec input) (in_Item input)));
  mret (match r with
        | inl instance => mkResponse 200 (Some (mkScheduleOutput instance))
        | inr _ => mkResponse 500 None
        end).

Definition node_url (d : dockerOrc) : string :=
  ("http://" +:+ h_Address (d_currentHost d) +:+ "/v1") +:+ "/schedule".

Definition cluster_http : HTTPClient W := {|
  http_Do method url req :=
    match list_find (λ d, node_url d = url) nodes with
    | Some (_, d) => served_by (handle_Schedule d req)
    | None => fail (ExtErr "connection refused")
    end;
|}.
End Nodes.

(** ** The requests of the orchestrators *)

Inductive request : Type :=
| RCreateController (volumeName controllerName : string) (replicas : gmap string ReplicaInfo)
| RCreateReplica (volumeName replicaName : string)
| RStart (instance : InstanceInfo)
| RStop (instance : InstanceInfo)
| RRemove (instance : InstanceInfo).

Section Requests.
Context {W : Type} `{Backend W} `{DockerCli W} `{HostOS W} `{Clock W} `{MapOrder}.
Context (Prefix : string) (nodes : list dockerOrc).

Definition perform (d : dockerOrc) (r : request) : M W unit :=
  let http := cluster_http Prefix nodes in
  match r with
  | RCreateController v c rs => CreateController (H4 := http) Prefix d v c rs;; mret tt
  | RCreateReplica v n => CreateReplica (H4 := http) Prefix d v n;; mret tt
  | RStart i => StartInstance (H4 := http) Prefix d i;; mret tt
  | RStop i => StopInstance (H4 := http) Prefix d i;; mret tt
  | RRemove i => RemoveInstance (H4 := http) Prefix d i;; mret tt
  end.

Inductive performed : list (dockerOrc * request) → W → W → Prop :=
| performed_nil w : performed [] w w
| performed_cons d r tr w o w1 w' :
    perform d r w = (o, w1) → performed tr w1 w' → performed ((d, r) :: tr) w w'.
End Requests.

(** The names in a request are path components. *)
Definition request_ok (r : request) : Prop :=
  match r with
  | RCreateController v _ _ | RCreateReplica v _ => simple_name v = true
  | RStart i | RStop i => simple_name (i_VolumeName i) = true
  | RRemove i => simple_name (i_VolumeName i) = true ∧ simple_name (i_Name i) = true
  end.

Definition removes (r : request) (id : string) : Prop :=
  match r with RRemove i => i_ID i = id | _ => False end.

Lemma mapM_strings (l : list string) :
  mapM (λ j, dec_string (Some j)) (JStr <$> l) = Some l.
Proof. rewrite mapM_Some. induction l; constructor; done. Qed.

Lemma payload_roundtrip data :
  schedule_payload (mkScheduleData OrcName (Some (to_json data))) = Ok data.
Proof.
  destruct data as [n v s e urls]. unfold schedule_payload. simpl.
  unfold dec_docker_data. simpl. rewrite mapM_strings. done.
Qed.

Lemma vol_of_name st n v : store_wf st → vol_of st n = Some v → v_Name v = n.
Proof.
  unfold vol_of. intros Hwf Hv. destruct (st_base st n) as [b|] eqn:Hb; simplify_eq/=.
  apply (wf_base _ Hwf _ _ Hb).
Qed.

Section Emits.
Context {W : Type} `{DockerSpec W} `{MapOrder}.
Context (ps : list string) (nodes : list dockerOrc).
Hypothesis ps_nonempty : ps ≠ [].
Hypothesis ps_simple : Forall (λ n, simple_name n = true) ps.
Implicit Types (w : W) (st : store) (item : ScheduleItem).

Local Abbreviation http := (cluster_http (path ps) nodes).

Lemma runs_app tr1 tr2 w1 w2 w3 :
  runs ps tr1 w1 w2 → runs ps tr2 w2 w3 → runs ps (tr1 ++ tr2) w1 w3.
Proof.
  intros H1'. induction H1'; intros; simpl; [done|eapply runs_other; eauto|eapply runs_cons; eauto].
Qed.

(** Only schedule items with [P] are processed, by the nodes of the cluster and [d]. *)
Definition emits (d : dockerOrc) (P : ScheduleItem → Prop) (w w' : W) : Prop :=
  ∃ tr, runs ps tr w w' ∧ Forall (λ di, P di.2 ∧ (di.1 = d ∨ di.1 ∈ nodes)) tr.

#[local] Instance emits_preorder d P : PreOrder (emits d P).
Proof.
  split.
  - intros w. exists []. split; constructor.
  - intros w1 w2 w3 (tr1 & ? & ?) (tr2 & ? & ?). exists (tr1 ++ tr2).
    split; [by eapply runs_app|by apply Forall_app_2].
Qed.

Lemma free_emits {A} d P (m : M W A) : kv_free m → preserves (emits d P) m.
Proof.
  intros Hm w. go_call (Hm w). intros o w' _ Hf. exists []. split; [|constructor].
  eapply runs_other; [done|constructor].
Qed.

Lemma item_emits d item : preserves (emits d (eq item)) (ProcessSchedule (path ps) d item).
Proof.
  intros w. apply wp_intro. intros o w' E. exists [(d, item)].
  split; [|apply Forall_singleton; simpl; auto]. eapply runs_cons; [done|constructor].
Qed.

Lemma get_free k : kv_free (b_get (W := W) k).
Proof.
  intros w. apply wp_intro. intros o w' E.
  pose proof (wp_elim _ _ _ _ _ (get_spec k w) E) as (?&?&?&_).
  pose proof (wp_elim _ _ _ _ _ (get_names k w) E). by split_and!.
Qed.
Lemma keys_free k : kv_free (b_keys (W := W) k).
Proof.
  intros w. apply wp_intro. intros o w' E.
  pose proof (wp_elim _ _ _ _ _ (keys_spec k w) E) as (?&?&?&_).
  pose proof (wp_elim _ _ _ _ _ (keys_names k w) E). by split_and!.
Qed.

Lemma get_or_nil_free {T} (f : json → option T) k : kv_free (get_or_nil (W := W) f k).
Proof. pose proof get_free. unfold get_or_nil, b_get_as, unmarshal. frees. Qed.

Hint Resolve keys_free get_or_nil_free : frame.

Lemma GetHost_free Prefix id : kv_free (GetHost (W := W) Prefix id).
Proof. unfold GetHost, getHostByKey. frees. Qed.

Lemma ListHosts_free Prefix : kv_free (ListHosts (W := W) Prefix).
Proof.
  unfold ListHosts, getHostByKey. apply preserves_bind; [apply _|auto with frame|]. intros l.
  generalize (∅ : gmap string HostInfo). induction l as [|k l IH]; intros m; simpl; [frees|].
  unfold getHostByKey. frees.
Qed.

Lemma GetVolume_free Prefix n : kv_free (GetVolume (W := W) Prefix n).
Proof.
  unfold GetVolume, getVolumeByKey, getVolumeBaseByKey, getVolumeControllerByKey,
    getVolumeReplicasByKey.
  assert (Hl : ∀ l m, kv_free (getVolumeReplicas_loop (W := W) l m)).
  { induction l as [|k l IH]; intros m; simpl; unfold getVolumeReplicaByKey; frees. }
  frees.
Qed.

Lemma handler_emits d d' spec item :
  d' ∈ nodes →
  preserves (emits d (eq item)) (served_by (handle_Schedule (path ps) d' (mkScheduleInput spec item))).
Proof.
  intros Hd'.
  assert (Hh : preserves (emits d (eq item)) (handle_Schedule (path ps) d' (mkScheduleInput spec item))).
  { assert (preserves (emits d (eq item)) (ProcessSchedule (path ps) d' item)).
    { intros w. apply wp_intro. intros o w' E. exists [(d', item)].
      split; [|apply Forall_singleton; simpl; auto]. eapply runs_cons; [done|constructor]. }
    unfold handle_Schedule, man_ProcessSchedule, Process. simpl. frees. }
  intros w. specialize (Hh w). unfold wp, served_by in *.
  by destruct (handle_Schedule _ _ _ w) as [[] ?].
Qed.

(** What a request through the scheduler does is process its item, here or on
    other nodes. *)
Lemma schedule_process_emits d item spec :
  preserves (emits d (eq item)) (ScheduleProcess (H := http) (H0 := orc_ops (path ps) d) spec item).
Proof.
  pose proof (item_emits d item).
  pose proof (λ id, free_emits d (eq item) _ (GetHost_free (path ps) id)).
  unfold ScheduleProcess, Process, client_Schedule, client_post, client_do.
  cbn [so_GetHost so_ProcessSchedule so_GetCurrentHostID orc_ops]. unfold orc_GetHost.
  assert (Hd : ∀ a b c, preserves (emits d (eq item)) (http_Do (HTTPClient := http) a b (mkScheduleInput c item))).
  { intros a b c. simpl. destruct (list_find _ nodes) as [[k d']|] eqn:Ef; [|frees].
    apply list_find_Some in Ef as (Hk & _). by eapply handler_emits, list_elem_of_lookup_2. }
  frees.
Qed.

Lemma schedule_emits d item policy :
  preserves (emits d (eq item)) (orc_schedule (H4 := http) (path ps) d item policy).
Proof.
  pose proof (schedule_process_emits d item) as Hp.
  assert (Ht : ∀ ids, preserves (emits d (eq item))
            (try_hosts (H := http) (H0 := orc_ops (path ps) d) ids item)).
  { induction ids as [|id ids IH]; simpl; frees. }
  pose proof (free_emits d (eq item) _ (ListHosts_free (path ps))) as Hl.
  unfold orc_schedule, Schedule. simpl. unfold orc_ListHosts. frees.
Qed.

(** The items that a request can send out. *)
Definition item_of (r : request) (item : ScheduleItem) : Prop :=
  match r with
  | RCreateController v _ _ =>
    it_Action item = ScheduleActionCreateController ∧
    ∃ data, it_Data item = mkScheduleData OrcName (Some (to_json data)) ∧ ds_VolumeName data = v
  | RCreateReplica v _ =>
    it_Action item = ScheduleActionCreateReplica ∧
    ∃ data, it_Data item = mkScheduleData OrcName (Some (to_json data)) ∧ ds_VolumeName data = v
  | RStart i | RStop i | RRemove i =>
    it_Action item = match r with
                     | RStart _ => ScheduleActionStartInstance
                     | RStop _ => ScheduleActionStopInstance
                     | _ => ScheduleActionDeleteInstance
                     end ∧
    it_Instance item = mkScheduleInstance (i_ID i) (i_Type i) (i_HostID i) (i_VolumeName i) (i_Name i)
  end.

Lemma emits_weaken d (P Q : ScheduleItem → Prop) {A} (m : M W A) :
  (∀ item, P item → Q item) → preserves (emits d P) m → preserves (emits d Q) m.
Proof.
  intros HPQ Hm w. go_call (Hm w). intros o w' _ (tr & Hr & Hf). exists tr. split; [done|].
  eapply Forall_impl; [done|]. simpl. intros di [? ?]. auto.
Qed.

Lemma schedule_emits_as (Q : ScheduleItem → Prop) d item policy :
  Q item → preserves (emits d Q) (orc_schedule (H4 := http) (path ps) d item policy).
Proof. intros HQ. eapply emits_weaken; [|apply schedule_emits]. by intros ? <-. Qed.

Lemma instance_request_emits (Q : ScheduleItem → Prop) d action s1 s2 i :
  (∀ si, getScheduleInstanceFromInstance i = Ok si →
     Q (mkScheduleItem action si (mkScheduleData OrcName None))) →
  preserves (emits d Q) (instance_request (H4 := http) (path ps) d action s1 s2 i).
Proof.
  intros HQ. unfold instance_request. apply preserves_bind_inv; [apply _|frees|].
  intros si w w' E. destruct (getScheduleInstanceFromInstance i) as [x|e|s] eqn:Ei; try done.
  injection E as <- <-. by apply preserves_wrap, schedule_emits_as, HQ.
Qed.

Lemma schedule_instance_inv i si :
  getScheduleInstanceFromInstance i = Ok si →
  si = mkScheduleInstance (i_ID i) (i_Type i) (i_HostID i) (i_VolumeName i) (i_Name i).
Proof. unfold getScheduleInstanceFromInstance. case_match; [done|]. by intros [= <-]. Qed.

Lemma prepare_controller_inv v c names w data w' :
  prepareCreateController (path ps) v c names w = (Ok (Some data), w') →
  ∃ x, data = mkScheduleData OrcName (Some (to_json x)) ∧ ds_VolumeName x = v.
Proof.
  unfold prepareCreateController. intros E. apply bind_ok_inv in E as (vol & w1 & _ & E).
  destruct vol as [vol|]; [|done]. apply bind_ok_inv in E as (urls & w2 & _ & E).
  injection E as <- <-. by eexists.
Qed.

Lemma create_controller_emits d v c rs :
  preserves (emits d (item_of (RCreateController v c rs)))
    (CreateController (H4 := http) (path ps) d v c rs).
Proof.
  pose proof (λ n, free_emits d (item_of (RCreateController v c rs)) _
                     (GetVolume_free (path ps) n)) as Hget.
  unfold CreateController. apply preserves_bind_inv; [apply _| |].
  { unfold prepareCreateController. frees. }
  intros data w w' E. apply wrap_ok_inv in E.
  apply preserves_bind_inv; [apply _|frees|]. intros x w1 w1' Ex.
  destruct data as [data|]; [|done]. injection Ex as -> ->.
  destruct (prepare_controller_inv _ _ _ _ _ _ E) as (data & -> & Hx).
  apply preserves_bind; [apply _| |intros; frees].
  apply preserves_wrap, schedule_emits_as. split; [done|]. by exists data.
Qed.

(** A replica is created for the volume asked for: its record names itself. *)
Lemma create_replica_emits d v n w st :
  Rel ps w st → simple_name v = true →
  wp (CreateReplica (H4 := http) (path ps) d v n) w
     (λ _ w', emits d (item_of (RCreateReplica v n)) w w').
Proof.
  intros Hr Hv. unfold CreateReplica. go_step. apply wp_intro. intros o w1 E.
  assert (Hg : wp (wrap "unable to create replica" (GetVolume (path ps) v)) w
                 (reads ps w st (vol_of st v))) by (by apply reads_wrap, GetVolume_spec).
  pose proof (wp_elim _ _ _ _ _ Hg E) as (_ & _ & Ho).
  assert (Hf : emits d (item_of (RCreateReplica v n)) w w1).
  { assert (Hw : preserves (emits d (item_of (RCreateReplica v n)))
                   (wrap "unable to create replica" (GetVolume (path ps) v)))
      by (apply preserves_wrap, free_emits, GetVolume_free).
    exact (wp_elim _ _ _ _ _ (Hw w) E). }
  destruct o as [vol|e|s]; [|done..]. subst vol.
  enough (Hrest : wp (match vol_of st v with
    | None => mret None
    | Some vol =>
      data ← lift (wrap_outcome "Fail to create replica for %v" (prepareCreateReplica vol n));
      instance ← wrap "Fail to create replica for %v" (orc_schedule (H4 := http) (path ps) d
        (mkScheduleItem ScheduleActionCreateReplica
          (mkScheduleInstance n InstanceTypeReplica "" v "") data)
        (Some (prepareCreateReplicaPolicy vol)));
      mret (Some (mkReplica instance "" ""))
    end) w1 (λ _ w', emits d (item_of (RCreateReplica v n)) w1 w')).
  { go_call Hrest. intros. by etrans. }
  destruct (vol_of st v) as [vol|] eqn:Hvol; [|by go_step].
  apply (vol_of_name _ _ _ (rel_wf _ _ _ Hr)) in Hvol. unfold prepareCreateReplica.
  destruct (_ =? 0)%Z; [go_step; apply wp_lift; simpl; reflexivity|]. go_step. apply wp_lift. simpl.
  go_step. go_step.
  go_call (schedule_emits_as (item_of (RCreateReplica v n)) d); [|by intros [] ? _ ?].
  split; [done|]. by eexists.
Qed.

Lemma perform_emits d r w st :
  Rel ps w st → request_ok r →
  wp (perform (path ps) nodes d r) w (λ _ w', emits d (item_of r) w w').
Proof.
  intros Hr Hok. destruct r as [v c rs|v n|i|i|i]; simpl in *; go_step.
  - go_call (create_controller_emits d v c rs). by intros [] ? _ ?.
  - go_call (create_replica_emits d v n w st); [done..|]. by intros [] ? _ ?.
  - eapply wp_mono; [apply (instance_request_emits (item_of (RStart i))); intros si ->%schedule_instance_inv; done|].
    by intros [] ? _ ?.
  - eapply wp_mono; [apply (instance_request_emits (item_of (RStop i))); intros si ->%schedule_instance_inv; done|].
    by intros [] ? _ ?.
  - eapply wp_mono; [apply (instance_request_emits (item_of (RRemove i))); intros si ->%schedule_instance_inv; done|].
    by intros [] ? _ ?.
Qed.

Lemma item_of_ok r item : request_ok r → item_of r item → item_ok item.
Proof.
  unfold item_ok, target_volume, creates, deletes.
  destruct r as [v c rs|v n|i|i|i]; cbn [item_of request_ok]; intros Hok (-> & Hi).
  1,2: destruct Hi as (data & -> & Hv); rewrite payload_roundtrip;
       (split; [|done]); intros ? [= <-]; by rewrite Hv.
  all: rewrite Hi; simpl; split; naive_solver.
Qed.

Lemma item_of_removes r item id :
  item_of r item → deletes (it_Action item) = false ∨ s_ID (it_Instance item) ≠ id ∨ removes r id.
Proof.
  unfold deletes. destruct r as [v c rs|v n|i|i|i]; simpl; intros (-> & Hi); try (by left).
  right. rewrite Hi. simpl. destruct (decide (i_ID i = id)); auto.
Qed.

(** C5: a controller or a replica keeps its identity and its host.  Whatever
    requests the orchestrators of the cluster make of each other, in any order and
    however they end, an instance recorded in the store stays recorded with the same
    container and the same host until a request removes that very container; volume
    records are not touched. *)
Theorem instance_never_replaced tr w st w' j k :
  Rel ps w st → performed (path ps) nodes tr w w' →
  Forall (λ dr, request_ok dr.2) tr →
  recorded st j = Some k → Forall (λ dr, ¬ removes dr.2 (i_ID k)) tr →
  ∃ st', Rel ps w' st' ∧ (∀ n, st_base st' n = st_base st n) ∧
    ∃ k', recorded st' j = Some k' ∧ i_ID k' = i_ID k ∧ i_HostID k' = i_HostID k.
Proof.
  intros Hr Hp. revert st k Hr.
  induction Hp as [w|d r tr w o w1 w' E _ IH]; intros st k Hr Hok Hj Hrm.
  - exists st. eauto 10.
  - apply Forall_cons in Hok as [Hok1 Hok], Hrm as [Hrm1 Hrm]. simpl in *.
    destruct (wp_elim _ _ _ _ _ (perform_emits d r w st Hr Hok1) E) as (items & Hruns & Hitems).
    destruct (runs_keep ps ps_nonempty ps_simple items w st w1 j k Hr Hruns) as (st1 & Hr1 & Hb1 & k1 & Hj1 & Hid1 & Hh1).
    { eapply Forall_impl; [done|]. simpl. intros di [? _]. by eapply item_of_ok. }
    { done. }
    { eapply Forall_impl; [done|]. simpl. intros di [Hdi _].
      destruct (item_of_removes _ _ (i_ID k) Hdi) as [?|[?|?]]; auto. }
    rewrite <-Hid1 in Hrm. destruct (IH st1 k1 Hr1 Hok Hj1 Hrm) as (st' & Hr' & Hb & k' & Hj' & ? & ?).
    exists st'. split; [done|]. split; [intros n; by rewrite Hb|]. exists k'.
    split_and!; [done|congruence..].
Qed.
End Emits.

(** ** Placement of replicas *)

Section Placement.
Context {W : Type} `{BackendSpec W} `{DockerCli W} `{HostOS W} `{Clock W} `{MapOrder} `{HTTPClient W}.
Context (ps : list string) (d : dockerOrc).
Hypothesis ps_nonempty : ps ≠ [].
Hypothesis ps_simple : Forall (λ n, simple_name n = true) ps.
Implicit Types (w : W) (st : store).

(** The host [h] has a replica of [v] that is not marked bad. *)
Definition holds_good_replica (v : VolumeInfo) (h : string) : Prop :=
  ∃ k r, replicas_of v !! k = Some r ∧ r_BadTimestamp r = "" ∧ i_HostID (r_Instance r) = h.

Lemma policy_hosts v h :
  h ∈ p_HostIDMap (prepareCreateReplicaPolicy v) ↔ holds_good_replica v h.
Proof.
  unfold prepareCreateReplicaPolicy, holds_good_replica. simpl.
  assert (Hl : ∀ l (m : gset string),
    h ∈ foldl (λ m (kr : string * ReplicaInfo), if String.eqb (r_BadTimestamp kr.2) ""
                 then m ∪ {[ i_HostID (r_Instance kr.2) ]} else m) m l ↔
    h ∈ m ∨ ∃ kr, kr ∈ l ∧ r_BadTimestamp kr.2 = "" ∧ i_HostID (r_Instance kr.2) = h).
  { induction l as [|kr l IH]; intros m; simpl; [set_solver|].
    rewrite IH. destruct (String.eqb_spec (r_BadTimestamp kr.2) ""); set_solver. }
  rewrite Hl. split.
  - intros [?|([k r] & Hk%elem_of_range & ? & ?)]; [set_solver|eauto].
  - intros (k & r & Hk & ? & ?). right. exists (k, r). by rewrite elem_of_range.
Qed.

(** C22: replicas are spread.  A new replica of a volume is placed on a known host,
    and if that host already has a good replica of the volume then every known host
    without one was asked before and refused. *)
Theorem create_replica_spreads n name w st x w' :
  Rel ps w st → simple_name n = true →
  CreateReplica (path ps) d n name w = (Ok (Some x), w') →
  ∃ v data policy w0 hosts w1 failed w2 id,
    let item := mkScheduleItem ScheduleActionCreateReplica
                  (mkScheduleInstance name InstanceTypeReplica "" n "") data in
    let ops := orc_ops (path ps) d in
    vol_of st n = Some v ∧ prepareCreateReplica v name = Ok data ∧
    policy = prepareCreateReplicaPolicy v ∧
    ListHosts (path ps) w0 = (Ok hosts, w1) ∧
    tried (H0 := ops) item failed w1 w2 ∧ is_Some (hosts !! id) ∧
    ScheduleProcess (H0 := ops) (mkScheduleSpec id) item w2 = (Ok (r_Instance x), w') ∧
    (holds_good_replica v id →
     ∀ h, is_Some (hosts !! h) → ¬ holds_good_replica v h → h ∈ failed).
Proof.
  intros Hr Hn E. unfold CreateReplica in E.
  apply bind_ok_inv in E as (vol & w0 & Eg & E). apply wrap_ok_inv in Eg.
  pose proof (wp_elim _ _ _ _ _ (GetVolume_spec ps ps_nonempty ps_simple n w st Hr Hn) Eg)
    as (_ & _ & ->).
  destruct (vol_of st n) as [v|] eqn:Hv; [|done].
  apply bind_ok_inv in E as (data & w0' & Ed & E).
  destruct (prepareCreateReplica v name) as [data'|e|s] eqn:Hp; try done. injection Ed as -> ->.
  apply bind_ok_inv in E as (i & w3 & Es & E). injection E as <- <-. apply wrap_ok_inv in Es.
  unfold orc_schedule in Es. apply schedule_anti_affinity in Es; [|done].
  destruct Es as (hosts & w1 & failed & id & w2 & Hl & Ht & Hid & Hrun & Haff).
  exists v, data, (prepareCreateReplicaPolicy v), w0', hosts, w1, failed, w2, id.
  split_and!; [done..|]. intros Hgood h Hh Hno. apply Haff; [by apply policy_hosts|done|].
  by rewrite policy_hosts.
Qed.
End Placement.

(** ** A cluster of two hosts *)

#[global] Instance world_container_names : ContainerNames world := {|
  full_id _ := True; names w cli := names_of cli w;
|}.

Lemma zoom_names {A} (m : M EtcdRef.etcd A) : preserves (names_kept (W := world)) (zoom m).
Proof.
  intros w. unfold wp, zoom. destruct (m (w_etcd w)). intros cli. by apply map_subseteq_spec.
Qed.

Lemma world_unstored (w w' : world) :
  w_etcd w' = w_etcd w → w_names w' = w_names w → kv_frame w w'.
Proof.
  intros He Hn. unfold kv_frame, names_kept. simpl. unfold names_of. rewrite He, Hn.
  split_and!; [done..|]. intros cli. by apply map_subseteq_spec.
Qed.

Lemma on_container_free {A} cli id (f : container → world → outcome A * world) :
  (∀ c w, kv_frame w (f c w).2) → preserves kv_frame (on_container cli id f).
Proof.
  intros Hf w. unfold wp, on_container. destruct (containers_of cli w !! id) as [c|]; [|done].
  destruct (_ && _); [|done]. specialize (Hf c w). by destruct (f c w).
Qed.

#[global] Instance world_spec : DockerSpec world.
Proof.
  split.
  - intros cli cfg w. unfold wp, ContainerCreate, world_docker, create.
    repeat case_match; [done..|]. split_and!; [done..|]. intros c. simpl. unfold names_of. simpl.
    destruct (decide (c = cli)) as [->|]; [|by rewrite lookup_insert_ne].
    rewrite lookup_insert_eq. simpl. apply insert_subseteq. unfold names_of in *.
    destruct (default ∅ (w_names w !! cli) !! fresh_id w) eqn:Ef; [|done]. exfalso.
    match goal with Hn : ¬ (_ ∨ _) |- _ => apply Hn end. right. by eexists.
  - intros cli id. apply on_container_free. intros c w. by case_match; apply world_unstored.
  - intros cli id t. apply on_container_free. intros c w. by case_match; apply world_unstored.
  - intros cli id v. apply on_container_free. intros c w. case_match; by apply world_unstored.
  - intros cli id. apply on_container_free. intros c w. by apply world_unstored.
  - intros url w. done.
  - intros dev w. done.
  - intros t w. by apply world_unstored.
  - intros cli id w j w' E. unfold ContainerInspect, world_docker, on_container in E.
    destruct (containers_of cli w !! id) as [c|]; [|done].
    destruct (simple_name (ct_name c)) eqn:Hn; [|done]. cbn [andb] in E.
    destruct (bool_decide_reflect (names_of cli w !! id = Some (ct_name c))) as [Hid|]; [|done].
    injection E as <- <-. cbn [cj_Name cj_ID]. pose proof (TrimPrefix_app "/" (ct_name c)) as Ht.
    split; [done|]. split; [exact (eq_trans Hid (f_equal Some (eq_sym Ht)))|].
    exact (eq_trans (f_equal simple_name Ht) Hn).
  - done.
  - intros cli id t w w1 j w2 Es Ei.
    unfold ContainerStop, ContainerInspect, world_docker, set_running, on_container in *.
    destruct (containers_of cli w !! id) as [c|]; [|done]. destruct (_ && _); [|done].
    cbn [andb] in Es. injection Es as <-. unfold containers_of, set_containers in Ei. simpl in Ei.
    rewrite !lookup_insert_eq in Ei. simpl in Ei. rewrite lookup_insert_eq in Ei.
    destruct (_ && _); [|done]. by injection Ei as <- <-.
  - intros k. cbn. unfold etcd_Get. frees; apply zoom_names.
  - intros k j. apply zoom_names.
  - intros k. cbn. unfold etcd_Delete. frees; apply zoom_names.
  - intros k. cbn. unfold etcd_Keys. frees; apply zoom_names.
Qed.

Module ClusterDemo.
Definition ps : list string := ["longhorn"].
Definition h1 : HostInfo := mkHost "h1" "one" "10.0.0.1:9500".
Definition h2 : HostInfo := mkHost "h2" "two" "10.0.0.2:9500".
Definition n1 : dockerOrc := mkOrc "engine" "" "10.0.0.1" h1 "docker1".
Definition n2 : dockerOrc := mkOrc "engine" "" "10.0.0.2" h2 "docker2".
Definition nodes : list dockerOrc := [n1; n2].
Definition vol : VolumeInfo := mkVolume "vol" 4096 "" "" 2 0 None None "" "engine" "" "" [].

(** Two hosts and a volume, then three replicas, the first of them started. *)
Definition setup : M world unit :=
  SetHost (path ps) h1;; SetHost (path ps) h2;; SetVolumeBase (path ps) vol.
Definition w1 : world := (setup world0).2.
Definition st1 : store :=
  put_base "vol" (Some vol) (put_host h2 (put_host h1 KVDemo.empty_store)).

Lemma rel_w1 : Rel ps w1 st1.
Proof.
  assert (H0 : Rel ps world0 KVDemo.empty_store).
  { destruct KVDemo.rel_empty as [? Hd Hk Hi]. split; [done|exact Hd|exact Hk|exact Hi]. }
  destruct KVDemo.ps_ok as [Hps Hs].
  pose proof (SetHost_spec ps Hps Hs h1 _ _ H0 eq_refl) as [_ Hr1].
  pose proof (SetHost_spec ps Hps Hs h2 _ _ Hr1 eq_refl) as [_ Hr2].
  assert (Hv : volume_in_range vol) by (split_and!; [done..|by repeat constructor]).
  pose proof (SetVolumeBase_spec ps Hps Hs vol _ _ Hr2 eq_refl Hv) as [_ Hr3].
  exact Hr3.
Qed.

Definition run : M world (option ReplicaInfo * InstanceInfo) :=
  let http := cluster_http (path ps) nodes in
  r1 ← CreateReplica (H4 := http) (path ps) n1 "vol" "r1";
  r2 ← CreateReplica (H4 := http) (path ps) n1 "vol" "r2";
  r ← deref r1;
  i ← StartInstance (H4 := http) (path ps) n2 (r_Instance r);
  mret (r2, i).

(** The replicas land on different hosts, and the second host starts the first
    one where it is. *)
Example cluster_run :
  ∃ a b, (run w1).1 = Ok (Some (mkReplica a "" ""), b) ∧
    i_HostID a ≠ i_HostID b ∧ i_Running a = false ∧ i_Running b = true ∧ i_Address b ≠ "".
Proof. vm_compute. do 2 eexists. split; [reflexivity|]. done. Qed.

Lemma create_replica_spreads_witness :
  ∃ x w', CreateReplica (H4 := cluster_http (path ps) nodes) (path ps) n1 "vol" "r1" w1
            = (Ok (Some x), w') ∧
    ∃ (hosts : gmap string HostInfo) id, is_Some (hosts !! id).
Proof.
  destruct (CreateReplica (H4 := cluster_http (path ps) nodes) (path ps) n1 "vol" "r1" w1)
    as [o w'] eqn:E.
  assert (Ho : match o with Ok (Some _) => True | _ => False end).
  { change o with (o, w').1. rewrite <-E. vm_compute. exact I. }
  destruct o as [[x|]| |]; try destruct Ho. exists x, w'. split; [reflexivity|].
  destruct (create_replica_spreads (H5 := cluster_http (path ps) nodes) ps n1
              (proj1 KVDemo.ps_ok) (proj2 KVDemo.ps_ok) "vol" "r1" w1 st1 x w' rel_w1 eq_refl E)
    as (v & data & policy & w0 & hosts & w2 & failed & w3 & id & _ & _ & _ & _ & _ & Hid & _).
  exists hosts, id. exact Hid.
Defined.

(** The item by which a replica is created, and the instance it leaves. *)
Definition item1 : ScheduleItem :=
  mkScheduleItem ScheduleActionCreateReplica (mkScheduleInstance "r1" "replica" "" "vol" "")
    (mkScheduleData OrcName (Some (to_json (mkDockerData "r1" "vol" "4096" "engine" [])))).
Definition r1 : InstanceInfo := mkInstance "c0" "replica" "r1" "h1" "" false "vol".

Lemma item1_ok : item_ok item1.
Proof.
  split; [|discriminate]. unfold item1. cbn [it_Data]. intros data. rewrite payload_roundtrip.
  intros [= <-]. reflexivity.
Qed.

Lemma process_schedule_refines_witness :
  ∃ w', ProcessSchedule (path ps) n1 item1 w1 = (Ok r1, w') ∧
    processed ps n1 item1 st1 (Ok r1) w'.
Proof.
  destruct (ProcessSchedule (path ps) n1 item1 w1) as [o w'] eqn:E.
  assert (Ho : o = Ok r1) by (change o with (o, w').1; rewrite <-E; vm_compute; reflexivity).
  subst o. exists w'. split; [reflexivity|].
  exact (process_schedule_refines ps (proj1 KVDemo.ps_ok) (proj2 KVDemo.ps_ok) n1 item1 w1 st1
           (Ok r1) w' rel_w1 item1_ok E).
Defined.

(** From a store with that replica, the other host creates one more, and starts
    and stops the first. *)
Definition w2 : world := (ProcessSchedule (path ps) n1 item1 w1).2.
Definition st2 : store := record_instance r1 st1.

Lemma rel_w2 : Rel ps w2 st2.
Proof.
  pose proof (process_schedule_spec ps (proj1 KVDemo.ps_ok) (proj2 KVDemo.ps_ok) n1 item1 w1 st1
                rel_w1 item1_ok) as Hp.
  unfold wp in Hp. replace (ProcessSchedule (path ps) n1 item1 w1).1 with (Ok r1) in Hp
    by (vm_compute; reflexivity).
  destruct Hp as (_ & st' & Ha & Hr). injection Ha as <-. exact Hr.
Qed.

Definition trace : list (dockerOrc * request) :=
  [(n2, RCreateReplica "vol" "r2"); (n2, RStart r1); (n1, RStop r1)].

Lemma performed_exists (tr : list (dockerOrc * request)) (w : world) :
  ∃ w', performed (path ps) nodes tr w w'.
Proof.
  revert w. induction tr as [|[d r] tr IH]; intros w; [eexists; constructor|].
  destruct (perform (path ps) nodes d r w) as [o w'] eqn:E.
  destruct (IH w') as [w'' ?]. exists w''. econstructor; [exact E|done].
Qed.

Lemma instance_never_replaced_witness :
  ∃ w' st' k', performed (path ps) nodes trace w2 w' ∧ Rel ps w' st' ∧
    recorded st' r1 = Some k' ∧ i_ID k' = "c0" ∧ i_HostID k' = "h1".
Proof.
  destruct (performed_exists trace w2) as [w' Hp].
  destruct (instance_never_replaced ps nodes (proj1 KVDemo.ps_ok) (proj2 KVDemo.ps_ok) trace
              w2 st2 w' r1 r1 rel_w2 Hp) as (st' & Hr & _ & k' & Hk & Hid & Hh).
  - repeat constructor.
  - apply recorded_record. right. reflexivity.
  - repeat constructor; intros [].
  - exists w', st', k'. exact (conj Hp (conj Hr (conj Hk (conj Hid Hh)))).
Defined.
End ClusterDemo.
