(* ===== verification/Records.v ===== *)
(** * The store and the daemons agree

    The cluster as a whole: what the store records of an instance is true of the
    Docker daemons.  A recorded controller is a controller, a recorded replica a
    replica, complete, on a node of the cluster, and its container is one that the
    daemon of that node created under that very name.  Every request keeps this. *)

From stdpp Require Import base functions list gmap strings.
From Stdlib Require Import ZArith Lia Ascii.
From S2P Require Import Prelude GoStrings GoTime Json Types Util Codec Backend KVStore KVSpec KVVolumes Scheduler Docker World DockerSpec Cluster.
Local Open Scope string_scope.
Local Open Scope list_scope.

Section Records.
Context {W : Type} `{DockerSpec W} `{MapOrder}.
Context (ps : list string) (nodes : list dockerOrc).
Hypothesis ps_nonempty : ps ≠ [].
Hypothesis ps_simple : Forall (λ n, simple_name n = true) ps.
Implicit Types (w : W) (st : store) (item : ScheduleItem) (i j : InstanceInfo) (d : dockerOrc).

Local Abbreviation Rel := (Rel ps).
Local Abbreviation http := (cluster_http (path ps) nodes).

(** The container of an instance, by the records of its daemon. *)
Definition genuine w i : Prop :=
  incomplete i = false ∧ named i ∧
  ∃ d, d ∈ nodes ∧ GetCurrentHostID d = i_HostID i ∧
       names w (d_cli d) !! i_ID i = Some (i_Name i).

Record consistent w st : Prop := {
  con_ctrl : ∀ n c, st_ctrl st n = Some c →
    is_controller (c_Instance c) = true ∧ genuine w (c_Instance c);
  con_rep : ∀ n r x, st_reps st n !! r = Some x →
    is_replica (r_Instance x) = true ∧ genuine w (r_Instance x);
}.

Lemma genuine_kept w w' i : genuine w i → names_kept w w' → genuine w' i.
Proof.
  intros (?&?&d&?&?&Hn) Hk. split_and!; [done..|]. exists d. split_and!; [done..|].
  exact (lookup_weaken _ _ _ _ Hn (Hk _)).
Qed.

Lemma consistent_kept w w' st : consistent w st → names_kept w w' → consistent w' st.
Proof.
  intros [Hc Hr] Hk. split; intros *; [intros Hx%Hc|intros Hx%Hr];
    (destruct Hx; split; [done|by eapply genuine_kept]).
Qed.

(** What is recorded of an instance of the right kind is consistent. *)
Lemma consistent_record i w st :
  genuine w i → consistent w st → consistent w (record_instance i st).
Proof.
  intros Hi [Hc Hr]. unfold record_instance.
  destruct (is_controller i) eqn:Ec; [|destruct (is_replica i) eqn:Er; [|done]]; split; simpl; try done.
  - intros n c. destruct (decide (n = i_VolumeName i)) as [->|];
      [rewrite fn_lookup_insert; by intros [= <-]|rewrite fn_lookup_insert_ne by done; eauto].
  - intros n r x. destruct (decide (n = i_VolumeName i)) as [->|];
      [rewrite fn_lookup_insert|rewrite fn_lookup_insert_ne by done; eauto].
    intros Hx. apply lookup_insert_Some in Hx as [[_ <-]|[_ Hx]]; [|eauto].
    by destruct (st_reps st (i_VolumeName i) !! i_Name i).
Qed.

Lemma consistent_forget i w st : consistent w st → consistent w (forget_instance i st).
Proof.
  intros [Hc Hr]. unfold forget_instance.
  destruct (is_controller i); [|destruct (is_replica i); [|done]]; split; simpl; try done.
  - intros n c. destruct (decide (n = i_VolumeName i)) as [->|];
      [by rewrite fn_lookup_insert|rewrite fn_lookup_insert_ne by done; eauto].
  - intros n r x. destruct (decide (n = i_VolumeName i)) as [->|];
      [rewrite fn_lookup_insert|rewrite fn_lookup_insert_ne by done; eauto].
    intros [_ Hx]%lookup_delete_Some. eauto.
Qed.

Lemma consistent_apply d item i w w' st st' :
  consistent w st → names_kept w w' → d ∈ nodes → subject d item i w' →
  apply_item item i st = Some st' → consistent w' st'.
Proof.
  intros Hcon Hk Hd Hsub Ha. assert (Hcon' : consistent w' st) by by eapply consistent_kept.
  unfold apply_item in Ha. destruct (incomplete i) eqn:Hinc; [done|].
  destruct (conflict st i); [done|]. cbn [orb] in Ha.
  destruct Hsub as (Hnm & _ & _ & Hsub). destruct (deletes (it_Action item)).
  - destruct (present st i); [|done]. injection Ha as <-. by apply consistent_forget.
  - destruct Hsub as (Hh & _ & Hname & _). injection Ha as <-. apply consistent_record; [|done].
    split_and!; [done..|]. by exists d.
Qed.

(** A schedule item keeps names and agreement, however it ends. *)
Lemma process_names d item : preserves names_kept (ProcessSchedule (path ps) d item).
Proof.
  pose proof (metadata_names ps item) as Hm. unfold deletes in Hm.
  assert (Ha : ∀ data i, preserves names_kept (run_action d (it_Action item) data i))
    by (intros; apply free_names, run_action_free).
  assert (Hrm : ∀ i, preserves names_kept (removeInstance d i))
    by (intros; apply free_names, remove_instance_free).
  unfold ProcessSchedule. repeat first [apply Hm | apply Ha | apply Hrm | free_step].
Qed.

Lemma processed_consistent d item st w o w' :
  consistent w st → names_kept w w' → d ∈ nodes →
  processed ps d item st o w' → ∃ st', Rel w' st' ∧ consistent w' st'.
Proof.
  intros Hcon Hk Hd Hp.
  assert (Hsame : Rel w' st → ∃ st', Rel w' st' ∧ consistent w' st')
    by (intros Hr; exists st; split; [done|by eapply consistent_kept]).
  assert (Hdone : ∀ i st', subject d item i w' → apply_item item i st = Some st' → Rel w' st' →
    ∃ st', Rel w' st' ∧ consistent w' st')
    by (intros i st' Hs Ha Hr; exists st'; split; [done|by eapply consistent_apply]).
  destruct o as [i|e|s]; simpl in Hp.
  - destruct Hp as (Hs & st' & Ha & Hr). eauto.
  - destruct Hp as [?|(i & st' & ? & ? & ?)]; eauto.
  - destruct Hp as [?|(i & st' & ? & ? & ?)]; eauto.
Qed.

Lemma runs_consistent tr w w' st :
  runs ps tr w w' → Rel w st → consistent w st →
  Forall (λ di, item_ok di.2 ∧ di.1 ∈ nodes) tr → ∃ st', Rel w' st' ∧ consistent w' st'.
Proof.
  intros Hruns. revert st. induction Hruns as [w|tr w w1 w' Hf _ IH|d item tr w o w1 w' E _ IH];
    intros st Hr Hcon Hok; [by exists st| |].
  - destruct Hf as (Hv & Hd & _ & Hk).
    eapply IH; [by eapply Rel_frame|by eapply consistent_kept|done].
  - apply Forall_cons in Hok as [[Hi Hd] Hok].
    pose proof (wp_elim _ _ _ _ _ (process_schedule_spec ps ps_nonempty ps_simple d item w st Hr Hi) E) as Hp.
    pose proof (wp_elim _ _ _ _ _ (process_names d item w) E) as Hk.
    destruct (processed_consistent d item st w o w1 Hcon Hk Hd Hp) as (st1 & Hr1 & Hcon1).
    by eapply IH.
Qed.

(** C8: the records are true of the cluster.  Whatever requests the orchestrators of
    the cluster make of each other, in any order and however they end, every recorded
    controller is a controller and every recorded replica a replica, with all fields
    filled in, on a node of the cluster, and its container is one that the daemon of
    that node created under the recorded name. *)
Theorem records_genuine tr w st w' :
  Rel w st → consistent w st → performed (path ps) nodes tr w w' →
  Forall (λ dr, dr.1 ∈ nodes ∧ request_ok dr.2) tr →
  ∃ st', Rel w' st' ∧ consistent w' st'.
Proof.
  intros Hr Hcon Hp. revert st Hr Hcon.
  induction Hp as [w|d r tr w o w1 w' E _ IH]; intros st Hr Hcon Hok; [by exists st|].
  apply Forall_cons in Hok as [[Hd Hok1] Hok]. simpl in *.
  destruct (wp_elim _ _ _ _ _ (perform_emits ps nodes ps_nonempty ps_simple d r w st Hr Hok1) E)
    as (items & Hruns & Hitems).
  destruct (runs_consistent items w w1 st Hruns Hr Hcon) as (st1 & Hr1 & Hcon1); [|by eapply IH].
  eapply Forall_impl; [done|]. simpl. intros di [Hi [->|?]]; (split; [by eapply item_of_ok|done]).
Qed.

(** ** Requests that name an instance

    A host ID is one path component, and no two nodes have the same. *)
Hypothesis nodes_named : ∀ d, d ∈ nodes → simple_name (GetCurrentHostID d) = true.
Hypothesis nodes_unique : ∀ d d', d ∈ nodes → d' ∈ nodes →
  GetCurrentHostID d = GetCurrentHostID d' → d = d'.

Lemma processed_here d spec item w r w' :
  Process (H0 := orc_ops (path ps) d) spec item w = (Ok r, w') →
  GetCurrentHostID d = spec_HostID spec ∧ ProcessSchedule (path ps) d item w = (Ok r, w').
Proof.
  intros E. assert (Hid : GetCurrentHostID d = spec_HostID spec).
  { unfold Process in E. cbn [so_GetCurrentHostID orc_ops] in E.
    destruct (String.eqb_spec (GetCurrentHostID d) (spec_HostID spec)); [done|discriminate]. }
  apply process_inv in E as (_ & _ & E). cbn [so_ProcessSchedule orc_ops] in E.
  apply bind_ok_inv in E as (i & w1 & E & E'). by injection E' as -> ->.
Qed.

(** The answer of a node to a request it serves. *)
Lemma handler_ok d spec item w resp r w' :
  served_by (handle_Schedule (path ps) d (mkScheduleInput spec item)) w = (Ok resp, w') →
  Body resp = Some (mkScheduleOutput r) →
  GetCurrentHostID d = spec_HostID spec ∧ ProcessSchedule (path ps) d item w = (Ok r, w').
Proof.
  unfold served_by. intros E Hb.
  destruct (handle_Schedule (path ps) d (mkScheduleInput spec item) w) as [[x|e|s] w1] eqn:Eh; simplify_eq.
  unfold handle_Schedule in Eh. apply bind_ok_inv in Eh as (res & w2 & Ea & Eh). injection Eh as <- <-.
  unfold attempt, wrap, man_ProcessSchedule in Ea. cbn [in_Spec in_Item] in Ea.
  destruct (Process (H0 := orc_ops (path ps) d) spec item w) as [[i|e|s] w3] eqn:Ep;
    cbn [wrap_outcome] in Ea; try discriminate Ea; injection Ea as <- <-; [|done].
  simpl in Hb. injection Hb as ->. by eapply processed_here.
Qed.

(** What is sent to a host is processed by the node of that host. *)
Lemma schedule_process_run d item host w st r w' :
  Rel w st → simple_name host = true →
  ScheduleProcess (H := http) (H0 := orc_ops (path ps) d) (mkScheduleSpec host) item w = (Ok r, w') →
  ∃ d' w1, (d' = d ∨ d' ∈ nodes) ∧ GetCurrentHostID d' = host ∧ kv_frame w w1 ∧
           ProcessSchedule (path ps) d' item w1 = (Ok r, w').
Proof.
  intros Hr Hh E. unfold ScheduleProcess in E.
  cbn [spec_HostID so_GetCurrentHostID so_GetHost orc_ops] in E.
  destruct (String.eqb_spec (GetCurrentHostID d) host) as [Hd|Hd].
  { exists d, w. apply processed_here in E as [? E]. split_and!; auto. reflexivity. }
  apply bind_ok_inv in E as (h & w1 & Eh & E). apply wrap_ok_inv in Eh. unfold orc_GetHost in Eh.
  pose proof (wp_elim _ _ _ _ _ (GetHost_free (path ps) host w) Eh) as Hf.
  pose proof (wp_elim _ _ _ _ _ (GetHost_spec ps ps_nonempty ps_simple host st w Hr Hh) Eh) as (_ & _ & ->).
  destruct (st_hosts st !! host) as [x|] eqn:Ex; [|discriminate].
  apply bind_ok_inv in E as (h & w2 & Ed & E). injection Ed as <- <-.
  apply wrap_ok_inv, client_schedule_inv in E as (_ & resp & E & _ & Hb).
  destruct (wf_host _ (rel_wf _ _ _ Hr) _ _ Ex) as [Hid _]. rewrite Hid in E.
  cbn [http_Do cluster_http] in E.
  destruct (list_find _ nodes) as [[k d']|] eqn:Ef; [|discriminate].
  apply list_find_Some in Ef as (Hk & _). exists d', w1.
  destruct (handler_ok _ _ _ _ _ _ _ E Hb) as [Hhost E']. cbn [spec_HostID] in Hhost.
  split_and!; [right; by eapply list_elem_of_lookup_2|done..].
Qed.

(** A request for an instance on a given host goes there. *)
Lemma pinned_run d item policy w st r w' :
  let host := s_HostID (it_Instance item) in
  Rel w st → simple_name host = true →
  orc_schedule (H4 := http) (path ps) d item policy w = (Ok r, w') →
  ∃ d' w1, (d' = d ∨ d' ∈ nodes) ∧ GetCurrentHostID d' = host ∧ kv_frame w w1 ∧
           ProcessSchedule (path ps) d' item w1 = (Ok r, w').
Proof.
  intros host Hr Hh E. unfold orc_schedule, Schedule in E.
  destruct (_ || _); [discriminate|]. fold host in E.
  rewrite (simple_nonempty host) in E by done. by eapply schedule_process_run.
Qed.

(** The instance [r] is [i] as it was found after an action. *)
Definition same_instance i r : Prop :=
  i_ID r = i_ID i ∧ i_HostID r = i_HostID i ∧ i_Type r = i_Type i ∧
  i_VolumeName r = i_VolumeName i ∧ i_Name r = i_Name i.

Definition instance_action (action : string) : Prop :=
  action = ScheduleActionStartInstance ∨ action = ScheduleActionStopInstance ∨
  action = ScheduleActionDeleteInstance.

Lemma request_effect d action s1 s2 i w st r w' :
  instance_action action → d ∈ nodes → Rel w st → consistent w st → genuine w i →
  instance_request (H4 := http) (path ps) d action s1 s2 i w = (Ok r, w') →
  ∃ st', Rel w' st' ∧ consistent w' st' ∧ names_kept w w' ∧ same_instance i r ∧
    conflict st i = false ∧
    (if deletes action then present st i = true ∧ st' = forget_instance i st
     else st' = record_instance r st) ∧
    (action = ScheduleActionStopInstance → i_Running r = false).
Proof.
  intros Hact Hd Hr Hcon (Hinc & Hnm & d0 & Hd0 & Hh0 & Hn0) E. unfold instance_request in E.
  apply bind_ok_inv in E as (si & w0 & Esi & E).
  destruct (getScheduleInstanceFromInstance i) as [x|e|s] eqn:Ei; try done.
  injection Esi as <- <-. apply schedule_instance_inv in Ei. subst x. apply wrap_ok_inv in E.
  set (item := mkScheduleItem _ _ _) in E.
  assert (Hok : item_ok item).
  { destruct Hnm. split; [|done]. intros data [= <-]. unfold target_volume.
    by destruct Hact as [-> | [-> | ->]]. }
  assert (Hsimple : simple_name (i_HostID i) = true) by (rewrite <-Hh0; by apply nodes_named).
  destruct (pinned_run d item None w st r w' Hr Hsimple E) as (d' & w1 & Hd' & Hh' & Hf & Ep).
  cbn [it_Instance item s_HostID] in Hh'.
  assert (d' ∈ nodes) as Hin by (destruct Hd' as [->|?]; done).
  assert (d' = d0) as -> by (apply nodes_unique; congruence).
  destruct Hf as (Hv & Hdir & _ & Hk1). assert (Hr1 : Rel w1 st) by by eapply Rel_frame.
  pose proof (wp_elim _ _ _ _ _ (process_schedule_spec ps ps_nonempty ps_simple d0 item w1 st Hr1 Hok) Ep)
    as (Hsub & st' & Ha & Hr').
  pose proof (wp_elim _ _ _ _ _ (process_names d0 item w1) Ep) as Hk2.
  assert (Hk : names_kept w w') by by etrans.
  assert (Hc' : consistent w' st').
  { eapply (consistent_apply d0 item r w1); [by eapply consistent_kept|done..]. }
  assert (Hsame : same_instance i r).
  { destruct Hsub as (_ & Hty & (data & Hdata & Hvol) & Hsub). injection Hdata as <-.
    revert Hty Hvol Hsub. unfold same_instance, item, deletes, target_type, target_volume, creates.
    destruct Hact as [-> | [-> | ->]]; cbn; intros Hty Hvol Hsub; [| |tauto].
    all: destruct Hsub as (Hhost & _ & Hn & Hid & _); specialize (Hid eq_refl (names_full _ _ _ _ Hn0));
         cbn in Hid; rewrite Hid in Hn; pose proof (lookup_weaken _ _ _ _ Hn0 (Hk _)) as Hn';
         split_and!; congruence. }
  exists st'. split_and!; [done..| | |].
  - unfold apply_item in Ha. destruct Hsame as (Hid & Hh & Hty & Hvol & Hn).
    destruct (conflict st r) eqn:Hcf; [by rewrite orb_true_r in Ha|]. revert Hcf.
    unfold conflict, recorded, is_controller, is_replica, other_instance. by rewrite Hid, Hh, Hty, Hvol, Hn.
  - unfold apply_item in Ha. destruct (incomplete r || conflict st r); [done|].
    cbn [it_Action item] in Ha. destruct Hsame as (Hid & Hh & Hty & Hvol & Hn).
    assert (Hp : present st r = present st i)
      by (unfold present, recorded, is_controller, is_replica; by rewrite Hty, Hvol, Hn).
    destruct (deletes action); [|by injection Ha]. rewrite Hp in Ha.
    destruct (present st i); [|done]. injection Ha as <-. split; [done|].
    unfold forget_instance, is_controller, is_replica. by rewrite Hty, Hvol, Hn.
  - intros Hs. destruct Hsub as (_ & _ & _ & Hsub). unfold item in Hsub. cbn [it_Action] in Hsub.
    rewrite Hs in Hsub. change (deletes ScheduleActionStopInstance) with false in Hsub.
    cbn iota in Hsub. destruct Hsub as (_ & _ & _ & _ & Hstop). by apply Hstop.
Qed.
End Records.

(** ** The property at a concrete cluster *)
Module RecordsDemo.
Import ClusterDemo.

Lemma nodes_named n : n ∈ nodes → simple_name (GetCurrentHostID n) = true.
Proof. revert n. by apply Forall_forall; repeat constructor. Qed.
Lemma nodes_unique n n' :
  n ∈ nodes → n' ∈ nodes → GetCurrentHostID n = GetCurrentHostID n' → n = n'.
Proof. unfold nodes. rewrite !elem_of_cons, !elem_of_nil. by intros [->|[->|[]]] [->|[->|[]]]. Qed.

Lemma con_w1 w : consistent nodes w st1.
Proof. split; [done|]. intros n r x. unfold st1. simpl. by rewrite lookup_empty. Qed.

Lemma con_w2 : consistent nodes w2 st2.
Proof.
  apply consistent_record; [|apply con_w1]. split_and!; [done..|]. exists n1.
  split; [left|]. split; [done|]. vm_compute. reflexivity.
Qed.

Lemma records_genuine_witness :
  ∃ w' st', performed (path ps) nodes trace w2 w' ∧ Rel ps w' st' ∧ consistent nodes w' st'.
Proof.
  destruct (performed_exists trace w2) as [w' Hp].
  destruct (records_genuine ps nodes (proj1 KVDemo.ps_ok) (proj2 KVDemo.ps_ok) trace w2 st2 w'
              rel_w2 con_w2 Hp) as (st' & Hr & Hc).
  - repeat constructor; set_solver.
  - exists w', st'. exact (conj Hp (conj Hr Hc)).
Defined.
End RecordsDemo.
