(* ===== verification/DockerVolumes.v ===== *)
(** * The orchestrator's volumes and its requests to the cluster

    The operations of [orch/docker/docker.go] on volume records, the requests that
    go through the scheduler, and what is left of containers when a request fails.  *)

From stdpp Require Import base functions list gmap strings.
From Stdlib Require Import ZArith Lia Ascii.
From S2P Require Import Prelude GoStrings GoTime Json Types Util Codec Backend KVStore KVSpec KVVolumes Scheduler Docker World DockerSpec Cluster.
Local Open Scope string_scope.
Local Open Scope list_scope.

(** ** Volume records *)

Section Records.
Context {W : Type} `{DockerSpec W} `{MapOrder}.
Context (ps : list string) (d : dockerOrc).
Hypothesis ps_nonempty : ps ≠ [].
Hypothesis ps_simple : Forall (λ n, simple_name n = true) ps.
Implicit Types (w : W) (st : store).

Local Abbreviation Rel := (Rel ps).

(** On an answering backend, creating a volume succeeds exactly when there is
    no volume record of that name; it then stores the record, without instances,
    and changes nothing else.  A refused creation changes nothing at all. *)
Theorem create_volume_exclusive v w st :
  Rel w st → healthy w → simple_name (v_Name v) = true → volume_in_range v →
  ∃ o w', CreateVolume (path ps) v w = (o, w') ∧ healthy w' ∧
    match st_base st (v_Name v) with
    | Some _ => (∃ e, o = Err e) ∧ Rel w' st
    | None => o = Ok v ∧ Rel w' (put_base (v_Name v) (Some (base_of v)) st)
    end.
Proof.
  intros Hr Hh Hn Hv. unfold CreateVolume.
  destruct (reads_healthy ps _ _ _ _
    (GetVolumeBase_spec ps ps_nonempty ps_simple (v_Name v) st w Hr Hn) Hh) as (w1 & E1 & Hh1 & Hr1).
  erewrite bind_ok by (unfold attempt; by rewrite E1).
  destruct (st_base st (v_Name v)) as [b|]; [eexists _, w1; naive_solver|].
  pose proof (SetVolumeBase_spec ps ps_nonempty ps_simple v st w1 Hr1 Hn Hv) as Hw.
  unfold wp in Hw. destruct (SetVolumeBase (path ps) v w1) as [o w2] eqn:E2. simpl in Hw.
  destruct Hw as [Hs Ho]. destruct (Hs Hh1) as [Hh2 [[] ->]]. exists (Ok v), w2.
  erewrite bind_ok by by apply wrap_ok_inv. done.
Qed.

Lemma update_volume_run v w st :
  Rel w st → healthy w → simple_name (v_Name v) = true → volume_in_range v →
  ∃ w', UpdateVolume (path ps) v w = (Ok tt, w') ∧ healthy w' ∧
    Rel w' (put_base (v_Name v) (Some (base_of v)) st).
Proof.
  intros Hr Hh Hn Hv. unfold UpdateVolume.
  destruct (reads_healthy ps _ _ _ _
    (GetVolumeBase_spec ps ps_nonempty ps_simple (v_Name v) st w Hr Hn) Hh) as (w1 & E1 & Hh1 & Hr1).
  erewrite bind_ok by (unfold attempt; by rewrite E1).
  pose proof (SetVolumeBase_spec ps ps_nonempty ps_simple v st w1 Hr1 Hn Hv) as Hw.
  unfold wp in Hw. destruct (SetVolumeBase (path ps) v w1) as [o w2] eqn:E2. simpl in Hw.
  destruct Hw as [Hs Ho]. destruct (Hs Hh1) as [Hh2 [[] ->]]. eauto.
Qed.

(** Updating a volume stores its own fields and keeps its controller and its
    replicas as recorded, and no other volume changes.  It succeeds on an answering
    backend even when there is no such volume, which it then creates. *)
Theorem update_volume_keeps_instances v w st :
  Rel w st → healthy w → simple_name (v_Name v) = true → volume_in_range v →
  ∃ w' w'', UpdateVolume (path ps) v w = (Ok tt, w') ∧
    GetVolume (path ps) (v_Name v) w' =
      (Ok (Some (set_Replicas (if decide (size (st_reps st (v_Name v)) = 0) then None
                               else Some (st_reps st (v_Name v)))
                   (set_Controller (st_ctrl st (v_Name v)) v))), w'') ∧
    ∀ m, m ≠ v_Name v → simple_name m = true →
      ∃ w'', GetVolume (path ps) m w' = (Ok (vol_of st m), w'').
Proof.
  intros Hr Hh Hn Hv. destruct (update_volume_run v w st Hr Hh Hn Hv) as (w1 & E1 & Hh1 & Hr1).
  destruct (reads_healthy ps _ _ _ _
    (GetVolume_spec ps ps_nonempty ps_simple _ w1 _ Hr1 Hn) Hh1) as (w2 & E2 & _).
  exists w1, w2. split_and!; [done| |].
  - rewrite E2. f_equal. f_equal. unfold vol_of. simpl. rewrite fn_lookup_insert. by destruct v.
  - intros m Hm Hs. destruct (reads_healthy ps _ _ _ _
      (GetVolume_spec ps ps_nonempty ps_simple m w1 _ Hr1 Hs) Hh1) as (w3 & E3 & _).
    exists w3. rewrite E3. do 2 f_equal. unfold vol_of. simpl. by rewrite fn_lookup_insert_ne.
Qed.

Lemma base_of_marked v rs : base_of (set_Replicas rs v) = base_of v.
Proof. by destruct v. Qed.

Lemma put_base_same n st b : st_base st n = Some b → put_base n (Some b) st ≡ st.
Proof.
  intros Hb. split_and!; [done..| |done|done]. intros m. simpl.
  destruct (decide (m = n)) as [->|]; [by rewrite fn_lookup_insert|by rewrite fn_lookup_insert_ne].
Qed.

Lemma vol_of_parts st n v :
  store_wf st → vol_of st n = Some v → v_Name v = n ∧ st_base st n = Some (base_of v) ∧
  volume_in_range (base_of v).
Proof.
  unfold vol_of. intros Hwf Hv. destruct (st_base st n) as [b|] eqn:Hb; simplify_eq/=.
  destruct (wf_base _ Hwf _ _ Hb) as (? & _ & ? & ? & ?). destruct b; simplify_eq/=. done.
Qed.

(** C36: marking a replica bad records nothing.  On an answering backend
    [MarkBadReplica] of an existing volume reports success and leaves the store as
    it was: the mark is set on the copy, and the update stores the volume without
    its replicas. *)
Theorem mark_bad_replica_lost n r w st :
  Rel w st → healthy w → simple_name n = true → is_Some (vol_of st n) →
  ∃ w', MarkBadReplica (path ps) n r w = (Ok tt, w') ∧ healthy w' ∧ Rel w' st.
Proof.
  intros Hr Hh Hn [v Hv]. unfold MarkBadReplica.
  destruct (reads_healthy ps _ _ _ _
    (GetVolume_spec ps ps_nonempty ps_simple n w st Hr Hn) Hh) as (w1 & E1 & Hh1 & Hr1).
  erewrite bind_ok by by apply wrap_ok_inv. rewrite Hv.
  erewrite bind_ok by done. erewrite bind_ok by done. cbv zeta.
  set (v' := set_Replicas _ v).
  destruct (vol_of_parts st n v (rel_wf _ _ _ Hr) Hv) as (Hname & Hb & Hrange).
  assert (Hn' : v_Name v' = n) by by subst v'.
  assert (Hb' : base_of v' = base_of v) by apply base_of_marked.
  destruct (update_volume_run v' w1 st Hr1 Hh1) as (w2 & E2 & Hh2 & Hr2).
  { by rewrite Hn'. }
  { destruct v. exact Hrange. }
  exists w2. split_and!; [by apply wrap_ok_inv|done|].
  rewrite Hn', Hb', put_base_same in Hr2; done.
Qed.
End Records.

(** ** Containers *)

(** The containers of each daemon, by their full IDs.  A creation that fails leaves none
    behind, and nothing but a removal makes one disappear; a removal or an inspection by
    the full ID of a container is of that container. *)
Class ContainerSpec (W : Type) `{Backend W} `{DockerCli W} `{HostOS W} `{Clock W} := {
  containers : W → string → gset string;
  ct_create : ∀ cli cfg w, wp (ContainerCreate cli cfg) w (λ o w',
    ∀ c, containers w' c =
      match o with
      | Ok id => if decide (c = cli) then {[ id ]} ∪ containers w c else containers w c
      | _ => containers w c
      end);
  ct_fresh : ∀ cli cfg w id w',
    ContainerCreate cli cfg w = (Ok id, w') → id ∉ containers w cli;
  ct_remove : ∀ cli id v w, id ∈ containers w cli → wp (ContainerRemove cli id v) w (λ o w',
    ∀ c, containers w' c =
      match o with
      | Ok _ => if decide (c = cli) then containers w c ∖ {[ id ]} else containers w c
      | _ => containers w c
      end);
  ct_same : W → W → Prop := λ w w', ∀ c, containers w' c = containers w c;
  ct_start : ∀ cli id, preserves ct_same (ContainerStart cli id);
  ct_stop : ∀ cli id t, preserves ct_same (ContainerStop cli id t);
  ct_inspect : ∀ cli id, preserves ct_same (ContainerInspect cli id);
  ct_inspect_id : ∀ cli id w j w', id ∈ containers w cli →
    ContainerInspect cli id w = (Ok j, w') → cj_ID j = id;
  ct_http : ∀ url, preserves ct_same (http_Get url);
  ct_stat : ∀ dev, preserves ct_same (os_Stat dev);
  ct_clock : ∀ d w, ct_same w (clock_Sleep d w);
  ct_get : ∀ k, preserves ct_same (b_get k);
  ct_set : ∀ k j, preserves ct_same (b_set k j);
  ct_delete : ∀ k, preserves ct_same (b_delete k);
  ct_keys : ∀ k, preserves ct_same (b_keys k);
}.

#[global] Instance ct_same_preorder `{ContainerSpec W} : PreOrder ct_same.
Proof. split; [by intros w c|]. intros w1 w2 w3 H12 H23 c. by rewrite H23, H12. Qed.

#[export] Hint Resolve ct_start ct_stop ct_inspect ct_http ct_stat ct_get ct_set ct_delete
  ct_keys : frame.

Section Containers.
Context {W : Type} `{ContainerSpec W} `{MapOrder}.
Context (Prefix : string) (d : dockerOrc).
Implicit Types (w : W).

Lemma get_as_ct {T} (f : json → option T) k : preserves ct_same (b_get_as f k).
Proof. unfold b_get_as, unmarshal. frees. Qed.
Hint Resolve get_as_ct : frame.
Lemma get_or_nil_ct {T} (f : json → option T) k : preserves ct_same (get_or_nil f k).
Proof. unfold get_or_nil. frees. Qed.
Hint Resolve get_or_nil_ct : frame.

Lemma update_metadata_ct i : preserves ct_same (updateInstanceMetadata Prefix i).
Proof.
  unfold updateInstanceMetadata, GetVolumeController, GetVolumeReplica, getVolumeControllerByKey,
    getVolumeReplicaByKey, SetVolumeController, SetVolumeReplica. frees.
Qed.

Lemma refresh_ct i : preserves ct_same (refreshInstanceInfo d i).
Proof. unfold refreshInstanceInfo. frees. Qed.

(** How a failed creation of a replica for [data] leaves the containers: as they were,
    or Docker has refused the removal, last thing of the run, of the container that the
    run created, which is then the only one left. *)
Definition cleaned (data : dockerScheduleData) w w' : Prop :=
  (∀ c, containers w' c = containers w c) ∨
  ∃ id w1 w2 e,
    ContainerCreate (d_cli d) (replica_config d data) w = (Ok id, w1) ∧ ct_same w1 w2 ∧
    ContainerRemove (d_cli d) id true w2 = (Err e, w') ∧ (id ∉ containers w (d_cli d)) ∧
    ∀ c, containers w' c = if decide (c = d_cli d) then {[ id ]} ∪ containers w c else containers w c.

(** The clean-up of a failed creation: the container is removed again. *)
Lemma ignored_remove data w w1 w2 id i e fin (o : outcome InstanceInfo) w' :
  ContainerCreate (d_cli d) (replica_config d data) w = (Ok id, w1) → ct_same w1 w2 → i_ID i = id →
  (ignore (removeInstance d i);; fail e) w2 = (o, w') → o = Err fin → cleaned data w w'.
Proof.
  intros Ec Hs Hid E ->. pose proof (wp_elim _ _ _ _ _ (ct_create _ _ _) Ec) as Hc1. cbn beta match in Hc1.
  pose proof (ct_fresh _ _ _ _ _ Ec) as Hf.
  assert (Hin : id ∈ containers w2 (d_cli d)) by (rewrite Hs, Hc1, decide_True by done; set_solver).
  unfold ignore, removeInstance, removeContainer, mbind, M_bind, attempt, wrap in E. rewrite Hid in E.
  destruct (ContainerRemove (d_cli d) id true w2) as [[[]|e'|s] w3] eqn:Er; cbn in E; [..|done];
    injection E as _ <-; pose proof (wp_elim _ _ _ _ _ (ct_remove _ _ _ _ Hin) Er) as Hc2; cbn beta match in Hc2.
  - left. intros c. rewrite Hc2, Hs, Hc1. destruct (decide (c = d_cli d)) as [->|]; [set_solver|done].
  - right. exists id, w1, w2, e'. split_and!; [done..|]. intros c. by rewrite Hc2, Hs, Hc1.
Qed.

Lemma createReplica_clean data w e w' :
  createReplica d data w = (Err e, w') → cleaned data w w'.
Proof.
  unfold createReplica. intros E.
  destruct (ContainerCreate (d_cli d) (replica_config d data) w) as [[id|e0|s] w1] eqn:Ec.
  - erewrite bind_ok in E by by apply wrap_ok_inv. cbv zeta in E.
    set (input := mkInstance _ _ _ _ _ _ _) in E.
    pose proof (refresh_ct input w1) as Hs. unfold wp in Hs.
    destruct (refreshInstanceInfo d input w1) as [[i|e1|s] w2] eqn:Er.
    + erewrite bind_ok in E by (unfold attempt; by rewrite Er). done.
    + erewrite bind_ok in E by (unfold attempt; by rewrite Er).
      by eapply (ignored_remove data w w1 w2 id input); [exact Ec|exact Hs| |exact E|].
    + erewrite bind_panic in E by (unfold attempt; by rewrite Er). done.
  - erewrite bind_err in E by (unfold wrap; by rewrite Ec). injection E as <- <-. left.
    exact (wp_elim _ _ _ _ _ (ct_create _ _ _) Ec).
  - erewrite bind_panic in E by (unfold wrap; by rewrite Ec). done.
Qed.

Lemma refresh_id i w j w' :
  i_ID i ∈ containers w (d_cli d) → refreshInstanceInfo d i w = (Ok j, w') → i_ID j = i_ID i.
Proof.
  intros Hin. unfold refreshInstanceInfo. intros E. go_inv E.
  match goal with H : ContainerInspect _ _ _ = _ |- _ => apply ct_inspect_id in H; [|done] end.
  destruct (_ && _); [done|]. by injection E as <- <-.
Qed.

Lemma createReplica_ok data w i w' :
  createReplica d data w = (Ok i, w') →
  ∃ w1, ContainerCreate (d_cli d) (replica_config d data) w = (Ok (i_ID i), w1) ∧ ct_same w1 w'.
Proof.
  unfold createReplica. intros E. apply bind_ok_inv in E as (id & w1 & Ec & E).
  apply wrap_ok_inv in Ec. cbv zeta in E. set (input := mkInstance _ _ _ _ _ _ _) in E.
  apply bind_ok_inv in E as (r & w2 & Er & E). unfold attempt in Er.
  pose proof (refresh_ct input w1) as Hs. unfold wp in Hs.
  destruct (refreshInstanceInfo d input w1) as [[j|e1|s] w3] eqn:Ei; simplify_eq.
  - injection E as <- <-. apply refresh_id in Ei as ->; [eauto|].
    pose proof (wp_elim _ _ _ _ _ (ct_create _ _ _) Ec (d_cli d)) as Hc. cbn beta match in Hc.
    rewrite Hc, decide_True by done. cbn. set_solver.
  - apply bind_ok_inv in E as (? & ? & _ & E). done.
Qed.

(** C31: no container is left behind when a replica cannot be created.  If the
    schedule item fails, in Docker or when its metadata is recorded, every host has the
    containers it had before; unless Docker has refused, at the end of this very run, to
    remove the container the run created, and then that one is all that is left. *)
Theorem create_replica_no_leak item w e w' :
  it_Action item = ScheduleActionCreateReplica →
  ProcessSchedule Prefix d item w = (Err e, w') →
  (∀ c, containers w' c = containers w c) ∨
  ∃ data, schedule_payload (it_Data item) = Ok data ∧ cleaned data w w'.
Proof.
  intros Ha E. unfold ProcessSchedule in E. rewrite Ha in E.
  destruct (negb (String.eqb _ OrcName)); [injection E as <- <-; by left|].
  destruct (schedule_payload (it_Data item)) as [data|?|?]; [|injection E as <- <-; by left|done].
  erewrite bind_ok in E by done.
  destruct (String.eqb (s_ID _) ""); [injection E as <- <-; by left|]. cbn -[mbind M_bind attempt wrap] in E.
  unfold run_action in E. cbn [String.eqb] in E. right. exists data. split; [done|].
  destruct (createReplica d data w) as [[i|e1|s] w1] eqn:Ec.
  - erewrite bind_ok in E by by apply wrap_ok_inv.
    apply createReplica_ok in Ec as (w0 & Ec & Hs).
    pose proof (update_metadata_ct i w1) as Hm. unfold wp in Hm.
    destruct (updateInstanceMetadata Prefix i w1) as [[u|e2|s] w2] eqn:Eu.
    + erewrite bind_ok in E by (unfold attempt; by rewrite Eu). done.
    + erewrite bind_ok in E by (unfold attempt; by rewrite Eu).
      eapply ignored_remove; [exact Ec|by etrans|done|exact E|done].
    + erewrite bind_panic in E by (unfold attempt; by rewrite Eu). done.
  - erewrite bind_err in E by (unfold wrap; by rewrite Ec). injection E as <- <-.
    by eapply createReplica_clean.
  - erewrite bind_panic in E by (unfold wrap; by rewrite Ec). done.
Qed.

(** A controller whose container cannot be started is left behind.  The
    deferred clean-up of [createController] looks at the instance that the failed
    start returned, which is nil: the container it created stays. *)
Theorem controller_start_failure_leaks data w id w1 e w2 :
  ContainerCreate (d_cli d) (controller_config d data) w = (Ok id, w1) →
  ContainerStart (d_cli d) id w1 = (Err e, w2) →
  ∃ e', createController d data w = (Err e', w2) ∧
    containers w2 (d_cli d) = {[ id ]} ∪ containers w (d_cli d) ∧ id ∉ containers w (d_cli d).
Proof.
  intros Ec Es. eexists. split_and!.
  - unfold createController. erewrite bind_ok by by apply wrap_ok_inv.
    erewrite bind_err; [done|]. unfold startInstance, startContainer, wrap at 1.
    erewrite bind_err; [done|]. unfold wrap. simpl. by rewrite Es.
  - pose proof (wp_elim _ _ _ _ _ (ct_create _ _ _) Ec (d_cli d)) as Hc.
    pose proof (wp_elim _ _ _ _ _ (ct_start _ _ _) Es (d_cli d)) as Hs.
    simpl in Hc; rewrite decide_True in Hc by done. by rewrite Hs, Hc.
  - by eapply ct_fresh.
Qed.
End Containers.

(** ** The properties in the reference world *)

Lemma zoom_docker {A} (m : M EtcdRef.etcd A) :
  preserves (λ w w', ∀ c, dom (containers_of c w') = dom (containers_of c w)) (zoom m).
Proof. intros w. unfold wp, zoom. by destruct (m (w_etcd w)). Qed.

#[local] Instance docker_preorder :
  PreOrder (λ w w', ∀ c, dom (containers_of c w') = dom (containers_of c w)).
Proof. split; [by intros w c|]. intros w1 w2 w3 H12 H23 c. by rewrite H23, H12. Qed.

#[global, refine] Instance world_containers : ContainerSpec world := {|
  containers w cli := dom (containers_of cli w);
|}.
Proof.
  - intros cli cfg w. unfold wp, ContainerCreate, world_docker, create.
    destruct (negb _); [done|]. case_decide; [done|]. intros c. simpl. unfold containers_of. simpl.
    destruct (decide (c = cli)) as [->|Hne].
    + rewrite lookup_insert_eq. simpl. by rewrite dom_insert_L.
    + by rewrite lookup_insert_ne.
  - intros cli cfg w id w' E. unfold ContainerCreate, world_docker, create in E.
    destruct (negb _); [done|]. case_decide; [done|]. injection E as <- <-.
    apply not_elem_of_dom, eq_None_not_Some. tauto.
  - intros cli id v w _. unfold wp, ContainerRemove, world_docker, on_container.
    destruct (containers_of cli w !! id) as [ct|]; [|done]. destruct (simple_name _ && _); [|done].
    destruct (ct_running ct); [done|]. intros c'. simpl. unfold containers_of, set_containers. simpl.
    destruct (decide (c' = cli)) as [->|Hne].
    + rewrite lookup_insert_eq. simpl. by rewrite dom_delete_L.
    + by rewrite lookup_insert_ne.
  - intros cli id w. unfold wp, ContainerStart, world_docker, set_running, on_container.
    destruct (containers_of cli w !! id) eqn:Hc; [|done]. destruct (simple_name _ && _); [|done].
    destruct (_ && _); [done|]. intros c'. simpl. unfold containers_of, set_containers. simpl.
    destruct (decide (c' = cli)) as [->|Hne]; [|by rewrite lookup_insert_ne].
    rewrite lookup_insert_eq. simpl. apply dom_insert_lookup_L. eauto.
  - intros cli id t w. unfold wp, ContainerStop, world_docker, set_running, on_container.
    destruct (containers_of cli w !! id) eqn:Hc; [|done]. destruct (simple_name _ && _); [|done].
    destruct (_ && _); [done|]. intros c'. simpl. unfold containers_of, set_containers. simpl.
    destruct (decide (c' = cli)) as [->|Hne]; [|by rewrite lookup_insert_ne].
    rewrite lookup_insert_eq. simpl. apply dom_insert_lookup_L. eauto.
  - intros cli id w. unfold wp, ContainerInspect, world_docker, on_container. by repeat case_match.
  - intros cli id w j w' _ E. unfold ContainerInspect, world_docker, on_container in E.
    repeat case_match; by simplify_eq.
  - done.
  - done.
  - done.
  - intros k. cbn. unfold etcd_Get. frees; apply zoom_docker.
  - intros k j. apply zoom_docker.
  - intros k. cbn. unfold etcd_Delete. frees; apply zoom_docker.
  - intros k. cbn. unfold etcd_Keys. frees; apply zoom_docker.
Defined.

Module VolumesDemo.
Import ClusterDemo.

Definition vol2 : VolumeInfo := mkVolume "vol2" 4096 "" "" 1 0 None None "" "engine" "" "" [].

Lemma vol2_range : volume_in_range vol2.
Proof. split_and!; [done..|by repeat constructor]. Qed.

(** A second volume can be created, the first cannot be created again. *)
Lemma create_volume_exclusive_witness :
  (∃ w', CreateVolume (path ps) vol2 w1 = (Ok vol2, w')) ∧
  ∃ e w', CreateVolume (path ps) vol w1 = (Err e, w').
Proof.
  split.
  - destruct (create_volume_exclusive ps (proj1 KVDemo.ps_ok) (proj2 KVDemo.ps_ok) vol2 w1 st1
                rel_w1 eq_refl eq_refl vol2_range) as (o & w' & E & _ & H).
    cbn in H. destruct H as [-> _]. exists w'. exact E.
  - destruct (create_volume_exclusive ps (proj1 KVDemo.ps_ok) (proj2 KVDemo.ps_ok) vol w1 st1
                rel_w1 eq_refl eq_refl ltac:(split_and!; [done..|by repeat constructor]))
      as (o & w' & E & _ & H).
    cbn in H. destruct H as [[e ->] _]. exists e, w'. exact E.
Defined.

Lemma update_volume_keeps_instances_witness :
  ∃ w' w'' v, UpdateVolume (path ps) vol w2 = (Ok tt, w') ∧
    GetVolume (path ps) "vol" w' = (Ok (Some v), w'') ∧
    replicas_of v !! "r1" = Some (mkReplica r1 "" "").
Proof.
  destruct (update_volume_keeps_instances ps (proj1 KVDemo.ps_ok) (proj2 KVDemo.ps_ok) vol w2 st2
              rel_w2 eq_refl eq_refl ltac:(split_and!; [done..|by repeat constructor]))
    as (w' & w'' & E1 & E2 & _).
  exists w', w''. eexists. split; [exact E1|]. split; [exact E2|]. vm_compute. reflexivity.
Defined.

Lemma mark_bad_replica_lost_witness :
  ∃ w', MarkBadReplica (path ps) "vol" (mkReplica r1 "ERR" "") w2 = (Ok tt, w') ∧ Rel ps w' st2.
Proof.
  destruct (mark_bad_replica_lost ps (proj1 KVDemo.ps_ok) (proj2 KVDemo.ps_ok) "vol"
              (mkReplica r1 "ERR" "") w2 st2 rel_w2 eq_refl eq_refl) as (w' & E & _ & Hr).
  - eexists. vm_compute. reflexivity.
  - exists w'. exact (conj E Hr).
Defined.

(** Recording "r1" for another container is refused, and the container goes. *)
Lemma conflict_cleaned :
  dom (containers_of "docker2" (ProcessSchedule (path ps) n2 item1 w2).2) = dom (containers_of "docker2" w2).
Proof. by_deciding. Qed.

Lemma create_replica_no_leak_witness :
  ∃ e w', ProcessSchedule (path ps) n2 item1 w2 = (Err e, w') ∧
    ((∀ c, containers w' c = containers w2 c) ∨
     ∃ data, schedule_payload (it_Data item1) = Ok data ∧ cleaned n2 data w2 w').
Proof.
  destruct (ProcessSchedule (path ps) n2 item1 w2) as [o w'] eqn:E.
  assert (Ho : match o with Err _ => True | _ => False end).
  { change o with (o, w').1. rewrite <-E. vm_compute. exact I. }
  destruct o as [|e|]; try destruct Ho. exists e, w'. split; [reflexivity|].
  exact (create_replica_no_leak (path ps) n2 item1 w2 e w' eq_refl E).
Defined.

Definition broken : dockerScheduleData := mkDockerData "vol-controller" "vol" "" "broken" [].

Lemma controller_start_failure_leaks_witness :
  ∃ e w', createController n1 broken w1 = (Err e, w') ∧
    containers w' "docker1" = {[ "c0" ]} ∪ containers w1 "docker1".
Proof.
  destruct (ContainerCreate (d_cli n1) (controller_config n1 broken) w1) as [o wa] eqn:Ea.
  assert (Ho : o = Ok "c0") by (change o with (o, wa).1; rewrite <-Ea; vm_compute; reflexivity).
  subst o.
  destruct (ContainerStart (d_cli n1) "c0" wa) as [o wb] eqn:Eb.
  assert (Ho : o = Err (ExtErr "cannot start")).
  { change o with (o, wb).1. rewrite <-Eb. change wa with (@Ok string "c0", wa).2. rewrite <-Ea.
    vm_compute. reflexivity. }
  subst o.
  destruct (controller_start_failure_leaks n1 broken w1 "c0" wa _ wb Ea Eb) as (e & E & Hc & _).
  exists e, wb. exact (conj E Hc).
Defined.
End VolumesDemo.
