(* ===== verification/Interleaving.v ===== *)
(** * Requests of several managers at once

    The managers of a cluster send their requests to the one store independently: between
    two requests of an operation there can be any number of requests of others.  Here an
    operation runs in a world where the others act before each of its requests
    ([shared]).  Operations on a volume are not affected by what others do to other
    volumes, nor do they affect it; two that record the controller of the same volume
    do, because the conflict check and the write are two requests. *)

From stdpp Require Import base functions list gmap strings.
From Stdlib Require Import ZArith Lia Ascii.
From S2P Require Import Prelude Relational GoStrings GoTime Json Types Util Codec Backend KVStore KVSpec KVVolumes Scheduler Docker World DockerSpec.
Local Open Scope string_scope.
Local Open Scope list_scope.

(** ** Locality

    The answer to a request, and what it changes below [root], depend on what is below
    [root] only, if its key is there; a request for a key [apart] from [root] changes
    nothing below [root]. *)

Definition apart (root k : string) : Prop := ¬ under root k ∧ ¬ under k root.

Class LocalKeysAPI (W : Type) `{KeysAPI W} := {
  same_below : string → W → W → Prop;
  same_below_equiv root :: Equivalence (same_below root);
  kapi_get_local root k : under root k → related (same_below root) (kapi_Get k) (kapi_Get k);
  kapi_set_local root k j :
    under root k → related (same_below root) (kapi_Set k j) (kapi_Set k j);
  kapi_delete_local root k :
    under root k → related (same_below root) (kapi_Delete k) (kapi_Delete k);
  kapi_get_apart root k : preserves (same_below root) (kapi_Get k);
  kapi_set_apart root k j : apart root k → preserves (same_below root) (kapi_Set k j);
  kapi_delete_apart root k : apart root k → preserves (same_below root) (kapi_Delete k);
}.

Class LocalBackend (W : Type) `{BackendSpec W} := {
  agree : string → W → W → Prop;
  agree_equiv root :: Equivalence (agree root);
  get_local root k : under root k → related (agree root) (b_get k) (b_get k);
  set_local root k j : under root k → related (agree root) (b_set k j) (b_set k j);
  delete_local root k : under root k → related (agree root) (b_delete k) (b_delete k);
  keys_local root k : under root k → related (agree root) (b_keys k) (b_keys k);
  get_apart root k : preserves (agree root) (b_get k);
  keys_apart root k : preserves (agree root) (b_keys k);
  set_apart root k j : apart root k → preserves (agree root) (b_set k j);
  delete_apart root k : apart root k → preserves (agree root) (b_delete k);
}.

(** The etcd backend is local when the etcd client is. *)
#[export, refine] Instance etcd_local {W} `{KeysAPISpec W} `{!LocalKeysAPI W} : LocalBackend W := {
  agree := same_below;
}.
Proof.
  - intros root k Hk. pose proof (kapi_get_local root k Hk). simpl. unfold etcd_Get. relates.
  - intros root k j Hk. by apply kapi_set_local.
  - intros root k Hk. pose proof (kapi_delete_local root k Hk). simpl. unfold etcd_Delete. relates.
  - intros root k Hk. pose proof (kapi_get_local root k Hk). simpl. unfold etcd_Keys. relates.
  - intros root k. pose proof (kapi_get_apart root k). simpl. unfold etcd_Get. frees.
  - intros root k. pose proof (kapi_get_apart root k). simpl. unfold etcd_Keys. frees.
  - intros root k j Hk. by apply kapi_set_apart.
  - intros root k Hk. pose proof (kapi_delete_apart root k Hk). simpl. unfold etcd_Delete. frees.
Defined.

(** ** Others in between *)

(** A world in which others act: what they do before the requests to come, in order. *)
Record shared (W : Type) := mkShared { sh_world : W; sh_others : list (W → W) }.
Arguments mkShared {W} _ _.
Arguments sh_world {W} _.
Arguments sh_others {W} _.

Definition all_of {W} (fs : list (W → W)) (w : W) : W := foldl (λ w f, f w) w fs.

(** One request: the others act, then it is served. *)
Definition atomic {W A} (m : M W A) : M (shared W) A := λ s,
  let '(w, fs) := match sh_others s with
                  | [] => (sh_world s, [])
                  | f :: fs => (f (sh_world s), fs)
                  end in
  let '(o, w') := m w in (o, mkShared w' fs).

#[export] Instance shared_backend {W} `{Backend W} : Backend (shared W) := {
  b_set k j := atomic (b_set k j);
  b_get k := atomic (b_get k);
  b_delete k := atomic (b_delete k);
  b_keys k := atomic (b_keys k);
  is_not_found := is_not_found;
}.

Section Atomic.
Context {W : Type} (R : W → W → Prop) `{!Equivalence R}.

(** The world, and the same with others who keep to their part. *)
Definition beside (w : W) (s : shared W) : Prop :=
  R w (sh_world s) ∧ Forall (λ f, ∀ w, R w (f w)) (sh_others s).

Lemma atomic_beside {A} (m : M W A) : related R m m → related beside m (atomic m).
Proof.
  intros Hm w [w' fs] [HR Hfs]. unfold related_at, atomic. simpl in *.
  assert (∃ w1 fs1, match fs with [] => (w', []) | f :: fs => (f w', fs) end = (w1, fs1) ∧
                    R w w1 ∧ Forall (λ f, ∀ w, R w (f w)) fs1) as (w1 & fs1 & -> & HR1 & Hfs1).
  { destruct fs as [|f fs]; [eauto|]. apply Forall_cons in Hfs as [Hf Hfs].
    eexists _, _. split_and!; [done| |done]. by etrans. }
  destruct (Hm w w1 HR1) as [Ho HR2]. destruct (m w) as [o w2], (m w1) as [o1 w3]. simpl in *.
  by subst.
Qed.

(** The one change that [R] can see is that some of the others have acted. *)
Definition unseen (s s' : shared W) : Prop :=
  Forall (λ f, Proper (R ==> R) f) (sh_others s) →
  ∃ k, sh_others s' = drop k (sh_others s) ∧
       R (all_of (take k (sh_others s)) (sh_world s)) (sh_world s').

Lemma all_of_proper fs w w' :
  Forall (λ f, Proper (R ==> R) f) fs → R w w' → R (all_of fs w) (all_of fs w').
Proof.
  intros Hfs. revert w w'. induction Hfs as [|f fs Hf _ IH]; intros w w' Hw; [done|].
  simpl. by apply IH, Hf.
Qed.

#[export] Instance unseen_preorder : PreOrder unseen.
Proof.
  split.
  - intros s _. exists 0. split; [by rewrite drop_0|]. done.
  - intros s1 s2 s3 H12 H23 Hfs. destruct (H12 Hfs) as (k & Hk & Hw).
    destruct H23 as (k' & Hk' & Hw').
    { rewrite Hk. by apply Forall_drop. }
    exists (k + k'). rewrite Hk', Hk, drop_drop. split; [done|]. etrans; [|exact Hw'].
    rewrite Hk, <-take_take_drop. unfold all_of. rewrite foldl_app.
    apply all_of_proper; [by apply Forall_take, Forall_drop|]. done.
Qed.

Lemma atomic_unseen {A} (m : M W A) : preserves R m → preserves unseen (atomic m).
Proof.
  intros Hm [w [|f fs]]; unfold wp, atomic; simpl.
  - specialize (Hm w). unfold wp in Hm. destruct (m w) as [o w']. intros _. by exists 0.
  - specialize (Hm (f w)). unfold wp in Hm. destruct (m (f w)) as [o w']. intros _. by exists 1.
Qed.
End Atomic.

(** ** The operations on a volume *)

Inductive volume_op : Type :=
| OpCreate (v : VolumeInfo)
| OpGet (n : string)
| OpUpdate (v : VolumeInfo)
| OpSet (v : VolumeInfo)
| OpDelete (n : string)
| OpRecord (i : InstanceInfo)
| OpForget (i : InstanceInfo).

Definition op_volume (op : volume_op) : string :=
  match op with
  | OpCreate v | OpUpdate v | OpSet v => v_Name v
  | OpGet n | OpDelete n => n
  | OpRecord i | OpForget i => i_VolumeName i
  end.

Definition run_op {W} `{Backend W} `{MapOrder} (Prefix : string) (op : volume_op)
    : M W (option VolumeInfo) :=
  match op with
  | OpCreate v => v ← CreateVolume Prefix v; mret (Some v)
  | OpGet n => orc_GetVolume Prefix n
  | OpUpdate v => UpdateVolume Prefix v;; mret None
  | OpSet v => SetVolume Prefix v;; mret None
  | OpDelete n => orc_DeleteVolume Prefix n;; mret None
  | OpRecord i => updateInstanceMetadata Prefix i;; mret None
  | OpForget i => removeInstanceMetadata Prefix i;; mret None
  end.

(** The names are path components, and the instances are those of the volume. *)
Definition op_ok (op : volume_op) : Prop :=
  simple_name (op_volume op) = true ∧
  match op with
  | OpSet v => volume_wf v
  | OpRecord i | OpForget i => simple_name (i_Name i) = true
  | _ => True
  end.

Section Volumes.
Context {W : Type} `{LocalBackend W} `{MapOrder}.
Context (ps : list string).
Hypothesis ps_nonempty : ps ≠ [].
Hypothesis ps_simple : Forall (λ n, simple_name n = true) ps.

Local Abbreviation root n := (path (ps ++ ["volumes"; n])).

(** *** Keys *)

Lemma below_root n cs :
  simple_name n = true → Forall (λ n, simple_name n = true) cs →
  under (root n) (path (ps ++ ["volumes"; n] ++ cs)).
Proof.
  intros Hn Hcs. apply under_path; [auto with keys..|].
  rewrite (app_assoc ps). by apply prefix_app_r.
Qed.

Lemma below_apart n m cs :
  simple_name n = true → simple_name m = true → n ≠ m → Forall (λ n, simple_name n = true) cs →
  apart (root m) (path (ps ++ ["volumes"; n] ++ cs)).
Proof.
  intros Hn Hm Hne Hcs. split; rewrite under_path by auto with keys;
    intros [l Hl]%prefix_app_inv; simplify_eq/=.
Qed.

(** The keys an operation on [n] uses are components below its root. *)
Inductive key_in (n : string) : string → Prop :=
| key_in_intro cs : Forall (λ n, simple_name n = true) cs →
    key_in n (path (ps ++ ["volumes"; n] ++ cs)).

Lemma key_in_under n k : simple_name n = true → key_in n k → under (root n) k.
Proof. intros Hn [cs Hcs]. by apply below_root. Qed.
Lemma key_in_apart n m k :
  simple_name n = true → simple_name m = true → n ≠ m → key_in n k → apart (root m) k.
Proof. intros Hn Hm Hne [cs Hcs]. by apply below_apart. Qed.

Lemma root_key_in n : simple_name n = true → key_in n (volumeRootKey (path ps) n).
Proof. intros Hn. rewrite root_key by done. by apply (key_in_intro n []). Qed.

Lemma Join_key_in n k c : simple_name n = true → key_in n k → simple_name c = true → key_in n (Join [k; c]).
Proof.
  intros Hn [cs Hcs] Hc. rewrite (Join_ps ps) by auto with keys.
  rewrite <-app_assoc. apply key_in_intro. auto with keys.
Qed.

Lemma base_key_in n : simple_name n = true → key_in n (VolumeKey_Base (volumeRootKey (path ps) n)).
Proof. intros Hn. apply Join_key_in; [done|by apply root_key_in|done]. Qed.
Lemma instances_key_in n :
  simple_name n = true → key_in n (VolumeKey_Instances (volumeRootKey (path ps) n)).
Proof. intros Hn. apply Join_key_in; [done|by apply root_key_in|done]. Qed.
Lemma controller_key_in n :
  simple_name n = true → key_in n (VolumeKey_Controller (volumeRootKey (path ps) n)).
Proof. intros Hn. apply Join_key_in; [done|by apply instances_key_in|done]. Qed.
Lemma replicas_key_in n :
  simple_name n = true → key_in n (VolumeKey_Replicas (volumeRootKey (path ps) n)).
Proof. intros Hn. apply Join_key_in; [done|by apply instances_key_in|done]. Qed.
Lemma replica_key_in n r :
  simple_name n = true → simple_name r = true →
  key_in n (VolumeKey_Replica (volumeRootKey (path ps) n) r).
Proof. intros Hn Hr. apply Join_key_in; [done|by apply replicas_key_in|done]. Qed.

Hint Resolve root_key_in base_key_in controller_key_in replicas_key_in replica_key_in : keys.

(** *** Two runs *)

(** Two backends that serve the keys of [n] alike. *)
Record same_service {W2 : Type} `{Backend W2} (R : W → W2 → Prop) (n : string) : Prop := {
  same_not_found : ∀ e, is_not_found (W := W2) e = is_not_found (W := W) e;
  r_get : ∀ k, under (root n) k → related R (b_get k) (b_get k);
  r_set : ∀ k j, under (root n) k → related R (b_set k j) (b_set k j);
  r_delete : ∀ k, under (root n) k → related R (b_delete k) (b_delete k);
  r_keys : ∀ k, under (root n) k → related R (b_keys k) (b_keys k);
}.

(** What requests for the keys of [n] do not change. *)
Record left_alone {W2 : Type} `{Backend W2} (U : W2 → W2 → Prop) (n : string) : Prop := {
  u_preorder : PreOrder U;
  u_get : ∀ k, preserves U (b_get k);
  u_keys : ∀ k, preserves U (b_keys k);
  u_set : ∀ k j, key_in n k → preserves U (b_set k j);
  u_delete : ∀ k, key_in n k → preserves U (b_delete k);
}.

Section Runs.
Context {W2 : Type} `{Backend W2} (R : W → W2 → Prop) (n : string).
Hypothesis n_simple : simple_name n = true.
Hypothesis service : same_service R n.

Local Hint Resolve key_in_under : keys.

Lemma get_or_nil_related {T} (d : json → option T) k :
  under (root n) k → related R (get_or_nil d k) (get_or_nil d k).
Proof.
  intros Hk. pose proof (r_get _ _ service k Hk). unfold get_or_nil, b_get_as. apply related_bind.
  - apply related_attempt, related_bind; [done|]. intros j. unfold unmarshal. relates.
  - intros [x|e]; [relates|]. rewrite (same_not_found _ _ service). relates.
Qed.

Lemma base_related k :
  under (root n) k → related R (getVolumeBaseByKey k) (getVolumeBaseByKey k).
Proof.
  intros Hk. pose proof (get_or_nil_related (of_json (T := VolumeInfo)) k Hk).
  unfold getVolumeBaseByKey. relates.
Qed.

Lemma replicas_loop_related ks m :
  Forall (under (root n)) ks → related R (getVolumeReplicas_loop ks m) (getVolumeReplicas_loop ks m).
Proof.
  intros Hks. revert m. induction Hks as [|k ks Hk _ IH]; intros m; simpl; [relates|].
  apply related_bind; [by apply get_or_nil_related|]. intros r. apply IH.
Qed.

Lemma child_under k c : under (root n) k → is_child k c → under (root n) c.
Proof. unfold under. intros Hu [x ->]. by apply prefix_app_r. Qed.

Lemma replicas_related k :
  under (root n) k → related R (getVolumeReplicasByKey k) (getVolumeReplicasByKey k).
Proof.
  intros Hk. unfold getVolumeReplicasByKey. apply related_bind_inv; [by apply (r_keys _ _ service)|].
  intros ks w w' E. apply replicas_loop_related.
  pose proof (wp_elim _ _ _ _ _ (keys_spec k w) E) as (_ & _ & _ & _ & Hks & _).
  eapply Forall_impl; [exact Hks|]. intros c [Hc _]. by eapply child_under.
Qed.

Lemma GetVolumeBase_related : related R (GetVolumeBase (path ps) n) (GetVolumeBase (path ps) n).
Proof. apply related_wrap, base_related. auto with keys. Qed.
Lemma GetVolumeController_related :
  related R (GetVolumeController (path ps) n) (GetVolumeController (path ps) n).
Proof. apply related_wrap, get_or_nil_related. auto with keys. Qed.
Lemma GetVolumeReplica_related r :
  simple_name r = true →
  related R (GetVolumeReplica (path ps) n r) (GetVolumeReplica (path ps) n r).
Proof. intros. apply related_wrap, get_or_nil_related. auto with keys. Qed.
Lemma GetVolume_related : related R (GetVolume (path ps) n) (GetVolume (path ps) n).
Proof.
  apply related_wrap. unfold getVolumeByKey. apply related_bind; [apply base_related; auto with keys|].
  intros [v|]; [|relates]. apply related_bind; [apply get_or_nil_related; auto with keys|]. intros c.
  apply related_bind; [apply replicas_related; auto with keys|]. intros m. relates.
Qed.

Lemma SetVolumeBase_related v :
  v_Name v = n → related R (SetVolumeBase (path ps) v) (SetVolumeBase (path ps) v).
Proof. intros <-. apply (r_set _ _ service). auto with keys. Qed.
Lemma SetVolumeController_related c :
  i_VolumeName (c_Instance c) = n →
  related R (SetVolumeController (path ps) c) (SetVolumeController (path ps) c).
Proof.
  intros Hc. unfold SetVolumeController. rewrite Hc. case_match; [relates|]. apply (r_set _ _ service). auto with keys.
Qed.
Lemma SetVolumeReplica_related x :
  i_VolumeName (r_Instance x) = n → simple_name (r_Name x) = true →
  related R (SetVolumeReplica (path ps) x) (SetVolumeReplica (path ps) x).
Proof.
  intros Hx Hn. unfold SetVolumeReplica. rewrite Hx. case_match; [relates|]. apply (r_set _ _ service). auto with keys.
Qed.
Lemma DeleteVolumeController_related :
  related R (DeleteVolumeController (path ps) n) (DeleteVolumeController (path ps) n).
Proof. apply related_wrap, (r_delete _ _ service). auto with keys. Qed.
Lemma DeleteVolumeReplicas_related :
  related R (DeleteVolumeReplicas (path ps) n) (DeleteVolumeReplicas (path ps) n).
Proof. apply related_wrap, (r_delete _ _ service). auto with keys. Qed.
Lemma DeleteVolumeReplica_related r :
  simple_name r = true →
  related R (DeleteVolumeReplica (path ps) n r) (DeleteVolumeReplica (path ps) n r).
Proof. intros. apply related_wrap, (r_delete _ _ service). auto with keys. Qed.

Lemma SetVolume_related v :
  v_Name v = n → volume_wf v → related R (SetVolume (path ps) v) (SetVolume (path ps) v).
Proof.
  intros Hn [_ _ Hc Hr]. apply related_wrap.
  apply related_bind; [by apply SetVolumeBase_related|]. intros _. rewrite Hn.
  apply related_bind; [apply DeleteVolumeController_related|]. intros _.
  apply related_bind; [|intros _].
  { destruct (v_Controller v) as [c|]; [|relates]. apply SetVolumeController_related. rewrite <-Hn. auto. }
  apply related_bind; [apply DeleteVolumeReplicas_related|]. intros _.
  unfold replicas_of in Hr. destruct (v_Replicas v) as [m|]; [|relates].
  apply related_mfor. intros [r x] Hx%elem_of_range. destruct (Hr _ _ Hx) as (<- & Hv & ?).
  apply related_wrap, SetVolumeReplica_related; [simpl; congruence|done].
Qed.

Lemma update_related i :
  i_VolumeName i = n → simple_name (i_Name i) = true →
  related R (updateInstanceMetadata (path ps) i) (updateInstanceMetadata (path ps) i).
Proof.
  intros Hv Hi. unfold updateInstanceMetadata. rewrite Hv. case_match; [relates|].
  pose proof GetVolumeController_related. pose proof (GetVolumeReplica_related (i_Name i) Hi).
  case_match; [|case_match; [|relates]].
  - apply related_bind; [by apply related_attempt|]. intros [c|e]; [|relates].
    case_match; [relates|]. by apply related_wrap, SetVolumeController_related.
  - apply related_bind; [by apply related_wrap|]. intros [r|].
    + case_match; [relates|]. by apply related_wrap, SetVolumeReplica_related.
    + by apply related_wrap, SetVolumeReplica_related.
Qed.

(** What is removed is named by the record that is found. *)
Lemma remove_related i w w2 st :
  i_VolumeName i = n → simple_name (i_Name i) = true → Rel ps w st → R w w2 →
  related_at R w w2 (removeInstanceMetadata (path ps) i) (removeInstanceMetadata (path ps) i).
Proof.
  intros Hv Hi Hr HR. unfold removeInstanceMetadata. rewrite Hv. case_match; [done|].
  case_match; [|case_match; [|done]].
  - pose proof GetVolumeController_related. pose proof DeleteVolumeController_related.
    apply related_elim; [|done]. apply related_bind; [by apply related_attempt|].
    intros [[c|]|e]; [|relates..]. case_match; [relates|]. by apply related_wrap.
  - apply related_at_bind.
    + by apply related_at_wrap, related_elim, HR; apply GetVolumeReplica_related.
    + intros x w' w2' E HR'. apply wrap_ok_inv in E.
      pose proof (wp_elim _ _ _ _ _ (GetVolumeReplica_spec ps ps_nonempty ps_simple n (i_Name i) st w Hr n_simple Hi) E)
        as (_ & Hr' & ->).
      destruct (st_reps st n !! i_Name i) as [x|] eqn:Hx; [|done].
      destruct (wf_rep _ (rel_wf _ _ _ Hr') _ _ _ Hx) as (Hname & Hvol & _).
      apply related_elim; [|done]. case_match; [relates|]. rewrite Hvol, Hname.
      by apply related_wrap, DeleteVolumeReplica_related.
Qed.

Lemma run_related op w w2 st :
  op_ok op → op_volume op = n → Rel ps w st → R w w2 →
  related_at R w w2 (run_op (path ps) op) (run_op (path ps) op).
Proof.
  intros [_ Hop] Hn Hr HR. destruct op as [v|m|v|v|m|i|i]; simpl in *; subst m || idtac.
  - apply related_elim; [|done]. pose proof GetVolumeBase_related. pose proof (SetVolumeBase_related v Hn).
    unfold CreateVolume. rewrite Hn. relates.
  - by apply related_elim; [apply GetVolume_related|].
  - apply related_elim; [|done]. pose proof GetVolumeBase_related. pose proof (SetVolumeBase_related v Hn).
    unfold UpdateVolume. rewrite Hn. relates.
  - apply related_elim; [|done]. pose proof (SetVolume_related v Hn Hop). relates.
  - apply related_elim; [|done]. unfold orc_DeleteVolume, DeleteVolume.
    assert (under (root n) (volumeRootKey (path ps) n)) as Hk by auto with keys.
    pose proof (r_delete _ _ service _ Hk). relates.
  - apply related_elim; [|done]. pose proof (update_related i Hn Hop). relates.
  - apply related_at_bind; [by eapply remove_related|]. done.
Qed.

(** *** What an operation leaves alone *)

Context (U : W2 → W2 → Prop).
Hypothesis alone : left_alone U n.
#[local] Instance alone_preorder : PreOrder U := u_preorder U n alone.

Lemma get_or_nil_quiet {T} (d : json → option T) k : preserves U (get_or_nil d k).
Proof. pose proof (u_get _ _ alone k). unfold get_or_nil, b_get_as, unmarshal. frees. Qed.
Local Hint Resolve get_or_nil_quiet : frame.

Lemma base_free k : preserves U (getVolumeBaseByKey k).
Proof. unfold getVolumeBaseByKey. frees. Qed.
Lemma replicas_free k : preserves U (getVolumeReplicasByKey k).
Proof.
  pose proof (u_keys _ _ alone k). unfold getVolumeReplicasByKey. apply preserves_bind; [apply _|auto with frame|]. intros ks.
  generalize (∅ : gmap string ReplicaInfo). induction ks as [|k' ks IH]; intros m; simpl; frees.
Qed.
Lemma SetVolumeBase_free v : v_Name v = n → preserves U (SetVolumeBase (path ps) v).
Proof. intros <-. apply (u_set _ _ alone). auto with keys. Qed.
Lemma SetVolumeController_free c :
  i_VolumeName (c_Instance c) = n → preserves U (SetVolumeController (path ps) c).
Proof. intros Hc. unfold SetVolumeController. rewrite Hc. case_match; [frees|]. apply (u_set _ _ alone). auto with keys. Qed.
Lemma SetVolumeReplica_free x :
  i_VolumeName (r_Instance x) = n → simple_name (r_Name x) = true →
  preserves U (SetVolumeReplica (path ps) x).
Proof. intros Hx Hn. unfold SetVolumeReplica. rewrite Hx. case_match; [frees|]. apply (u_set _ _ alone). auto with keys. Qed.
Local Hint Resolve base_free replicas_free SetVolumeBase_free SetVolumeController_free : frame.

Lemma SetVolume_free v : v_Name v = n → volume_wf v → preserves U (SetVolume (path ps) v).
Proof.
  intros Hn [_ _ Hc Hr]. unfold SetVolume, DeleteVolumeController, DeleteVolumeReplicas. rewrite Hn.
  apply preserves_wrap. apply preserves_bind; [apply _|auto with frame|intros _].
  apply preserves_bind; [apply _|apply preserves_wrap, (u_delete _ _ alone); auto with keys|intros _].
  apply preserves_bind; [apply _| |intros _].
  { destruct (v_Controller v) as [c|]; [|frees]. apply SetVolumeController_free. rewrite <-Hn. auto. }
  apply preserves_bind; [apply _|apply preserves_wrap, (u_delete _ _ alone); auto with keys|intros _].
  unfold replicas_of in Hr. destruct (v_Replicas v) as [m|]; [|frees].
  apply preserves_mfor; [apply _|]. intros [r x] Hx%elem_of_range. destruct (Hr _ _ Hx) as (<- & Hv & ?).
  apply preserves_wrap, SetVolumeReplica_free; [simpl; congruence|done].
Qed.

Lemma update_free i :
  i_VolumeName i = n → simple_name (i_Name i) = true →
  preserves U (updateInstanceMetadata (path ps) i).
Proof.
  intros Hv Hi. unfold updateInstanceMetadata, GetVolumeController, GetVolumeReplica,
    getVolumeControllerByKey, getVolumeReplicaByKey. rewrite Hv.
  pose proof (SetVolumeController_free (mkController i) Hv).
  case_match; [frees|]. case_match; [frees|]. case_match; [|frees].
  apply preserves_bind; [apply _|frees|]. intros [r|]; [case_match; [frees|]|];
    by apply preserves_wrap, SetVolumeReplica_free.
Qed.

Lemma remove_free i w w2 st :
  i_VolumeName i = n → simple_name (i_Name i) = true → Rel ps w st → R w w2 →
  wp (removeInstanceMetadata (path ps) i) w2 (λ _ w2', U w2 w2').
Proof.
  intros Hv Hi Hr HR. unfold removeInstanceMetadata. rewrite Hv. case_match; [by go_step|].
  case_match; [|case_match; [|by go_step]].
  - apply preserves_at. unfold GetVolumeController, getVolumeControllerByKey, DeleteVolumeController.
    apply preserves_bind; [apply _|frees|]. intros [[c|]|e]; [|frees..].
    case_match; [frees|]. do 2 apply preserves_wrap. apply (u_delete _ _ alone). auto with keys.
  - pose proof (GetVolumeReplica_related (i_Name i) Hi w w2 HR) as [Ho _].
    apply wp_bind, wp_wrap, wp_intro. intros o w2' E.
    assert (U w2 w2') as Hu.
    { eapply (wp_elim _ _ (λ _ w', U w2 w')); [|exact E]. apply preserves_at.
      unfold GetVolumeReplica, getVolumeReplicaByKey. frees. }
    destruct o as [x|e|p]; [|done..]. simpl.
    eapply (wp_mono _ _ (λ _ w'', U w2' w'')); [|intros ??? Hu'; by etrans].
    rewrite E in Ho. simpl in Ho. destruct (GetVolumeReplica _ n _ w) as [o w'] eqn:Ew. simpl in Ho. subst o.
    pose proof (wp_elim _ _ _ _ _ (GetVolumeReplica_spec ps ps_nonempty ps_simple n (i_Name i) st w Hr n_simple Hi) Ew)
      as (_ & Hr' & ->).
    destruct (st_reps st n !! i_Name i) as [x|] eqn:Hx; [|by go_step].
    destruct (wf_rep _ (rel_wf _ _ _ Hr') _ _ _ Hx) as (-> & -> & _).
    apply preserves_at. case_match; [frees|]. unfold DeleteVolumeReplica.
    do 2 apply preserves_wrap. apply (u_delete _ _ alone). auto with keys.
Qed.

Lemma run_free op w w2 st :
  op_ok op → op_volume op = n → Rel ps w st → R w w2 →
  wp (run_op (path ps) op) w2 (λ _ w2', U w2 w2').
Proof.
  intros [_ Hop] Hn Hr HR.
  destruct op as [v|m|v|v|m|i|i]; simpl in *; try subst m; [apply preserves_at..|].
  - pose proof (SetVolumeBase_free v Hn). unfold CreateVolume, GetVolumeBase. frees.
  - unfold orc_GetVolume, GetVolume, getVolumeByKey, getVolumeControllerByKey. frees.
  - pose proof (SetVolumeBase_free v Hn). unfold UpdateVolume, GetVolumeBase. frees.
  - pose proof (SetVolume_free v Hn Hop). frees.
  - unfold orc_DeleteVolume, DeleteVolume.
    assert (key_in n (volumeRootKey (path ps) n)) as Hk by auto with keys.
    pose proof (u_delete _ _ alone _ Hk). frees.
  - pose proof (update_free i Hn Hop). frees.
  - apply wp_bind. eapply wp_mono; [by eapply remove_free|]. by intros [] ? _ ?.
Qed.
End Runs.

(** *** Operations side by side *)

Lemma agree_service n : same_service (agree (root n)) n.
Proof.
  split; [done|apply get_local|intros; by apply set_local|apply delete_local|apply keys_local].
Qed.

Lemma beside_service n : same_service (beside (agree (root n))) n.
Proof.
  split; [done|..]; intros; apply atomic_beside; try apply _;
    [by apply get_local|by apply set_local|by apply delete_local|by apply keys_local].
Qed.

Lemma agree_alone n m :
  simple_name n = true → simple_name m = true → n ≠ m → left_alone (agree (root m)) n.
Proof.
  intros. split; [apply _|apply get_apart|apply keys_apart|intros; apply set_apart|intros; apply delete_apart];
    by apply (key_in_apart n).
Qed.

Lemma unseen_alone n m :
  simple_name n = true → simple_name m = true → n ≠ m → left_alone (unseen (agree (root m))) n.
Proof.
  intros Hn Hm Hne. destruct (agree_alone n m Hn Hm Hne) as [_ ????].
  split; [apply _|..]; intros; apply atomic_unseen; auto.
Qed.

(** From worlds that agree on the volume, an operation does the same. *)
Lemma run_agree op w w' st :
  op_ok op → Rel ps w st → agree (root (op_volume op)) w w' →
  related_at (agree (root (op_volume op))) w w' (run_op (path ps) op) (run_op (path ps) op).
Proof. intros Hop Hr HR. eapply run_related; [apply Hop|apply agree_service|done..]. Qed.

(** An operation leaves the other volumes alone. *)
Lemma run_apart op m w st :
  op_ok op → simple_name m = true → m ≠ op_volume op → Rel ps w st →
  agree (root m) w (run_op (path ps) op w).2.
Proof.
  intros Hop Hm Hne Hr. eapply (run_free (agree _)); [apply Hop|apply agree_service| |done..].
  by apply agree_alone; [apply Hop|..].
Qed.

(** C9: operations on a volume are isolated from what happens to other volumes.
    Whatever others do between the requests of an operation, as long as they leave its
    volume alone, its outcome and what it does to its volume are those of an undisturbed
    run; and to any other volume nothing happens but what the others have done. *)
Theorem volumes_isolated op w st others :
  op_ok op → Rel ps w st →
  Forall (λ f, ∀ w, agree (root (op_volume op)) w (f w)) others →
  let '(o, w') := run_op (path ps) op w in
  let '(o', s') := run_op (path ps) op (mkShared w others) in
  o' = o ∧ agree (root (op_volume op)) w' (sh_world s') ∧
  ∀ m, simple_name m = true → m ≠ op_volume op →
    Forall (λ f, Proper (agree (root m) ==> agree (root m)) f) others →
    ∃ k, agree (root m) (all_of (take k others) w) (sh_world s').
Proof.
  intros Hop Hr Hothers. set (n := op_volume op) in *.
  assert (beside (agree (root n)) w (mkShared w others)) as Hb by done.
  destruct (run_related _ n (proj1 Hop) (beside_service n) op w _ st Hop eq_refl Hr Hb) as [Ho Hw].
  pose proof (λ m Hm Hne, run_free _ n (proj1 Hop) (beside_service n) _ (unseen_alone n m (proj1 Hop) Hm Hne)
    op w _ st Hop eq_refl Hr Hb) as Hu. unfold wp in Hu.
  destruct (run_op _ op w) as [o w'], (run_op _ op (mkShared w others)) as [o' s']. simpl in *. subst o'.
  split_and!; [done|apply Hw|]. intros m Hm Hne Hp.
  destruct (Hu m Hm (not_eq_sym Hne) Hp) as (k & _ & Hk). by exists k.
Qed.

(** *** Two controllers of one volume *)

(** A program that makes one request: the next of the others comes before it. *)
Definition one_request {A} (m : M W A) (m' : M (shared W) A) : Prop :=
  ∀ w f fs, m' (mkShared w (f :: fs)) = let '(o, w') := m (f w) in (o, mkShared w' fs).

Lemma one_request_wrap {A} fmt (m : M W A) m' : one_request m m' → one_request (wrap fmt m) (wrap fmt m').
Proof. intros Hm w f fs. unfold wrap. rewrite Hm. by destruct (m (f w)). Qed.
Lemma one_request_attempt {A} (m : M W A) m' : one_request m m' → one_request (attempt m) (attempt m').
Proof. intros Hm w f fs. unfold attempt. rewrite Hm. by destruct (m (f w)) as [[] ?]. Qed.

Lemma one_request_get {T} (d : json → option T) k : one_request (get_or_nil d k) (get_or_nil d k).
Proof.
  intros w f fs. unfold get_or_nil, b_get_as, attempt, mbind, M_bind. simpl. unfold atomic. simpl.
  destruct (b_get k (f w)) as [[j|e|p] w']; [|by case_match|done].
  unfold unmarshal. destruct (d j) as [x|]; [done|]. simpl. by case_match.
Qed.
Lemma one_request_get_controller n :
  one_request (GetVolumeController (path ps) n) (GetVolumeController (path ps) n).
Proof. apply one_request_wrap, one_request_get. Qed.
Lemma one_request_set_controller c :
  simple_name (i_VolumeName (c_Instance c)) = true →
  one_request (SetVolumeController (path ps) c) (SetVolumeController (path ps) c).
Proof. intros Hc w f fs. unfold SetVolumeController. by rewrite (simple_nonempty _ Hc). Qed.

(** A complete instance of a controller. *)
Definition new_controller (i : InstanceInfo) : Prop :=
  named i ∧ incomplete i = false ∧ is_controller i = true.

Lemma get_controller_ok n w st :
  healthy w → Rel ps w st → simple_name n = true →
  ∃ w1, attempt (GetVolumeController (path ps) n) w = (Ok (inl (st_ctrl st n)), w1) ∧ healthy w1 ∧ Rel ps w1 st.
Proof.
  intros Hh Hr Hn. pose proof (GetVolumeController_spec ps ps_nonempty ps_simple n st w Hr Hn) as (Hs & Hr' & Ho).
  destruct (Hs Hh) as [Hh' [c E]]. exists (GetVolumeController (path ps) n w).2.
  split_and!; [|done..]. unfold attempt. destruct (GetVolumeController _ n w) as [o w1].
  simpl in *. subst o. by rewrite Ho.
Qed.

Lemma set_controller_ok i w st :
  healthy w → Rel ps w st → new_controller i →
  ∃ w1, wrap "fail to update controller metadata: %+v" (SetVolumeController (path ps) (mkController i)) w
          = (Ok tt, w1) ∧
    healthy w1 ∧ Rel ps w1 (put_ctrl (i_VolumeName i) (Some (mkController i)) st).
Proof.
  intros Hh Hr ([Hv _] & _ & _).
  pose proof (SetVolumeController_spec ps ps_nonempty ps_simple (mkController i) st w Hr Hv) as (Hs & Ho).
  destruct (Hs Hh) as [Hh' [[] E]]. exists (SetVolumeController (path ps) (mkController i) w).2.
  unfold wrap. destruct (SetVolumeController _ _ w) as [o w1]. simpl in *. by subst o.
Qed.

Lemma record_first i w st :
  healthy w → Rel ps w st → new_controller i → st_ctrl st (i_VolumeName i) = None →
  ∃ w1, updateInstanceMetadata (path ps) i w = (Ok tt, w1) ∧
    healthy w1 ∧ Rel ps w1 (put_ctrl (i_VolumeName i) (Some (mkController i)) st).
Proof.
  intros Hh Hr Hi Hnone. pose proof Hi as ([Hv _] & Hinc & Hc). unfold updateInstanceMetadata.
  rewrite Hinc. fold (is_controller i). rewrite Hc.
  destruct (get_controller_ok _ w st Hh Hr Hv) as (w1 & E & Hh1 & Hr1). rewrite Hnone in E.
  rewrite (bind_ok _ _ _ _ _ E). by apply set_controller_ok.
Qed.

Lemma record_refused i j w st :
  healthy w → Rel ps w st → new_controller i → st_ctrl st (i_VolumeName i) = Some (mkController j) →
  other_instance j i = true →
  ∃ e w1, updateInstanceMetadata (path ps) i w = (Err e, w1) ∧ Rel ps w1 st.
Proof.
  intros Hh Hr ([Hv _] & Hinc & Hc) Hsome Hother. unfold updateInstanceMetadata.
  rewrite Hinc. fold (is_controller i). rewrite Hc.
  destruct (get_controller_ok _ w st Hh Hr Hv) as (w1 & E & Hh1 & Hr1). rewrite Hsome in E.
  rewrite (bind_ok _ _ _ _ _ E). simpl. rewrite Hother. by eexists _, w1.
Qed.

(** C27: the check for another controller is lost when two are recorded at once.  One
    after the other, the second of two controllers of a volume is refused.  But when the
    other one is recorded between the read and the write of the first, both are told
    that they are recorded, and the store only knows one of them. *)
Theorem concurrent_controllers_collide i j w st :
  Rel ps w st → healthy w → new_controller i → new_controller j →
  i_VolumeName j = i_VolumeName i → other_instance j i = true →
  st_ctrl st (i_VolumeName i) = None →
  let record x := updateInstanceMetadata (path ps) x in
  (∃ w1 e w2, record j w = (Ok tt, w1) ∧ record i w1 = (Err e, w2) ∧
     Rel ps w2 (put_ctrl (i_VolumeName i) (Some (mkController j)) st)) ∧
  (∃ w1 s', record j w1 = (Ok tt, (record j w1).2) ∧ Rel ps w1 st ∧
     updateInstanceMetadata (path ps) i (mkShared w [id; λ w, (record j w).2]) = (Ok tt, s') ∧
     sh_others s' = [] ∧
     Rel ps (sh_world s') (put_ctrl (i_VolumeName i) (Some (mkController i)) st)).
Proof.
  intros Hr Hh Hi Hj Hv Hother Hnone record. pose proof Hi as ([Hn _] & Hinc & Hc). split.
  - destruct (record_first j w st) as (w1 & E1 & Hh1 & Hr1); [done..|by rewrite Hv|]. rewrite Hv in Hr1.
    destruct (record_refused i j w1 _ Hh1 Hr1 Hi) as (e & w2 & E2 & Hr2);
      [simpl; by rewrite fn_lookup_insert|done|]. by exists w1, e, w2.
  - destruct (get_controller_ok _ w st Hh Hr Hn) as (w1 & Eg & Hh1 & Hr1). rewrite Hnone in Eg.
    destruct (record_first j w1 st) as (w2 & E2 & Hh2 & Hr2); [done..|by rewrite Hv|]. rewrite Hv in Hr2.
    destruct (set_controller_ok i w2 _ Hh2 Hr2 Hi) as (w3 & E3 & _ & Hr3).
    exists w1, (mkShared w3 []). split_and!; [by unfold record; rewrite E2|done| |done|].
    + unfold updateInstanceMetadata. rewrite Hinc. fold (is_controller i). rewrite Hc.
      rewrite (bind_ok _ _ _ (inl None) (mkShared w1 [λ w, (record j w).2])); simpl.
      * rewrite (one_request_wrap _ _ _ (one_request_set_controller (mkController i) Hn)).
        unfold record. rewrite E2. simpl. by rewrite E3.
      * rewrite (one_request_attempt _ _ (one_request_get_controller _)). simpl. by rewrite Eg.
    + eapply Rel_proper; [|exact Hr3]. split_and!; try done. intros m. simpl.
      destruct (decide (i_VolumeName i = m)) as [<-|]; by rewrite ?fn_lookup_insert, ?fn_lookup_insert_ne.
Qed.
End Volumes.

(** ** The reference etcd is local *)

Module EtcdLocal.
Import EtcdRef.

Definition agree_below (root : string) (w w' : etcd) : Prop :=
  up w = up w' ∧ ∀ k, ¬ apart root k → files w !! k = files w' !! k.

#[export] Instance agree_below_equiv root : Equivalence (agree_below root).
Proof.
  split.
  - done.
  - intros w w' [Hu Hf]. split; [done|]. intros k Hk. symmetry. auto.
  - intros w1 w2 w3 [Hu Hf] [Hu' Hf']. split; [congruence|]. intros k Hk. by rewrite Hf, Hf'.
Qed.

Lemma not_apart_below root k f : under root k → under k f → ¬ apart root f.
Proof. intros H1 H2 [Ha _]. apply Ha. unfold under in *. by etrans. Qed.

Lemma not_apart_above root k f : under root k → under f k → ¬ apart root f.
Proof.
  unfold under. intros H1 H2 [Ha Hb]. destruct (prefix_weak_total _ _ _ H1 H2); [by apply Ha|by apply Hb].
Qed.

Section Agree.
Context (root k : string) (w w' : etcd).
Hypothesis Hk : under root k.
Hypothesis Ha : agree_below root w w'.

Lemma agree_at : files w !! k = files w' !! k.
Proof. apply Ha. exact (not_apart_below root k k Hk (under_refl k)). Qed.

Lemma agree_has_below : has_below k (files w) = has_below k (files w').
Proof.
  apply eq_bool_prop_intro. rewrite !Is_true_true, !has_below_spec.
  split; intros (f & Hf & Hu & Hne); exists f; (split; [|done]);
    [rewrite <-(proj2 Ha)|rewrite (proj2 Ha)]; eauto using not_apart_below.
Qed.

Lemma agree_file_above : file_above k (files w) = file_above k (files w').
Proof.
  apply eq_bool_prop_intro. rewrite !Is_true_true, !file_above_spec.
  split; intros (f & Hf & Hu & Hne); exists f; (split; [|done]);
    [rewrite <-(proj2 Ha)|rewrite (proj2 Ha)]; eauto using not_apart_above.
Qed.

Lemma agree_children : children k (files w) = children k (files w').
Proof.
  unfold children. assert (filter (λ kv, below k kv.1 = true) (files w) =
    filter (λ kv, below k kv.1 = true) (files w')) as ->; [|done].
  apply map_eq. intros f. apply option_eq. intros j.
  rewrite !map_lookup_filter_Some. split; intros [Hf Hb]; (split; [|done]);
    apply below_spec in Hb as [Hb _]; rewrite <-Hf; [symmetry|]; apply Ha; eauto using not_apart_below.
Qed.

Lemma agree_insert j : agree_below root (mkEtcd (<[k:=j]> (files w)) (up w)) (mkEtcd (<[k:=j]> (files w')) (up w')).
Proof.
  split; [apply Ha|]. intros f Hf. simpl. destruct (decide (k = f)) as [->|Hne].
  - by rewrite !lookup_insert_eq.
  - rewrite !lookup_insert_ne by done. by apply Ha.
Qed.

Lemma agree_delete_tree :
  agree_below root (mkEtcd (delete_tree k (files w)) (up w)) (mkEtcd (delete_tree k (files w')) (up w')).
Proof.
  split; [apply Ha|]. intros f Hf. simpl. unfold delete_tree. apply option_eq. intros j.
  rewrite !map_lookup_filter_Some. by rewrite (proj2 Ha f Hf).
Qed.
End Agree.

Lemma insert_apart root k j w : apart root k → agree_below root w (mkEtcd (<[k:=j]> (files w)) (up w)).
Proof.
  intros Hk. split; [done|]. intros f Hf. simpl. rewrite lookup_insert_ne; [done|by intros ->].
Qed.

Lemma delete_tree_apart root k w : apart root k → agree_below root w (mkEtcd (delete_tree k (files w)) (up w)).
Proof.
  intros [H1 H2]. split; [done|]. intros f Hf. simpl. unfold delete_tree. apply option_eq. intros j.
  rewrite map_lookup_filter_Some. simpl. split; [|by intros [? _]]. intros Hj. split; [done|]. intros Hu.
  apply Hf. split; intros Hf'; unfold under in *.
  - destruct (prefix_weak_total _ _ _ Hf' Hu); auto.
  - apply H2. by etrans.
Qed.

#[global, refine] Instance etcd_api_local : LocalKeysAPI etcd := { same_below := agree_below }.
Proof.
  - intros root k Hk w w' Ha. unfold related_at. simpl. unfold get.
    rewrite (agree_at root k w w' Hk Ha), (agree_has_below root k w w' Hk Ha),
      (agree_children root k w w' Hk Ha), (proj1 Ha). by repeat case_match.
  - intros root k j Hk w w' Ha. unfold related_at. simpl. unfold set.
    rewrite (agree_file_above root k w w' Hk Ha), (agree_has_below root k w w' Hk Ha), <-(proj1 Ha).
    destruct (negb (up w)); [done|]. case_match; [done|]. split; [done|].
    simpl. rewrite (proj1 Ha) at 2. by apply agree_insert.
  - intros root k Hk w w' Ha. unfold related_at. simpl. unfold delete.
    rewrite (agree_at root k w w' Hk Ha), (agree_has_below root k w w' Hk Ha), <-(proj1 Ha).
    pose proof (agree_delete_tree root k w w' Ha) as Hd. rewrite <-(proj1 Ha) in Hd.
    by repeat case_match.
  - intros root k w. unfold wp. simpl. unfold get. by repeat case_match.
  - intros root k j Hk w. unfold wp. simpl. unfold set. repeat case_match; try done. by apply insert_apart.
  - intros root k Hk w. unfold wp. simpl. unfold delete. repeat case_match; try done; by apply delete_tree_apart.
Defined.
End EtcdLocal.

Module InterleavingDemo.
Import EtcdRef EtcdLocal KVDemo.

Definition vol2 : VolumeInfo := mkVolume "vol2" 4096 "" "" 1 0 None None "" "engine" "" "" [].

(** Another manager records [vol2] before the second request. *)
Definition other_create (w : EtcdRef.etcd) : EtcdRef.etcd := (SetVolumeBase (path ps) vol2 w).2.
Definition others : list (EtcdRef.etcd → EtcdRef.etcd) := [id; other_create].

Lemma vol2_key : key_in ps "vol2" (VolumeKey_Base (volumeRootKey (path ps) "vol2")).
Proof. by apply base_key_in; [apply ps_ok..|]. Qed.

Local Abbreviation root n := (path (ps ++ ["volumes"; n])).

Lemma others_apart : Forall (λ f, ∀ w, agree (root "vol") w (f w)) others.
Proof.
  apply Forall_cons_2; [by intros w|]. apply Forall_cons_2; [|apply Forall_nil_2]. intros w.
  apply (set_apart (W := EtcdRef.etcd) _ _ (to_json (base_of vol2))).
  by apply (key_in_apart ps (proj2 ps_ok) "vol2"), vol2_key.
Qed.

Lemma others_proper : Forall (λ f, Proper (agree (root "vol2") ==> agree (root "vol2")) f) others.
Proof.
  apply Forall_cons_2; [by intros w w' ?|]. apply Forall_cons_2; [|apply Forall_nil_2]. intros w w' Hw.
  exact (proj2 (set_local (W := EtcdRef.etcd) _ _ (to_json (base_of vol2))
    (key_in_under ps (proj2 ps_ok) "vol2" _ eq_refl vol2_key) w w' Hw)).
Qed.

Lemma volumes_isolated_witness :
  let '(o, w') := run_op (path ps) (OpCreate vol) etcd in
  let '(o', s') := run_op (path ps) (OpCreate vol) (mkShared etcd others) in
  o' = o ∧ agree (root "vol") w' (sh_world s') ∧
  ∃ k, agree (root "vol2") (all_of (take k others) etcd) (sh_world s').
Proof.
  assert (H := volumes_isolated ps (proj1 ps_ok) (proj2 ps_ok) (OpCreate vol) etcd empty_store others
    (conj eq_refl I) rel_empty others_apart).
  destruct (run_op _ (OpCreate vol) etcd) as [o w'], (run_op _ _ (mkShared etcd others)) as [o' s'].
  destruct H as (Ho & Hw & Hm). split_and!; [exact Ho|exact Hw|].
  exact (Hm "vol2" eq_refl ltac:(discriminate) others_proper).
Defined.

Definition c1 : InstanceInfo := mkInstance "id-1" "controller" "vol-controller" "host1" "10.0.0.1" true "vol".
Definition c2 : InstanceInfo := mkInstance "id-2" "controller" "vol-controller" "host2" "10.0.0.2" true "vol".

Lemma new_c1 : new_controller c1.
Proof. by repeat split. Qed.
Lemma new_c2 : new_controller c2.
Proof. by repeat split. Qed.

Lemma concurrent_controllers_collide_witness :
  ∃ s', updateInstanceMetadata (path ps) c1
          (mkShared etcd [id; λ w, (updateInstanceMetadata (path ps) c2 w).2]) = (Ok tt, s') ∧
    Rel ps (sh_world s') (put_ctrl "vol" (Some (mkController c1)) empty_store).
Proof.
  destruct (concurrent_controllers_collide ps (proj1 ps_ok) (proj2 ps_ok) c1 c2 etcd empty_store
    rel_empty eq_refl new_c1 new_c2 eq_refl eq_refl eq_refl) as [_ (w1 & s' & _ & _ & E & _ & Hr)].
  exists s'. exact (conj E Hr).
Defined.
End InterleavingDemo.
