(* ===== verification/Retain.v ===== *)
(** * Retention

    The clean-up loop of recurring jobs, which [manager/cron.go] has three times: in
    [snapshotTask.cleanup], [backupTask.cleanupBackups] and
    [backupTask.cleanupBackupSnapshots].  It is written once here, over the calls that
    list and delete, and the three are instances.  The task keeps a cache of the items,
    oldest first, and a count of how many there are. *)

From stdpp Require Import base list gmap sorting strings.
From Stdlib Require Import ZArith Lia Ascii.
From S2P Require Import Prelude GoStrings Types.
Local Open Scope string_scope.
Local Open Scope list_scope.

(** [sort.Slice]: some sorted permutation, for a strict weak order. *)
Class GoSort := {
  sort_slice : ∀ {A : Type}, (A → A → bool) → list A → list A;
  sort_perm : ∀ {A : Type} (less : A → A → bool) l, sort_slice less l ≡ₚ l;
  sort_sorted : ∀ {A : Type} (less : A → A → bool) l,
    (∀ x y, less x y = true → less y x = false) →
    (∀ x y z, less y x = false → less z y = false → less z x = false) →
    StronglySorted (λ x y, less y x = false) (sort_slice less l);
}.

(** Insertion sort is one. *)
Fixpoint sort_insert {A} (less : A → A → bool) (x : A) (l : list A) : list A :=
  match l with
  | [] => [x]
  | y :: l' => if less y x then y :: sort_insert less x l' else x :: l
  end.
Fixpoint insertion_sort {A} (less : A → A → bool) (l : list A) : list A :=
  match l with
  | [] => []
  | x :: l' => sort_insert less x (insertion_sort less l')
  end.

Lemma sort_insert_perm {A} (less : A → A → bool) x l : sort_insert less x l ≡ₚ x :: l.
Proof.
  induction l as [|y l IH]; simpl; [done|]. destruct (less y x); [|done].
  rewrite IH. apply Permutation_swap.
Qed.

Lemma insertion_sort_perm {A} (less : A → A → bool) l : insertion_sort less l ≡ₚ l.
Proof. induction l as [|x l IH]; simpl; [done|]. by rewrite sort_insert_perm, IH. Qed.

Lemma sort_insert_sorted {A} (less : A → A → bool) x l :
  (∀ x y, less x y = true → less y x = false) →
  (∀ x y z, less y x = false → less z y = false → less z x = false) →
  StronglySorted (λ x y, less y x = false) l →
  StronglySorted (λ x y, less y x = false) (sort_insert less x l).
Proof.
  intros Hasym Htrans Hs. induction Hs as [|y l Hs IHl Hf]; simpl; [repeat constructor|].
  destruct (less y x) eqn:E.
  - constructor; [done|]. rewrite sort_insert_perm. constructor; [by apply Hasym|done].
  - constructor; [by constructor|]. constructor; [done|].
    eapply Forall_impl; [done|]. simpl. intros z Hz. by eapply Htrans.
Qed.

#[refine] Definition insertion_order : GoSort := {|
  sort_slice A less l := insertion_sort less l;
|}.
Proof.
  - intros A less l. apply insertion_sort_perm.
  - intros A less l Hasym Htrans. induction l as [|x l IH]; simpl; [constructor|].
    by apply sort_insert_sorted.
Defined.

Lemma slt_irrefl_sym s t : slt s t = true → slt t s = false.
Proof.
  revert t. induction s as [|a s IH]; intros [|b t]; simpl; try done.
  rewrite orb_true_iff, andb_true_iff, orb_false_iff, andb_false_iff, !Nat.ltb_lt, !Nat.eqb_eq,
    Nat.ltb_ge, Nat.eqb_neq.
  intros [Hlt|[Heq Hs]]; [lia|]. split; [lia|]. right. auto.
Qed.

Lemma slt_weak s t u : slt t s = false → slt u t = false → slt u s = false.
Proof.
  revert t u. induction s as [|a s IH]; intros [|b t] [|c u]; simpl; try done.
  rewrite !orb_false_iff, !andb_false_iff, !Nat.ltb_ge, !Nat.eqb_neq.
  intros [H1 H2] [H3 H4]. split; [lia|].
  destruct (Nat.eq_dec (nat_of_ascii c) (nat_of_ascii a)) as [E|]; [right|by left].
  destruct H2 as [?|H2]; [lia|]. destruct H4 as [?|H4]; [lia|]. eauto.
Qed.

(** ** The loop *)

Section Retain.
Context {W A : Type}.
Context (listing : M W (list A)) (del : A → M W unit) (after : M W unit) (retain : Z).

(** [count] and [cached]; a nil slice is told from an empty one. *)
Record cache := mkCache { ca_count : Z; ca_items : option (list A) }.

Definition onW {B} (m : M W B) : M (cache * W) B := λ s,
  let '(o, w) := m s.2 in (o, (s.1, w)).
Definition get_cache : M (cache * W) cache := λ s, (Ok s.1, s).
Definition put_cache (c : cache) : M (cache * W) unit := λ s, (Ok tt, (c, s.2)).

(** [for count > Retain && len(cached) > 0 { .. }]: the head is deleted. *)
Fixpoint trim_loop (l : list A) : M (cache * W) unit :=
  c ← get_cache;
  if (retain <? ca_count c)%Z then
    match l with
    | [] => mret tt
    | x :: l' =>
      onW (del x);;
      put_cache (mkCache (ca_count c - 1) (Some l'));;
      trim_loop l'
    end
  else mret tt.

(** [for cached == nil || count > Retain { .. }]; [None] when the fuel runs out. *)
Fixpoint retain_loop (fuel : nat) : M (cache * W) (option unit) :=
  match fuel with
  | O => mret None
  | S fuel' =>
    c ← get_cache;
    if match ca_items c with None => false | Some _ => negb (retain <? ca_count c)%Z end
    then mret (Some tt)
    else
      match ca_items c with
      | None | Some [] =>
        ss ← onW listing;
        put_cache (mkCache (Z.of_nat (length ss)) (Some ss))
      | Some _ => mret tt
      end;;
      c ← get_cache;
      trim_loop (default [] (ca_items c));;
      onW after;;
      retain_loop fuel'
  end.

(** The body of the clean-up, after the lock is taken. *)
Definition retain_cleanup (fuel : nat) : M (cache * W) (option unit) :=
  c ← get_cache;
  put_cache (mkCache (ca_count c + 1) (ca_items c));;
  retain_loop fuel.

(** After the inner loop the count is within bounds or the cache is empty. *)
Lemma trim_loop_end l c w c' w' :
  ca_items c = Some l → trim_loop l (c, w) = (Ok tt, (c', w')) →
  ∃ l', ca_items c' = Some l' ∧ (ca_count c' <= retain ∨ l' = [])%Z ∧
    (ca_count c' - Z.of_nat (length l') = ca_count c - Z.of_nat (length l))%Z.
Proof.
  revert c w. induction l as [|x l IH]; intros c w Hc E; cbn [trim_loop] in E;
    unfold mbind at 1, M_bind at 1, get_cache in E; cbn [fst] in E;
    destruct (Z.ltb_spec retain (ca_count c)).
  - injection E as <- <-. exists []. auto.
  - injection E as <- <-. exists []. auto.
  - unfold mbind, M_bind, onW, put_cache in E. cbn [snd fst] in E.
    destruct (del x w) as [[[]|e|s] w1]; try done.
    apply IH in E as (l' & Hl' & Hor & Heq); [|done]. cbn [ca_count length] in *.
    exists l'. split_and!; [done..|]. rewrite Heq. lia.
  - injection E as <- <-. exists (x :: l). split_and!; [done|left; lia|done].
Qed.

(** A state the loop is done with. *)
Definition settled (c : cache) : Prop := is_Some (ca_items c) ∧ (ca_count c <= retain)%Z.

Lemma retain_settled fuel c w :
  settled c → retain_loop (S fuel) (c, w) = (Ok (Some tt), (c, w)).
Proof.
  intros [[l Hl] Hle]. cbn [retain_loop]. unfold mbind at 1, M_bind at 1, get_cache at 1.
  cbn [fst]. rewrite Hl. destruct (Z.ltb_spec retain (ca_count c)); [lia|]. done.
Qed.

(** Trimming and what follows it, from a cache of [l]: the loop ends if every
    state it can get to is one it ends from. *)
Lemma retain_rest fuel l c w :
  ca_items c = Some l →
  (∀ c' w', (∃ l', ca_items c' = Some l' ∧ (ca_count c' <= retain ∨ l' = [])%Z ∧
       (ca_count c' - Z.of_nat (length l') = ca_count c - Z.of_nat (length l))%Z) →
     (retain_loop fuel (c', w')).1 ≠ Ok None) →
  ((trim_loop l;; onW after;; retain_loop fuel) (c, w)).1 ≠ Ok None.
Proof.
  intros Hc Hnext. unfold mbind at 1, M_bind at 1.
  destruct (trim_loop l (c, w)) as [[[]|e|s] [c' w']] eqn:E; [|done..].
  apply trim_loop_end in E; [|done]. unfold mbind, M_bind, onW. cbn [snd fst].
  destruct (after w') as [[[]|e|s] w2]; [|done..]. by apply Hnext.
Qed.

Lemma retain_from_empty fuel c w :
  (0 <= retain)%Z → (ca_items c = None ∨ ca_items c = Some []) →
  (retain_loop (S (S fuel)) (c, w)).1 ≠ Ok None.
Proof.
  intros Hret Hc. cbn [retain_loop]. unfold mbind at 1, M_bind at 1, get_cache at 1. cbn [fst].
  destruct (match ca_items c with None => false | Some _ => negb (retain <? ca_count c)%Z end); [done|].
  replace (match ca_items c with None | Some [] =>
      ss ← onW listing; put_cache (mkCache (Z.of_nat (length ss)) (Some ss)) | Some _ => mret tt end)
    with (ss ← onW listing; put_cache (mkCache (Z.of_nat (length ss)) (Some ss)))
    by (by destruct Hc as [-> | ->]).
  unfold mbind at 1, M_bind at 1. unfold mbind at 1, M_bind at 1, onW at 1. cbn [snd fst].
  destruct (listing w) as [[ss|e|s] w1]; [|done..]. unfold put_cache. cbn [snd fst].
  unfold mbind at 1, M_bind at 1, get_cache at 1. cbn [fst ca_items].
  apply (retain_rest (S fuel) ss); [done|]. intros c' w' (l' & Hl' & Hor & Heq).
  rewrite retain_settled; [done|]. split; [eauto|]. cbn [ca_count] in Heq.
  destruct Hor as [?| ->]; [done|]. simpl in Heq. lia.
Qed.

(** The clean-up ends after at most three rounds, from any state of the cache and
    whatever the calls answer, when [Retain] is not negative. *)
Lemma retain_terminates fuel c w :
  (0 <= retain)%Z → (retain_cleanup (4 + fuel) (c, w)).1 ≠ Ok None.
Proof.
  intros Hret. unfold retain_cleanup, mbind at 1, M_bind at 1, get_cache at 1. cbn [fst].
  unfold mbind at 1, M_bind at 1, put_cache at 1. cbn [snd].
  destruct (ca_items c) as [[|x l]|] eqn:Hc.
  - apply retain_from_empty; [done|by right].
  - cbn [Nat.add]. cbn [retain_loop]. unfold mbind at 1, M_bind at 1, get_cache at 1. cbn [fst ca_items ca_count].
    destruct (negb _); [done|].
    unfold mbind at 1, M_bind at 1. cbn.
    apply (retain_rest (3 + fuel) (x :: l)); [done|]. intros c' w' (l' & Hl' & Hor & _).
    destruct Hor as [Hle | ->].
    + cbn [Nat.add]. rewrite retain_settled; [done|]. split; eauto.
    + apply (retain_from_empty (S fuel)); [done|by right].
  - apply retain_from_empty; [done|by left].
Qed.

End Retain.
Arguments cache : clear implicits.

(** ** What is retained

    The items are what a task lists and deletes among what is live.  The task is exact
    when its cache holds the oldest of its items and counts them all. *)

Section Tracking.
Context {W A : Type}.
Context (listing : M W (list A)) (del : A → M W unit) (after : M W unit) (retain : Z).
Context (live : W → list A) (mine : A → bool) (name : A → string) (older : A → A → Prop).
Hypothesis listing_live : ∀ w l w', listing w = (Ok l, w') →
  live w' = live w ∧ l ≡ₚ filter (λ x, mine x = true) (live w) ∧ StronglySorted older l.
Hypothesis del_live : ∀ x w w', del x w = (Ok tt, w') →
  live w' = filter (λ y, name y ≠ name x) (live w).
Hypothesis after_live : ∀ w w', after w = (Ok tt, w') → live w' = live w.
Implicit Types (c : cache A) (w : W) (gone kept l : list A).

Definition tracks c kept : Prop :=
  match ca_items c with
  | None => True
  | Some l => ∃ newer, kept ≡ₚ l ++ newer ∧ ca_count c = Z.of_nat (length kept) ∧
      StronglySorted older l ∧ ∀ x y, x ∈ l → y ∈ newer → older x y
  end.

(** From [w0] to [w] the items [gone] were deleted, and none but them. *)
Record pruned w0 gone kept w : Prop := {
  pr_live : live w = filter (λ x, name x ∉ name <$> gone) (live w0);
  pr_split : gone ++ kept ≡ₚ filter (λ x, mine x = true) (live w0);
  pr_older : ∀ g x, g ∈ gone → x ∈ kept → older g x;
  pr_enough : gone = [] ∨ (retain <= Z.of_nat (length kept))%Z;
}.

Lemma pruned_refl w : pruned w [] (filter (λ x, mine x = true) (live w)) w.
Proof.
  split; [|done|by intros g x ?%elem_of_nil|by left].
  symmetry. apply filter_all, Forall_forall. intros x _. apply not_elem_of_nil.
Qed.

Lemma NoDup_fmap_filter {B C} (f : B → C) (P : B → Prop) `{∀ x, Decision (P x)} (xs : list B) :
  NoDup (f <$> xs) → NoDup (f <$> filter P xs).
Proof. intros Hn. eapply sublist_NoDup; [exact Hn|]. apply fmap_sublist, sublist_filter. Qed.

Section From.
Context (w0 : W).
Hypothesis names : NoDup (name <$> live w0).

Lemma pruned_mine gone kept w : pruned w0 gone kept w → filter (λ x, mine x = true) (live w) ≡ₚ kept.
Proof.
  intros [Hl Hs _ _]. rewrite Hl, list_filter_filter.
  rewrite (list_filter_iff _ (λ x, (name x ∉ name <$> gone) ∧ mine x = true)) by (intros; tauto).
  rewrite <-list_filter_filter, <-Hs.
  assert (Hn : NoDup (name <$> gone ++ kept)) by (rewrite Hs; by apply NoDup_fmap_filter).
  rewrite fmap_app in Hn. apply NoDup_app in Hn as (_ & Hdis & _).
  rewrite filter_app, filter_none, filter_all; [done|..]; apply Forall_forall; intros x Hx.
  - intros Hin. eapply Hdis; [exact Hin|]. by apply list_elem_of_fmap_2.
  - intros Hn. apply Hn. by apply list_elem_of_fmap_2.
Qed.

(** Deleting the oldest item of the cache while there are too many. *)
Lemma pruned_delete gone kept x l newer w w' :
  pruned w0 gone kept w → kept ≡ₚ (x :: l) ++ newer → (retain < Z.of_nat (length kept))%Z →
  StronglySorted older (x :: l) → (∀ y z, y ∈ x :: l → z ∈ newer → older y z) →
  del x w = (Ok tt, w') →
  pruned w0 (gone ++ [x]) (l ++ newer) w'.
Proof.
  intros [Hl Hs Ho _] Hk Hlt Hsort Hnew Ed. apply del_live in Ed. split.
  - rewrite Ed, Hl, list_filter_filter. apply list_filter_iff. intros y.
    rewrite fmap_app, not_elem_of_app. simpl. rewrite list_elem_of_singleton. tauto.
  - rewrite <-Hs, Hk, <-app_assoc. done.
  - intros g y [Hg|Hg%list_elem_of_singleton]%elem_of_app Hy.
    + apply Ho; [done|]. rewrite Hk. by right.
    + subst g. apply elem_of_app in Hy as [Hy|Hy]; [|by apply Hnew; [left|]].
      apply StronglySorted_inv in Hsort as [_ Hall]. by apply (proj1 (Forall_forall _ _) Hall).
  - right. apply Permutation_length in Hk. simpl in Hk. lia.
Qed.

Lemma trim_pruned l gone kept c w c' w' :
  pruned w0 gone kept w → tracks c kept → ca_items c = Some l →
  trim_loop del retain l (c, w) = (Ok tt, (c', w')) →
  ∃ gone' kept', pruned w0 gone' kept' w' ∧ tracks c' kept' ∧ is_Some (ca_items c').
Proof.
  revert gone kept c w. induction l as [|x l IH]; intros gone kept c w Hp Ht Hc E; cbn [trim_loop] in E;
    unfold mbind at 1, M_bind at 1, get_cache in E; cbn [fst] in E;
    destruct (Z.ltb_spec retain (ca_count c)).
  1,2,4: injection E as <- <-; rewrite Hc; eauto 10.
  unfold tracks in Ht. rewrite Hc in Ht. destruct Ht as (newer & Hk & Hn & Hsort & Hnew).
  unfold mbind, M_bind, onW, put_cache in E. cbn [snd fst] in E.
  destruct (del x w) as [[[]|e|s] w1] eqn:Ed; try done.
  eapply (IH (gone ++ [x]) (l ++ newer)); [|..|exact E]; [|unfold tracks|done].
  - eapply pruned_delete; eauto. lia.
  - exists newer. split_and!; [done| | |].
    + cbn [ca_count]. apply Permutation_length in Hk. simpl in Hk. lia.
    + by apply StronglySorted_inv in Hsort as [? _].
    + intros y z Hy. apply Hnew. by right.
Qed.

(** Listing again, when the cache has run out. *)
Lemma relist_pruned gone kept c w :
  pruned w0 gone kept w → tracks c kept →
  wp (match ca_items c with
      | None | Some [] => ss ← onW listing; put_cache (mkCache (Z.of_nat (length ss)) (Some ss))
      | Some _ => mret tt
      end) (c, w) (λ o s, o = Ok tt → pruned w0 gone kept s.2 ∧ tracks s.1 kept ∧ is_Some (ca_items s.1)).
Proof.
  intros Hp Ht. apply wp_intro. intros o s E ->.
  assert (Hfresh : (ss ← onW listing; put_cache (mkCache (Z.of_nat (length ss)) (Some ss))) (c, w) = (Ok tt, s) →
                   pruned w0 gone kept s.2 ∧ tracks s.1 kept ∧ is_Some (ca_items s.1)).
  { intros Er. unfold mbind, M_bind, onW, put_cache in Er. cbn [snd fst] in Er.
    destruct (listing w) as [[ss|e|m] w1] eqn:El; try done. injection Er as <-. cbn [fst snd].
    apply listing_live in El as (Hl & Hss & Hsort). rewrite (pruned_mine _ _ _ Hp) in Hss. split_and!; [|..].
    - destruct Hp as [Hl' ? ? ?]. split; [by rewrite Hl|done..].
    - exists []. rewrite app_nil_r. split_and!; [done| |done|by intros x y _ ?%elem_of_nil].
      cbn [ca_count]. by rewrite Hss.
    - by eexists. }
  destruct (ca_items c) as [[|x l]|] eqn:Hc; [by apply Hfresh| |by apply Hfresh].
  injection E as <-. cbn [fst snd]. rewrite Hc. eauto.
Qed.

Lemma loop_pruned fuel gone kept c w c' w' :
  pruned w0 gone kept w → tracks c kept →
  retain_loop listing del after retain fuel (c, w) = (Ok (Some tt), (c', w')) →
  ∃ gone' kept', pruned w0 gone' kept' w' ∧ tracks c' kept' ∧
    is_Some (ca_items c') ∧ (ca_count c' <= retain)%Z.
Proof.
  revert gone kept c w. induction fuel as [|fuel IH]; intros gone kept c w Hp Ht E; cbn [retain_loop] in E; [done|].
  unfold mbind at 1, M_bind at 1, get_cache at 1 in E. cbn [fst] in E.
  destruct (match ca_items c with None => false | Some _ => negb (retain <? ca_count c)%Z end) eqn:Hb.
  - injection E as <- <-. exists gone, kept. destruct (ca_items c) eqn:Hc; [|done].
    split_and!; [done..|by eexists|]. apply negb_true_iff, Z.ltb_ge in Hb. done.
  - apply bind_ok_inv in E as ([] & [c1 w1] & Er & E).
    apply (wp_elim _ _ _ _ _ (relist_pruned _ _ c w Hp Ht)) in Er as (Hp1 & Ht1 & [l Hl]); [|done].
    cbn [fst snd] in *. unfold mbind at 1, M_bind at 1, get_cache at 1 in E. cbn [fst] in E. rewrite Hl in E.
    apply bind_ok_inv in E as ([] & [c2 w2] & Et & E). cbn [default] in Et.
    apply (trim_pruned l gone kept) in Et as (gone' & kept' & Hp2 & Ht2 & Hs2); [|done..].
    apply bind_ok_inv in E as ([] & [c3 w3] & Ea & E). unfold onW in Ea. cbn [fst snd] in Ea.
    destruct (after w2) as [[[]|e|m] w4] eqn:Eaf; simplify_eq. apply after_live in Eaf.
    eapply (IH gone' kept'); [|done|exact E]. destruct Hp2 as [Hl' ? ? ?]. split; [by rewrite Eaf|done..].
Qed.

(** What is kept when the loop ends: no more than [Retain], and no fewer than it could. *)
Lemma pruned_length gone kept w c :
  pruned w0 gone kept w → tracks c kept → is_Some (ca_items c) → (ca_count c <= retain)%Z →
  Z.of_nat (length kept) = (Z.of_nat (length (gone ++ kept)) `min` retain)%Z.
Proof.
  intros Hp Ht [l Hl] Hle. unfold tracks in Ht. rewrite Hl in Ht. destruct Ht as (newer & _ & Hn & _).
  rewrite length_app. destruct (pr_enough _ _ _ _ Hp) as [-> | ?]; simpl; lia.
Qed.
(** With a negative [Retain] the loop is never done. *)
Section Negative.
Hypothesis negative : (retain < 0)%Z.

Lemma tracks_count c kept l :
  tracks c kept → ca_items c = Some l →
  (retain < ca_count c)%Z ∧ (Z.of_nat (length l) <= ca_count c)%Z ∧ ca_count c = Z.of_nat (length kept).
Proof.
  unfold tracks. intros Ht Hl. rewrite Hl in Ht. destruct Ht as (newer & Hk & Hn & _).
  apply Permutation_length in Hk. rewrite length_app in Hk. lia.
Qed.

Lemma loop_never_done fuel gone kept c w :
  pruned w0 gone kept w → tracks c kept →
  (retain_loop listing del after retain fuel (c, w)).1 ≠ Ok (Some tt).
Proof.
  intros Hp Ht E. destruct (retain_loop listing del after retain fuel (c, w)) as [o [c' w']] eqn:El.
  simpl in E. subst o. apply (loop_pruned _ _ _ _ _ _ _ Hp Ht) in El as (gone' & kept' & _ & Ht' & [l Hl] & Hle).
  destruct (tracks_count _ _ _ Ht' Hl). lia.
Qed.

Hypothesis listing_answers : ∀ w, ∃ l w', listing w = (Ok l, w').
Hypothesis del_answers : ∀ x w, ∃ w', del x w = (Ok tt, w').
Hypothesis after_answers : ∀ w, ∃ w', after w = (Ok tt, w').

Lemma trim_all l c w :
  ca_items c = Some l → (Z.of_nat (length l) <= ca_count c)%Z →
  ∃ w', trim_loop del retain l (c, w) = (Ok tt, (mkCache (ca_count c - Z.of_nat (length l)) (Some []), w')).
Proof.
  revert c w. induction l as [|x l IH]; intros [n items] w Hc Hle; simpl in Hc, Hle; subst items;
    cbn [trim_loop]; unfold mbind at 1, M_bind at 1, get_cache; cbn [fst ca_count].
  - exists w. simpl. rewrite Z.sub_0_r. by destruct (_ <? _)%Z.
  - destruct (Z.ltb_spec retain n); [|lia]. unfold mbind, M_bind, onW, put_cache. cbn [snd fst].
    destruct (del_answers x w) as [w1 ->]. cbn [snd fst].
    destruct (IH (mkCache (n - 1) (Some l)) w1) as [w2 Ht]; [done|cbn [ca_count]; lia|].
    exists w2. etrans; [exact Ht|]. cbn [ca_count length]. replace (n - 1 - Z.of_nat (length l))%Z with (n - Z.of_nat (S (length l)))%Z by lia. done.
Qed.

(** One round empties the cache; one that starts by listing leaves nothing. *)
Lemma loop_round fuel gone kept c w :
  pruned w0 gone kept w → tracks c kept →
  ∃ gone' kept' c' w', pruned w0 gone' kept' w' ∧ tracks c' kept' ∧ ca_items c' = Some [] ∧
    (default [] (ca_items c) = [] → kept' = []) ∧
    retain_loop listing del after retain (S fuel) (c, w) =
      retain_loop listing del after retain fuel (c', w').
Proof.
  intros Hp Ht. cbn [retain_loop]. unfold mbind at 1, M_bind at 1, get_cache at 1. cbn [fst].
  replace (match ca_items c with None => false | Some _ => negb (retain <? ca_count c)%Z end) with false.
  2: { destruct (ca_items c) eqn:Hc; [|done]. destruct (tracks_count _ _ _ Ht Hc) as [Hlt _].
       by rewrite (proj2 (Z.ltb_lt _ _) Hlt). }
  set (relist := match ca_items c with
      | None | Some [] => ss ← onW listing; put_cache (mkCache (Z.of_nat (length ss)) (Some ss))
      | Some _ => mret tt end).
  pose proof (relist_pruned _ _ c w Hp Ht) as Hr. fold relist in Hr.
  assert (Er : ∃ s, relist (c, w) = (Ok tt, s) ∧
            (default [] (ca_items c) = [] → ca_count s.1 = Z.of_nat (length (default [] (ca_items s.1))))).
  { subst relist. destruct (ca_items c) as [[|x l]|]; [| |];
      [|eexists; split; [reflexivity|done]|];
      destruct (listing_answers w) as (l' & w1 & El); eexists; (split;
      [unfold mbind, M_bind, onW, put_cache; cbn [snd fst]; rewrite El; reflexivity|done]). }
  destruct Er as ([c1 w1] & Er & Hfresh). pose proof (wp_elim _ _ _ _ _ Hr Er eq_refl) as (Hp1 & Ht1 & [l Hl]). cbn [fst snd] in *.
  unfold mbind at 1, M_bind at 1. rewrite Er. unfold mbind at 1, M_bind at 1, get_cache at 1. cbn [fst].
  rewrite Hl in *. change (default [] (Some l)) with l in *.
  destruct (tracks_count _ _ _ Ht1 Hl) as (_ & Hle & _). destruct (trim_all l c1 w1 Hl Hle) as [w2 Et].
  destruct (trim_pruned _ _ _ _ _ _ _ Hp1 Ht1 Hl Et) as (gone' & kept' & Hp2 & Ht2 & _).
  destruct (after_answers w2) as [w3 Ea]. apply after_live in Ea as Ha.
  eexists gone', kept', _, w3. split_and!; [|exact Ht2|done| |].
  - destruct Hp2 as [Hl' ? ? ?]. split; [by rewrite Ha|done..].
  - intros Hnil. destruct (tracks_count _ _ _ Ht2 eq_refl) as (_ & _ & Hn). cbn [ca_count] in Hn.
    specialize (Hfresh Hnil). apply nil_length_inv. lia.
  - unfold mbind at 1, M_bind at 1. rewrite Et. unfold mbind at 1, M_bind at 1, onW at 1. cbn [snd fst].
    by rewrite Ea.
Qed.

Lemma drained_diverges fuel gone kept c w :
  pruned w0 gone kept w → tracks c kept → default [] (ca_items c) = [] →
  ∃ c' w', retain_loop listing del after retain fuel (c, w) = (Ok None, (c', w')) ∧
    (kept = [] ∨ 1 <= fuel → filter (λ x, mine x = true) (live w') = []).
Proof.
  revert gone kept c w. induction fuel as [|fuel IH]; intros gone kept c w Hp Ht Hc.
  - exists c, w. split; [done|]. intros [-> |?]; [|lia]. apply Permutation_nil_r. by eapply pruned_mine.
  - destruct (loop_round fuel _ _ _ _ Hp Ht) as (gone' & kept' & c1 & w1 & Hp1 & Ht1 & Hc1 & Hnil & ->).
    rewrite (Hnil Hc) in *. destruct (IH _ _ _ _ Hp1 Ht1) as (c' & w' & E & Hempty); [by rewrite Hc1|].
    exists c', w'. split; [done|]. intros _. apply Hempty. by left.
Qed.

Lemma loop_diverges fuel gone kept c w :
  pruned w0 gone kept w → tracks c kept →
  ∃ c' w', retain_loop listing del after retain fuel (c, w) = (Ok None, (c', w')) ∧
    (2 <= fuel → filter (λ x, mine x = true) (live w') = []).
Proof.
  intros Hp Ht. destruct fuel as [|fuel]; [exists c, w; split; [done|lia]|].
  destruct (loop_round fuel _ _ _ _ Hp Ht) as (gone' & kept' & c1 & w1 & Hp1 & Ht1 & Hc1 & _ & ->).
  destruct (drained_diverges fuel _ _ _ _ Hp1 Ht1) as (c' & w' & E & Hempty); [by rewrite Hc1|].
  exists c', w'. split; [done|]. intros ?. apply Hempty. right. lia.
Qed.
End Negative.
End From.
End Tracking.
