(* ===== verification/Cron.v ===== *)
(** * Recurring jobs

    [manager/cron.go]: the validation of jobs, the schedule of a volume and its
    restarts, and the two tasks a job can run: snapshots and backups, each with its
    clean-up ([Retain]).  The cron library is a parameter.  [snapshot_laws] is what the
    engine is taken to do with snapshots, for the theorems on retention. *)

From stdpp Require Import base list gmap sorting strings.
From Stdlib Require Import ZArith Lia Ascii.
From S2P Require Import Prelude GoStrings GoTime Json Types Util TaskQueue Controller Backups Retain.
Local Open Scope string_scope.
Local Open Scope list_scope.

Definition JobName : string := "job".
Definition BackupJob : string := "backupJob".
Definition retainBackupSnapshots : Z := 2.

(** [uuid.NewV4().String()]. *)
Class Random (W : Type) := { UUID : W → string * W }.

Definition RandomID {W} `{Random W} : M W string := λ w,
  let '(u, w') := UUID w in (Ok (stake 18 u), w').

(** [cron.Parse]: whether a specification is accepted. *)
Class CronSpec := { cron_parses : string → bool }.

(** ** Validation *)

(** The keys of the map [tasks]. *)
Inductive task_kind : Type := SnapshotKind | BackupKind.
#[export] Instance task_kind_eq_dec : EqDecision task_kind.
Proof. solve_decision. Defined.

Definition tasks (name : string) : option task_kind :=
  if String.eqb name SnapshotTaskName then Some SnapshotKind
  else if String.eqb name BackupTaskName then Some BackupKind
  else None.

Section Jobs.
Context `{CronSpec}.

Fixpoint ValidateJobs (jobs : list RecurringJob) : outcome unit :=
  match jobs with
  | [] => Ok tt
  | j :: jobs' =>
    match tasks (j_Task j) with
    | Some _ =>
      if negb (String.eqb (TrimSpace (j_Name j)) (j_Name j)) || String.eqb (j_Name j) "" then
        Err (Errorf "job name cannot be empty, start or end with whitespace: '%s'")
      else
        match tasks (j_Task j) with
        | None => Err (Errorf "invalid task '%s'")
        | Some _ =>
          if cron_parses (j_Cron j) then ValidateJobs jobs'
          else Err (Wrapf (ExtErr "cron") "cron job validation error")
        end
    | None => ValidateJobs jobs'
    end
  end.

(** ** The schedule of a volume *)

(** A [cron.Cron]: the jobs added to it, with their tasks. *)
Definition cron : Type := list (RecurringJob * task_kind).

(** The loop of [setJobs]; the error of [AddFunc] is dropped. *)
Fixpoint add_jobs (jobs : list RecurringJob) (c : cron) : cron :=
  match jobs with
  | [] => c
  | job :: jobs' =>
    match tasks (j_Task job) with
    | Some t => add_jobs jobs' (if cron_parses (j_Cron job) then c ++ [(job, t)] else c)
    | None => add_jobs jobs' c
    end
  end.

Definition setJobs {W} (GetSettings : M W SettingsInfo) (jobs : list RecurringJob)
    : M W (option cron) :=
  r ← attempt GetSettings;
  mret (match r with inl _ => Some (add_jobs jobs []) | inr _ => None end).

(** What [RunJobs] does with the schedules, in order. *)
Inductive cron_action : Type := CStart (c : cron) | CStop (c : cron).

(** The loop over the channel, until it is closed.  The deferred [c.Stop()] runs on
    the schedule current at the end: on a nil one it panics. *)
Fixpoint run_loop {W} (GetSettings : M W SettingsInfo) (c : cron)
    (updates : list (list RecurringJob)) (acts : list cron_action) : M W (list cron_action) :=
  match updates with
  | [] => mret (acts ++ [CStop c])
  | jobs :: updates' =>
    c' ← setJobs GetSettings jobs;
    match c' with
    | None => gopanic "nil pointer dereference"
    | Some c' => run_loop GetSettings c' updates' (acts ++ [CStop c; CStart c'])
    end
  end.

Definition RunJobs {W} (GetSettings : M W SettingsInfo) (volume : VolumeInfo)
    (updates : list (list RecurringJob)) : M W (list cron_action) :=
  c ← setJobs GetSettings (v_RecurringJobs volume);
  match c with
  | None => mret []
  | Some c => run_loop GetSettings c updates [CStart c]
  end.
End Jobs.

(** ** The tasks *)

Section Tasks.
Context {W : Type} `{Clock W} `{Random W} `{GoSort}.
Context (ctrl : Controller W) (job : RecurringJob).

Definition snapName (name : string) : M W string :=
  t ← now;
  id ← RandomID;
  mret (name +:+ "-" +:+ FormatTimeZ t +:+ "-" +:+ id).

(** [s.Labels[key]]: a label that is not there reads as empty. *)
Definition label (key : string) (s : SnapshotInfo) : string := default "" (sn_Labels s !! key).

Definition snapshot_mine (s : SnapshotInfo) : bool :=
  negb (sn_Removed s) && String.eqb (label JobName s) (j_Name job).

Definition backup_snapshot_mine (s : SnapshotInfo) : bool :=
  negb (sn_Removed s) && String.eqb (label JobName s) (j_Name job) &&
  String.eqb (label BackupJob s) (j_Name job).

(** [filterSnapshots]: reading through a nil entry panics. *)
Fixpoint filterSnapshots (mine : SnapshotInfo → bool) (l : list (option SnapshotInfo))
    : outcome (list SnapshotInfo) :=
  match l with
  | [] => Ok []
  | None :: _ => Panic "nil pointer dereference"
  | Some s :: l' =>
    r ← filterSnapshots mine l';
    Ok (if mine s then s :: r else r)
  end.

Definition by_created (s t : SnapshotInfo) : bool := slt (sn_Created s) (sn_Created t).

Definition listSnapshots (mine : SnapshotInfo → bool) : M W (list SnapshotInfo) :=
  ss ← wrap "error listing snapshots, volume '%s'" (sn_List (ct_SnapshotOps ctrl));
  ss ← lift (filterSnapshots mine ss);
  mret (sort_slice by_created ss).

Definition delete_snapshot (toRm : SnapshotInfo) : M W unit :=
  wrap "deleting snapshot '%s', volume '%s'" (sn_Delete (ct_SnapshotOps ctrl) (sn_Name toRm)).

(** *** [snapshotTask] *)

Definition st_cleanup (fuel : nat) : M (cache SnapshotInfo * W) (option unit) :=
  if (j_Retain job =? 0)%Z then mret (Some tt)
  else
    retain_cleanup
      (wrap "error cleaning up snapshots, recurring job '%s', volume '%s'"
         (listSnapshots snapshot_mine))
      delete_snapshot
      (wrap "fail to purge snapshots when cleanup volume '%s'" (sn_Purge (ct_SnapshotOps ctrl)))
      (j_Retain job) fuel.

Definition st_Run (fuel : nat) : M (cache SnapshotInfo * W) (option unit) :=
  name ← onW (snapName (j_Name job));
  onW (wrap "error running recurring job: snapshot '%s', volume '%s'"
         (sn_Create (ct_SnapshotOps ctrl) name {[ JobName := j_Name job ]}));;
  st_cleanup fuel.

(** *** [backupTask] *)

Record bt_state := mkBtState {
  bt_backups : cache BackupInfo;
  bt_snapshots : cache SnapshotInfo;
}.

(** The task is put on the queue of the controller as a [BackupBgTask] value. *)
Definition bt_Run (backupTarget : string) (cleanup : M W unit) : M W unit :=
  name ← snapName (j_Name job);
  wrap "error creating snapshot for recurring backup '%s', volume '%s'"
    (sn_Create (ct_SnapshotOps ctrl) name
       {[ JobName := j_Name job; BackupJob := j_Name job ]});;
  ct_PutTask ctrl (new_task (BackupVal (mkBackupTask name backupTarget (Some cleanup)))).

Definition filterBackups (l : list BackupInfo) : list BackupInfo :=
  filter (λ b, HasPrefix (b_SnapshotName b) (j_Name job +:+ "-")) l.

Definition listBackups (ops : ManagerBackupOps W) (volumeName : string) : M W (list BackupInfo) :=
  bs ← wrap "error listing backups, volume '%s'" (mb_List ops volumeName);
  mret (sort_slice (λ a b, slt (b_Created a) (b_Created b)) (filterBackups bs)).

Definition cleanupBackups (ops : ManagerBackupOps W) (volumeName : string) (fuel : nat)
    : M (bt_state * W) (option unit) := λ s,
  if (j_Retain job =? 0)%Z then (Ok (Some tt), s)
  else
    let '(o, (c, w)) := retain_cleanup
      (wrap "error cleaning up snapshots, recurring job '%s', volume '%s'"
         (listBackups ops volumeName))
      (λ b, wrap "deleting backup '%s', volume '%s'" (vb_DeleteBackup (ct_BackupOps ctrl) (b_URL b)))
      (mret tt) (j_Retain job) fuel (bt_backups s.1, s.2) in
    (o, (mkBtState c (bt_snapshots s.1), w)).

Definition cleanupBackupSnapshots (fuel : nat) : M (bt_state * W) (option unit) := λ s,
  let '(o, (c, w)) := retain_cleanup
    (wrap "error cleaning up snapshots, recurring job '%s', volume '%s'"
       (listSnapshots backup_snapshot_mine))
    delete_snapshot (mret tt) retainBackupSnapshots fuel (bt_snapshots s.1, s.2) in
  (o, (mkBtState (bt_backups s.1) c, w)).

Definition bt_cleanup (ops : ManagerBackupOps W) (volumeName : string) (fuel : nat)
    : M (bt_state * W) (option unit) :=
  r ← attempt (cleanupBackupSnapshots fuel);
  match r with
  | inl None => mret None
  | _ => cleanupBackups ops volumeName fuel
  end.

(** [newTask]: the error of a run is only logged. *)
Definition newTask {S} (run : M S (option unit)) : M S unit := ignore run.
End Tasks.

(** ** Jobs *)

Section JobProps.
Context `{CronSpec}.

Definition known (j : RecurringJob) : bool := bool_decide (is_Some (tasks (j_Task j))).
Definition job_named (j : RecurringJob) : bool :=
  String.eqb (TrimSpace (j_Name j)) (j_Name j) && negb (String.eqb (j_Name j) "").

Lemma add_jobs_app jobs c : add_jobs jobs c = c ++ add_jobs jobs [].
Proof.
  revert c. induction jobs as [|j jobs IH]; intros c; simpl; [by rewrite app_nil_r|].
  destruct (tasks (j_Task j)) as [t|]; [|apply IH].
  destruct (cron_parses (j_Cron j)); simpl; [|apply IH].
  rewrite IH, (IH [_]). by rewrite <-app_assoc.
Qed.

(** What is validated is scheduled.  Validation accepts a list of jobs exactly
    when each job with a known task has a trimmed, non-empty name and a schedule that
    parses; then the schedule of the volume has exactly the jobs with a known task, in
    order.  A job with any other task is accepted and never scheduled. *)
Theorem validated_jobs_scheduled jobs :
  (ValidateJobs jobs = Ok tt ↔
   Forall (λ j, known j = true → job_named j = true ∧ cron_parses (j_Cron j) = true) jobs) ∧
  (ValidateJobs jobs = Ok tt →
   (add_jobs jobs []).*1 = filter (λ j, known j = true) jobs).
Proof.
  induction jobs as [|j jobs [IH1 IH2]]; simpl; [done|].
  rewrite Forall_cons. unfold known at 1 2. unfold job_named at 1.
  destruct (tasks (j_Task j)) as [t|] eqn:Et.
  - rewrite bool_decide_eq_true_2 by eauto.
    destruct (String.eqb (TrimSpace (j_Name j)) (j_Name j)), (String.eqb (j_Name j) ""); simpl;
      try (split; [split; [done|intros [Hj _]; by destruct (Hj eq_refl)]|done]).
    destruct (cron_parses (j_Cron j)) eqn:Ec; simpl.
    + split; [rewrite IH1; naive_solver|]. intros Hv. rewrite add_jobs_app. simpl.
      rewrite filter_cons_True by (unfold known; by rewrite Et, bool_decide_eq_true_2 by eauto).
      f_equal. by apply IH2.
    + split; [split; [done|intros [Hj _]; by destruct (Hj eq_refl)]|done].
  - rewrite bool_decide_eq_false_2 by by intros [??]. split; [rewrite IH1; naive_solver|].
    intros Hv. rewrite filter_cons_False; [by apply IH2|].
    unfold known. rewrite Et, bool_decide_eq_false_2; [done|]. by intros [??].
Qed.

(** Every schedule but the last is stopped before the next one starts. *)
Fixpoint alternates (acts : list cron_action) : bool :=
  match acts with
  | [] => true
  | CStart c :: CStop c' :: acts' => bool_decide (c = c') && alternates acts'
  | _ => false
  end.

Lemma alternates_app acts c : alternates acts = true → alternates (acts ++ [CStart c; CStop c]) = true.
Proof.
  revert acts. fix IH 1. intros [|[c1|c1] [|[c2|c2] acts]]; simpl; try done.
  - intros _. by rewrite bool_decide_eq_true_2.
  - rewrite !andb_true_iff. intros [? ?]. split; [done|]. by apply IH.
Qed.

Lemma setJobs_outcome {W} (GetSettings : M W SettingsInfo) jobs w :
  ∃ r w1, attempt GetSettings w = (r, w1) ∧
    setJobs GetSettings jobs w = match r with
      | Ok (inl _) => (Ok (Some (add_jobs jobs [])), w1)
      | Ok (inr _) => (Ok None, w1)
      | Err e => (Err e, w1)
      | Panic s => (Panic s, w1)
      end ∧ (∀ e, r ≠ Err e).
Proof.
  unfold setJobs, mbind, M_bind, attempt.
  destruct (GetSettings w) as [[si|e|s] w1]; eauto 10.
Qed.

(** The loop, from a schedule that has just been started. *)
Lemma run_loop_alternates {W} (GetSettings : M W SettingsInfo) updates jobs acts w o w' :
  alternates acts = true →
  run_loop GetSettings (add_jobs jobs []) updates (acts ++ [CStart (add_jobs jobs [])]) w = (o, w') →
  match o with
  | Ok acts' => acts' ≠ [] ∧ alternates acts' = true ∧
                last acts' = Some (CStop (add_jobs (default jobs (last updates)) []))
  | Err _ => False
  | Panic _ => True
  end.
Proof.
  revert jobs acts w o w'. induction updates as [|jobs' updates' IH]; intros jobs acts w o w' Ha Er; simpl in Er.
  - injection Er as <- <-. rewrite <-app_assoc. simpl. split_and!.
    + by destruct acts.
    + by apply alternates_app.
    + change [CStart (add_jobs jobs []); CStop (add_jobs jobs [])]
        with ([CStart (add_jobs jobs [])] ++ [CStop (add_jobs jobs [])]).
      by rewrite app_assoc, last_snoc.
  - destruct (setJobs_outcome GetSettings jobs' w) as (r & w1 & _ & Hs & Hne). unfold mbind, M_bind in Er.
    rewrite Hs in Er. destruct r as [[?|?]|e|s]; [..|by destruct (Hne e)|].
    + rewrite <-app_assoc in Er.
      change ([CStart (add_jobs jobs [])] ++ [CStop (add_jobs jobs []); CStart (add_jobs jobs' [])])
        with ([CStart (add_jobs jobs []); CStop (add_jobs jobs [])] ++ [CStart (add_jobs jobs' [])]) in Er.
      rewrite app_assoc in Er. apply IH in Er; [|by apply alternates_app].
      destruct o as [acts1|e1|s1]; [|done..]. destruct Er as (? & ? & Hlast). split_and!; [done..|].
      rewrite Hlast, last_cons. by destruct (last updates').
    + by injection Er as <- <-.
    + by injection Er as <- <-.
Qed.

(** A volume has at most one running schedule.  As long as the settings can be
    read, each update stops the current schedule before it starts the next one, the
    last one is stopped when the channel closes, and it holds the jobs of the last
    update.  When the settings cannot be read for an update the goroutine panics. *)
Theorem run_jobs_alternates {W} (GetSettings : M W SettingsInfo) v updates w o w' :
  RunJobs GetSettings v updates w = (o, w') →
  match o with
  | Ok [] => ∃ e w1, GetSettings w = (Err e, w1)
  | Ok acts => alternates acts = true ∧
      last acts = Some (CStop (add_jobs (default (v_RecurringJobs v) (last updates)) []))
  | Err _ => False
  | Panic _ => True
  end.
Proof.
  unfold RunJobs. intros E.
  destruct (setJobs_outcome GetSettings (v_RecurringJobs v) w) as (r & w1 & Hatt & Hs & Hne).
  unfold mbind, M_bind in E. rewrite Hs in E. destruct r as [[si|e]|e|s]; [..|by destruct (Hne e)|].
  - apply (run_loop_alternates GetSettings updates (v_RecurringJobs v) [] w1) in E; [|done].
    destruct o as [[|a acts]|e1|s1]; naive_solver.
  - injection E as <- <-. unfold attempt in Hatt.
    destruct (GetSettings w) as [[?|e'|?] w2]; simplify_eq. eauto.
  - by injection E as <- <-.
Qed.
End JobProps.

(** ** Retention of snapshots *)

(** What an engine promises about snapshots: [live] are those not removed; a new one has
    the labels it was given, a name of its own and is not older than the others;
    deleting one removes it, a purge and a listing change nothing that is live. *)
Record snapshot_laws {W} (ops : SnapshotOps W) (live : W → list SnapshotInfo) : Prop := {
  sl_list : ∀ w, wp (sn_List ops) w (λ o w', live w' = live w ∧
    match o with
    | Ok l => ∃ ss, l = Some <$> ss ∧ filter (λ s, sn_Removed s = false) ss ≡ₚ live w
    | _ => True
    end);
  sl_create : ∀ n labels w id w', sn_Create ops n labels w = (Ok id, w') →
    ∃ s, live w' = live w ++ [s] ∧ sn_Labels s = labels ∧ sn_Removed s = false ∧
      (sn_Name s ∉ sn_Name <$> live w) ∧ ∀ t, t ∈ live w → slt (sn_Created s) (sn_Created t) = false;
  sl_delete : ∀ n w w', sn_Delete ops n w = (Ok tt, w') →
    live w' = filter (λ s, sn_Name s ≠ n) (live w);
  sl_purge : ∀ w w', sn_Purge ops w = (Ok tt, w') → live w' = live w;
}.

Section Retention.
Context {W : Type} `{Clock W} `{Random W} `{GoSort}.
Context (ctrl : Controller W) (job : RecurringJob) (live : W → list SnapshotInfo).
Hypothesis laws : snapshot_laws (ct_SnapshotOps ctrl) live.
Hypothesis live_UUID : ∀ w, live (UUID w).2 = live w.

Definition older (s t : SnapshotInfo) : Prop := slt (sn_Created t) (sn_Created s) = false.

Lemma filterSnapshots_ok mine ss :
  filterSnapshots mine (Some <$> ss) = Ok (filter (λ s, mine s = true) ss).
Proof.
  induction ss as [|s ss IH]; [done|]. rewrite fmap_cons, filter_cons. cbn [filterSnapshots].
  rewrite IH. cbn [mbind outcome_bind]. destruct (mine s); by case_decide.
Qed.

(** The listing is the job's live snapshots, oldest first. *)
Lemma listSnapshots_inv mine w ss w1 :
  (∀ s, mine s = true → sn_Removed s = false) →
  listSnapshots ctrl mine w = (Ok ss, w1) →
  live w1 = live w ∧ ss ≡ₚ filter (λ s, mine s = true) (live w) ∧ StronglySorted older ss.
Proof.
  intros Hmine E. unfold listSnapshots in E. apply bind_ok_inv in E as (l & w2 & El & E).
  apply wrap_ok_inv in El. pose proof (wp_elim _ _ _ _ _ (sl_list _ _ laws w) El) as [Hlive Hl].
  destruct Hl as (all & -> & Hall). rewrite filterSnapshots_ok in E.
  apply bind_ok_inv in E as (x & w3 & Ex & E). injection Ex as <- <-. injection E as <- <-.
  split; [done|]. split.
  - rewrite sort_perm, <-Hall. clear -Hmine. induction all as [|s all IH]; [done|].
    rewrite !filter_cons.
    destruct (decide (sn_Removed s = false)) as [Hr|Hr], (decide (mine s = true)) as [Hm|Hm].
    + rewrite filter_cons_True by done. by rewrite IH.
    + rewrite filter_cons_False by done. done.
    + naive_solver.
    + done.
  - apply sort_sorted; unfold by_created; [intros x y; apply slt_irrefl_sym|intros x y z; apply slt_weak].
Qed.

Lemma snapshot_mine_live s : snapshot_mine job s = true → sn_Removed s = false.
Proof. unfold snapshot_mine. by destruct (sn_Removed s). Qed.

Abbreviation mine := (λ s, snapshot_mine job s = true).
Abbreviation exact := (tracks older).
Abbreviation since := (pruned (j_Retain job) live (snapshot_mine job) sn_Name older).

Lemma listing_laws w ss w' :
  wrap "error cleaning up snapshots, recurring job '%s', volume '%s'"
    (listSnapshots ctrl (snapshot_mine job)) w = (Ok ss, w') →
  live w' = live w ∧ ss ≡ₚ filter mine (live w) ∧ StronglySorted older ss.
Proof. intros E%wrap_ok_inv. apply listSnapshots_inv in E; [done|]. apply snapshot_mine_live. Qed.

Lemma delete_laws s w w' :
  delete_snapshot ctrl s w = (Ok tt, w') → live w' = filter (λ t, sn_Name t ≠ sn_Name s) (live w).
Proof. unfold delete_snapshot. intros E%wrap_ok_inv. by apply (sl_delete _ _ laws) in E. Qed.

Lemma purge_laws w w' :
  wrap "fail to purge snapshots when cleanup volume '%s'" (sn_Purge (ct_SnapshotOps ctrl)) w = (Ok tt, w') →
  live w' = live w.
Proof. intros E%wrap_ok_inv. by apply (sl_purge _ _ laws) in E. Qed.

(** A run takes a snapshot of its own, which the count is raised for. *)
Lemma snapName_live name w n w' : snapName name w = (Ok n, w') → live w' = live w.
Proof.
  unfold snapName, now, RandomID, mbind, M_bind. pose proof (live_UUID w) as Hu.
  destruct (UUID w) as [u w1]. by intros [= _ <-].
Qed.

Lemma st_Run_taken fuel c w s :
  st_Run ctrl job fuel (c, w) = s →
  (∃ n w1, snapName (j_Name job) w = (Ok n, w1) ∧
     ∃ id w2, sn_Create (ct_SnapshotOps ctrl) n {[ JobName := j_Name job ]} w1 = (Ok id, w2) ∧
     st_cleanup ctrl job fuel (c, w2) = s) ∨ (∃ e, s.1 = Err e) ∨ (∃ p, s.1 = Panic p).
Proof.
  unfold st_Run, mbind, M_bind, onW, wrap. cbn [fst snd].
  destruct (snapName (j_Name job) w) as [[n|e|p] w1] eqn:En; [|intros <-; by eauto..].
  cbn [fst snd]. destruct (sn_Create _ n _ w1) as [[id|e|p] w2] eqn:Ec; [|intros <-; by eauto..].
  intros <-. left. exists n, w1. split; [done|]. exists id, w2. by split.
Qed.

Lemma created_tracked n w0 w1 id w2 c :
  live w1 = live w0 → NoDup (sn_Name <$> live w0) → exact c (filter mine (live w0)) →
  sn_Create (ct_SnapshotOps ctrl) n {[ JobName := j_Name job ]} w1 = (Ok id, w2) →
  ∃ new, live w2 = live w0 ++ [new] ∧ mine new ∧ (∀ t, t ∈ live w0 → older t new) ∧
    NoDup (sn_Name <$> live w2) ∧ exact (mkCache (ca_count c + 1) (ca_items c)) (filter mine (live w2)).
Proof.
  intros Hl1 Hnd Ht Ec. apply (sl_create _ _ laws) in Ec as (new & Hl & Hlab & Hrm & Hname & Hnew).
  rewrite Hl1 in *. assert (Hmine : mine new).
  { unfold snapshot_mine, label. by rewrite Hrm, Hlab, lookup_singleton_eq, String.eqb_refl. }
  exists new. split_and!; [done..| |].
  - rewrite Hl, fmap_app. apply NoDup_app. split_and!; [done| |apply NoDup_singleton].
    intros y Hy ->%list_elem_of_singleton. done.
  - unfold tracks in *. cbn [ca_items ca_count]. destruct (ca_items c) as [l|]; [|done].
    destruct Ht as (newer & Hk & Hn & Hsort & Hol). exists (newer ++ [new]).
    rewrite Hl, filter_app, filter_cons_True, filter_nil by done. split_and!; [|rewrite length_app; simpl; lia|done|].
    + by rewrite Hk, app_assoc.
    + intros x y Hx [Hy|Hy%list_elem_of_singleton]%elem_of_app; [by apply Hol|]. subst y. apply Hnew.
      assert (Hin : x ∈ filter mine (live w0)) by (rewrite Hk; set_solver). by apply list_elem_of_filter in Hin as [_ ?].
Qed.

(** C21: a snapshot job keeps its newest snapshots, run after run.  Run with a cache that
    is exact, as an empty one is, a job with a positive [Retain] that succeeds has taken a
    snapshot of its own and then has [Retain] live ones, or all it had if those were
    fewer; the ones that are gone are its own and none of them is newer than one it
    keeps; every other snapshot of the volume is untouched; and the cache is exact again,
    for the next run.  The cache is [exact] when it holds the oldest snapshots of the job
    and counts all of them. *)
Theorem snapshot_retention fuel c w c' w' :
  NoDup (sn_Name <$> live w) → (0 < j_Retain job)%Z →
  exact c (filter mine (live w)) →
  st_Run ctrl job fuel (c, w) = (Ok (Some tt), (c', w')) →
  ∃ new gone kept,
    mine new ∧ gone ++ kept ≡ₚ filter mine (live w) ++ [new] ∧
    live w' = filter (λ s, sn_Name s ∉ sn_Name <$> gone) (live w ++ [new]) ∧
    filter mine (live w') ≡ₚ kept ∧
    Z.of_nat (length kept) = (Z.of_nat (length (gone ++ kept)) `min` j_Retain job)%Z ∧
    (∀ g x, g ∈ gone → x ∈ kept → older g x) ∧
    NoDup (sn_Name <$> live w') ∧ exact c' (filter mine (live w')).
Proof.
  intros Hnd Hret Ht E. apply st_Run_taken in E as [(n & w1 & En & id & w2 & Ec & E)|[[? ?]|[? ?]]]; [|done..].
  apply snapName_live in En. destruct (created_tracked n w w1 id w2 c En Hnd Ht Ec) as (new & Hl & Hm & _ & Hnd2 & Ht2).
  unfold st_cleanup in E. destruct (Z.eqb_spec (j_Retain job) 0) as [?|_]; [lia|].
  unfold retain_cleanup, mbind, M_bind, get_cache, put_cache in E. cbn [fst snd] in E.
  apply (loop_pruned _ _ _ _ _ _ _ _ listing_laws delete_laws purge_laws w2 Hnd2 _ _ _ _ _ _ _
           (pruned_refl _ _ _ _ _ w2) Ht2) in E as (gone & kept & Hp & Ht' & Hc & Hle).
  pose proof (pruned_mine _ _ _ _ _ w2 Hnd2 _ _ _ Hp) as Hmine.
  exists new, gone, kept. pose proof (pruned_length _ _ _ _ _ w2 _ _ _ _ Hp Ht' Hc Hle) as Hlen.
  destruct Hp as [Hl' Hs Ho _]. rewrite Hl in Hl', Hs. split_and!; [done| |done|done|done|done| |].
  - by rewrite Hs, filter_app, filter_cons_True.
  - rewrite Hl'. rewrite Hl in Hnd2. by apply NoDup_fmap_filter.
  - unfold tracks in *. destruct (ca_items c') as [l|]; [|done].
    destruct Ht' as (newer & Hk & Hn & Hrest). exists newer. by rewrite Hmine.
Qed.

(** C39: with a negative [Retain] a run of a snapshot job never ends well.  Nothing
    refuses such a job.  Whatever its cache and whatever snapshots it has, no run returns
    without an error or a panic; and one whose calls are all answered deletes every
    snapshot of the job, the one it has just taken included, and then lists and purges
    for ever: no number of rounds is enough. *)
Theorem negative_retain_diverges fuel c w :
  (j_Retain job < 0)%Z → NoDup (sn_Name <$> live w) → exact c (filter mine (live w)) →
  (st_Run ctrl job fuel (c, w)).1 ≠ Ok (Some tt) ∧
  ((∃ n w1 id w2, snapName (j_Name job) w = (Ok n, w1) ∧
      sn_Create (ct_SnapshotOps ctrl) n {[ JobName := j_Name job ]} w1 = (Ok id, w2)) →
   (∀ w, ∃ ss w', sn_List (ct_SnapshotOps ctrl) w = (Ok (Some <$> ss), w')) →
   (∀ n w, ∃ w', sn_Delete (ct_SnapshotOps ctrl) n w = (Ok tt, w')) →
   (∀ w, ∃ w', sn_Purge (ct_SnapshotOps ctrl) w = (Ok tt, w')) →
   ∃ c' w', st_Run ctrl job fuel (c, w) = (Ok None, (c', w')) ∧
     (2 <= fuel → filter mine (live w') = [])).
Proof.
  intros Hret Hnd Ht.
  assert (Hc : ∀ w2, st_cleanup ctrl job fuel (c, w2) =
    retain_loop (wrap "error cleaning up snapshots, recurring job '%s', volume '%s'"
                   (listSnapshots ctrl (snapshot_mine job)))
      (delete_snapshot ctrl) (wrap "fail to purge snapshots when cleanup volume '%s'" (sn_Purge (ct_SnapshotOps ctrl)))
      (j_Retain job) fuel (mkCache (ca_count c + 1) (ca_items c), w2)).
  { intros w2. unfold st_cleanup. by destruct (Z.eqb_spec (j_Retain job) 0); [lia|]. }
  split.
  - intros E. destruct (st_Run ctrl job fuel (c, w)) as [o s] eqn:Er. simpl in E. subst o.
    apply st_Run_taken in Er as [(n & w1 & En & id & w2 & Ec & Er)|[[? ?]|[? ?]]]; [|done..].
    apply snapName_live in En. destruct (created_tracked n w w1 id w2 c En Hnd Ht Ec) as (new & _ & _ & _ & Hnd2 & Ht2).
    rewrite Hc in Er.
    eapply (loop_never_done _ _ _ _ _ _ _ _ listing_laws delete_laws purge_laws w2 Hnd2 Hret fuel _ _ _ w2
              (pruned_refl _ _ _ _ _ w2) Ht2). by rewrite Er.
  - intros (n & w1 & id & w2 & En & Ec) Hlist Hdel Hpurge. apply snapName_live in En as Hl.
    destruct (created_tracked n w w1 id w2 c Hl Hnd Ht Ec) as (new & _ & _ & _ & Hnd2 & Ht2).
    assert (Er : st_Run ctrl job fuel (c, w) = st_cleanup ctrl job fuel (c, w2)).
    { unfold st_Run, mbind, M_bind, onW, wrap. cbn [fst snd]. rewrite En. cbn [fst snd]. by rewrite Ec. }
    rewrite Er, Hc.
    apply (loop_diverges _ _ _ _ _ _ _ _ listing_laws delete_laws purge_laws w2 Hnd2 Hret) with (gone := [])
      (kept := filter mine (live w2)); [..|apply pruned_refl|exact Ht2].
    + intros w3. destruct (Hlist w3) as (ss & w4 & El). exists (sort_slice by_created (filter mine ss)), w4.
      apply wrap_ok_inv. unfold listSnapshots. erewrite bind_ok by by apply wrap_ok_inv.
      unfold lift. by rewrite filterSnapshots_ok.
    + intros s w3. destruct (Hdel (sn_Name s) w3) as (w4 & Ed). exists w4. by apply wrap_ok_inv.
    + intros w3. destruct (Hpurge w3) as (w4 & Ep). exists w4. by apply wrap_ok_inv.
Qed.
End Retention.

(** ** The clean-ups end *)

Section Cleanup.
Context {W : Type} `{Clock W} `{Random W} `{GoSort}.
Context (ctrl : Controller W) (job : RecurringJob).

(** C28: every clean-up ends.  When [Retain] is not negative the clean-ups of a
    snapshot job and of a backup job return, from any state of their caches and whatever
    the engine and the backup store answer: four rounds of each loop are enough. *)
Theorem cleanups_terminate ops volumeName fuel c b w :
  (0 <= j_Retain job)%Z →
  (st_cleanup ctrl job (4 + fuel) (c, w)).1 ≠ Ok None ∧
  (bt_cleanup ctrl job ops volumeName (4 + fuel) (b, w)).1 ≠ Ok None.
Proof.
  intros Hret. split.
  - unfold st_cleanup. destruct (Z.eqb_spec (j_Retain job) 0); [done|]. by apply retain_terminates.
  - unfold bt_cleanup, mbind at 1, M_bind at 1, attempt at 1, cleanupBackupSnapshots at 1.
    cbn [fst snd].
    match goal with |- context [retain_cleanup ?l ?d ?a ?r (4 + fuel) ?s] =>
      pose proof (retain_terminates l d a r fuel s.1 s.2 ltac:(done)) as Hs;
      cbn [fst snd] in Hs; destruct (retain_cleanup l d a r (4 + fuel) s) as [[[[]|]|e|p] [c1 w1]]
    end; cbn [fst snd] in *; [|done| |done];
    (unfold cleanupBackups; destruct (Z.eqb_spec (j_Retain job) 0); [done|]; cbn [fst snd];
     match goal with |- context [retain_cleanup ?l ?d ?a ?r (4 + fuel) ?s] =>
       pose proof (retain_terminates l d a r fuel s.1 s.2 Hret) as Hb;
       cbn [fst snd] in Hb; by destruct (retain_cleanup l d a r (4 + fuel) s) as [o [c2 w2]]
     end).
Qed.

(** C34: a recurring backup takes its snapshot and is never made.  When the job runs,
    the task it puts on the queue is one the worker does not know: whenever that is
    taken, the engine is not called, the clean-up hook does not run, nothing of the world
    changes, and the task ends with an error. *)
Theorem recurring_backup_never_made `{EngineRun W} target cleanup w w' :
  bt_Run ctrl job target cleanup w = (Ok tt, w') →
  ∃ name w1 w2 t id,
    sn_Create (ct_SnapshotOps ctrl) name {[ JobName := j_Name job; BackupJob := j_Name job ]} w1 =
      (Ok id, w2) ∧
    ct_PutTask ctrl t w2 = (Ok tt, w') ∧
    ∀ url c t' wx, bg_Task t' = bg_Task t →
      ∃ t'', runTask url c t' wx = (Ok (mkBgTasks (Some t'') None), wx) ∧
        bg_Err t'' = Some (Errorf "unknown task type: %#v").
Proof.
  intros E. unfold bt_Run in E. apply bind_ok_inv in E as (name & w1 & _ & E).
  apply bind_ok_inv in E as (id & w2 & Ec & E). apply wrap_ok_inv in Ec.
  exists name, w1, w2. eexists _, id. split_and!; [done|exact E|].
  intros url c t' wx Ht. exact (run_task_value url c t' _ wx Ht).
Qed.
End Cleanup.

(** ** The properties at concrete inputs *)
Module CronDemo.
(** The world is the live snapshots of one volume. *)
Abbreviation W := (list SnapshotInfo).
#[local] Instance clock : Clock W := {| clock_Now _ := 0%Z; clock_Sleep _ w := w |}.
#[local] Instance random : Random W := {| UUID w := ("0a1b2c3d-0000-4000-8000-000000000000", w) |}.
#[local] Existing Instance insertion_order.
#[local] Instance cronspec : CronSpec := {| cron_parses s := negb (String.eqb s "") |}.
#[local] Instance engine : EngineRun W := {| engine_Run _ := mret tt |}.

Definition snap (n at_ job : string) : SnapshotInfo :=
  mkSnapshot n "" [] false true at_ "0" {[ JobName := job ]}.
(** The clock of the engine is never behind the snapshots; names are not used twice. *)
Definition latest (w : W) : string :=
  foldr (λ s t, if slt t (sn_Created s) then sn_Created s else t) "2017-04" w.
Definition ops : SnapshotOps W := {|
  sn_Create n labels w :=
    if existsb (λ s, String.eqb (sn_Name s) n) w then (Err (ExtErr "exists"), w)
    else (Ok n, w ++ [mkSnapshot n "" [] false true (latest w) "0" labels]);
  sn_List w := (Ok (Some <$> w), w);
  sn_Get n w := (Ok (list_find (λ s, sn_Name s = n) w ≫= λ p, Some p.2), w);
  sn_Delete n w := (Ok tt, filter (λ s, sn_Name s ≠ n) w);
  sn_Revert _ := mret tt;
  sn_Purge := mret tt;
|}.
Definition backups : VolumeBackupOps W := {|
  vb_StartBackup _ _ := mret tt; vb_Restore _ := mret tt; vb_DeleteBackup _ := mret tt;
|}.
Definition ctrl : Controller W := {|
  ct_Name := "vol"; ct_Endpoint := mret "/dev/longhorn/vol"; ct_GetReplicaStates := mret [];
  ct_AddReplica _ := mret tt; ct_RemoveReplica _ := mret tt; ct_PutTask _ := mret tt;
  ct_ListTasks := mret []; ct_LatestBgTasks := mret [];
  ct_SnapshotOps := ops; ct_BackupOps := backups;
|}.
Definition mops : ManagerBackupOps W := {|
  mb_List _ := mret []; mb_Get _ := mret None; mb_Delete _ := mret tt; mb_ListVolumes := mret [];
  mb_GetVolume _ := mret (mkBackupVolume "" "" "");
|}.
Definition nightly (retain : Z) : RecurringJob := mkJob "nightly" "0 0 * * *" SnapshotTaskName retain.

(** The snapshots that are not removed are what the volume has. *)
Definition live (w : W) : list SnapshotInfo := filter (λ s, sn_Removed s = false) w.

Lemma latest_spec w t : t ∈ w → slt (latest w) (sn_Created t) = false.
Proof.
  induction w as [|s w IH]; [by intros ?%elem_of_nil|]. cbn [latest foldr]. fold (latest w).
  intros [->|Ht]%elem_of_cons.
  - destruct (slt (latest w) (sn_Created s)) eqn:E; [|done].
    destruct (slt (sn_Created s) (sn_Created s)) eqn:E'; [|done]. by rewrite (slt_irrefl_sym _ _ E') in E'.
  - destruct (slt (latest w) (sn_Created s)) eqn:E; [|by apply IH].
    eapply slt_weak; [by apply IH|]. by apply slt_irrefl_sym.
Qed.

Lemma ops_laws : snapshot_laws ops live.
Proof.
  split.
  - intros w. apply wp_intro. intros o w' [= <- <-]. split; [done|]. by exists w.
  - intros n labels w id w'. cbn [sn_Create ops].
    destruct (existsb (λ s, String.eqb (sn_Name s) n) w) eqn:Eb; [done|]. intros [= _ <-].
    eexists. unfold live. rewrite filter_app, filter_cons_True, filter_nil by done. split_and!; [done..| |].
    + intros (t & Hn & [_ Ht]%list_elem_of_filter)%list_elem_of_fmap. cbn [sn_Name] in Hn.
      assert (Hx : existsb (λ s, String.eqb (sn_Name s) n) w = true); [|by rewrite Eb in Hx].
      apply existsb_exists. exists t. split; [by apply list_elem_of_In|]. rewrite Hn. apply String.eqb_refl.
    + intros t [_ Ht]%list_elem_of_filter. by apply latest_spec.
  - intros n w w' [= <-]. unfold live. rewrite !list_filter_filter.
    apply list_filter_iff. naive_solver.
  - by intros w w' [= <-].
Qed.

Definition taken : W :=
  [snap "b" "2017-02" "nightly"; snap "mine" "2016-01" "other"; snap "a" "2017-01" "nightly";
   snap "c" "2017-03" "nightly"].

(** The job keeps two: the run with the cache that an earlier one has left takes a third. *)
Definition cached : cache SnapshotInfo :=
  mkCache 2 (Some [snap "b" "2017-02" "nightly"; snap "c" "2017-03" "nightly"]).
Definition two_taken : W :=
  [snap "b" "2017-02" "nightly"; snap "mine" "2016-01" "other"; snap "c" "2017-03" "nightly"].
Definition run_once (retain : Z) (fuel : nat) (s : cache SnapshotInfo * W) :=
  st_Run ctrl (nightly retain) fuel s.

Lemma two_taken_run : ∃ c' w', run_once 2 4 (cached, two_taken) = (Ok (Some tt), (c', w')).
Proof. eexists _, _. vm_compute. reflexivity. Qed.

Lemma cached_exact retain :
  tracks older cached (filter (λ s, snapshot_mine (nightly retain) s = true) (live two_taken)).
Proof.
  exists []. split_and!; [reflexivity..| |by intros x y _ ?%elem_of_nil]. repeat constructor.
Qed.

Lemma snapshot_retention_witness :
  ∃ c' w', run_once 2 4 (cached, two_taken) = (Ok (Some tt), (c', w')) ∧
  ∃ new gone kept, gone ++ kept ≡ₚ [snap "b" "2017-02" "nightly"; snap "c" "2017-03" "nightly"] ++ [new] ∧
    length kept = 2 ∧ ∀ g x, g ∈ gone → x ∈ kept → older g x.
Proof.
  destruct two_taken_run as (c' & w' & Er). exists c', w'. split; [exact Er|].
  destruct (@snapshot_retention W clock random insertion_order ctrl (nightly 2) live ops_laws (λ _, eq_refl)
    4 cached two_taken c' w') as (new & gone & kept & _ & Hp & _ & _ & Hlen & Hold & _).
  - apply (bool_decide_unpack (NoDup (sn_Name <$> live two_taken))). vm_compute. exact I.
  - reflexivity.
  - exact (cached_exact 2).
  - exact Er.
  - exists new, gone, kept. change (filter _ (live two_taken)) with
      [snap "b" "2017-02" "nightly"; snap "c" "2017-03" "nightly"] in Hp.
    split_and!; [exact Hp| |exact Hold]. rewrite Hp in Hlen. apply Nat2Z.inj. rewrite Hlen. reflexivity.
Defined.

Lemma validated_jobs_scheduled_witness :
  (add_jobs [nightly 2; mkJob "" "" "defrag" 0] []).*1 = [nightly 2].
Proof.
  rewrite (proj2 (@validated_jobs_scheduled cronspec [nightly 2; mkJob "" "" "defrag" 0]) eq_refl).
  vm_compute. reflexivity.
Defined.

Definition settings : M W SettingsInfo := mret (mkSettings "" "").
Definition scheduled : VolumeInfo := mkVolume "vol" 4096 "" "" 1 0 None None "" "" "" "" [nightly 2].

Lemma run_jobs_alternates_witness :
  ∃ acts, RunJobs settings scheduled [[nightly 3]; []] [] = (Ok acts, []) ∧
    alternates acts = true ∧ last acts = Some (CStop []).
Proof.
  eexists. split; [reflexivity|].
  exact (run_jobs_alternates settings scheduled [[nightly 3]; []] [] (Ok _) [] eq_refl).
Defined.

Lemma cleanups_terminate_witness :
  (st_cleanup ctrl (nightly 1) 4 (mkCache 0 None, taken)).1 ≠ Ok None.
Proof.
  exact (proj1 (cleanups_terminate ctrl (nightly 1) mops "vol" 0 (mkCache 0 None)
                  (mkBtState (mkCache 0 None) (mkCache 0 None)) taken ltac:(done))).
Defined.

Lemma negative_retain_diverges_witness :
  ∃ c' w', run_once (-1) 1000 (cached, two_taken) = (Ok None, (c', w')) ∧
    filter (λ s, snapshot_mine (nightly (-1)) s = true) (live w') = [].
Proof.
  destruct (@negative_retain_diverges W clock random insertion_order ctrl (nightly (-1)) live ops_laws (λ _, eq_refl)
    1000 cached two_taken) as [_ Hd].
  - reflexivity.
  - apply (bool_decide_unpack (NoDup (sn_Name <$> live two_taken))). vm_compute. exact I.
  - exact (cached_exact (-1)).
  - destruct Hd as (c' & w' & E & Hnil).
    + eexists _, _, _, _. split; vm_compute; reflexivity.
    + intros w. exists w, w. reflexivity.
    + intros n w. eexists. reflexivity.
    + intros w. eexists. reflexivity.
    + exists c', w'. split; [exact E|]. apply Hnil. apply (bool_decide_unpack (2 <= 1000)%nat). vm_compute. exact I.
Defined.

Definition backup_job : RecurringJob := mkJob "weekly" "0 0 * * 0" BackupTaskName 2.
Lemma recurring_backup_never_made_witness :
  ∃ name w1 w2 id t, sn_Create ops name {[ JobName := "weekly"; BackupJob := "weekly" ]} w1 = (Ok id, w2) ∧
    ∃ t', runTask "url" (mkBgTasks None None) t [] = (Ok (mkBgTasks (Some t') None), []) ∧
      bg_Err t' = Some (Errorf "unknown task type: %#v").
Proof.
  destruct (@recurring_backup_never_made W clock random ctrl backup_job engine "target" (mret tt) []
              _ ltac:(vm_compute; reflexivity))
    as (name & w1 & w2 & t & id & Ec & _ & Hrun).
  exists name, w1, w2, id, t. split; [exact Ec|]. exact (Hrun "url" (mkBgTasks None None) t [] eq_refl).
Defined.
End CronDemo.
