(* ===== verification/Manager.v ===== *)
(** * The volume manager

    [manager/manager.go] and [manager/errs.go]: the life of a volume (create, attach,
    check, clean up, detach, delete) over an orchestrator, with the monitors of the
    attached volumes and the count of replicas being added.

    The orchestrator, the controllers, the backup store and the monitors are the
    interfaces of [types/types.go].  A fan-out of goroutines runs its bodies in some
    order, each call being atomic.  The goroutine that adds a replica outlives the call
    that starts it: it is a process of the state, with a step for each of its parts. *)

From stdpp Require Import base list gmap strings.
From Stdlib Require Import ZArith Lia Ascii.
From S2P Require Import Prelude GoStrings GoTime Json Types Util TaskQueue Controller Backups Retain Cron.
Local Open Scope string_scope.
Local Open Scope list_scope.

Definition KeepBadReplicasPeriod : Z := Hour * 2.

(** ** The interfaces the manager uses *)

(** [types.Orchestrator]; the scheduler is used by [Cluster]. *)
Class Orchestrator (E : Type) := {
  oc_CreateVolume : VolumeInfo → M E VolumeInfo;
  oc_DeleteVolume : string → M E unit;
  oc_GetVolume : string → M E (option VolumeInfo);
  oc_ListVolumes : M E (list VolumeInfo);
  oc_MarkBadReplica : string → ReplicaInfo → M E unit;
  oc_UpdateVolume : VolumeInfo → M E unit;
  oc_CreateController : string → string → gmap string ReplicaInfo → M E ControllerInfo;
  oc_CreateReplica : string → string → M E (option ReplicaInfo);
  oc_StartInstance : InstanceInfo → M E InstanceInfo;
  oc_StopInstance : InstanceInfo → M E InstanceInfo;
  oc_RemoveInstance : InstanceInfo → M E InstanceInfo;
  oc_ListHosts : M E (gmap string HostInfo);
  oc_GetHost : string → M E (option HostInfo);
  oc_GetCurrentHostID : string;
  oc_GetAddress : string → M E string;
  oc_GetSettings : M E SettingsInfo;
  oc_SetSettings : SettingsInfo → M E unit;
}.

(** [types.GetController], [types.GetManagerBackupOps], [types.BeginMonitoring] and
    [types.Monitor]. *)
Class ManagerDeps (E Mon : Type) := {
  getController : option VolumeInfo → M E (option (Controller E));
  getBackups : string → ManagerBackupOps E;
  BeginMonitoring : VolumeInfo → M E Mon;
  mon_Close : Mon → M E unit;
  mon_CronUpdate : Mon → list RecurringJob → M E unit;   (* a send on CronCh() *)
}.

(** The order in which the goroutines of a fan-out run, and those that have run, in
    order, when the goroutine that started them panics. *)
Class GoSched := {
  go_order : ∀ {A : Type}, list A → list A;
  go_order_perm : ∀ {A : Type} (l : list A), go_order l ≡ₚ l;
  go_ran : ∀ {A : Type}, list A → list A;
  go_ran_sub : ∀ {A : Type} (l : list A), go_ran l ⊆+ l;
}.
Definition in_order : GoSched := {|
  go_order A l := l; go_order_perm A l := reflexivity _;
  go_ran A l := l; go_ran_sub A l := reflexivity _;
|}.

(** The errors that come out of a fan-out, as one error ([Errs]). *)
Definition fan_out {W A} `{GoSched} (f : A → M W unit) (xs : list A) : M W unit :=
  errs ← gather f (go_order xs);
  match errs with
  | [] => mret tt
  | _ => fail (Errs errs)
  end.

Section Manager.
Context {E Mon : Type} `{Orchestrator E} `{ManagerDeps E Mon} `{Clock E} `{Random E}.
Context `{MapOrder} `{GoSched} `{CronSpec}.

(** A goroutine of [createAndAddReplicaToController]: whether it has counted itself
    yet. *)
Record add_proc := mkAdd {
  ap_volume : string;
  ap_ctrl : Controller E;
  ap_replica : ReplicaInfo;
  ap_counted : bool;
}.

Record volumeManager := mkMan {
  m_env : E;
  m_monitors : gmap string Mon;
  m_addingReplicas : gmap string Z;
  m_adds : list add_proc;
}.

(** [New]. *)
Definition man_New (e : E) : volumeManager := mkMan e ∅ ∅ [].

Abbreviation MM := (M volumeManager).

Definition onE {A} (m : M E A) : MM A := λ s,
  let '(o, e) := m (m_env s) in (o, mkMan e (m_monitors s) (m_addingReplicas s) (m_adds s)).
Definition get_man : MM volumeManager := λ s, (Ok s, s).
Definition put_monitors (ms : gmap string Mon) : MM unit := λ s,
  (Ok tt, mkMan (m_env s) ms (m_addingReplicas s) (m_adds s)).

Definition GetControllerName (volumeName : string) : string := volumeName +:+ "-controller".
Definition GetReplicaName (volumeName : string) : MM string :=
  id ← onE RandomID; mret (volumeName +:+ "-replica-" +:+ id).

(** ** Reading volumes *)

Definition good (r : ReplicaInfo) : bool := String.eqb (r_BadTimestamp r) "".

Definition goodReplicaCount (volume : VolumeInfo) : nat :=
  length (filter (λ p : string * ReplicaInfo, good p.2 = true) (range (replicas_of volume))).

Definition volumeState (volume : VolumeInfo) : string :=
  let n := goodReplicaCount volume in
  if (n =? 0)%nat then VolumeStateFaulted
  else match v_Controller volume with
       | None => VolumeStateDetached
       | Some _ =>
         if (Z.of_nat n =? v_NumberOfReplicas volume)%Z then VolumeStateHealthy
         else VolumeStateDegraded
       end.

Definition ctrl_running (v : VolumeInfo) : bool :=
  match v_Controller v with Some c => i_Running (c_Instance c) | None => false end.

Definition completeVolumeState (vol : VolumeInfo) : MM VolumeInfo :=
  let vol := set_Endpoint "" (set_State (volumeState vol) vol) in
  if ctrl_running vol then
    ctrl ← onE (getController (Some vol));
    ctrl ← deref ctrl;
    ep ← onE (ct_Endpoint ctrl);
    mret (set_Endpoint ep vol)
  else mret vol.

Definition man_Get (name : string) : MM (option VolumeInfo) :=
  vol ← wrap "failed to get volume '%s'" (onE (oc_GetVolume name));
  match vol with
  | None => mret None
  | Some vol => vol ← completeVolumeState vol; mret (Some vol)
  end.

Fixpoint complete_all (vs : list VolumeInfo) : MM (list VolumeInfo) :=
  match vs with
  | [] => mret []
  | v :: vs => v ← completeVolumeState v; vs ← complete_all vs; mret (v :: vs)
  end.

Definition man_List : MM (list VolumeInfo) :=
  volumes ← onE oc_ListVolumes;
  complete_all volumes.

(** ** Monitors *)

Definition startMonitoring (volume : VolumeInfo) : MM unit :=
  s ← get_man;
  match m_monitors s !! v_Name volume with
  | Some _ => mret tt
  | None =>
    mon ← onE (BeginMonitoring volume);
    s ← get_man;
    put_monitors (<[v_Name volume := mon]> (m_monitors s))
  end.

Definition updateCron (volume : VolumeInfo) (jobs : list RecurringJob) : MM unit :=
  s ← get_man;
  match m_monitors s !! v_Name volume with
  | None => mret tt
  | Some mon => onE (mon_CronUpdate mon jobs)
  end.

(** The error of [Close] is dropped. *)
Definition stopMonitoring (volume : VolumeInfo) : MM unit :=
  s ← get_man;
  match m_monitors s !! v_Name volume with
  | None => mret tt
  | Some mon =>
    ignore (onE (mon_Close mon));;
    s ← get_man;
    put_monitors (delete (v_Name volume) (m_monitors s))
  end.

Definition local_controller (v : VolumeInfo) : bool :=
  match v_Controller v with
  | Some c => i_Running (c_Instance c) && String.eqb (i_HostID (c_Instance c)) oc_GetCurrentHostID
  | None => false
  end.

Definition man_Start : MM unit :=
  vs ← man_List;
  mfor (λ v, if local_controller v then startMonitoring v else mret tt) vs.

(** ** Detaching and deleting *)

Definition stop_replica (replica : ReplicaInfo) : MM unit :=
  wrap "failed to stop replica '%s' for volume '%s'"
    (onE (oc_StopInstance (r_Instance replica));; mret tt).

(** The result is the volume as the call leaves it. *)
Definition doDetach (volume : VolumeInfo) : MM VolumeInfo :=
  stopMonitoring volume;;
  match v_Controller volume with
  | Some c =>
    if i_Running (c_Instance c) then
      wrap "error stopping the controller id='%s', volume '%s'"
        (onE (oc_StopInstance (c_Instance c));; mret tt)
    else mret tt
  | None => mret tt
  end;;
  fan_out stop_replica (range (replicas_of volume)).*2;;
  match v_Controller volume with
  | Some c =>
    wrap "error removing the controller id='%s', volume '%s'"
      (onE (oc_RemoveInstance (c_Instance c)));;
    mret (set_Controller None volume)
  | None => mret volume
  end.

Definition man_Detach (name : string) : MM unit :=
  volume ← man_Get name;
  match volume with
  | None => mret tt
  | Some volume => doDetach volume;; mret tt
  end.

Definition man_Delete (name : string) : MM unit :=
  volume ← man_Get name;
  match volume with
  | None => mret tt
  | Some volume =>
    wrap "error detaching for delete, volume '%s'" (doDetach volume);;
    mfor (λ replica : ReplicaInfo,
            wrap "error removing replica container %s(%s), volume '%s'"
              (onE (oc_RemoveInstance (r_Instance replica));; mret tt))
         (range (replicas_of volume)).*2;;
    wrap "failed to delete volume '%s'" (onE (oc_DeleteVolume name))
  end.

(** ** Attaching *)

(** The loop over the replicas.  It starts a goroutine to stop each one that runs, and
    collects the good ones and the one that went bad last; the time of the latter is read
    before it is known to be there.  The result is the goroutines started, also by a loop
    that panics, and what it collects. *)
Fixpoint pick_replicas (l : list (string * ReplicaInfo)) (replicas : gmap string ReplicaInfo)
    (recentBad : option (string * ReplicaInfo))
    : list ReplicaInfo * outcome (gmap string ReplicaInfo * option (string * ReplicaInfo)) :=
  match l with
  | [] => ([], Ok (replicas, recentBad))
  | (k, replica) :: l' =>
    let rest :=
      if good replica then pick_replicas l' (<[k := replica]> replicas) recentBad
      else
        match ParseTime (r_BadTimestamp replica) with
        | None => pick_replicas l' replicas recentBad
        | Some replicaBadTime =>
          match recentBad with
          | None => ([], Panic "nil pointer dereference")
          | Some (_, recent) =>
            match ParseTime (r_BadTimestamp recent) with
            | None => pick_replicas l' replicas recentBad
            | Some recentBadTime =>
              pick_replicas l' replicas
                (if (recentBadTime <? replicaBadTime)%Z then Some (k, replica) else recentBad)
            end
          end
        end in
    (if r_Running replica then replica :: rest.1 else rest.1, rest.2)
  end.

(** What [doAttach] does when the volume is not attached here.  A panic in the loop
    over the replicas ends the process, and until then the goroutines started run as the
    scheduler lets them. *)
Definition attach_replicas (volume : VolumeInfo) : MM VolumeInfo :=
  let l := range (replicas_of volume) in
  let '(started, picked) := pick_replicas l ∅ None in
  picked ← match picked with
    | Panic x => gather stop_replica (go_ran started);; gopanic x
    | _ => lift picked
    end;
  let '(replicas, recentBad) := picked in
  fan_out stop_replica started;;
  let replicas :=
    if bool_decide (replicas = ∅) then
      match recentBad with Some (k, r) => {[ k := r ]} | None => replicas end
    else replicas in
  if bool_decide (replicas = ∅) then
    fail (Errorf "no replicas to start the controller for volume '%s'")
  else
    fan_out (λ replica : ReplicaInfo,
               wrap "failed to start replica '%s' for volume '%s'"
                 (onE (oc_StartInstance (r_Instance replica));; mret tt))
            (range replicas).*2;;
    controller ← wrap "failed to start the controller for volume '%s'"
      (onE (oc_CreateController (v_Name volume) (GetControllerName (v_Name volume)) replicas));
    let volume := set_Controller (Some controller) volume in
    startMonitoring volume;;
    mret volume.

Definition doAttach (volume : VolumeInfo) : MM VolumeInfo :=
  match v_Controller volume with
  | Some c =>
    if i_Running (c_Instance c) && String.eqb (i_HostID (c_Instance c)) oc_GetCurrentHostID then
      startMonitoring volume;;
      mret volume
    else
      wrap "failed to detach before reattaching volume '%s'" (man_Detach (v_Name volume));;
      attach_replicas volume
  | None => attach_replicas volume
  end.

Definition man_Attach (name : string) : MM unit :=
  volume ← man_Get name;
  volume ← deref volume;
  doAttach volume;;
  mret tt.
(** ** Creating *)

Definition doCreate (volume : VolumeInfo) : MM (option VolumeInfo) :=
  t ← onE Now;
  let volume := set_Created t volume in
  vol ← wrap "failed to create volume '%s'" (onE (oc_CreateVolume volume));
  mfor (λ _ : nat,
          replicaName ← GetReplicaName (v_Name vol);
          wrap "error creating replica '%s', volume '%s'"
            (onE (oc_CreateReplica (v_Name vol) replicaName));;
          mret tt)
       (seq 0 (Z.to_nat (v_NumberOfReplicas vol)));;
  man_Get (v_Name volume).

Definition cleanupFailedCreate (vol : VolumeInfo) : MM unit := ignore (man_Delete (v_Name vol)).

(** [if err := m; err != nil { defer cleanupFailedCreate(vol); return err }]. *)
Definition or_cleanup {A} (vol : VolumeInfo) (fmt : string) (m : MM A) : MM A :=
  r ← attempt m;
  match r with
  | inl a => mret a
  | inr e => cleanupFailedCreate vol;; fail (Wrapf e fmt)
  end.

Definition createFromBackup (volume : VolumeInfo) (backup : option BackupInfo)
    : MM (option VolumeInfo) :=
  backup ← deref backup;
  match ParseInt (b_VolumeSize backup) with
  | None => fail (Wrapf (ExtErr "strconv") "error parsing backup.VolumeSize, backup: %+v")
  | Some size =>
    vol ← doCreate (set_Size size volume);
    vol ← deref vol;
    vol ← or_cleanup vol "failed to attach to restore the backup, volume '%s', backup '%+v'"
      (doAttach vol);
    or_cleanup vol "failed to restore the backup, volume '%s', backup '%+v'"
      (ctrl ← onE (getController (Some vol));
       ctrl ← deref ctrl;
       onE (vb_Restore (ct_BackupOps ctrl) (b_URL backup)));;
    vol ← or_cleanup vol "failed to detach after restoring the backup, volume '%s', backup '%+v'"
      (doDetach vol);
    mret (Some vol)
  end.

Definition man_Create (volume : VolumeInfo) : MM (option VolumeInfo) :=
  vol ← man_Get (v_Name volume);
  match vol with
  | Some _ => fail (Errorf "volume %v already exists")
  | None =>
    r ← attempt (onE oc_GetSettings);
    match r with
    | inr _ => fail (Errorf "create volume fail: fail to load settings")
    | inl settings =>
      let image := if String.eqb (v_EngineImage volume) "" then si_EngineImage settings
                   else v_EngineImage volume in
      if String.eqb image "" then fail (Errorf "create volume fail: No EngineImage specified")
      else
        let volume := set_EngineImage image volume in
        if String.eqb (v_FromBackup volume) "" then doCreate volume
        else if String.eqb (si_BackupTarget settings) "" then
          fail (Errorf "create volume fail: No BackupTarget specified")
        else
          backup ← wrap "error getting backup (to create volume) '%s'"
            (onE (mb_Get (getBackups (si_BackupTarget settings)) (v_FromBackup volume)));
          createFromBackup volume backup
    end
  end.

(** ** Checking a controller *)

(** [addingReplicasCount]; the counter is an [int]. *)
Definition addingReplicasCount (name : string) (add : Z) : MM Z := λ s,
  let count := wrap64 (default 0%Z (m_addingReplicas s !! name) + add) in
  (Ok count, mkMan (m_env s) (m_monitors s) (<[name := count]> (m_addingReplicas s)) (m_adds s)).

(** [go func() { .. }()]. *)
Definition spawn_add (p : add_proc) : MM unit := λ s,
  (Ok tt, mkMan (m_env s) (m_monitors s) (m_addingReplicas s) (m_adds s ++ [p])).

Definition createAndAddReplicaToController (volumeName : string) (ctrl : Controller E) : MM unit :=
  name ← GetReplicaName volumeName;
  replica ← wrap "failed to create a replica for volume '%s'"
    (onE (oc_CreateReplica volumeName name));
  replica ← deref replica;
  instance ← wrap "failed to start replica %v for volume '%s'"
    (onE (oc_StartInstance (r_Instance replica)));
  spawn_add (mkAdd volumeName ctrl (set_Instance instance replica) false).

(** The body of the goroutine between the two changes of the counter. *)
Definition add_replica_body (ctrl : Controller E) (replica : ReplicaInfo) : MM unit :=
  r ← attempt (onE (ct_AddReplica ctrl replica));
  match r with
  | inl _ => mret tt
  | inr _ =>
    ignore (onE (oc_StopInstance (r_Instance replica)));;
    ignore (onE (oc_RemoveInstance (r_Instance replica)))
  end.

(** The [k]-th goroutine counts itself; it runs to its end. *)
Definition add_begin (k : nat) : MM unit := λ s,
  match m_adds s !! k with
  | Some (mkAdd v c r false) =>
    (addingReplicasCount v 1;; mret tt)
      (mkMan (m_env s) (m_monitors s) (m_addingReplicas s) (<[k := mkAdd v c r true]> (m_adds s)))
  | _ => (Ok tt, s)
  end.

Definition add_gone (k : nat) : MM unit := λ s,
  (Ok tt, mkMan (m_env s) (m_monitors s) (m_addingReplicas s) (delete k (m_adds s))).

Definition add_end (k : nat) : MM unit := λ s,
  match m_adds s !! k with
  | Some (mkAdd v c r true) =>
    (add_replica_body c r;; addingReplicasCount v (-1);; add_gone k) s
  | _ => (Ok tt, s)
  end.

(** The two goroutines for a replica in error. *)
Inductive err_job : Type := JRemoveReplica (r : ReplicaInfo) | JMarkBad (r : ReplicaInfo).

Definition run_err_job (ctrl : Controller E) (volume : VolumeInfo) (j : err_job) : MM unit :=
  match j with
  | JRemoveReplica r => wrap "failed to remove ERR replica '%s' from volume '%s'"
      (onE (ct_RemoveReplica ctrl r))
  | JMarkBad r => wrap "failed to mark replica '%s' bad for volume '%s'"
      (onE (oc_MarkBadReplica (v_Name volume) r))
  end.

Definition in_mode (m : string) (rs : list ReplicaInfo) : list ReplicaInfo :=
  filter (λ r, r_Mode r = m) rs.

Definition err_jobs (rs : list ReplicaInfo) : list err_job :=
  r ← in_mode ReplicaModeERR rs; [JRemoveReplica r; JMarkBad r].

Definition CheckController (ctrl : Controller E) (volume : VolumeInfo) : MM unit :=
  r ← attempt (onE (ct_GetReplicaStates ctrl));
  match r with
  | inr e => fail (CtrlErr e)
  | inl replicas =>
    let goodReplicas := in_mode ReplicaModeRW replicas in
    let woReplicas := in_mode ReplicaModeWO replicas in
    fan_out (run_err_job ctrl volume) (err_jobs replicas);;
    match goodReplicas with
    | [] => man_Detach (v_Name volume)
    | _ =>
      addingReplicas ← addingReplicasCount (v_Name volume) 0;
      if (Z.of_nat (length goodReplicas) <? v_NumberOfReplicas volume)%Z &&
         (length woReplicas =? 0)%nat && (addingReplicas =? 0)%Z
      then createAndAddReplicaToController (v_Name volume) ctrl
      else mret tt
    end
  end.

(** ** Recurring jobs *)

Definition UpdateRecurring (name : string) (jobs : list RecurringJob) : MM unit :=
  volume ← wrap "unable to get volume '%s'" (onE (oc_GetVolume name));
  volume ← deref volume;
  let volume := set_RecurringJobs jobs volume in
  wrap "unable to update volume '%s'" (onE (oc_UpdateVolume volume));;
  lift (ValidateJobs jobs);;
  updateCron volume jobs.

(** ** Cleaning up bad replicas *)

(** The goroutines started for a bad replica, and the error its own sends when the
    time is not readable. *)
Inductive cleanup_job : Type :=
| JStop (r : ReplicaInfo)
| JBadTime (r : ReplicaInfo)
| JRemove (r : ReplicaInfo).

Definition cleanup_jobs (now : Z) (r : ReplicaInfo) : list cleanup_job :=
  if good r then []
  else
    (if r_Running r then [JStop r] else []) ++
    match ParseTime (r_BadTimestamp r) with
    | None => [JBadTime r]
    | Some badTime => if (badTime + KeepBadReplicasPeriod <? now)%Z then [JRemove r] else []
    end.

Definition run_cleanup_job (j : cleanup_job) : MM unit :=
  match j with
  | JStop r => wrap "error stopping bad replica '%s', volume '%s'"
      (onE (oc_StopInstance (r_Instance r));; mret tt)
  | JBadTime _ => fail (Wrapf (ExtErr "time") "fail to parse bad timestamp %v")
  | JRemove r => wrap "error removing old bad replica '%s', volume '%s'"
      (onE (oc_RemoveInstance (r_Instance r));; mret tt)
  end.

Definition man_Cleanup (v : VolumeInfo) : MM unit :=
  volume ← wrap "error getting volume '%s'" (man_Get (v_Name v));
  match volume with
  | None => mret tt
  | Some volume =>
    t ← onE now;
    fan_out run_cleanup_job ((range (replicas_of volume)).*2 ≫= cleanup_jobs t)
  end.

(** ** The rest of the interface *)

(** A nil controller, when the volume is missing or not attached. *)
Definition man_Controller (name : string) : MM (option (Controller E)) :=
  volume ← man_Get name;
  onE (getController volume).

Definition man_SnapshotOps (name : string) : MM (SnapshotOps E) :=
  controller ← man_Controller name;
  controller ← deref controller;
  mret (ct_SnapshotOps controller).

Definition man_VolumeBackupOps (name : string) : MM (VolumeBackupOps E) :=
  controller ← man_Controller name;
  controller ← deref controller;
  mret (ct_BackupOps controller).

Definition man_ListHosts : MM (gmap string HostInfo) := onE oc_ListHosts.
Definition man_GetHost (id : string) : MM (option HostInfo) := onE (oc_GetHost id).
Definition man_ManagerBackupOps (backupTarget : string) : ManagerBackupOps E := getBackups backupTarget.

Definition ReplicaRemove (volumeName replicaName : string) : MM unit :=
  volume ← wrap "fail to remove replica %v of volume %v" (man_Get volumeName);
  volume ← deref volume;
  match replicas_of volume !! replicaName with
  | None => fail (Errorf "cannot find replica %v of volume %v")
  | Some replica =>
    (if r_Running replica then ignore (onE (oc_StopInstance (r_Instance replica))) else mret tt);;
    wrap "fail to remove replica %v of volume %v"
      (onE (oc_RemoveInstance (r_Instance replica)));;
    mret tt
  end.
End Manager.
Arguments volumeManager : clear implicits.
Arguments add_proc : clear implicits.
