(* ===== verification/ManagerSpec.v ===== *)
(** * What the manager does to the cluster

    The properties of [Manager] are about the calls it makes: which instances are
    started, stopped and removed, in which order, and what must have succeeded before.
    They are stated over an orchestrator that keeps a log of the calls that change
    something, each with whether it succeeded. *)

From stdpp Require Import base list gmap strings.
From Stdlib Require Import ZArith Lia Ascii.
From S2P Require Import Prelude GoStrings GoTime Json Types Util TaskQueue Controller Backups Retain Cron Manager.
Local Open Scope string_scope.
Local Open Scope list_scope.

(** A volume has a good replica exactly when the count is not zero. *)
Lemma goodReplicaCount_pos `{MapOrder} (v : VolumeInfo) :
  (∃ k r, replicas_of v !! k = Some r ∧ good r = true) ↔ goodReplicaCount v ≠ 0.
Proof.
  unfold goodReplicaCount. split.
  - intros (k & r & Hk & Hr) Hl. apply length_zero_iff_nil in Hl.
    assert (Hin : (k, r) ∈ filter (λ p : string * ReplicaInfo, good p.2 = true) (range (replicas_of v)))
      by (apply list_elem_of_filter; split; [done|by apply elem_of_range]).
    rewrite Hl in Hin. by apply elem_of_nil in Hin.
  - intros Hn. destruct (filter _ (range (replicas_of v))) as [|[k r] l] eqn:Ef; [done|].
    assert (Hin : (k, r) ∈ filter (λ p : string * ReplicaInfo, good p.2 = true) (range (replicas_of v)))
      by (rewrite Ef; left).
    apply list_elem_of_filter in Hin as [Hr Hin]. exists k, r. split; [by apply elem_of_range|done].
Qed.

(** ** Logged orchestrators *)

Inductive call : Type :=
| KCreateVolume (v : VolumeInfo)
| KDeleteVolume (name : string)
| KUpdateVolume (v : VolumeInfo)
| KMarkBad (volume : string) (r : ReplicaInfo)
| KCreateController (volume : string) (replicas : gmap string ReplicaInfo)
| KCreateReplica (volume name : string)
| KStart (i : InstanceInfo)
| KStop (i : InstanceInfo)
| KRemove (i : InstanceInfo)
| KAddReplica (r : ReplicaInfo)       (* on a controller *)
| KDropReplica (r : ReplicaInfo)
| KRestore (url : string)
| KBegin (volume : string)            (* monitoring *)
| KClose (volume : string).

Abbreviation event := (call * bool)%type.

Definition is_ok {A} (o : outcome A) : bool := match o with Ok _ => true | _ => false end.

(** [m] makes the call [c] and no other. *)
Definition logs {W A} (log : W → list event) (m : M W A) (c : call) : Prop :=
  ∀ w, wp m w (λ o w', log w' = log w ++ [(c, is_ok o)]).
Definition quiet {W A} (log : W → list event) (m : M W A) : Prop :=
  ∀ w, wp m w (λ _ w', log w' = log w).

Record logged_controller {E} (log : E → list event) (c : Controller E) : Prop := {
  lc_Endpoint : quiet log (ct_Endpoint c);
  lc_States : quiet log (ct_GetReplicaStates c);
  lc_Add : ∀ r, logs log (ct_AddReplica c r) (KAddReplica r);
  lc_Remove : ∀ r, logs log (ct_RemoveReplica c r) (KDropReplica r);
  lc_Restore : ∀ u, logs log (vb_Restore (ct_BackupOps c) u) (KRestore u);
}.

Class Logged (E Mon : Type) `{Orchestrator E} `{ManagerDeps E Mon} `{Clock E} `{Random E} := {
  log : E → list event;
  mon_volume : Mon → string;
  log_CreateVolume : ∀ v, logs log (oc_CreateVolume v) (KCreateVolume v);
  log_DeleteVolume : ∀ n, logs log (oc_DeleteVolume n) (KDeleteVolume n);
  log_UpdateVolume : ∀ v, logs log (oc_UpdateVolume v) (KUpdateVolume v);
  log_MarkBad : ∀ n r, logs log (oc_MarkBadReplica n r) (KMarkBad n r);
  log_CreateController : ∀ n cn rs, logs log (oc_CreateController n cn rs) (KCreateController n rs);
  log_CreateReplica : ∀ n rn, logs log (oc_CreateReplica n rn) (KCreateReplica n rn);
  log_Start : ∀ i, logs log (oc_StartInstance i) (KStart i);
  log_Stop : ∀ i, logs log (oc_StopInstance i) (KStop i);
  log_Remove : ∀ i, logs log (oc_RemoveInstance i) (KRemove i);
  log_GetVolume : ∀ n, quiet log (oc_GetVolume n);
  log_ListVolumes : quiet log oc_ListVolumes;
  log_GetSettings : quiet log oc_GetSettings;
  log_Get : ∀ v, quiet log (getController v);
  log_ctrl : ∀ v w c w', getController v w = (Ok (Some c), w') → logged_controller log c;
  log_backups : ∀ t u, quiet log (mb_Get (getBackups t) u);
  log_Begin : ∀ v, logs log (BeginMonitoring v) (KBegin (v_Name v));
  begin_ok : ∀ v w, wp (BeginMonitoring v) w (λ o _, ∃ m, o = Ok m ∧ mon_volume m = v_Name v);
  log_Close : ∀ m, logs log (mon_Close m) (KClose (mon_volume m));
  close_ok : ∀ m w, wp (mon_Close m) w (λ o _, ∀ x, o ≠ Panic x);
  log_Cron : ∀ m js, quiet log (mon_CronUpdate m js);
  log_UUID : ∀ w, log (UUID w).2 = log w;
}.

Section Emits.
Context {E Mon : Type} `{Logged E Mon}.
Abbreviation MM := (M (volumeManager E Mon)).
Implicit Types (s : volumeManager E Mon) (l : list event).

Definition lg s : list event := log (m_env s).

(** Running [m] adds to the log a list of events as [P] says, by how it ends. *)
Definition emits {A} (m : MM A) (P : outcome A → list event → Prop) : Prop :=
  ∀ s, wp m s (λ o s', ∃ l, lg s' = lg s ++ l ∧ P o l).

Lemma emits_mono {A} (m : MM A) (P Q : outcome A → list event → Prop) :
  emits m P → (∀ o l, P o l → Q o l) → emits m Q.
Proof. intros Hm HPQ s. eapply wp_mono; [apply Hm|]. naive_solver. Qed.

Lemma emits_ret {A} (a : A) (P : outcome A → list event → Prop) :
  P (Ok a) [] → emits (mret a) P.
Proof. intros HP s. apply wp_ret. exists []. by rewrite app_nil_r. Qed.

Lemma emits_fail {A} e (P : outcome A → list event → Prop) : P (Err e) [] → emits (fail e) P.
Proof. intros HP s. apply wp_fail. exists []. by rewrite app_nil_r. Qed.

Lemma emits_lift {A} o (P : outcome A → list event → Prop) : P o [] → emits (lift o) P.
Proof. intros HP s. apply wp_lift. exists []. by rewrite app_nil_r. Qed.

Lemma emits_deref {A} (p : option A) (P : outcome A → list event → Prop) :
  P (match p with Some a => Ok a | None => Panic "nil pointer dereference" end) [] →
  emits (deref p) P.
Proof. intros HP s. destruct p; exists []; by rewrite app_nil_r. Qed.

Lemma emits_bind {A B} (m : MM A) (f : A → MM B) (P : outcome A → list event → Prop)
    (R : outcome B → list event → Prop) :
  emits m P →
  (∀ e l, P (Err e) l → R (Err e) l) → (∀ x l, P (Panic x) l → R (Panic x) l) →
  (∀ a l, P (Ok a) l → emits (f a) (λ o l2, R o (l ++ l2))) →
  emits (m ≫= f) R.
Proof.
  intros Hm He Hx Hf s. apply wp_bind. eapply wp_mono; [apply Hm|].
  intros [a|e|x] s' _ (l & Hl & HP); [|eauto..].
  eapply wp_mono; [by eapply Hf|]. intros o s2 _ (l2 & Hl2 & HR).
  exists (l ++ l2). by rewrite Hl2, Hl, app_assoc.
Qed.

(** The common case: the first part ends with a list that is known. *)
Lemma emits_wrap {A} fmt (m : MM A) (P : outcome A → list event → Prop) :
  emits m (λ o l, P (wrap_outcome fmt o) l) → emits (wrap fmt m) P.
Proof. intros Hm s. apply wp_wrap. eapply wp_mono; [apply Hm|done]. Qed.

Lemma emits_wrap_ok {A} fmt (m : MM A) (P : bool → list event → Prop) :
  emits m (λ o l, P (is_ok o) l) → emits (wrap fmt m) (λ o l, P (is_ok o) l).
Proof. intros Hm. apply emits_wrap. eapply emits_mono; [exact Hm|]. by intros []. Qed.

Lemma emits_attempt {A} (m : MM A) (P : outcome A → list event → Prop) :
  emits m P →
  emits (attempt m) (λ r l, match r with
    | Ok (inl a) => P (Ok a) l
    | Ok (inr e) => P (Err e) l
    | Err _ => False
    | Panic x => P (Panic x) l
    end).
Proof. intros Hm s. apply wp_attempt. eapply wp_mono; [apply Hm|]. by intros [] ? _ ?. Qed.

Lemma emits_ignore {A} (m : MM A) (P : outcome unit → list event → Prop) :
  emits m (λ o l, P (match o with Panic x => Panic x | _ => Ok tt end) l) → emits (ignore m) P.
Proof. intros Hm s. apply wp_ignore. eapply wp_mono; [apply Hm|]. by intros [] ? _ ?. Qed.

Lemma emits_quiet {A} (m : M E A) : quiet log m → emits (onE m) (λ _ l, l = []).
Proof.
  intros Hm s. unfold wp, onE, lg. specialize (Hm (m_env s)). unfold wp in Hm.
  destruct (m (m_env s)) as [o e]. simpl in *. exists []. by rewrite app_nil_r.
Qed.

Lemma emits_logs {A} (m : M E A) c : logs log m c → emits (onE m) (λ o l, l = [(c, is_ok o)]).
Proof.
  intros Hm s. unfold wp, onE, lg. specialize (Hm (m_env s)). unfold wp in Hm.
  destruct (m (m_env s)) as [o e]. simpl in *. eauto.
Qed.

Lemma emits_logs_wrap {A} fmt (m : M E A) c :
  logs log m c → emits (wrap fmt (onE m)) (λ o l, l = [(c, is_ok o)]).
Proof. intros Hm. apply emits_wrap. eapply emits_mono; [by apply emits_logs|]. by intros [] ? ->. Qed.

(** A call whose result is dropped. *)
Lemma emits_logs_unit {A} fmt (m : M E A) c :
  logs log m c → emits (wrap fmt (onE m;; mret tt)) (λ o l, l = [(c, is_ok o)]).
Proof.
  intros Hm. apply emits_wrap. eapply emits_bind; [by apply emits_logs|by intros ?? ->..|].
  intros a l ->. by apply emits_ret.
Qed.

(** ** Fan-outs *)

(** The bodies of a fan-out each make the calls [ev x], at most one. *)
Lemma emits_gather {A} (f : A → MM unit) (ev : A → list call) xs :
  (∀ x, x ∈ xs → emits (f x) (λ o l, l = (λ c, (c, is_ok o)) <$> ev x)) →
  emits (gather f xs) (λ o l,
    (∀ e, e ∈ l → e.1 ∈ xs ≫= ev) ∧ (∀ e, o ≠ Err e) ∧
    (∀ es, o = Ok es → l.*1 = xs ≫= ev ∧ (es = [] → Forall (λ e, e.2 = true) l))).
Proof.
  intros Hf. induction xs as [|x xs IH]; simpl.
  { apply emits_ret. split_and!; [set_solver|done|naive_solver]. }
  eapply emits_bind; [apply emits_attempt, Hf; left| | |]; cbn beta.
  - done.
  - intros p l ->. split_and!; [|done..]. intros e (c & -> & Hc)%list_elem_of_fmap.
    apply elem_of_app. by left.
  - intros r l Hl. eapply emits_bind; [apply IH; intros; apply Hf; by right| | |]; cbn beta.
    + intros e l2 (_ & Hne & _). by destruct (Hne e).
    + intros p l2 (Hin & _ & _). split_and!; [|done..].
      intros e [He|He]%elem_of_app; apply elem_of_app; [left|right; auto].
      destruct r; subst; by apply list_elem_of_fmap in He as (c & -> & Hc).
    + intros es l2 (Hin & _ & Hok). destruct (Hok es eq_refl) as [Hl1 Hl2]. apply emits_ret.
      rewrite app_nil_r. split_and!.
      * intros e [He|He]%elem_of_app; apply elem_of_app; [left|right; auto].
        destruct r; subst; by apply list_elem_of_fmap in He as (c & -> & Hc).
      * done.
      * intros es' [= <-]. split.
        -- rewrite fmap_app, Hl1. f_equal. destruct r; subst; rewrite <-list_fmap_compose;
             apply list_fmap_id.
        -- destruct r as [[]|e]; [|done]. intros ->. subst. apply Forall_app. split; [|auto].
           apply Forall_fmap, Forall_forall. done.
Qed.

(** Every body runs unless one panics; the fan-out succeeds when all of them do. *)
Lemma emits_fan_out {A} `{GoSched} (f : A → MM unit) (ev : A → list call) xs :
  (∀ x, x ∈ xs → emits (f x) (λ o l, l = (λ c, (c, is_ok o)) <$> ev x)) →
  emits (fan_out f xs) (λ o l,
    (∀ e, e ∈ l → e.1 ∈ xs ≫= ev) ∧
    match o with
    | Ok _ => l ≡ₚ (λ c, (c, true)) <$> (xs ≫= ev)
    | Err _ => l.*1 ≡ₚ xs ≫= ev
    | Panic _ => True
    end).
Proof.
  intros Hf.
  assert (Hperm : ∀ c, c ∈ go_order xs ≫= ev ↔ c ∈ xs ≫= ev).
  { intros c. by rewrite (go_order_perm xs). }
  eapply emits_bind; [apply (emits_gather f ev)| | |]; cbn beta.
  - intros x Hx. apply Hf. by rewrite <-(go_order_perm xs).
  - intros e l (_ & Hne & _). by destruct (Hne e).
  - intros p l (Hin & _). split; [|done]. intros e He. by apply Hperm, Hin.
  - intros es l (Hin & _ & Hok). destruct (Hok es eq_refl) as [Hl1 Hl2].
    assert (Hin' : ∀ e, e ∈ l → e.1 ∈ xs ≫= ev) by (intros e He; by apply Hperm, Hin).
    destruct es as [|e es].
    + apply emits_ret. rewrite app_nil_r. split; [done|].
      rewrite <-(go_order_perm xs), <-Hl1, <-list_fmap_compose.
      specialize (Hl2 eq_refl). clear -Hl2. induction Hl2 as [|[c b] l Hb _ IH]; simpl in *; [done|].
      subst. by constructor.
    + apply emits_fail. rewrite app_nil_r. split; [done|]. by rewrite Hl1, (go_order_perm xs).
Qed.

(** A loop that stops at the first error. *)
Lemma emits_mfor {A} (f : A → MM unit) (ev : A → call) xs :
  (∀ x, x ∈ xs → emits (f x) (λ o l, l = [(ev x, is_ok o)])) →
  emits (mfor f xs) (λ o l, (∀ e, e ∈ l → e.1 ∈ ev <$> xs) ∧
    (o = Ok tt → l = (λ x, (ev x, true)) <$> xs)).
Proof.
  intros Hf. induction xs as [|x xs IH]; cbn [mfor].
  { apply emits_ret. split; [set_solver|done]. }
  eapply emits_bind; [apply Hf; left| | |]; cbn beta.
  - intros e l ->. set_solver.
  - intros e l ->. set_solver.
  - intros [] l ->. eapply emits_mono; [apply IH; intros; apply Hf; by right|].
    intros o l [Hin Hok]. split; [set_solver|]. intros Ho. by rewrite (Hok Ho).
Qed.

(** ** Reading *)

Lemma emits_getController v :
  emits (onE (getController v)) (λ o l, l = [] ∧ ∀ c, o = Ok (Some c) → logged_controller log c).
Proof.
  intros s. unfold wp, onE, lg. pose proof (log_Get v (m_env s)) as Hq. unfold wp in Hq.
  destruct (getController v (m_env s)) as [o e] eqn:Eg. simpl in *.
  exists []. rewrite app_nil_r. split_and!; [done..|]. intros c ->. by eapply log_ctrl.
Qed.

Context `{MapOrder}.

(** The volume with its state and endpoint filled in. *)
Definition completes (v v' : VolumeInfo) : Prop :=
  ∃ st ep, v' = set_Endpoint ep (set_State st v).

Lemma emits_complete v :
  emits (completeVolumeState v) (λ o l, l = [] ∧ ∀ v', o = Ok v' → completes v v').
Proof.
  unfold completeVolumeState. destruct (ctrl_running _).
  - eapply emits_bind; [apply emits_getController|by intros ?? [-> _]..|].
    intros c l [-> Hc]. eapply emits_bind; [by apply (emits_deref _ (λ o l, l = [] ∧ ∀ c', o = Ok c' → c = Some c')); destruct c; naive_solver|by intros ?? [-> _]..|].
    intros c' l [-> Hc']. specialize (Hc' _ eq_refl). subst c. specialize (Hc _ eq_refl).
    eapply emits_bind; [apply emits_quiet, lc_Endpoint, Hc|by intros ?? ->..|].
    intros ep l ->. apply emits_ret. split; [done|]. intros v' [= <-]. by eexists _, ep.
  - apply emits_ret. split; [done|]. intros v' [= <-]. by eexists _, "".
Qed.

(** The parts of the state that are not the environment. *)
Definition man_frame s s' : Prop :=
  m_monitors s' = m_monitors s ∧ m_addingReplicas s' = m_addingReplicas s ∧ m_adds s' = m_adds s.
#[export] Instance man_frame_preorder : PreOrder man_frame.
Proof. split; [done|]. unfold man_frame. intros ??? (?&?&?) (?&?&?). split_and!; congruence. Qed.

Lemma onE_frame {A} (m : M E A) : preserves man_frame (onE m).
Proof. intros s. unfold wp, onE. by destruct (m (m_env s)). Qed.

Lemma onE_logs {A} (m : M E A) c s :
  logs log m c → wp (onE m) s (λ o s', lg s' = lg s ++ [(c, is_ok o)] ∧ man_frame s s').
Proof.
  intros Hm. unfold wp, onE, lg. specialize (Hm (m_env s)). unfold wp in Hm.
  by destruct (m (m_env s)).
Qed.

Lemma onE_quiet {A} (m : M E A) s :
  quiet log m → wp (onE m) s (λ o s', lg s' = lg s ∧ man_frame s s').
Proof.
  intros Hm. unfold wp, onE, lg. specialize (Hm (m_env s)). unfold wp in Hm.
  by destruct (m (m_env s)).
Qed.

Lemma quiet_RandomID : quiet log (RandomID (W := E)).
Proof. intros w. unfold wp, RandomID. pose proof (log_UUID w) as Hu. by destruct (UUID w). Qed.

Lemma complete_frame v : preserves man_frame (completeVolumeState v).
Proof. unfold completeVolumeState. frees; apply onE_frame. Qed.

Lemma man_Get_spec name s :
  wp (man_Get name) s (λ o s', lg s' = lg s ∧ m_monitors s' = m_monitors s ∧
    match o with
    | Ok None => ∃ e, oc_GetVolume name (m_env s) = (Ok None, e)
    | Ok (Some v') => ∃ v e, oc_GetVolume name (m_env s) = (Ok (Some v), e) ∧ completes v v'
    | _ => (oc_GetVolume name (m_env s)).1 ≠ Ok None
    end).
Proof.
  apply wp_bind, wp_wrap. unfold wp at 1, onE. pose proof (log_GetVolume name (m_env s)) as Hq.
  unfold wp in Hq. destruct (oc_GetVolume name (m_env s)) as [[[v|]|e|x] e1] eqn:Eg; simpl in *;
    [|apply wp_ret; eauto|done..].
  apply wp_bind, wp_intro. intros o s' Eo.
  pose proof (wp_elim _ _ _ _ _ (emits_complete v _) Eo) as (l & Hl & -> & Hv).
  rewrite app_nil_r in Hl.
  pose proof (wp_elim _ _ _ _ _ (complete_frame v _) Eo) as (Hm & _). simpl in Hm.
  destruct o as [v'|e|x]; [|rewrite Hl, Hm; done..]. apply wp_ret. rewrite Hl, Hm.
  split_and!; [done..|]. exists v, e1. auto.
Qed.

Lemma emits_Get name : emits (man_Get name) (λ _ l, l = []).
Proof.
  intros s. eapply wp_mono; [apply man_Get_spec|]. intros o s' _ (Hl & _).
  exists []. by rewrite app_nil_r.
Qed.

Lemma emits_get_man : emits get_man (λ _ l, l = []).
Proof. intros s. exists []. by rewrite app_nil_r. Qed.
Lemma emits_put_monitors ms : emits (put_monitors ms) (λ _ l, l = []).
Proof. intros s. exists []. by rewrite app_nil_r. Qed.

Definition is_begin (e : event) : Prop := ∃ n, e.1 = KBegin n.
Definition is_close (e : event) : Prop := ∃ n, e.1 = KClose n.

Lemma emits_startMonitoring v : emits (startMonitoring v) (λ _ l, Forall is_begin l).
Proof.
  eapply emits_bind; [apply emits_get_man|by intros ?? ->..|]. intros s l ->.
  case_match; [by apply emits_ret|].
  eapply emits_bind; [apply emits_logs, log_Begin|by intros ?? ->; repeat econstructor..|].
  intros m l ->. eapply emits_bind; [apply emits_get_man|by intros ?? ->; repeat econstructor..|].
  intros s' l ->. eapply emits_mono; [apply emits_put_monitors|]. intros ?? ->. repeat econstructor.
Qed.

Lemma emits_stopMonitoring v : emits (stopMonitoring v) (λ _ l, Forall is_close l).
Proof.
  eapply emits_bind; [apply emits_get_man|by intros ?? ->..|]. intros s l ->.
  case_match; [|by apply emits_ret].
  eapply emits_bind.
  - apply (emits_ignore _ (λ _ l, Forall is_close l)). eapply emits_mono; [apply emits_logs, log_Close|].
    intros ?? ->. repeat econstructor.
  - by intros.
  - by intros.
  - intros [] l Hl. eapply emits_bind; [apply emits_get_man|by intros ?? ->; rewrite app_nil_r..|].
    intros s' l' ->. eapply emits_mono; [apply emits_put_monitors|]. intros ?? ->. by rewrite app_nil_r.
Qed.
End Emits.
