(* ===== verification/Lifecycle.v ===== *)
(** * The life of a volume

    The order of the manager's calls when a volume is detached, deleted and attached,
    over any logged orchestrator. *)

From stdpp Require Import base list gmap strings.
From Stdlib Require Import ZArith Lia Ascii.
From S2P Require Import Prelude GoStrings GoTime Json Types Util TaskQueue Controller Backups Retain Cron Manager ManagerSpec.
Local Open Scope string_scope.
Local Open Scope list_scope.

Section Lifecycle.
Context {E Mon : Type} `{Logged E Mon} `{MapOrder} `{GoSched} `{CronSpec}.
Abbreviation MM := (M (volumeManager E Mon)).
Implicit Types (s : volumeManager E Mon) (l : list event) (v : VolumeInfo).

Definition succeeded (cs : list call) : list event := (λ c, (c, true)) <$> cs.

Lemma elem_of_succeeded c cs : c ∈ cs → (c, true) ∈ succeeded cs.
Proof. intros Hc. by apply (list_elem_of_fmap_2 (λ c, (c, true))). Qed.

Lemma bind_singleton {A B} (f : A → B) xs : (xs ≫= λ x, [f x]) = f <$> xs.
Proof. induction xs; [done|]. simpl. by f_equal. Qed.

(** ** Detaching *)

Definition replica_list v : list ReplicaInfo := (range (replicas_of v)).*2.
Definition replica_stops v : list call := (λ r, KStop (r_Instance r)) <$> replica_list v.

Lemma elem_of_replica_list v r :
  r ∈ replica_list v ↔ ∃ k, replicas_of v !! k = Some r.
Proof.
  unfold replica_list. rewrite list_elem_of_fmap. split.
  - intros ([k r'] & -> & Hk%elem_of_range). eauto.
  - intros [k Hk%elem_of_range]. by exists (k, r).
Qed.

(** The calls on the controller itself. *)
Definition ctrl_stop v : list call :=
  match v_Controller v with
  | Some c => if i_Running (c_Instance c) then [KStop (c_Instance c)] else []
  | None => []
  end.
Definition ctrl_remove v : list call :=
  match v_Controller v with Some c => [KRemove (c_Instance c)] | None => [] end.

(** What detaching [v] does, in order: the monitor is closed, the controller is
    stopped, then the replicas, and the controller is removed.  Each part starts only if
    all of the part before succeeded. *)
Definition detach_events v (ok : bool) (l : list event) : Prop :=
  ∃ l0 l1 l2 l3, l = l0 ++ l1 ++ l2 ++ l3 ∧
    Forall is_close l0 ∧
    (l1.*1 = [] ∨ l1.*1 = ctrl_stop v) ∧
    (∀ e, e ∈ l2 → e.1 ∈ replica_stops v) ∧
    (l3.*1 = [] ∨ l3.*1 = ctrl_remove v) ∧
    (l2 ≠ [] → l1 = succeeded (ctrl_stop v)) ∧
    (l3 ≠ [] → l1 = succeeded (ctrl_stop v) ∧ l2 ≡ₚ succeeded (replica_stops v)) ∧
    (ok = true → l1 = succeeded (ctrl_stop v) ∧ l2 ≡ₚ succeeded (replica_stops v) ∧
                 l3 = succeeded (ctrl_remove v)).

Lemma emits_stop_controller v :
  emits (match v_Controller v with
         | Some c => if i_Running (c_Instance c) then
             wrap "error stopping the controller id='%s', volume '%s'"
               (onE (oc_StopInstance (c_Instance c));; mret tt)
           else mret tt
         | None => mret tt
         end) (λ o l, l = (λ c, (c, is_ok o)) <$> ctrl_stop v).
Proof.
  unfold ctrl_stop. destruct (v_Controller v) as [c|]; [|by apply emits_ret].
  destruct (i_Running _); [|by apply emits_ret]. apply emits_logs_unit, log_Stop.
Qed.

Lemma emits_stop_replicas rs :
  emits (fan_out stop_replica rs) (λ o l,
    (∀ e, e ∈ l → e.1 ∈ (λ r, KStop (r_Instance r)) <$> rs) ∧
    match o with
    | Ok _ => l ≡ₚ succeeded ((λ r, KStop (r_Instance r)) <$> rs)
    | Err _ => l.*1 ≡ₚ (λ r, KStop (r_Instance r)) <$> rs
    | Panic _ => True
    end).
Proof.
  rewrite <-bind_singleton. apply (emits_fan_out stop_replica (λ r, [KStop (r_Instance r)])).
  intros r _. apply emits_logs_unit, log_Stop.
Qed.

Lemma emits_doDetach v :
  emits (doDetach v) (λ o l, detach_events v (is_ok o) l ∧ ∀ v', o = Ok v' → v' = set_Controller None v).
Proof.
  assert (Hfst : ∀ (b : bool) cs, ((λ c, (c, b)) <$> cs : list event).*1 = cs).
  { intros b cs. rewrite <-list_fmap_compose. apply list_fmap_id. }
  eapply emits_bind; [apply emits_stopMonitoring| | |]; cbn beta.
  1, 2: intros x l0 Hl0; split; [|done]; exists l0, [], [], []; rewrite !app_nil_r;
        split_and!; try done; [by left|set_solver|by left].
  intros [] l0 Hl0. eapply emits_bind; [apply emits_stop_controller| | |]; cbn beta.
  1, 2: intros x l1 ->; split; [|done]; exists l0, ((λ c, (c, false)) <$> ctrl_stop v), [], []; rewrite !app_nil_r;
        split_and!; try done; [right; apply Hfst|set_solver|by left].
  intros [] l1 ->. eapply emits_bind; [apply emits_stop_replicas| | |]; cbn beta.
  1, 2: intros x l2 [Hin _]; split; [|done]; exists l0, (succeeded (ctrl_stop v)), l2, []; rewrite !app_nil_r;
        split_and!; try done; [right; apply Hfst|by left].
  intros [] l2 [Hin Hl2].
  assert (Hgoal : ∀ ok l3, (l3.*1 = [] ∨ l3.*1 = ctrl_remove v) →
    (ok = true → l3 = succeeded (ctrl_remove v)) →
    detach_events v ok (l0 ++ (((λ c, (c, is_ok (Ok tt))) <$> ctrl_stop v) ++ (l2 ++ l3)))).
  { intros ok l3 Hl3 Ho. exists l0, (succeeded (ctrl_stop v)), l2, l3.
    split_and!; try done; [right; apply Hfst|]. auto. }
  unfold ctrl_remove in Hgoal. destruct (v_Controller v) as [c|] eqn:Ec.
  - eapply emits_bind; [apply emits_logs_wrap, log_Remove| | |]; cbn beta.
    + intros e l3 ->. split; [|done]. apply Hgoal; [by right|done].
    + intros e l3 ->. split; [|done]. apply Hgoal; [by right|done].
    + intros i l3 ->. apply emits_ret. split; [|by intros ? [= <-]]. apply Hgoal; [by right|done].
  - apply emits_ret. split; [apply Hgoal; [by left|done]|]. intros v' [= <-].
    destruct v; simpl in *. by subst.
Qed.

(** The fields the calls depend on do not change when a volume is read. *)
Lemma completes_events v v' ok l : completes v v' → detach_events v' ok l → detach_events v ok l.
Proof. by intros (st & ep & ->). Qed.

(** Detaching is ordered.  When the volume exists, the calls made are, in this
    order: its monitor is closed, its controller is stopped if it runs, every replica is
    stopped, its controller is removed.  No part starts unless all of the part before
    succeeded; if the call succeeds every one of them did; and nothing else is called. *)
Theorem detach_order name v e s :
  oc_GetVolume name (m_env s) = (Ok (Some v), e) →
  wp (man_Detach name) s (λ o s', ∃ l, lg s' = lg s ++ l ∧
    (l = [] ∧ o ≠ Ok tt ∨ detach_events v (is_ok o) l)).
Proof.
  intros Ev. apply wp_bind. eapply wp_mono; [apply man_Get_spec|].
  intros [[v'|]|x|x] s1 _ (Hl & _ & Hv).
  - destruct Hv as (v0 & e0 & Ev0 & Hc). rewrite Ev in Ev0. injection Ev0 as <- <-.
    apply wp_bind. eapply wp_mono; [apply emits_doDetach|].
    intros [v2|x|x] s2 _ (l & Hl2 & Hd & _); rewrite Hl in Hl2;
      (exists l; split; [done|right; by eapply completes_events]).
  - destruct Hv as [? Hv]. by rewrite Ev in Hv.
  - exists []. rewrite app_nil_r. auto.
  - exists []. rewrite app_nil_r. auto.
Qed.

(** ** Deleting *)

Lemma detach_events_stopped v l r :
  detach_events v true l → r ∈ replica_list v → (KStop (r_Instance r), true) ∈ l.
Proof.
  intros (l0 & l1 & l2 & l3 & -> & _ & _ & _ & _ & _ & _ & Hok) Hr.
  destruct (Hok eq_refl) as (_ & Hl2 & _). rewrite !elem_of_app, Hl2. right; right; left.
  apply elem_of_succeeded. by apply (list_elem_of_fmap_2 (λ r, KStop (r_Instance r))).
Qed.

Lemma detach_events_removed v l c :
  detach_events v true l → v_Controller v = Some c → (KRemove (c_Instance c), true) ∈ l.
Proof.
  intros (l0 & l1 & l2 & l3 & -> & _ & _ & _ & _ & _ & _ & Hok) Hc.
  destruct (Hok eq_refl) as (_ & _ & ->). unfold ctrl_remove. rewrite Hc, !elem_of_app. right; right; right. by left.
Qed.

(** The calls a detach can make. *)
Definition detach_call (c : call) : Prop :=
  match c with KClose _ | KStop _ | KRemove _ => True | _ => False end.

Lemma detach_events_calls v ok l : detach_events v ok l → ∀ e, e ∈ l → detach_call e.1.
Proof.
  intros (l0 & l1 & l2 & l3 & -> & Hl0 & Hl1 & Hl2 & Hl3 & _) e.
  assert (Hsub : ∀ (l : list event) cs, l.*1 = [] ∨ l.*1 = cs → e ∈ l → e.1 ∈ cs).
  { intros l cs Hl He. apply (list_elem_of_fmap_2 fst) in He. destruct Hl as [Hl|Hl]; rewrite Hl in He; set_solver. }
  rewrite !elem_of_app. intros [He|[He|[He|He]]].
  - rewrite Forall_forall in Hl0. destruct (Hl0 _ He) as [n ->]. done.
  - apply (Hsub _ _ Hl1) in He. unfold ctrl_stop in He.
    repeat case_match; [|by apply elem_of_nil in He..]. by apply list_elem_of_singleton in He as ->.
  - apply Hl2, list_elem_of_fmap in He as (r & -> & _). done.
  - apply (Hsub _ _ Hl3) in He. unfold ctrl_remove in He.
    case_match; [|by apply elem_of_nil in He]. by apply list_elem_of_singleton in He as ->.
Qed.

Lemma emits_delete_volume name v :
  emits (wrap "error detaching for delete, volume '%s'" (doDetach v);;
         mfor (λ replica : ReplicaInfo,
                 wrap "error removing replica container %s(%s), volume '%s'"
                   (onE (oc_RemoveInstance (r_Instance replica));; mret tt)) (replica_list v);;
         wrap "failed to delete volume '%s'" (onE (oc_DeleteVolume name)))
    (λ o l, ∃ l1 l2 l3, l = l1 ++ l2 ++ l3 ∧
       (∀ e, e ∈ l1 ++ l2 → detach_call e.1) ∧
       (l3 ≠ [] → detach_events v true l1 ∧
                  l2 = succeeded ((λ r, KRemove (r_Instance r)) <$> replica_list v) ∧
                  l3 = [(KDeleteVolume name, is_ok o)]) ∧
       (o = Ok tt → l3 ≠ [])).
Proof.
  eapply emits_bind; [apply (emits_wrap_ok _ _ (detach_events v)); eapply emits_mono;
    [apply emits_doDetach|by intros ?? [? _]]| | |]; cbn beta.
  1, 2: intros x l Hd; exists l, [], []; rewrite !app_nil_r;
        split_and!; [done|by eapply detach_events_calls|done|done].
  intros v' l1 Hd. pose proof (detach_events_calls _ _ _ Hd) as Hc1.
  eapply emits_bind; [apply (emits_mfor _ (λ r, KRemove (r_Instance r))); intros; apply emits_logs_unit, log_Remove| | |];
    cbn beta.
  1, 2: intros x l2 [Hin _]; exists l1, l2, []; rewrite !app_nil_r; split_and!; [done| |done|done];
        intros e [He|He]%elem_of_app; [by apply Hc1|];
        apply Hin, list_elem_of_fmap in He as (r & -> & _); done.
  intros [] l2 [Hin Hl2]. specialize (Hl2 eq_refl).
  eapply emits_mono; [apply emits_logs_wrap, log_DeleteVolume|]. intros o l3 ->.
  exists l1, l2, [(KDeleteVolume name, is_ok o)]. split_and!; [done| |intros _|done].
  - intros e [He|He]%elem_of_app; [by apply Hc1|].
    apply Hin, list_elem_of_fmap in He as (r & -> & _). done.
  - split_and!; [done| |done]. unfold succeeded. by rewrite Hl2, <-list_fmap_compose.
Qed.

(** A volume's record outlives its instances.  The record of a volume is deleted
    only as the last call, after every replica was stopped and removed and the controller
    was removed, all successfully; when the deletion succeeds the record is gone. *)
Theorem delete_order name v e s :
  oc_GetVolume name (m_env s) = (Ok (Some v), e) →
  wp (man_Delete name) s (λ o s', ∃ l, lg s' = lg s ++ l ∧
    (∀ b, (KDeleteVolume name, b) ∈ l → ∃ pre, l = pre ++ [(KDeleteVolume name, b)] ∧
       (∀ k r, replicas_of v !! k = Some r →
          (KStop (r_Instance r), true) ∈ pre ∧ (KRemove (r_Instance r), true) ∈ pre) ∧
       (∀ c, v_Controller v = Some c → (KRemove (c_Instance c), true) ∈ pre)) ∧
    (o = Ok tt → (KDeleteVolume name, true) ∈ l)).
Proof.
  intros Ev. apply wp_bind. eapply wp_mono; [apply man_Get_spec|].
  intros [[v'|]|x|x] s1 _ (Hl & _ & Hv); [|destruct Hv as [? Hv]; by rewrite Ev in Hv|..].
  2, 3: exists []; rewrite app_nil_r; split_and!; [done|by intros b Hb%elem_of_nil|done].
  destruct Hv as (v0 & e0 & Ev0 & st & ep & ->). rewrite Ev in Ev0. injection Ev0 as <- <-.
  eapply wp_mono; [apply (emits_delete_volume name)|].
  intros o s' _ (l & Hl' & l1 & l2 & l3 & -> & Hcalls & Hl3 & Hok). rewrite Hl in Hl'.
  exists (l1 ++ l2 ++ l3). split; [done|]. rewrite app_assoc. split.
  - intros b [Hb|Hb]%elem_of_app; [by apply Hcalls in Hb|].
    destruct Hl3 as (Hd & -> & ->); [by intros ->; apply elem_of_nil in Hb|].
    apply list_elem_of_singleton in Hb. injection Hb as ->. eexists. split; [done|].
    split; [intros k r Hr|intros c Hc; apply elem_of_app; left; by eapply detach_events_removed].
    assert (Hin : r ∈ replica_list v) by (apply elem_of_replica_list; eauto).
    split; apply elem_of_app; [left; by eapply detach_events_stopped|right].
    apply elem_of_succeeded. by apply (list_elem_of_fmap_2 (λ r, KRemove (r_Instance r))).
  - intros ->. specialize (Hok eq_refl). destruct (Hl3 Hok) as (_ & _ & ->).
    apply elem_of_app. right. by left.
Qed.

(** ** Attaching *)

(** [rs] is the good replicas of [v]. *)
Definition good_replicas v (rs : gmap string ReplicaInfo) : Prop :=
  ∀ k r, rs !! k = Some r ↔ replicas_of v !! k = Some r ∧ good r = true.

Lemma pick_replicas_ok (l : list (string * ReplicaInfo)) acc rs rb :
  NoDup l.*1 → (∀ k, k ∈ l.*1 → acc !! k = None) →
  (pick_replicas l acc None).2 = Ok (rs, rb) →
  rb = None ∧ ∀ k r, rs !! k = Some r ↔ acc !! k = Some r ∨ (k, r) ∈ l ∧ good r = true.
Proof.
  revert acc. induction l as [|[k0 r0] l IH]; intros acc Hnd Hacc Ep; cbn [pick_replicas snd] in Ep.
  { injection Ep as <- <-. split; [done|]. intros k r. rewrite elem_of_nil. tauto. }
  rewrite fmap_cons in Hnd. apply NoDup_cons in Hnd as [Hk0 Hnd].
  destruct (good r0) eqn:Eg.
  - apply IH in Ep as [-> Hrs]; [|done|].
    + split; [done|]. intros k r. rewrite Hrs, elem_of_cons.
      destruct (decide (k = k0)) as [->|Hne].
      * rewrite lookup_insert_eq, (Hacc k0) by (rewrite fmap_cons; left). split.
        -- intros [[= <-]|[Hin _]]; [eauto|]. destruct Hk0. by apply (list_elem_of_fmap_2 fst) in Hin.
        -- intros [?|[[[= <-]|Hin] _]]; [done|by left|]. destruct Hk0.
           by apply (list_elem_of_fmap_2 fst) in Hin.
      * rewrite lookup_insert_ne by done. naive_solver.
    + intros k Hk. rewrite lookup_insert_ne by (by intros ->). apply Hacc. rewrite fmap_cons. by right.
  - destruct (ParseTime _); [done|]. apply IH in Ep as [-> Hrs]; [|done|].
    + split; [done|]. intros k r. rewrite Hrs, elem_of_cons. naive_solver congruence.
    + intros k Hk. apply Hacc. rewrite fmap_cons. by right.
Qed.

(** The goroutines are for replicas that run; a loop that ends has started all of them. *)
Lemma pick_replicas_started (l : list (string * ReplicaInfo)) acc rb :
  (∀ r, r ∈ (pick_replicas l acc rb).1 → r ∈ filter (λ r, r_Running r = true) l.*2) ∧
  ∀ p, (pick_replicas l acc rb).2 = Ok p →
    (pick_replicas l acc rb).1 = filter (λ r, r_Running r = true) l.*2.
Proof.
  revert acc rb. induction l as [|[k r] l IH]; intros acc rb; [done|].
  cbn [pick_replicas fst snd]. rewrite fmap_cons, filter_cons. simpl snd.
  match goal with |- context [if good r then ?a else ?b] => set (rest := if good r then a else b) end.
  assert (Hrest : (∀ r, r ∈ rest.1 → r ∈ filter (λ r, r_Running r = true) l.*2) ∧
    ∀ p, rest.2 = Ok p → rest.1 = filter (λ r, r_Running r = true) l.*2).
  { assert (Hx : ∀ x : string, (∀ r0, r0 ∈ @nil ReplicaInfo → r0 ∈ filter (λ r, r_Running r = true) l.*2) ∧
      ∀ p : gmap string ReplicaInfo * option (string * ReplicaInfo),
        Panic x = Ok p → [] = filter (λ r, r_Running r = true) l.*2)
      by (split; [by intros ? ?%elem_of_nil|done]).
    unfold rest. destruct (good r); [apply IH|]. destruct (ParseTime _); [|apply IH].
    destruct rb as [[? recent]|]; [|apply Hx]. destruct (ParseTime _); apply IH. }
  destruct Hrest as [Hsub Hall]. destruct (r_Running r); simpl; [|done].
  split; [|by intros p Hp; f_equal; eapply Hall].
  intros r0 [-> |Hr0]%elem_of_cons; [by left|right; auto].
Qed.

(** A replica that went bad at a time that can be read. *)
Definition bad_readable (r : ReplicaInfo) : Prop := good r = false ∧ is_Some (ParseTime (r_BadTimestamp r)).

Lemma pick_replicas_panics (l : list (string * ReplicaInfo)) acc k r :
  (k, r) ∈ l → bad_readable r → (pick_replicas l acc None).2 = Panic "nil pointer dereference".
Proof.
  intros Hin [Hg [t Ht]]. revert acc. induction l as [|[k0 r0] l IH]; intros acc;
    [by apply elem_of_nil in Hin|]. cbn [pick_replicas snd].
  apply elem_of_cons in Hin as [[= <- <-]|Hin]; [by rewrite Hg, Ht|].
  destruct (good r0); [by apply IH|]. destruct (ParseTime (r_BadTimestamp r0)); [done|]. by apply IH.
Qed.

(** No bad replica has a time stamp that can be read: the loop over the replicas gets by. *)
Definition attachable (reps : gmap string ReplicaInfo) : Prop :=
  ∀ r x, reps !! r = Some x → good x = true ∨ ParseTime (r_BadTimestamp x) = None.

Lemma pick_replicas_total (l : list (string * ReplicaInfo)) acc :
  Forall (λ kx, good kx.2 = true ∨ ParseTime (r_BadTimestamp kx.2) = None) l →
  ∃ rs, (pick_replicas l acc None).2 = Ok (rs, None).
Proof.
  intros Hl. revert acc. induction Hl as [|[k x] l Hx _ IH]; intros acc; simpl; [by eexists|].
  destruct (good x) eqn:Hg; [apply IH|]. destruct Hx as [?|Hp]; [simpl in *; congruence|].
  simpl in Hp. rewrite Hp. apply IH.
Qed.

Lemma pick_replicas_range v rs rb :
  (pick_replicas (range (replicas_of v)) ∅ None).2 = Ok (rs, rb) → rb = None ∧ good_replicas v rs.
Proof.
  intros Hp. apply pick_replicas_ok in Hp as [-> Hrs].
  - split; [done|]. intros k r. rewrite Hrs, lookup_empty, elem_of_range. naive_solver.
  - rewrite range_perm. apply NoDup_fst_map_to_list.
  - intros k _. apply lookup_empty.
Qed.

Definition running_stops v : list call :=
  (λ r, KStop (r_Instance r)) <$> filter (λ r, r_Running r = true) (replica_list v).
Definition replica_starts (rs : gmap string ReplicaInfo) : list call :=
  (λ r, KStart (r_Instance r)) <$> (range rs).*2.

(** What attaching [v] to the good replicas [rs] does, in order: the replicas that
    run are stopped, the good ones are started, the controller is created over them, its
    monitor begins.  Again no part starts unless all of the part before succeeded. *)
Definition attach_events v rs (ok : bool) (l : list event) : Prop :=
  ∃ l1 l2 l3 l4, l = l1 ++ l2 ++ l3 ++ l4 ∧
    (∀ e, e ∈ l1 → e.1 ∈ running_stops v) ∧ (∀ e, e ∈ l2 → e.1 ∈ replica_starts rs) ∧
    (l3.*1 = [] ∨ l3.*1 = [KCreateController (v_Name v) rs]) ∧ Forall is_begin l4 ∧
    (l2 ≠ [] → l1 ≡ₚ succeeded (running_stops v)) ∧
    (l3 ≠ [] → l1 ≡ₚ succeeded (running_stops v) ∧ l2 ≡ₚ succeeded (replica_starts rs) ∧ rs ≠ ∅) ∧
    (l4 ≠ [] ∨ ok = true → l3 = [(KCreateController (v_Name v) rs, true)]).

Lemma emits_start_replicas rs :
  emits (fan_out (λ replica : ReplicaInfo,
           wrap "failed to start replica '%s' for volume '%s'"
             (onE (oc_StartInstance (r_Instance replica));; mret tt)) rs) (λ o l,
    (∀ e, e ∈ l → e.1 ∈ (λ r, KStart (r_Instance r)) <$> rs) ∧
    match o with
    | Ok _ => l ≡ₚ succeeded ((λ r, KStart (r_Instance r)) <$> rs)
    | Err _ => l.*1 ≡ₚ (λ r, KStart (r_Instance r)) <$> rs
    | Panic _ => True
    end).
Proof.
  rewrite <-bind_singleton. apply (emits_fan_out _ (λ r, [KStart (r_Instance r)])).
  intros r _. apply emits_logs_unit, log_Start.
Qed.

(** Attaching [v] to this host.  Over a bad replica whose time stamp can be read it ends
    in a panic, with some of the replicas that run already stopped; otherwise the good
    replicas are attached to. *)
Definition attaching {A} v (o : outcome A) l : Prop :=
  (¬ attachable (replicas_of v) ∧ (∃ p, o = Panic p) ∧ ∀ e, e ∈ l → e.1 ∈ running_stops v) ∨
  (attachable (replicas_of v) ∧ ∃ rs, good_replicas v rs ∧ attach_events v rs (is_ok o) l).

(** How the loop over the replicas ends. *)
Lemma pick_replicas_cases v :
  let '(started, picked) := pick_replicas (range (replicas_of v)) ∅ None in
  (∀ r, r ∈ started → r ∈ filter (λ r, r_Running r = true) (replica_list v)) ∧
  (¬ attachable (replicas_of v) ∧ picked = Panic "nil pointer dereference" ∨
   attachable (replicas_of v) ∧ started = filter (λ r, r_Running r = true) (replica_list v) ∧
   ∃ rs, picked = Ok (rs, None) ∧ good_replicas v rs).
Proof.
  pose proof (pick_replicas_started (range (replicas_of v)) ∅ None) as [Hsub Hall].
  pose proof (pick_replicas_range v) as Hrange. pose proof (pick_replicas_total (range (replicas_of v)) ∅) as Htot.
  pose proof (pick_replicas_panics (range (replicas_of v)) ∅) as Hpanic.
  destruct (pick_replicas _ _ _) as [started picked]. cbn [fst snd] in *. split; [done|].
  destruct (decide (Exists (λ kr : string * ReplicaInfo, good kr.2 = false ∧ is_Some (ParseTime (r_BadTimestamp kr.2)))
    (range (replicas_of v)))) as [Hbad|Hnone].
  - left. apply Exists_exists in Hbad as ([k r] & Hin & Hg & Ht). split; [|by eapply Hpanic].
    intros Hat. apply elem_of_range in Hin. destruct Ht as [t Ht].
    destruct (Hat _ _ Hin) as [Hg'|Ht']; cbn in *; congruence.
  - right. apply not_Exists_Forall in Hnone; [|apply _].
    assert (Hl : Forall (λ kx : string * ReplicaInfo, good kx.2 = true ∨ ParseTime (r_BadTimestamp kx.2) = None)
      (range (replicas_of v))).
    { eapply Forall_impl; [exact Hnone|]. cbn. intros [k r] Hn. cbn in *.
      destruct (good r); [by left|right]. destruct (ParseTime _); [|done]. destruct Hn. by split. }
    destruct (Htot Hl) as [rs ->]. split_and!; [|by eapply Hall|exists rs; split; [done|by apply (Hrange _ None)]].
    intros r x Hx. apply elem_of_range in Hx. exact (proj1 (Forall_forall _ _) Hl _ Hx).
Qed.

(** The goroutines that have run when the loop panics. *)
Lemma started_spec {A} v started why s :
  (∀ r, r ∈ started → r ∈ filter (λ r, r_Running r = true) (replica_list v)) →
  wp (gather stop_replica (go_ran started);; @gopanic _ A why) s (λ o s',
    (∃ p, o = Panic p ∧ ((∀ i e x, (oc_StopInstance i e).1 ≠ Panic x) → p = why)) ∧
    man_frame s s' ∧ ∃ l, lg s' = lg s ++ l ∧ ∀ e, e ∈ l → e.1 ∈ running_stops v).
Proof.
  intros Hsub.
  assert (Hrun : ∀ c, c ∈ (go_ran started ≫= λ r, [KStop (r_Instance r)]) → c ∈ running_stops v).
  { rewrite bind_singleton. intros c (r & -> & Hr)%list_elem_of_fmap.
    apply (list_elem_of_fmap_2 (λ r, KStop (r_Instance r))), Hsub.
    eapply elem_of_submseteq; [exact Hr|apply go_ran_sub]. }
  apply wp_bind, wp_intro. intros o s1 E1.
  assert (Hf : man_frame s s1).
  { refine (wp_elim _ _ _ _ _ (preserves_gather man_frame stop_replica _ _ s) E1). intros r _.
    unfold stop_replica. frees. apply onE_frame. }
  assert (Hl : ∃ l, lg s1 = lg s ++ l ∧ ∀ e, e ∈ l → e.1 ∈ running_stops v).
  { destruct (wp_elim _ _ _ _ _ (emits_gather stop_replica (λ r, [KStop (r_Instance r)]) (go_ran started)
      (λ r _, emits_logs_unit _ _ _ (log_Stop (r_Instance r))) s) E1) as (l & Hl & Hin & _).
    exists l. split; [done|]. intros e He. by apply Hrun, Hin. }
  destruct o as [es|e|x].
  - apply wp_panic. split; [by eexists|done].
  - destruct (wp_elim _ _ _ _ _ (emits_gather stop_replica (λ r, [KStop (r_Instance r)]) (go_ran started)
      (λ r _, emits_logs_unit _ _ _ (log_Stop (r_Instance r))) s) E1) as (_ & _ & _ & Hne & _). by destruct (Hne e).
  - split; [|done]. exists x. split; [done|]. intros Hcalm. exfalso.
    assert (Hg : wp (gather stop_replica (go_ran started)) s (λ o s', True ∧ ∃ es, o = Ok es)).
    { apply (wp_gather (λ _, True) (λ _ _ _, True)); [done|]. intros r s2 _ _.
      specialize (Hcalm (r_Instance r) (m_env s2)). unfold stop_replica. apply wp_wrap, wp_bind. unfold wp at 1, onE.
      destruct (oc_StopInstance (r_Instance r) (m_env s2)) as [[i|e|y] e2]; [by apply wp_ret|done|].
      by destruct (Hcalm y). }
    by destruct (wp_elim _ _ _ _ _ Hg E1) as [_ [es [=]]].
Qed.

Lemma emits_attach_replicas v : emits (attach_replicas v) (attaching v).
Proof.
  unfold attach_replicas. pose proof (pick_replicas_cases v) as Hcases.
  destruct (pick_replicas _ _ _) as [started picked].
  destruct Hcases as [Hsub [[Hbad ->]|(Hat & -> & rs & -> & Hrs)]].
  { intros s. apply wp_bind. eapply wp_mono; [by apply (started_spec v)|].
    intros o s1 _ [(p & -> & _) (_ & l & Hl & Hin)]. exists l. split; [done|left]. by split_and!; [|eexists|]. }
  eapply emits_bind; [by apply (emits_ret _ (λ o l, o = Ok (rs, None) ∧ l = []))|by intros ?? []..|].
  intros ? l [[= ->] ->].
  eapply emits_mono; [|intros o l Hl; right; split; [exact Hat|exists rs; split; [exact Hrs|exact Hl]]]. cbn beta iota.
  assert (Hfst : ∀ (c : call) (b : bool), [(c, b)].*1 = [c]) by done.
  eapply emits_bind; [apply emits_stop_replicas| | |]; cbn beta.
  1, 2: intros x l1 [Hin _]; exists l1, [], [], []; rewrite !app_nil_r;
        split_and!; try done; [set_solver|by left|by intros [?|?]].
  intros [] l1 [Hin1 Hl1]. fold (replica_list v) in *.
  replace (if bool_decide (rs = ∅) then rs else rs) with rs by by case_bool_decide.
  case_bool_decide as Hempty.
  { apply emits_fail. exists l1, [], [], []. rewrite !app_nil_r.
    split_and!; try done; [set_solver|by left|by intros [?|?]]. }
  eapply emits_bind; [apply emits_start_replicas| | |]; cbn beta.
  1, 2: intros x l2 [Hin2 _]; exists l1, l2, [], []; rewrite !app_nil_r;
        split_and!; try done; [by left|by intros [?|?]].
  intros [] l2 [Hin2 Hl2].
  eapply emits_bind; [apply emits_logs_wrap, log_CreateController| | |]; cbn beta.
  1, 2: intros x l3 ->; exists l1, l2, [(KCreateController (v_Name v) rs, false)], []; rewrite !app_nil_r;
        split_and!; try done; [by right|by intros [?|?]].
  intros c l3 ->.
  assert (Hend : ∀ ok l4, Forall is_begin l4 → attach_events v rs ok
    (l1 ++ (l2 ++ ([(KCreateController (v_Name v) rs, true)] ++ l4)))).
  { intros ok l4 Hl4. eexists l1, l2, [_], l4. split_and!; try done. by right. }
  eapply emits_bind; [apply emits_startMonitoring| | |]; cbn beta.
  1, 2: intros x l4 Hl4; by apply Hend.
  intros [] l4 Hl4. apply emits_ret. rewrite app_nil_r. by apply Hend.
Qed.

(** Detaching the volume called [name], which the orchestrator is asked for in the
    environment [e]: what is detached is the volume it returns. *)
Definition detaching name (e : E) (ok : bool) l : Prop :=
  match (oc_GetVolume name e).1 with
  | Ok (Some v0) => detach_events v0 ok l ∨ l = [] ∧ ok = false
  | Ok None => l = [] ∧ ok = true
  | _ => l = [] ∧ ok = false
  end.

Lemma detaching_spec name s :
  wp (man_Detach name) s (λ o s', ∃ l, lg s' = lg s ++ l ∧ detaching name (m_env s) (is_ok o) l).
Proof.
  unfold detaching. change (man_Detach name) with (volume ← man_Get name;
    match volume with None => mret tt | Some volume => doDetach volume;; mret tt end).
  apply wp_bind. eapply wp_mono; [apply man_Get_spec|].
  destruct (oc_GetVolume name (m_env s)) as [o0 e0]. cbn [fst].
  intros [[v|]|e|x] s1 _ (Hl & _ & Hv).
  - destruct Hv as (v0 & e1 & [= -> ->] & Hc). apply wp_bind. eapply wp_mono; [apply emits_doDetach|].
    intros [v2|e|x] s2 _ (l & Hl2 & Hd & _); rewrite Hl in Hl2;
      (exists l; split; [done|left; by eapply completes_events]).
  - destruct Hv as [e1 [= -> ->]]. apply wp_ret. exists []. by rewrite app_nil_r.
  - exists []. rewrite app_nil_r, Hl. split; [done|]. destruct o0 as [[v0|]| |]; cbn in Hv; auto; congruence.
  - exists []. rewrite app_nil_r, Hl. split; [done|]. destruct o0 as [[v0|]| |]; cbn in Hv; auto; congruence.
Qed.

(** The calls of [doAttach v], by how it ends; [e] is the environment it starts in. *)
Definition doAttach_calls v (e : E) (o : outcome VolumeInfo) l : Prop :=
  if local_controller v then Forall is_begin l
  else
    match v_Controller v with
    | None => attaching v o l
    | Some _ => ∃ l0 l' ok, l = l0 ++ l' ∧ detaching (v_Name v) e ok l0 ∧
        if ok then attaching v o l' else l' = [] ∧ is_ok o = false
    end.

Lemma doAttach_spec v s :
  wp (doAttach v) s (λ o s', ∃ l, lg s' = lg s ++ l ∧ doAttach_calls v (m_env s) o l).
Proof.
  unfold doAttach, doAttach_calls, local_controller. destruct (v_Controller v) as [c|]; [|apply emits_attach_replicas].
  destruct (i_Running _ && _).
  { revert s. eapply emits_bind; [apply emits_startMonitoring|done..|].
    intros [] l Hl. apply emits_ret. by rewrite app_nil_r. }
  apply wp_bind, wp_wrap. eapply wp_mono; [apply detaching_spec|].
  intros o s1 _ (l0 & Hl0 & Hd). destruct o as [[]|e|x]; cbn [wrap_outcome].
  2, 3: exists l0; split; [done|]; exists l0, [], false; by rewrite app_nil_r.
  eapply wp_mono; [apply emits_attach_replicas|]. intros o s2 _ (l' & Hl' & Ha).
  exists (l0 ++ l'). split; [by rewrite Hl', Hl0, app_assoc|]. by exists l0, l', true.
Qed.


(** C35: a volume with a bad replica cannot be attached.  When a replica went bad at a
    time that can be read, attaching the detached volume panics, whatever its other
    replicas are, with the nil dereference unless stopping a replica panics first.  The
    calls made until then are stops of replicas that run: no replica is started and no
    controller is created. *)
Theorem attach_bad_replica_panics v s k r :
  v_Controller v = None → replicas_of v !! k = Some r →
  good r = false → is_Some (ParseTime (r_BadTimestamp r)) →
  wp (doAttach v) s (λ o s',
    (∃ p, o = Panic p ∧
       ((∀ i e x, (oc_StopInstance i e).1 ≠ Panic x) → p = "nil pointer dereference")) ∧
    man_frame s s' ∧ ∃ l, lg s' = lg s ++ l ∧ ∀ e, e ∈ l → e.1 ∈ running_stops v).
Proof.
  intros Hc Hr Hg [t Ht]. unfold doAttach. rewrite Hc. unfold attach_replicas.
  pose proof (pick_replicas_cases v) as Hcases. destruct (pick_replicas _ _ _) as [started picked].
  destruct Hcases as [Hsub [[_ ->]|[Hat _]]].
  - apply wp_bind. eapply wp_mono; [by apply (started_spec v)|].
    intros o s1 _ [(p & -> & Hp) Hf]. split; [by exists p|exact Hf].
  - destruct (Hat _ _ Hr); congruence.
Qed.

(** The volume that [doAttach] returns: as it was when its controller runs here, else
    with the controller that was created. *)
Definition attached_volume v v' : Prop :=
  if local_controller v then v' = v
  else ∃ rs e c e', oc_CreateController (v_Name v) (GetControllerName (v_Name v)) rs e = (Ok c, e') ∧
                    v' = set_Controller (Some c) v.

Lemma attach_replicas_returns v s v' s' :
  attach_replicas v s = (Ok v', s') →
  ∃ rs e c e', oc_CreateController (v_Name v) (GetControllerName (v_Name v)) rs e = (Ok c, e') ∧
               v' = set_Controller (Some c) v.
Proof.
  unfold attach_replicas. destruct (pick_replicas _ _ _) as [started picked]. intros E0.
  apply bind_ok_inv in E0 as ([rs rb] & s1 & _ & E0). apply bind_ok_inv in E0 as ([] & s2 & _ & E0).
  cbv zeta in E0. set (rs' := if bool_decide (rs = ∅) then _ else rs) in E0. clearbody rs'.
  destruct (bool_decide (rs' = ∅)); [discriminate|].
  apply bind_ok_inv in E0 as ([] & s3 & _ & E0). apply bind_ok_inv in E0 as (c & s4 & Ec & E0).
  apply wrap_ok_inv in Ec. unfold onE in Ec. destruct (oc_CreateController _ _ _ _) as [o4 e4] eqn:Ecc.
  injection Ec as -> _. apply bind_ok_inv in E0 as ([] & s5 & _ & E0). injection E0 as <- _. by eexists _, _, c, _.
Qed.

Lemma doAttach_returns v s v' s' : doAttach v s = (Ok v', s') → attached_volume v v'.
Proof.
  unfold doAttach, attached_volume, local_controller. destruct (v_Controller v) as [c|]; [|apply attach_replicas_returns].
  destruct (_ && _); intros E0; apply bind_ok_inv in E0 as ([] & s1 & _ & E0); [by injection E0 as <- _|].
  by eapply attach_replicas_returns.
Qed.
End Lifecycle.
