(* ===== verification/Creation.v ===== *)
(** * The creation of a volume

    [Create], [doCreate] and [createFromBackup] of [manager/manager.go]: what is refused,
    what is created and in which order, over any logged orchestrator. *)

From stdpp Require Import base list gmap strings.
From Stdlib Require Import ZArith Lia Ascii.
From S2P Require Import Prelude GoStrings GoTime Json Types Util TaskQueue Controller Backups Retain Cron Manager ManagerSpec Lifecycle.
Local Open Scope string_scope.
Local Open Scope list_scope.

Section Creation.
Context {E Mon : Type} `{Logged E Mon} `{MapOrder} `{GoSched} `{CronSpec}.
Abbreviation MM := (M (volumeManager E Mon)).
Implicit Types (s : volumeManager E Mon) (l : list event) (v : VolumeInfo).

(** A volume that is created is returned as it was given. *)
Hypothesis create_returns : ∀ v e v' e', oc_CreateVolume v e = (Ok v', e') → v' = v.

Definition replica_created (n : string) (ok : bool) (e : event) : Prop :=
  ∃ rn, e = (KCreateReplica n rn, ok).

(** What creating [v] does, in order: the record, then the replicas one after the other,
    up to the first that fails.  [full]: all that was wanted is there. *)
Definition creation_events v (full : bool) l : Prop :=
  ∃ b rs last, l = (KCreateVolume v, b) :: rs ++ last ∧
    Forall (replica_created (v_Name v) true) rs ∧ Forall (replica_created (v_Name v) false) last ∧
    length (rs ++ last) <= Z.to_nat (v_NumberOfReplicas v) ∧ length last <= 1 ∧
    (b = false → rs ++ last = []) ∧
    (full = true → b = true ∧ last = [] ∧ length rs = Z.to_nat (v_NumberOfReplicas v)).

Lemma quiet_Now : quiet log (Now (W := E)).
Proof. by intros w. Qed.

Lemma emits_replica_name n : emits (GetReplicaName (E := E) (Mon := Mon) n) (λ o l, l = [] ∧ is_ok o = true).
Proof.
  intros s. unfold wp, GetReplicaName, onE, mbind, M_bind, RandomID, lg. simpl.
  pose proof (log_UUID (m_env s)) as Hu. destruct (UUID (m_env s)) as [u e].
  exists []. simpl in *. by rewrite app_nil_r.
Qed.

Lemma emits_create_replicas n xs :
  emits (mfor (λ _ : nat,
          replicaName ← GetReplicaName n;
          wrap "error creating replica '%s', volume '%s'" (onE (oc_CreateReplica n replicaName));;
          mret tt) xs)
    (λ o l, ∃ rs last, l = rs ++ last ∧ Forall (replica_created n true) rs ∧
       Forall (replica_created n false) last ∧ length (rs ++ last) <= length xs ∧ length last <= 1 ∧
       (o = Ok tt → last = [] ∧ length rs = length xs)).
Proof.
  induction xs as [|x xs IH]; cbn [mfor].
  { apply emits_ret. exists [], []. split_and!; [done|constructor|constructor|simpl; lia|simpl; lia|done]. }
  assert (Hone : emits (replicaName ← GetReplicaName n;
      wrap "error creating replica '%s', volume '%s'" (onE (oc_CreateReplica n replicaName));; mret tt)
      (λ o l, ∃ e, l = [e] ∧ replica_created n (is_ok o) e)).
  { eapply emits_bind; [apply emits_replica_name|by intros ?? []..|]. intros rn l [-> _]. cbn [app].
    eapply emits_bind; [apply emits_logs_wrap, log_CreateReplica| | |]; cbn beta.
    1, 2: intros ? l ->; eexists; split; [done|by exists rn].
    intros r l ->. apply emits_ret. eexists. split; [done|by exists rn]. }
  eapply emits_bind; [exact Hone| | |]; cbn beta.
  1, 2: intros y l (e & -> & He); exists [], [e]; split_and!; [done|constructor|by apply Forall_singleton|simpl; lia|simpl; lia|done].
  intros [] l (e & -> & He). eapply emits_mono; [apply IH|].
  intros o l (rs & last & -> & Hrs & Hlast & Hlen & Hl1 & Hok). exists (e :: rs), last.
  split_and!; [done|by constructor|done|simpl; lia|done|].
  intros Ho. destruct (Hok Ho) as [-> ?]. split; [done|]. simpl. lia.
Qed.

(** The fields of the volume that is asked for, with the time of its creation. *)
Definition dated v v' : Prop := ∃ t, v' = set_Created t v.

Lemma emits_doCreate v :
  emits (doCreate v) (λ o l, (l = [] ∧ is_ok o = false) ∨
    ∃ v' full, dated v v' ∧ creation_events v' full l ∧ (is_ok o = true → full = true)).
Proof.
  eapply emits_bind; [apply emits_quiet, quiet_Now|intros ?? ->; by left..|]. intros t l ->. cbn [app].
  set (v' := set_Created t v). cbv zeta.
  assert (Hcreate : emits (wrap "failed to create volume '%s'" (onE (oc_CreateVolume v')))
            (λ o l, l = [(KCreateVolume v', is_ok o)] ∧ ∀ a, o = Ok a → a = v')).
  { intros s. apply wp_wrap, wp_intro. intros o s' Eo.
    pose proof (wp_elim _ _ _ _ _ (emits_logs _ _ (log_CreateVolume v') s) Eo) as (l & Hl & ->).
    exists [(KCreateVolume v', is_ok o)]. split; [done|]. split; [by destruct o|].
    intros a Ha. unfold onE in Eo. destruct (oc_CreateVolume v' (m_env s)) as [o1 e1] eqn:Ec.
    injection Eo as -> _. destruct o; simpl in Ha; try done. injection Ha as ->. by eapply create_returns. }
  eapply emits_bind; [exact Hcreate| | |]; cbn beta.
  1, 2: intros x l [-> _]; right; exists v', false; (split; [by exists t|]); (split; [|done]);
        exists false, [], []; split_and!; try done; simpl; lia.
  intros a l [-> Ha]. specialize (Ha a eq_refl). subst a.
  eapply emits_bind; [apply emits_create_replicas| | |]; cbn beta; rewrite ?length_seq.
  1, 2: intros x l (rs & last & -> & Hrs & Hlast & Hlen & Hl1 & _); right; exists v', false;
        (split; [by exists t|]); (split; [|done]); exists true, rs, last; by split_and!.
  intros [] l (rs & last & -> & Hrs & Hlast & Hlen & Hl1 & Hok).
  destruct (Hok eq_refl) as [-> Hfull]. rewrite app_nil_r in *.
  assert (Hall : creation_events v' true ((KCreateVolume v', true) :: rs)).
  { exists true, rs, []. rewrite app_nil_r. by split_and!. }
  eapply emits_mono; [apply emits_Get|]. intros o l ->. rewrite app_nil_r. right.
  exists v', true. split; [by exists t|done].
Qed.

(** What it returns is read back from the store. *)
Lemma doCreate_returns v s vol s' :
  doCreate v s = (Ok (Some vol), s') →
  ∃ e0 v0, log e0 = lg s' ∧ (oc_GetVolume (v_Name v) e0).1 = Ok (Some v0) ∧ completes v0 vol.
Proof.
  unfold doCreate. intros E0. apply bind_ok_inv in E0 as (t & s1 & _ & E0).
  apply bind_ok_inv in E0 as (v1 & s2 & _ & E0). apply bind_ok_inv in E0 as ([] & s3 & _ & E0).
  destruct (wp_elim _ _ _ _ _ (man_Get_spec _ s3) E0) as (Hl & _ & v0 & e1 & Ev & Hc).
  exists (m_env s3), v0. split_and!; [done|by change (v_Name v) with (v_Name (set_Created t v)); rewrite Ev|done].
Qed.

(** Any calls at all. *)
Definition some_events {A} (o : outcome A) l : Prop := True.

Lemma emits_bind_some {A B} (m : MM A) (f : A → MM B) :
  emits m some_events → (∀ a, emits (f a) some_events) → emits (m ≫= f) some_events.
Proof. intros Hm Hf. by eapply emits_bind; [exact Hm|..]. Qed.

Lemma emits_some {A} (m : MM A) P : emits m P → emits m some_events.
Proof. intros Hm. by eapply emits_mono. Qed.

Lemma emits_man_Delete name : emits (man_Delete name) some_events.
Proof.
  apply emits_bind_some; [eapply emits_some, emits_Get|]. intros [v|]; [|by apply emits_ret].
  eapply emits_some, (emits_delete_volume name v).
Qed.

(** A call to the engine to restore the backup at [url], when it succeeds. *)
Lemma emits_restore volume url :
  emits (ctrl ← onE (getController volume); ctrl ← deref ctrl; onE (vb_Restore (ct_BackupOps ctrl) url))
    (λ o l, o = Ok tt → l = [(KRestore url, true)]).
Proof.
  eapply emits_bind; [apply emits_getController|done..|]. intros c l [-> Hc]. cbn [app].
  destruct c as [c|].
  2: { eapply (emits_bind _ _ (λ o _, ∀ a, o ≠ Ok a)); [by apply emits_deref|done|done|].
       intros a l' Ha. by destruct (Ha a). }
  specialize (Hc _ eq_refl).
  eapply (emits_bind _ _ (λ o l, l = [] ∧ ∀ c', o = Ok c' → c' = c));
    [apply emits_deref; split; [done|by intros ? [= <-]]|done|done|].
  intros c' l' [-> Hc']. rewrite (Hc' _ eq_refl). cbn [app].
  eapply emits_mono; [apply emits_logs, lc_Restore, Hc|]. by intros o l -> ->.
Qed.

(** The clean-up only adds to the calls of a part that fails. *)
Lemma wp_or_cleanup {A} vol fmt (m : MM A) (P : A → list event → volumeManager E Mon → Prop) s :
  wp m s (λ o s', ∃ l, lg s' = lg s ++ l ∧ ∀ a, o = Ok a → P a l s') →
  wp (or_cleanup vol fmt m) s (λ o s', ∃ l, lg s' = lg s ++ l ∧ ∀ a, o = Ok a → P a l s').
Proof.
  intros Hm. apply wp_bind, wp_attempt. eapply wp_mono; [exact Hm|].
  intros [a|e|x] s1 _ (l & Hl & HP).
  - apply wp_ret. by exists l.
  - apply wp_bind, wp_ignore. eapply wp_mono; [apply emits_man_Delete|].
    intros o s2 _ (l2 & Hl2 & _). rewrite Hl, <-app_assoc in Hl2. destruct o; [apply wp_fail|apply wp_fail|];
      by eexists.
  - by exists l.
Qed.

(** The volume [vol] is attached, the backup at [url] is restored into it, and it is
    detached again, the controller that served the restoring included. *)
Definition restored vol url l : Prop :=
  ∃ e v1 l3 l4, l = l3 ++ (KRestore url, true) :: l4 ∧
    doAttach_calls vol e (Ok v1) l3 ∧ attached_volume vol v1 ∧ detach_events v1 true l4.

Lemma restored_spec vol url s :
  wp (vol ← deref (Some vol);
      vol ← or_cleanup vol "failed to attach to restore the backup, volume '%s', backup '%+v'"
        (doAttach vol);
      or_cleanup vol "failed to restore the backup, volume '%s', backup '%+v'"
        (ctrl ← onE (getController (Some vol));
         ctrl ← deref ctrl;
         onE (vb_Restore (ct_BackupOps ctrl) url));;
      vol ← or_cleanup vol "failed to detach after restoring the backup, volume '%s', backup '%+v'"
        (doDetach vol);
      mret (Some vol)) s
    (λ o s', ∃ l, lg s' = lg s ++ l ∧ (is_ok o = true → restored vol url l)).
Proof.
  apply wp_bind, wp_ret, wp_bind.
  eapply wp_mono; [apply (wp_or_cleanup _ _ _ (λ v1 l _, doAttach_calls vol (m_env s) (Ok v1) l ∧ attached_volume vol v1))|].
  { apply wp_intro. intros o s1 E1. destruct (wp_elim _ _ _ _ _ (doAttach_spec vol s) E1) as (l & Hl & Hc).
    exists l. split; [done|]. intros v1 ->. split; [done|by eapply doAttach_returns]. }
  intros o s1 _ (l1 & Hl1 & Hatt). destruct o as [v1|e|x]; [|by exists l1..].
  destruct (Hatt _ eq_refl) as [Hc1 Hv1].
  apply wp_bind. eapply wp_mono; [apply (wp_or_cleanup _ _ _ (λ _ l _, l = [(KRestore url, true)]))|].
  { eapply wp_mono; [apply emits_restore|]. intros o s2 _ (l & Hl & Hr). exists l. split; [done|].
    intros [] ->. by apply Hr. }
  intros o s2 _ (l2 & Hl2 & Hres). rewrite Hl1, <-app_assoc in Hl2. destruct o as [[]|e|x]; [|by eexists..].
  rewrite (Hres _ eq_refl) in Hl2.
  apply wp_bind. eapply wp_mono; [apply (wp_or_cleanup _ _ _ (λ _ l _, detach_events v1 true l))|].
  { eapply wp_mono; [apply emits_doDetach|]. intros o s3 _ (l & Hl & Hd & _). exists l. split; [done|].
    by intros v2 ->. }
  intros o s3 _ (l3 & Hl3 & Hdet). rewrite Hl2, <-!app_assoc in Hl3.
  destruct o as [v2|e|x]; [apply wp_ret|by eexists..]. eexists. split; [exact Hl3|].
  intros _. exists (m_env s), v1, l1, l3. by split_and!; [|..|eapply Hdet].
Qed.

(** The volume [v] that is created is the one asked for, with an engine image, the time
    and, when it comes from a backup, the size of the backup. *)
Definition asked_for volume v : Prop :=
  v_Name v = v_Name volume ∧ v_NumberOfReplicas v = v_NumberOfReplicas volume ∧
  v_BaseImage v = v_BaseImage volume ∧ v_FromBackup v = v_FromBackup volume ∧
  v_RecurringJobs v = v_RecurringJobs volume ∧ v_Controller v = v_Controller volume ∧
  v_Replicas v = v_Replicas volume ∧ v_EngineImage v ≠ "" ∧
  (v_EngineImage volume ≠ "" → v_EngineImage v = v_EngineImage volume) ∧
  (v_FromBackup volume = "" → v_Size v = v_Size volume).

(** The backup asked for, at the target the settings have, when the calls made are [L]. *)
Definition backup_found volume (L : list event) (b : BackupInfo) : Prop :=
  ∃ es settings eb, log es = L ∧ (oc_GetSettings es).1 = Ok settings ∧ si_BackupTarget settings ≠ "" ∧
    log eb = L ∧ (mb_Get (getBackups (si_BackupTarget settings)) (v_FromBackup volume) eb).1 = Ok (Some b).

(** The volume called [name] in the store, when the calls made are [L]. *)
Definition read_back name (L : list event) vol : Prop :=
  ∃ e v0, log e = L ∧ (oc_GetVolume name e).1 = Ok (Some v0) ∧ completes v0 vol.

(** [L]: the calls made before. *)
Definition created volume L {A} (o : outcome A) l : Prop :=
  (l = [] ∧ is_ok o = false) ∨
  ∃ v full l1 l2, l = l1 ++ l2 ∧ asked_for volume v ∧ creation_events v full l1 ∧
    (is_ok o = true ∨ l2 ≠ [] → full = true) ∧
    if String.eqb (v_FromBackup volume) "" then l2 = []
    else ∃ b, backup_found volume L b ∧ ParseInt (b_VolumeSize b) = Some (v_Size v) ∧
           (is_ok o = true → ∃ vol, read_back (v_Name volume) (L ++ l1) vol ∧ restored vol (b_URL b) l2).

Lemma createFromBackup_spec volume v b s :
  (∀ size v', dated (set_Size size v) v' → asked_for volume v' ∧ v_Size v' = size) →
  v_FromBackup volume ≠ "" → v_Name v = v_Name volume → backup_found volume (lg s) b →
  wp (createFromBackup v (Some b)) s (λ o s', ∃ l, lg s' = lg s ++ l ∧ created volume (lg s) o l).
Proof.
  intros Hasked Hb Hn Hfound. apply wp_bind, wp_ret.
  assert (Hnil : ∀ (o : outcome (option VolumeInfo)) s', lg s' = lg s → is_ok o = false →
    ∃ l, lg s' = lg s ++ l ∧ created volume (lg s) o l).
  { intros o s' Hl Ho. exists []. rewrite app_nil_r. split; [done|by left]. }
  destruct (ParseInt (b_VolumeSize b)) as [size|] eqn:Esize; [|by apply wp_fail, Hnil].
  apply wp_bind, wp_intro. intros o s1 E1.
  destruct (wp_elim _ _ _ _ _ (emits_doCreate _ s) E1) as (l1 & Hl1 & [[-> Ho]|(v' & full & Hv & Hc & Hfull)]).
  { rewrite app_nil_r in Hl1. destruct o; [done|by apply Hnil..]. }
  apply String.eqb_neq in Hb. destruct (Hasked _ _ Hv) as [Ha Hsize].
  assert (Hgo : ∀ (o' : outcome (option VolumeInfo)) l2, (is_ok o' = true ∨ l2 ≠ [] → full = true) →
    (is_ok o' = true → ∃ vol, read_back (v_Name volume) (lg s ++ l1) vol ∧ restored vol (b_URL b) l2) →
    created volume (lg s) o' (l1 ++ l2)).
  { intros o' l2 Hf Hr. right. exists v', full, l1, l2. rewrite Hb. split_and!; [done..|].
    exists b. by rewrite Hsize. }
  destruct o as [vol|e|x].
  2, 3: exists l1; split; [done|]; rewrite <-(app_nil_r l1); apply Hgo; [by intros [?|?]|done].
  specialize (Hfull eq_refl). destruct vol as [vol|].
  2: { apply wp_bind, wp_panic. exists l1. split; [done|]. rewrite <-(app_nil_r l1). by apply Hgo. }
  destruct (doCreate_returns _ _ _ _ E1) as (e0 & v0 & He & Hv0 & Hcomp).
  eapply wp_mono; [apply restored_spec|]. intros o s2 _ (l2 & Hl2 & Hr). exists (l1 ++ l2).
  split; [by rewrite Hl2, Hl1, app_assoc|]. apply Hgo; [done|]. intros Ho. exists vol. split; [|auto].
  exists e0, v0. split_and!; [by rewrite He|by rewrite <-Hn|done].
Qed.

Lemma create_new_spec volume settings es s :
  log es = lg s → (oc_GetSettings es).1 = Ok settings →
  wp (let image := if String.eqb (v_EngineImage volume) "" then si_EngineImage settings
                      else v_EngineImage volume in
         if String.eqb image "" then fail (Errorf "create volume fail: No EngineImage specified")
         else
           let volume := set_EngineImage image volume in
           if String.eqb (v_FromBackup volume) "" then doCreate volume
           else if String.eqb (si_BackupTarget settings) "" then
             fail (Errorf "create volume fail: No BackupTarget specified")
           else
             backup ← wrap "error getting backup (to create volume) '%s'"
               (onE (mb_Get (getBackups (si_BackupTarget settings)) (v_FromBackup volume)));
             createFromBackup volume backup) s
    (λ o s', ∃ l, lg s' = lg s ++ l ∧ created volume (lg s) o l).
Proof.
  intros Hes Hset. cbv zeta. set (image := if String.eqb (v_EngineImage volume) "" then _ else _).
  assert (Hnil : ∀ (o : outcome (option VolumeInfo)) s', lg s' = lg s → is_ok o = false →
    ∃ l, lg s' = lg s ++ l ∧ created volume (lg s) o l).
  { intros o s' Hl Ho. exists []. rewrite app_nil_r. split; [done|by left]. }
  destruct (String.eqb_spec image "") as [_|Himage]; [by apply wp_fail, Hnil|].
  assert (Hgiven : v_EngineImage volume ≠ "" → image = v_EngineImage volume).
  { unfold image. by destruct (String.eqb_spec (v_EngineImage volume) ""). }
  change (v_FromBackup (set_EngineImage image volume)) with (v_FromBackup volume).
  destruct (String.eqb_spec (v_FromBackup volume) "") as [Hb|Hb].
  - eapply wp_mono; [apply emits_doCreate|].
    intros o s1 _ (l & Hl & [Hn|(v' & full & [t ->] & Hc & Hfull)]); exists l; (split; [done|]); [by left|right].
    exists (set_Created t (set_EngineImage image volume)), full, l, []. rewrite app_nil_r, Hb.
    split_and!; [done| |done|by intros [?|]; auto|done]. by split_and!.
  - destruct (String.eqb_spec (si_BackupTarget settings) "") as [_|Ht]; [by apply wp_fail, Hnil|].
    apply wp_bind, wp_wrap, wp_intro. intros o s1 E1.
    pose proof (wp_elim _ _ _ _ _ (onE_quiet _ s (log_backups _ _)) E1) as [Hl1 _]. cbn beta in Hl1.
    unfold onE in E1. destruct (mb_Get _ _ (m_env s)) as [o1 e1] eqn:Eget. injection E1 as -> Es1.
    destruct o as [b|e|x]; [|by apply Hnil..]. cbn [wrap_outcome].
    destruct b as [b|]; [|by apply wp_bind, wp_panic, Hnil].
    rewrite <-Hl1. apply createFromBackup_spec; [|done|done|].
    + intros size v' [t ->]. by split_and!.
    + exists es, settings, (m_env s). rewrite Hl1, Eget. by split_and!.
Qed.

(** C17: what is created is what was asked for, and only that.  When the volume exists
    nothing is called.  Otherwise either nothing is called and the request fails, or the
    record is created first, with the fields asked for and an engine image, and then the
    replicas, one at a time and at most as many as wanted; nothing follows the first
    failure, and a success means that all of them were created.  A volume that is not
    restored from a backup sees no other call.  One that is has the size of the backup
    found at the target of the settings, and when the request succeeds the volume read
    back from the store is attached, that backup is restored into it, and it is detached
    again: the controller of the restoring is stopped and removed. *)
Theorem create_as_asked volume s :
  wp (man_Create volume) s (λ o s', ∃ l, lg s' = lg s ++ l ∧ created volume (lg s) o l ∧
    ((∃ v e, oc_GetVolume (v_Name volume) (m_env s) = (Ok (Some v), e)) →
     l = [] ∧ is_ok o = false)).
Proof.
  apply wp_bind. eapply wp_mono; [apply man_Get_spec|].
  assert (Hnone : ∀ (o : outcome (option VolumeInfo)) s', lg s' = lg s → is_ok o = false →
    ∃ l, lg s' = lg s ++ l ∧ created volume (lg s) o l ∧
      ((∃ v e, oc_GetVolume (v_Name volume) (m_env s) = (Ok (Some v), e)) → l = [] ∧ is_ok o = false)).
  { intros o s' Hl Ho. exists []. rewrite app_nil_r. split_and!; [done|by left|done]. }
  intros [[v|]|x|x] s1 _ (Hl & _ & Hv); [by apply Hnone| |by apply Hnone..].
  destruct Hv as [e Hv]. apply wp_bind, wp_attempt, wp_intro. intros o s2 E2.
  pose proof (wp_elim _ _ _ _ _ (onE_quiet _ s1 log_GetSettings) E2) as [Hl2 _]. cbn beta in Hl2.
  rewrite Hl in Hl2. destruct o as [settings|x|x]; [|by apply wp_fail, Hnone|by apply Hnone].
  unfold onE in E2. destruct (oc_GetSettings (m_env s1)) as [o2 e2] eqn:Eset. injection E2 as -> Es2.
  eapply wp_mono; [apply (create_new_spec volume settings (m_env s1))|].
  - by rewrite Hl2.
  - by rewrite Eset.
  - intros o s3 _ (l & Hl3 & Hc). rewrite Hl2 in Hl3, Hc. exists l. split_and!; [done..|].
    intros (v & e' & Hv'). by rewrite Hv in Hv'.
Qed.
End Creation.
