(* ===== verification/Upkeep.v ===== *)
(** * Upkeep of attached volumes

    What the periodic check of a controller and the periodic clean-up of bad replicas
    do, the creation of volumes, and the invariants of the manager's own state: the
    monitors and the count of replicas being added. *)

From stdpp Require Import base list gmap strings.
From Stdlib Require Import ZArith Lia Ascii.
From S2P Require Import Prelude GoStrings GoTime Json Types Util TaskQueue Controller Backups Retain Cron Manager ManagerSpec Lifecycle.
Local Open Scope string_scope.
Local Open Scope list_scope.

(** ** What every operation preserves

    A relation on the manager's states that is kept by calls to the outside and by
    the start and the stop of a monitor is kept by every operation. *)

Definition monitor_call (c : call) : bool :=
  match c with KBegin _ | KClose _ => true | _ => false end.

Section Keeps.
Context {E Mon : Type} `{Logged E Mon} `{MapOrder} `{GoSched} `{CronSpec}.
Context (R : volumeManager E Mon → volumeManager E Mon → Prop) `{!PreOrder R}.
Context (R_logs : ∀ A (m : M E A) c, logs log m c → monitor_call c = false → preserves R (onE m)).
Context (R_quiet : ∀ A (m : M E A), quiet log m → preserves R (onE m)).
Context (R_start : ∀ v, preserves R (startMonitoring v)).
Context (R_stop : ∀ v, preserves R (stopMonitoring v)).

Ltac keep := repeat first
  [ solve [ by apply (R_logs _ _ _ (log_CreateVolume _)) | by apply (R_logs _ _ _ (log_DeleteVolume _))
          | by apply (R_logs _ _ _ (log_UpdateVolume _)) | by apply (R_logs _ _ _ (log_MarkBad _ _))
          | by apply (R_logs _ _ _ (log_CreateController _ _ _))
          | by apply (R_logs _ _ _ (log_CreateReplica _ _)) | by apply (R_logs _ _ _ (log_Start _))
          | by apply (R_logs _ _ _ (log_Stop _)) | by apply (R_logs _ _ _ (log_Remove _))
          | apply R_quiet; first [ apply log_GetVolume | apply log_ListVolumes | apply log_GetSettings
                                 | apply log_backups | apply log_Cron | apply quiet_RandomID | by intros ? ]
          | apply R_start | apply R_stop | eauto with frame ]
  | apply (preserves_mfor R); intros ? _
  | progress unfold fan_out
  | apply (preserves_gather R); intros ? _
  | free_step ].

(** The calls on a controller that [getController] returned. *)
Lemma keeps_with_controller {A} v (f : Controller E → M (volumeManager E Mon) A) :
  (∀ c, logged_controller log c → preserves R (f c)) →
  preserves R (c ← onE (getController v); c ← deref c; f c).
Proof.
  intros Hf. apply preserves_bind_inv; [done|apply R_quiet, log_Get|]. intros c s s' Ec.
  apply preserves_bind_inv; [done|frees|]. intros c' s1 s1' Ed.
  destruct c as [c|]; [|done]. injection Ed as <- <-. apply Hf.
  unfold onE in Ec. destruct (getController _ (m_env s)) as [o e] eqn:Eg.
  injection Ec as -> <-. by eapply log_ctrl.
Qed.

Lemma keeps_complete v : preserves R (completeVolumeState v).
Proof.
  unfold completeVolumeState. case_match; [|frees]. apply keeps_with_controller. intros c Hc.
  apply preserves_bind; [done|apply R_quiet, lc_Endpoint, Hc|]. intros. frees.
Qed.

Lemma keeps_Get n : preserves R (man_Get n).
Proof. unfold man_Get. keep. apply keeps_complete. Qed.
Hint Resolve keeps_Get keeps_complete : frame.

Lemma keeps_List : preserves R man_List.
Proof.
  unfold man_List. keep.
  match goal with |- preserves R (complete_all ?l) => induction l; simpl; keep end.
Qed.
Hint Resolve keeps_List : frame.

Lemma keeps_Start : preserves R man_Start.
Proof. unfold man_Start. keep. Qed.

Lemma keeps_doDetach v : preserves R (doDetach v).
Proof. unfold doDetach, stop_replica. keep. Qed.
Hint Resolve keeps_doDetach : frame.

Lemma keeps_Detach n : preserves R (man_Detach n).
Proof. unfold man_Detach. keep. Qed.
Hint Resolve keeps_Detach : frame.

Lemma keeps_Delete n : preserves R (man_Delete n).
Proof. unfold man_Delete. keep. Qed.
Hint Resolve keeps_Delete : frame.

Lemma keeps_doAttach v : preserves R (doAttach v).
Proof.
  unfold doAttach, attach_replicas, stop_replica. destruct (pick_replicas _ _ _) as [started [p|e|x]]; keep.
Qed.
Hint Resolve keeps_doAttach : frame.

Lemma keeps_Attach n : preserves R (man_Attach n).
Proof. unfold man_Attach. keep. Qed.

Lemma keeps_doCreate v : preserves R (doCreate v).
Proof. unfold doCreate, GetReplicaName. keep. Qed.
Hint Resolve keeps_doCreate : frame.

Lemma keeps_or_cleanup {A} v fmt (m : M (volumeManager E Mon) A) :
  preserves R m → preserves R (or_cleanup v fmt m).
Proof. intros Hm. unfold or_cleanup, cleanupFailedCreate. keep. Qed.

Lemma keeps_createFromBackup v b : preserves R (createFromBackup v b).
Proof.
  unfold createFromBackup.
  repeat first [ apply keeps_or_cleanup
               | apply keeps_with_controller; intros c Hc; by apply (R_logs _ _ _ (lc_Restore _ _ Hc _))
               | free_step ].
Qed.
Hint Resolve keeps_createFromBackup : frame.

Lemma keeps_Create v : preserves R (man_Create v).
Proof. unfold man_Create. keep. Qed.

Lemma keeps_UpdateRecurring n jobs : preserves R (UpdateRecurring n jobs).
Proof. unfold UpdateRecurring, updateCron. keep. intros s. unfold wp. simpl. reflexivity. Qed.

Lemma keeps_Cleanup v : preserves R (man_Cleanup v).
Proof. unfold man_Cleanup, run_cleanup_job. keep. Qed.

Lemma keeps_ReplicaRemove n r : preserves R (ReplicaRemove n r).
Proof. unfold ReplicaRemove. keep. Qed.

Lemma keeps_body c r : logged_controller log c → preserves R (add_replica_body c r).
Proof.
  intros Hc. unfold add_replica_body. keep. by apply (R_logs _ _ _ (lc_Add _ _ Hc _)).
Qed.

Context (R_count : ∀ n, preserves R (addingReplicasCount n 0)).
Context (R_spawn : ∀ n c r, logged_controller log c → preserves R (spawn_add (mkAdd n c r false))).

Lemma keeps_CheckController c v : logged_controller log c → preserves R (CheckController c v).
Proof.
  intros Hc. unfold CheckController, createAndAddReplicaToController, GetReplicaName.
  keep; try (by apply R_quiet, lc_States); auto.
  unfold run_err_job. case_match; keep. by apply (R_logs _ _ _ (lc_Remove _ _ Hc _)).
Qed.
End Keeps.

Section Upkeep.
Context {E Mon : Type} `{Logged E Mon} `{MapOrder} `{GoSched} `{CronSpec}.
Abbreviation MM := (M (volumeManager E Mon)).
Implicit Types (s : volumeManager E Mon) (l : list event) (v : VolumeInfo).

(** ** The clean-up *)

Definition cleanup_call (j : cleanup_job) : list call :=
  match j with
  | JStop r => [KStop (r_Instance r)]
  | JBadTime _ => []
  | JRemove r => [KRemove (r_Instance r)]
  end.

Lemma emits_cleanup_job j :
  emits (run_cleanup_job j) (λ o l, l = (λ c, (c, is_ok o)) <$> cleanup_call j).
Proof.
  destruct j; [apply emits_logs_unit, log_Stop|by apply emits_fail|apply emits_logs_unit, log_Remove].
Qed.

(** A bad replica whose time to keep it is over. *)
Definition expired (t : Z) (r : ReplicaInfo) : Prop :=
  ∃ bad, ParseTime (r_BadTimestamp r) = Some bad ∧ (bad + 2 * Hour < t)%Z.

Lemma cleanup_calls t rs c :
  c ∈ (rs ≫= cleanup_jobs t) ≫= cleanup_call ↔
  ∃ r, r ∈ rs ∧ good r = false ∧
    (c = KStop (r_Instance r) ∧ r_Running r = true ∨ c = KRemove (r_Instance r) ∧ expired t r).
Proof.
  rewrite list_elem_of_bind. setoid_rewrite list_elem_of_bind.
  unfold cleanup_jobs, expired, KeepBadReplicasPeriod. split.
  - intros (j & Hc & r & Hj & Hr). exists r. split; [done|]. destruct (good r); [by apply elem_of_nil in Hj|].
    split; [done|]. apply elem_of_app in Hj as [Hj|Hj].
    + destruct (r_Running r); [|by apply elem_of_nil in Hj]. apply list_elem_of_singleton in Hj as ->.
      apply list_elem_of_singleton in Hc as ->. auto.
    + destruct (ParseTime _) as [bad|].
      * destruct (Z.ltb_spec (bad + Hour * 2) t); [|by apply elem_of_nil in Hj].
        apply list_elem_of_singleton in Hj as ->. apply list_elem_of_singleton in Hc as ->.
        right. split; [done|]. exists bad. split; [done|]. lia.
      * apply list_elem_of_singleton in Hj as ->. by apply elem_of_nil in Hc.
  - intros (r & Hr & Hg & [[-> Hrun]|[-> (bad & Hp & Hlt)]]).
    + exists (JStop r). split; [by left|]. exists r. split; [|done]. rewrite Hg, Hrun. by left.
    + exists (JRemove r). split; [by left|]. exists r. split; [|done]. rewrite Hg, Hp.
      destruct (Z.ltb_spec (bad + Hour * 2) t); [|lia]. apply elem_of_app. right. by left.
Qed.

(** C18: the clean-up touches only what it may.  Every call it makes stops a bad
    replica that runs, or removes a bad replica that went bad more than two hours ago; no
    good replica is touched.  When it succeeds all of those calls were made and
    succeeded. *)
Theorem cleanup_only_expired v0 v s s1 :
  man_Get (v_Name v0) s = (Ok (Some v), s1) →
  let t := clock_Now (m_env s1) in
  let due c := ∃ k r, replicas_of v !! k = Some r ∧ good r = false ∧
    (c = KStop (r_Instance r) ∧ r_Running r = true ∨ c = KRemove (r_Instance r) ∧ expired t r) in
  wp (man_Cleanup v0) s (λ o s', ∃ l, lg s' = lg s ++ l ∧
    (∀ e, e ∈ l → due e.1) ∧
    (o = Ok tt → ∀ c, due c → (c, true) ∈ l)).
Proof.
  intros Eg t due. pose proof (wp_elim _ _ _ _ _ (man_Get_spec (v_Name v0) s) Eg) as (Hl & _ & _).
  unfold man_Cleanup. apply wp_bind, wp_wrap. unfold wp at 1. rewrite Eg. simpl.
  apply wp_bind. unfold wp at 1, onE, now. simpl. fold t.
  assert (Hs : ∀ s2 : volumeManager E Mon, lg s2 = lg s →
    wp (fan_out run_cleanup_job ((range (replicas_of v)).*2 ≫= cleanup_jobs t)) s2
      (λ o s', ∃ l, lg s' = lg s ++ l ∧ (∀ e, e ∈ l → due e.1) ∧
         (o = Ok tt → ∀ c, due c → (c, true) ∈ l))); [|by apply Hs].
  intros s2 <-. eapply wp_mono; [apply (emits_fan_out run_cleanup_job cleanup_call);
    intros j _; apply emits_cleanup_job|].
  assert (Hdue : ∀ c, c ∈ ((range (replicas_of v)).*2 ≫= cleanup_jobs t) ≫= cleanup_call ↔ due c).
  { intros c. rewrite cleanup_calls. fold (replica_list v). setoid_rewrite elem_of_replica_list.
    unfold due. naive_solver. }
  intros o s' _ (l & Hl' & Hin & Hok). exists l. split_and!; [done| |].
  - intros e He. by apply Hdue, Hin.
  - intros ->. intros c Hc. rewrite Hok. apply elem_of_succeeded. by apply Hdue.
Qed.

(** ** The check of a controller *)

Definition err_calls v (rs : list ReplicaInfo) : list call :=
  r ← in_mode ReplicaModeERR rs; [KDropReplica r; KMarkBad (v_Name v) r].

Definition err_call v (j : err_job) : list call :=
  match j with JRemoveReplica r => [KDropReplica r] | JMarkBad r => [KMarkBad (v_Name v) r] end.

Lemma err_jobs_calls v rs : err_jobs rs ≫= err_call v = err_calls v rs.
Proof.
  unfold err_jobs, err_calls. induction (in_mode _ rs) as [|r l IH]; [done|].
  rewrite !bind_cons, bind_app, IH. done.
Qed.

Lemma emits_err_jobs ctrl v rs :
  logged_controller log ctrl →
  emits (fan_out (run_err_job ctrl v) (err_jobs rs)) (λ o l,
    (∀ e, e ∈ l → e.1 ∈ err_calls v rs) ∧
    match o with
    | Ok _ => l ≡ₚ succeeded (err_calls v rs)
    | Err _ => l.*1 ≡ₚ err_calls v rs
    | Panic _ => True
    end).
Proof.
  intros Hc. rewrite <-err_jobs_calls. apply (emits_fan_out _ (err_call v)). intros [r|r] _.
  - apply emits_logs_wrap, lc_Remove, Hc.
  - apply emits_logs_wrap, log_MarkBad.
Qed.

Lemma fan_out_frame {A} (f : A → MM unit) xs :
  (∀ x, preserves man_frame (f x)) → preserves man_frame (fan_out f xs).
Proof.
  intros Hf. unfold fan_out. apply preserves_bind; [apply _|apply preserves_gather; auto; apply _|].
  intros []; frees.
Qed.

(** A new replica is needed and none is on its way. *)
Definition needs_replica s v (rs : list ReplicaInfo) : bool :=
  (Z.of_nat (length (in_mode ReplicaModeRW rs)) <? v_NumberOfReplicas v)%Z &&
  (length (in_mode ReplicaModeWO rs) =? 0)%nat &&
  (wrap64 (default 0%Z (m_addingReplicas s !! v_Name v) + 0) =? 0)%Z.

(** Creating a replica of [name] for [ctrl], by how it ends: one call to create it, one
    to start what was created, and, when both succeed, a goroutine that will add it.
    [adds] is the goroutines before. *)
Definition replica_coming name (ctrl : Controller E) (adds : list (add_proc E)) (o : outcome unit) l s' : Prop :=
  if is_ok o then
    ∃ rn r i, l = [(KCreateReplica name rn, true); (KStart (r_Instance r), true)] ∧
      m_adds s' = adds ++ [mkAdd name ctrl (set_Instance i r) false]
  else
    ((∃ rn b, l = [(KCreateReplica name rn, b)]) ∨
     (∃ rn r, l = [(KCreateReplica name rn, true); (KStart (r_Instance r), false)])) ∧ m_adds s' = adds.

Lemma create_and_add_spec name ctrl s :
  wp (createAndAddReplicaToController name ctrl) s (λ o s', ∃ l, lg s' = lg s ++ l ∧
    replica_coming name ctrl (m_adds s) o l s').
Proof.
  unfold replica_coming, createAndAddReplicaToController, GetReplicaName. apply wp_bind, wp_bind, wp_intro.
  intros o1 s1 E1. pose proof (wp_elim _ _ _ _ _ (onE_quiet _ s quiet_RandomID) E1) as (Hl1 & _ & _ & Ha1).
  unfold onE, RandomID in E1. destruct (UUID (m_env s)) as [u e1]. injection E1 as <- Es1.
  apply wp_ret, wp_bind, wp_wrap. eapply wp_mono; [apply onE_logs, log_CreateReplica|].
  intros [[r|]|e|x] s2 _ (Hl2 & _ & _ & Ha2); simpl in *; rewrite ?Hl1, Ha1 in *.
  2: apply wp_bind, wp_panic.
  2, 3, 4: eexists; split; [exact Hl2|]; (split; [left; by eexists _, _|done]).
  apply wp_bind, wp_ret, wp_bind, wp_wrap. eapply wp_mono; [apply onE_logs, log_Start|].
  intros [i|e|x] s3 _ (Hl3 & _ & _ & Ha3); simpl in *; rewrite Hl2, Ha2, <-app_assoc in *.
  2, 3: eexists; split; [exact Hl3|]; (split; [right; by eexists _, _|done]).
  unfold wp, spawn_add, lg in *. simpl. rewrite Ha3. eexists. split; [exact Hl3|]. by eexists _, _, _.
Qed.

(** What is not the environment or the monitors. *)
Definition adds_frame s s' : Prop :=
  m_addingReplicas s' = m_addingReplicas s ∧ m_adds s' = m_adds s.
#[export] Instance adds_frame_preorder : PreOrder adds_frame.
Proof. split; [done|]. unfold adds_frame. intros ??? (?&?) (?&?). split; congruence. Qed.

Lemma onE_adds {A} (m : M E A) : preserves adds_frame (onE m).
Proof. intros s. eapply wp_mono; [apply onE_frame|]. by intros ?? _ (_ & ? & ?). Qed.
Lemma get_man_adds : preserves adds_frame get_man.
Proof. by intros s. Qed.
Lemma put_monitors_adds ms : preserves adds_frame (put_monitors ms).
Proof. by intros s. Qed.

Lemma man_Detach_adds name : preserves adds_frame (man_Detach name).
Proof.
  apply (keeps_Detach adds_frame); auto using onE_adds.
  intros v. unfold stopMonitoring.
  repeat first [apply onE_adds | apply get_man_adds | apply put_monitors_adds | free_step].
Qed.

(** C13: a check repairs a volume one replica at a time.  Given the states [rs] the
    controller reports, every replica in error is dropped from the controller and marked
    bad; these calls end with [o2] in [s2].  Unless all of them succeeded nothing more is
    done and the check fails.  Then a volume without a replica in good order is detached,
    as it is in the store then; otherwise one replica is created and started, and a
    goroutine that adds it to the controller begins, when there are too few good ones,
    none is being rebuilt and none is being added; and else the check succeeds with no
    other call. *)
Theorem check_controller_repairs ctrl v rs s e1 o2 s2 :
  logged_controller log ctrl →
  ct_GetReplicaStates ctrl (m_env s) = (Ok rs, e1) →
  fan_out (run_err_job ctrl v) (err_jobs rs) (mkMan e1 (m_monitors s) (m_addingReplicas s) (m_adds s)) = (o2, s2) →
  wp (CheckController ctrl v) s (λ o s', ∃ l0 l1, lg s2 = lg s ++ l0 ∧ lg s' = lg s2 ++ l1 ∧
    (∀ e, e ∈ l0 → e.1 ∈ err_calls v rs) ∧
    match o2 with
    | Ok _ => l0 ≡ₚ succeeded (err_calls v rs) ∧
        match in_mode ReplicaModeRW rs with
        | [] => detaching (v_Name v) (m_env s2) (is_ok o) l1 ∧ m_adds s' = m_adds s
        | _ :: _ =>
          if needs_replica s v rs then replica_coming (v_Name v) ctrl (m_adds s) o l1 s'
          else l1 = [] ∧ o = Ok tt ∧ m_adds s' = m_adds s
        end
    | _ => l1 = [] ∧ is_ok o = false ∧ m_adds s' = m_adds s
    end).
Proof.
  intros Hc Ers E2. unfold CheckController. apply wp_bind, wp_attempt.
  pose proof (onE_quiet _ s (lc_States _ _ Hc)) as Hq. unfold wp at 1. unfold wp in Hq.
  unfold onE at 1 2. unfold onE in Hq. rewrite Ers in *. simpl in *. destruct Hq as [Hl0 _].
  set (s1 := mkMan e1 _ _ _) in *. apply wp_bind. unfold wp at 1. rewrite E2. cbn [fst snd].
  destruct (wp_elim _ _ _ _ _ (emits_err_jobs ctrl v rs Hc s1) E2) as (l0 & Hl1 & Hin & Hok).
  assert (Hf : man_frame s1 s2).
  { eapply (wp_elim _ _ (λ _ s', man_frame s1 s')); [|exact E2]. apply fan_out_frame.
    intros [r|r]; apply preserves_wrap, onE_frame. }
  destruct Hf as (_ & Hadd & Hadds). rewrite Hl0 in Hl1.
  destruct o2 as [[]|e|x].
  2, 3: exists l0, []; by rewrite app_nil_r.
  destruct (in_mode ReplicaModeRW rs) as [|r0 rw] eqn:Erw.
  - apply wp_intro. intros o s' Eo.
    destruct (wp_elim _ _ _ _ _ (detaching_spec (v_Name v) s2) Eo) as (l1 & Hl2 & Hd).
    destruct (wp_elim _ _ _ _ _ (man_Detach_adds (v_Name v) s2) Eo) as [_ Ha].
    exists l0, l1. split_and!; [done..|]. by rewrite Ha.
  - apply wp_bind. unfold wp at 1, addingReplicasCount. cbn [fst snd].
    rewrite Hadd. change (m_addingReplicas s1) with (m_addingReplicas s).
    set (s3 := mkMan (m_env s2) _ _ _).
    assert (Hneed : needs_replica s v rs =
      (Z.of_nat (length (r0 :: rw)) <? v_NumberOfReplicas v)%Z &&
      (length (in_mode ReplicaModeWO rs) =? 0)%nat &&
      (wrap64 (default 0%Z (m_addingReplicas s !! v_Name v) + 0) =? 0)%Z).
    { unfold needs_replica. by rewrite Erw. }
    rewrite <-Hneed. destruct (needs_replica s v rs).
    + eapply wp_mono; [apply create_and_add_spec|]. intros o s' _ (l1 & Hl2 & Hl).
      exists l0, l1. split_and!; [done..|]. change (m_adds s3) with (m_adds s2) in Hl. by rewrite Hadds in Hl.
    + apply wp_ret. exists l0, []. by rewrite app_nil_r.
Qed.

(** ** The manager's own state *)

Definition begin_of (n : string) (e : event) : bool :=
  match e.1 with KBegin n' => String.eqb n' n | _ => false end.
Definition close_of (n : string) (e : event) : bool :=
  match e.1 with KClose n' => String.eqb n' n | _ => false end.
Definition count_of (P : event → bool) l : nat := length (filter (λ e, P e = true) l).

(** The goroutines that add a replica to [n] and have counted themselves. *)
Definition counts (n : string) (p : add_proc E) : bool := ap_counted p && String.eqb (ap_volume p) n.
Definition counted (n : string) (ps : list (add_proc E)) : nat :=
  length (filter (λ p, counts n p = true) ps).

Record man_inv s : Prop := {
  mi_names : ∀ n m, m_monitors s !! n = Some m → mon_volume m = n;
  mi_balance : ∀ n, count_of (begin_of n) (lg s) =
    count_of (close_of n) (lg s) + (match m_monitors s !! n with Some _ => 1 | None => 0 end);
  mi_count : ∀ n, default 0%Z (m_addingReplicas s !! n) = wrap64 (Z.of_nat (counted n (m_adds s)));
  mi_ctrl : ∀ p, p ∈ m_adds s → logged_controller log (ap_ctrl p);
}.

Definition keeps_inv s s' : Prop := man_inv s → man_inv s'.
#[export] Instance keeps_inv_preorder : PreOrder keeps_inv.
Proof. split; unfold keeps_inv; repeat intro; auto. Qed.

Lemma count_of_app P l1 l2 : count_of P (l1 ++ l2) = count_of P l1 + count_of P l2.
Proof. unfold count_of. by rewrite filter_app, length_app. Qed.

Lemma count_of_other c b n : monitor_call c = false →
  count_of (begin_of n) [(c, b)] = 0 ∧ count_of (close_of n) [(c, b)] = 0.
Proof. by destruct c. Qed.

Lemma count_of_begin n n' b :
  count_of (begin_of n) [(KBegin n', b)] = (if String.eqb n' n then 1 else 0) ∧
  count_of (close_of n) [(KBegin n', b)] = 0.
Proof. unfold count_of, begin_of, close_of. cbn. by destruct (String.eqb n' n). Qed.

Lemma count_of_close n n' b :
  count_of (close_of n) [(KClose n', b)] = (if String.eqb n' n then 1 else 0) ∧
  count_of (begin_of n) [(KClose n', b)] = 0.
Proof. unfold count_of, begin_of, close_of. cbn. by destruct (String.eqb n' n). Qed.

Lemma inv_logs {A} (m : M E A) c :
  logs log m c → monitor_call c = false → preserves keeps_inv (onE m).
Proof.
  intros Hm Hc s. eapply wp_mono; [by apply onE_logs|]. intros o s' _ (Hl & Hmon & Hadd & Hps) [H1' H2' H3' H4'].
  split; rewrite ?Hl, ?Hmon, ?Hadd, ?Hps; auto. intros n. rewrite !count_of_app.
  destruct (count_of_other c (is_ok o) n Hc) as [-> ->]. rewrite (H2' n). lia.
Qed.

Lemma inv_quiet {A} (m : M E A) : quiet log m → preserves keeps_inv (onE m).
Proof.
  intros Hm s. eapply wp_mono; [by apply onE_quiet|]. intros o s' _ (Hl & Hmon & Hadd & Hps) [H1' H2' H3' H4'].
  by split; rewrite ?Hl, ?Hmon, ?Hadd, ?Hps.
Qed.

Lemma inv_start v : preserves keeps_inv (startMonitoring v).
Proof.
  intros s. unfold startMonitoring. apply wp_bind. unfold wp at 1. cbn [get_man fst snd].
  destruct (m_monitors s !! v_Name v) as [m|] eqn:Em; [apply wp_ret; reflexivity|].
  apply wp_bind, wp_intro. intros o s1 Eo.
  pose proof (wp_elim _ _ _ _ _ (onE_logs _ _ s (log_Begin v)) Eo) as (Hl & Hmon & Hadd & Hps).
  assert (Hb : ∃ m, o = Ok m ∧ mon_volume m = v_Name v).
  { pose proof (begin_ok v (m_env s)) as Hb. unfold onE in Eo. unfold wp in Hb.
    destruct (BeginMonitoring v (m_env s)). by simplify_eq/=. }
  destruct Hb as (m & -> & Hm). cbn [is_ok] in Hl. unfold wp, mbind, M_bind, get_man, put_monitors. cbn [fst snd].
  intros [H1' H2' H3' H4']. split; unfold lg; cbn [m_env m_monitors m_addingReplicas m_adds]; fold (lg s1);
    rewrite ?Hl, ?Hmon, ?Hadd, ?Hps; auto.
  - intros n m'. rewrite lookup_insert_Some. intros [[<- <-]|[_ ?]]; [done|]. by apply H1'.
  - intros n. rewrite !count_of_app. destruct (count_of_begin n (v_Name v) true) as [-> ->].
    rewrite (H2' n). destruct (String.eqb_spec (v_Name v) n) as [<-|Hne].
    + rewrite Em, lookup_insert_eq. lia.
    + rewrite lookup_insert_ne by done. lia.
Qed.

Lemma inv_stop v : preserves keeps_inv (stopMonitoring v).
Proof.
  intros s. unfold stopMonitoring. apply wp_bind. unfold wp at 1. cbn [get_man fst snd].
  destruct (m_monitors s !! v_Name v) as [m|] eqn:Em; [|apply wp_ret; reflexivity].
  apply wp_bind, wp_ignore, wp_intro. intros o s1 Eo.
  pose proof (wp_elim _ _ _ _ _ (onE_logs _ _ s (log_Close m)) Eo) as (Hl & Hmon & Hadd & Hps).
  assert (Hx : ∀ x, o ≠ Panic x).
  { pose proof (close_ok m (m_env s)) as Hb. unfold onE in Eo. unfold wp in Hb.
    destruct (mon_Close m (m_env s)). by simplify_eq/=. }
  assert (Hgoal : wp (s ← get_man; put_monitors (delete (v_Name v) (m_monitors s))) s1
                    (λ _ s', keeps_inv s s')); [|destruct o as [?|?|x]; [done..|by destruct (Hx x)]].
  unfold wp, mbind, M_bind, get_man, put_monitors. cbn [fst snd].
  intros [H1' H2' H3' H4']. split; unfold lg; cbn [m_env m_monitors m_addingReplicas m_adds]; fold (lg s1);
    rewrite ?Hl, ?Hmon, ?Hadd, ?Hps; auto.
  - intros n m'. rewrite lookup_delete_Some. intros [_ ?]. by apply H1'.
  - intros n. rewrite !count_of_app, (H1' _ _ Em).
    destruct (count_of_close n (v_Name v) (is_ok o)) as [-> ->].
    rewrite (H2' n). destruct (String.eqb_spec (v_Name v) n) as [<-|Hne].
    + rewrite Em, lookup_delete_eq. lia.
    + rewrite lookup_delete_ne by done. lia.
Qed.

Lemma wrap64_add a b : wrap64 (wrap64 a + b) = wrap64 (a + b).
Proof.
  unfold wrap64. f_equal.
  replace ((a + 2 ^ 63) mod 2 ^ 64 - 2 ^ 63 + b + 2 ^ 63)%Z
    with ((a + 2 ^ 63) mod 2 ^ 64 + b)%Z by lia.
  rewrite Z.add_mod_idemp_l by done. f_equal. lia.
Qed.

(** The counter moves with the number of goroutines counted. *)
Lemma inv_count n d ps s :
  man_inv s →
  (∀ n', Z.of_nat (counted n' ps) =
         (Z.of_nat (counted n' (m_adds s)) + if String.eqb n n' then d else 0)%Z) →
  (∀ p, p ∈ ps → logged_controller log (ap_ctrl p)) →
  man_inv (mkMan (m_env s) (m_monitors s)
             (<[n := wrap64 (default 0%Z (m_addingReplicas s !! n) + d)]> (m_addingReplicas s)) ps).
Proof.
  intros [H1' H2' H3' H4'] Hps Hctrl. split; [done..| |done].
  intros n'. cbn [m_addingReplicas m_adds]. rewrite (Hps n').
  destruct (String.eqb_spec n n') as [<-|Hne].
  - rewrite lookup_insert_eq. cbn [default]. by rewrite (H3' n), wrap64_add.
  - rewrite lookup_insert_ne by done. by rewrite Z.add_0_r.
Qed.

Lemma inv_count_zero n : preserves keeps_inv (addingReplicasCount n 0).
Proof.
  intros s Hinv. apply inv_count; [done| |apply Hinv].
  intros n'. destruct (String.eqb n n'); lia.
Qed.

Lemma counted_middle n (l1 l2 : list (add_proc E)) p :
  counted n (l1 ++ p :: l2) = counted n (l1 ++ l2) + if counts n p then 1 else 0.
Proof.
  unfold counted. rewrite !filter_app, !length_app, filter_cons.
  destruct (counts n p); case_decide; simpl; try done; lia.
Qed.

Lemma inv_spawn n c r : logged_controller log c → preserves keeps_inv (spawn_add (mkAdd n c r false)).
Proof.
  intros Hc s [H1' H2' H3' H4']. split; [done..| |].
  - intros n'. unfold spawn_add. cbn [fst snd m_addingReplicas m_adds].
    rewrite counted_middle, app_nil_r, (H3' n'). unfold counts. cbn. f_equal. lia.
  - cbn. intros p [Hp|Hp]%elem_of_app; [by apply H4'|]. by apply list_elem_of_singleton in Hp as ->.
Qed.

Lemma inv_add_begin k : preserves keeps_inv (add_begin k).
Proof.
  intros s Hinv. unfold add_begin.
  destruct (m_adds s !! k) as [[n c r []]|] eqn:Ek; [done| |done]. unfold addingReplicasCount. cbn.
  apply (inv_count n 1 (<[k := mkAdd n c r true]> (m_adds s)) s Hinv).
  - intros n'. apply list_elem_of_split_length in Ek as (l1 & l2 & -> & ->).
    rewrite insert_app_r_alt, Nat.sub_diag by done. cbn [insert list_insert].
    rewrite !counted_middle. unfold counts. cbn. destruct (String.eqb n n'); lia.
  - intros p Hp. apply list_elem_of_lookup in Hp as [i Hi]. apply list_lookup_insert_Some in Hi as
      [(<- & <- & _)|[_ Hi]].
    + apply (mi_ctrl _ Hinv (mkAdd n c r false)). by eapply list_elem_of_lookup_2.
    + apply (mi_ctrl _ Hinv). by eapply list_elem_of_lookup_2.
Qed.

(** ** Reachable states *)

(** The operations, and the parts of the goroutines that add replicas. *)
Inductive man_op : Type :=
| OpStart
| OpList
| OpCreate (v : VolumeInfo)
| OpDelete (name : string)
| OpAttach (name : string)
| OpDetach (name : string)
| OpUpdateRecurring (name : string) (jobs : list RecurringJob)
| OpReplicaRemove (volume replica : string)
| OpCheck (c : Controller E) (v : VolumeInfo)
| OpCleanup (v : VolumeInfo)
| OpAddBegin (k : nat)
| OpAddEnd (k : nat).

Definition run_op (op : man_op) : MM unit :=
  match op with
  | OpStart => man_Start
  | OpList => man_List;; mret tt
  | OpCreate v => man_Create v;; mret tt
  | OpDelete n => man_Delete n
  | OpAttach n => man_Attach n
  | OpDetach n => man_Detach n
  | OpUpdateRecurring n jobs => UpdateRecurring n jobs
  | OpReplicaRemove n r => ReplicaRemove n r
  | OpCheck c v => CheckController c v
  | OpCleanup v => man_Cleanup v
  | OpAddBegin k => add_begin k
  | OpAddEnd k => add_end k
  end.

(** A panic ends the process: it is no step. *)
Inductive man_step : volumeManager E Mon → volumeManager E Mon → Prop :=
| step_op op s o s' :
    run_op op s = (o, s') → (∀ x, o ≠ Panic x) →
    (∀ c v, op = OpCheck c v → logged_controller log c) → man_step s s'.

Lemma inv_add_end k s o s' :
  man_inv s → add_end k s = (o, s') → (∀ x, o ≠ Panic x) → man_inv s'.
Proof.
  intros Hinv E1 Hx. unfold add_end in E1.
  destruct (m_adds s !! k) as [[n c r []]|] eqn:Ek; [|by simplify_eq..].
  assert (Hc : logged_controller log c).
  { apply (mi_ctrl _ Hinv (mkAdd n c r true)). by eapply list_elem_of_lookup_2. }
  unfold mbind at 1, M_bind at 1 in E1. destruct (add_replica_body c r s) as [o1 s1] eqn:Eb.
  pose proof (wp_elim _ _ _ _ _ (keeps_body keeps_inv (@inv_logs) c r Hc s) Eb Hinv) as Hinv1.
  assert (Hps : m_adds s1 = m_adds s).
  { eapply (wp_elim _ _ (λ _ s', adds_frame s s')); [|exact Eb].
    apply keeps_body; auto using onE_adds; apply _. }
  destruct o1 as [[]|e|x]; simplify_eq; [|done..].
  unfold mbind, M_bind, addingReplicasCount, add_gone in E1. simplify_eq/=.
  apply (inv_count n (-1) (delete k (m_adds s1)) s1 Hinv1).
  - intros n'. rewrite Hps. apply list_elem_of_split_length in Ek as (l1 & l2 & -> & ->).
    rewrite delete_middle, counted_middle. unfold counts. cbn. destruct (String.eqb n n'); lia.
  - intros p Hp. apply (mi_ctrl _ Hinv1). rewrite list_elem_of_lookup in Hp. destruct Hp as [i Hi].
    rewrite list_lookup_delete in Hi. case_decide; by eapply list_elem_of_lookup_2.
Qed.

Lemma inv_op op :
  (∀ c v, op = OpCheck c v → logged_controller log c) → (∀ k, op ≠ OpAddEnd k) →
  preserves keeps_inv (run_op op).
Proof.
  intros Hc Hend.
  destruct op; cbn [run_op]; try (apply preserves_bind; [apply _| |intros; apply preserves_ret, _]).
  - apply keeps_Start; eauto using @inv_logs, @inv_quiet, inv_start, inv_stop; apply _.
  - apply keeps_List; eauto using @inv_logs, @inv_quiet, inv_start, inv_stop; apply _.
  - apply keeps_Create; eauto using @inv_logs, @inv_quiet, inv_start, inv_stop; apply _.
  - apply keeps_Delete; eauto using @inv_logs, @inv_quiet, inv_start, inv_stop; apply _.
  - apply keeps_Attach; eauto using @inv_logs, @inv_quiet, inv_start, inv_stop; apply _.
  - apply keeps_Detach; eauto using @inv_logs, @inv_quiet, inv_start, inv_stop; apply _.
  - apply keeps_UpdateRecurring; eauto using @inv_logs, @inv_quiet, inv_start, inv_stop; apply _.
  - apply keeps_ReplicaRemove; eauto using @inv_logs, @inv_quiet, inv_start, inv_stop; apply _.
  - apply keeps_CheckController;
      eauto using @inv_logs, @inv_quiet, inv_start, inv_stop, inv_count_zero, inv_spawn; apply _.
  - apply keeps_Cleanup; eauto using @inv_logs, @inv_quiet, inv_start, inv_stop; apply _.
  - apply inv_add_begin.
  - by destruct (Hend k).
Qed.

Lemma inv_step s s' : man_inv s → man_step s s' → man_inv s'.
Proof.
  intros Hinv Hs. destruct Hs as [op s o s' E1 Hx Hc].
  assert (Hop : (∃ k, op = OpAddEnd k) ∨ ∀ k, op ≠ OpAddEnd k) by (destruct op; eauto; by right).
  destruct Hop as [[k ->]|Hne].
  - by eapply inv_add_end.
  - exact (wp_elim _ _ _ _ _ (inv_op op Hc Hne s) E1 Hinv).
Qed.

(** C12: the manager's own state is consistent after any sequence of operations.  For
    every volume, monitors begun are monitors closed, plus one if and only if the volume
    has an entry: never two at once, none lost.  The counter of replicas being added is
    the number of goroutines that have counted themselves and not ended. *)
Theorem manager_state_consistent e s :
  log e = [] → rtc man_step (man_New e) s →
  ∀ n, count_of (begin_of n) (lg s) =
         count_of (close_of n) (lg s) + (match m_monitors s !! n with Some _ => 1 | None => 0 end) ∧
       default 0%Z (m_addingReplicas s !! n) = wrap64 (Z.of_nat (counted n (m_adds s))).
Proof.
  intros He Hr n.
  assert (Hinv : man_inv s).
  { revert s Hr. apply rtc_ind_r; [|intros ?? _ Hs IH; by eapply inv_step].
    split; unfold lg; cbn; [done| |done|]; rewrite ?He; [done|]. intros p Hp%elem_of_nil. done. }
  split; apply Hinv.
Qed.
End Upkeep.
