(* ===== verification/ManagerDemo.v ===== *)
(** * The manager over recorded orchestrators

    Any orchestrator becomes a logged one by recording its calls, the Docker
    orchestrator in particular, so the theorems of [Lifecycle] and [Upkeep] apply to it.
    Then the properties at concrete inputs, over a small orchestrator that keeps volumes
    in a map. *)

From stdpp Require Import base list gmap strings.
From Stdlib Require Import ZArith Lia Ascii.
From S2P Require Import Prelude GoStrings GoTime Json Types Util Backend KVStore Scheduler Docker TaskQueue Controller Backups Retain Cron Manager ManagerSpec Lifecycle Creation Upkeep.
Local Open Scope string_scope.
Local Open Scope list_scope.

(** ** The Docker orchestrator *)

Section DockerOrchestrator.
Context {W : Type} `{Backend W} `{DockerCli W} `{HostOS W} `{Clock W} `{MapOrder} `{HTTPClient W}.
Context (Prefix : string) (d : dockerOrc).

Definition docker_orchestrator : Orchestrator W := {|
  oc_CreateVolume := Docker.CreateVolume Prefix;
  oc_DeleteVolume := orc_DeleteVolume Prefix;
  oc_GetVolume := orc_GetVolume Prefix;
  oc_ListVolumes := orc_ListVolumes Prefix;
  oc_MarkBadReplica := Docker.MarkBadReplica Prefix;
  oc_UpdateVolume := Docker.UpdateVolume Prefix;
  oc_CreateController := Docker.CreateController Prefix d;
  oc_CreateReplica := Docker.CreateReplica Prefix d;
  oc_StartInstance := Docker.StartInstance Prefix d;
  oc_StopInstance := Docker.StopInstance Prefix d;
  oc_RemoveInstance := Docker.RemoveInstance Prefix d;
  oc_ListHosts := orc_ListHosts Prefix;
  oc_GetHost := orc_GetHost Prefix;
  oc_GetCurrentHostID := Docker.GetCurrentHostID d;
  oc_GetAddress := Docker.GetAddress Prefix d;
  oc_GetSettings := orc_GetSettings Prefix d;
  oc_SetSettings := orc_SetSettings Prefix;
|}.
End DockerOrchestrator.

(** ** Recording *)

Section Recorded.
Context {E0 Mon : Type} `{Orchestrator E0} `{Clock E0} `{Random E0}.
Abbreviation E := (E0 * list event)%type.

Definition record_call {A} (c : call) (m : M E0 A) : M E A := λ w,
  let '(o, e) := m w.1 in (o, (e, w.2 ++ [(c, is_ok o)])).
Definition silent {A} (m : M E0 A) : M E A := λ w, let '(o, e) := m w.1 in (o, (e, w.2)).

#[export] Instance recorded_orchestrator : Orchestrator E := {|
  oc_CreateVolume v := record_call (KCreateVolume v) (oc_CreateVolume v);
  oc_DeleteVolume n := record_call (KDeleteVolume n) (oc_DeleteVolume n);
  oc_GetVolume n := silent (oc_GetVolume n);
  oc_ListVolumes := silent oc_ListVolumes;
  oc_MarkBadReplica n r := record_call (KMarkBad n r) (oc_MarkBadReplica n r);
  oc_UpdateVolume v := record_call (KUpdateVolume v) (oc_UpdateVolume v);
  oc_CreateController n cn rs := record_call (KCreateController n rs) (oc_CreateController n cn rs);
  oc_CreateReplica n rn := record_call (KCreateReplica n rn) (oc_CreateReplica n rn);
  oc_StartInstance i := record_call (KStart i) (oc_StartInstance i);
  oc_StopInstance i := record_call (KStop i) (oc_StopInstance i);
  oc_RemoveInstance i := record_call (KRemove i) (oc_RemoveInstance i);
  oc_ListHosts := silent oc_ListHosts;
  oc_GetHost id := silent (oc_GetHost id);
  oc_GetCurrentHostID := oc_GetCurrentHostID (E := E0);
  oc_GetAddress id := silent (oc_GetAddress id);
  oc_GetSettings := silent oc_GetSettings;
  oc_SetSettings si := silent (oc_SetSettings si);
|}.
#[export] Instance recorded_clock : Clock E := {|
  clock_Now w := clock_Now w.1; clock_Sleep d w := (clock_Sleep d w.1, w.2);
|}.
#[export] Instance recorded_random : Random E := {|
  UUID w := let '(u, e) := UUID w.1 in (u, (e, w.2));
|}.

Lemma record_logs {A} c (m : M E0 A) : logs snd (record_call c m) c.
Proof. intros w. unfold wp, record_call. by destruct (m w.1). Qed.
Lemma silent_quiet {A} (m : M E0 A) : quiet snd (silent m).
Proof. intros w. unfold wp, silent. by destruct (m w.1). Qed.

(** What is asked of the other interfaces. *)
Context `{!ManagerDeps E Mon} (mon_of : Mon → string).
Record deps_logged : Prop := {
  dl_Get : ∀ v, quiet snd (getController (Mon := Mon) v);
  dl_ctrl : ∀ v w c w', getController (Mon := Mon) v w = (Ok (Some c), w') → logged_controller snd c;
  dl_backups : ∀ t u, quiet snd (mb_Get (getBackups (Mon := Mon) t) u);
  dl_Begin : ∀ v, logs snd (BeginMonitoring v) (KBegin (v_Name v));
  dl_begun : ∀ v w, wp (BeginMonitoring v) w (λ o _, ∃ m, o = Ok m ∧ mon_of m = v_Name v);
  dl_Close : ∀ m, logs snd (mon_Close m) (KClose (mon_of m));
  dl_closed : ∀ m w, wp (mon_Close m) w (λ o _, ∀ x, o ≠ Panic x);
  dl_Cron : ∀ m js, quiet snd (mon_CronUpdate m js);
}.

Definition recorded_logged (D : deps_logged) : Logged E Mon.
Proof.
  refine (Build_Logged E Mon _ _ _ _ snd mon_of _ _ _ _ _ _ _ _ _ _ _ _ _ _ _ _ _ _ _ _ _);
    intros; try apply record_logs; try apply silent_quiet; try apply D.
  - by eapply D.
  - simpl. by destruct (UUID w.1).
Defined.
End Recorded.

(** ** The properties at concrete inputs *)
Module ManagerWitness.
#[local] Existing Instance list_order.
#[local] Existing Instance in_order.
#[local] Instance cronspec : CronSpec := {| cron_parses s := negb (String.eqb s "") |}.

(** Volumes in a map, and a clock. *)
Abbreviation store := (gmap string VolumeInfo * Z)%type.
#[local] Instance clock : Clock store := {| clock_Now w := w.2; clock_Sleep d w := (w.1, (w.2 + d)%Z) |}.
#[local] Instance random : Random store := {| UUID w := ("0a1b2c3d-0000-4000-8000-000000000000", w) |}.
Definition inst (n : string) (run : bool) : InstanceInfo := mkInstance n "replica" n "h" "10.0.0.1" run "vol".
#[local] Instance orc : Orchestrator store := {|
  oc_CreateVolume v w := (Ok v, (<[v_Name v := v]> w.1, w.2));
  oc_DeleteVolume n w := (Ok tt, (delete n w.1, w.2));
  oc_GetVolume n w := (Ok (w.1 !! n), w);
  oc_ListVolumes w := (Ok (map_to_list w.1).*2, w);
  oc_MarkBadReplica _ _ := mret tt;
  oc_UpdateVolume v w := (Ok tt, (<[v_Name v := v]> w.1, w.2));
  oc_CreateController n cn _ := mret (mkController (mkInstance cn "controller" cn "h" "10.0.0.9" true n));
  oc_CreateReplica n rn w :=
    let r := mkReplica (inst rn false) "" "" in
    (Ok (Some r), (alter (λ v, set_Replicas (Some (<[rn := r]> (replicas_of v))) v) n w.1, w.2));
  oc_StartInstance i := mret i;
  oc_StopInstance i := mret i;
  oc_RemoveInstance i := mret i;
  oc_ListHosts := mret ∅;
  oc_GetHost _ := mret None;
  oc_GetCurrentHostID := "h";
  oc_GetAddress _ := mret "";
  oc_GetSettings := mret (mkSettings "s3://bucket" "image");
  oc_SetSettings _ := mret tt;
|}.

Abbreviation E := (store * list event)%type.
Definition event_of (c : call) : M E unit := λ w, (Ok tt, (w.1, w.2 ++ [(c, true)])).
Definition ctrl (states : list ReplicaInfo) : Controller E := {|
  ct_Name := "vol"; ct_Endpoint := mret "/dev/longhorn/vol"; ct_GetReplicaStates := mret states;
  ct_AddReplica r := event_of (KAddReplica r); ct_RemoveReplica r := event_of (KDropReplica r);
  ct_PutTask _ := mret tt; ct_ListTasks := mret []; ct_LatestBgTasks := mret [];
  ct_SnapshotOps := mkSnapshotOps _ (λ n _, mret n) (mret []) (λ _, mret None) (λ _, mret tt)
                      (λ _, mret tt) (mret tt);
  ct_BackupOps := mkBackupOps _ (λ _ _, mret tt) (λ u, event_of (KRestore u)) (λ _, mret tt);
|}.
(** The one backup there is. *)
Definition backup : BackupInfo :=
  mkBackup "b1" "s3://bucket/b1" "snap" "" "" "" "old" "8192" "".
#[local] Instance deps : ManagerDeps E string := {|
  getController v := mret (match v with Some _ => Some (ctrl []) | None => None end);
  getBackups _ := mkManagerBackupOps _ (λ _, mret []) (λ u, mret (if String.eqb u (b_URL backup) then Some backup else None)) (λ _, mret tt) (mret [])
                    (λ _, mret (mkBackupVolume "" "" ""));
  BeginMonitoring v w := (Ok (v_Name v), (w.1, w.2 ++ [(KBegin (v_Name v), true)]));
  mon_Close m := event_of (KClose m);
  mon_CronUpdate _ _ := mret tt;
|}.

Lemma ctrl_logged states : logged_controller snd (ctrl states).
Proof. by split; intros; intros w. Qed.
Lemma deps_ok : deps_logged (Mon := string) (λ m, m).
Proof.
  split; try (by intros; intros w); try (by intros ?? ?).
  - intros [v|] w c w' Ec; [|done]. injection Ec as <- <-. apply ctrl_logged.
  - intros v w. by eexists.
Qed.
#[local] Instance logged : Logged E string := recorded_logged (λ m, m) deps_ok.

Definition good_replica : ReplicaInfo := mkReplica (inst "r1" true) "" "".
Definition bad_replica : ReplicaInfo := mkReplica (inst "r2" true) "" "2017-01-01T00:00:00Z".
Definition volume (rs : gmap string ReplicaInfo) (c : option ControllerInfo) : VolumeInfo :=
  mkVolume "vol" 4096 "" "" 2 0 c (Some rs) "" "image" "" "" [].
Definition controller : ControllerInfo :=
  mkController (mkInstance "c" "controller" "vol-controller" "h2" "10.0.0.9" true "vol").
Definition attached : VolumeInfo := volume {[ "r1" := good_replica ]} (Some controller).
Definition degraded : VolumeInfo := volume {[ "r1" := good_replica; "r2" := bad_replica ]} None.
(** Three hours after the replica went bad. *)
Definition start (v : VolumeInfo) : volumeManager E string :=
  man_New (({[ "vol" := v ]}, ((1483228800 + 10800) * nanos)%Z), []).

Lemma detach_order_witness :
  ∃ l, (man_Detach "vol" (start attached)).2.(m_env).2 = l ∧ detach_events attached true l.
Proof.
  edestruct (detach_order "vol" attached (m_env (start attached)) (start attached)) as (l & Hl & Hd);
    [vm_compute; reflexivity|].
  exists l. split; [exact Hl|]. destruct Hd as [[_ Hne]|Hd]; [|exact Hd].
  destruct Hne. vm_compute. reflexivity.
Defined.

Lemma delete_order_witness :
  ∃ l, (man_Delete "vol" (start attached)).2.(m_env).2 = l ∧ (KDeleteVolume "vol", true) ∈ l.
Proof.
  edestruct (delete_order "vol" attached (m_env (start attached)) (start attached)) as (l & Hl & _ & Hok);
    [vm_compute; reflexivity|].
  exists l. split; [exact Hl|]. apply Hok. vm_compute. reflexivity.
Defined.


(** A volume of two replicas, in an empty store. *)
Definition wanted : VolumeInfo := mkVolume "new" 4096 "" "" 2 0 None None "" "" "" "" [].
Definition empty : volumeManager E string := man_New ((∅, 0%Z), []).

Lemma orc_create_returns (v : VolumeInfo) (e : E) v' e' :
  oc_CreateVolume v e = (Ok v', e') → v' = v.
Proof. unfold oc_CreateVolume. simpl. unfold record_call. by intros [= <- _]. Qed.

(** The same from the backup. *)
Definition wanted_back : VolumeInfo := mkVolume "new" 0 "" (b_URL backup) 2 0 None None "" "" "" "" [].

Lemma create_as_asked_witness :
  (∃ v l, asked_for wanted v ∧ creation_events v true l ∧ (man_Create wanted empty).2.(m_env).2 = l) ∧
  (∃ v vol l1 l2, asked_for wanted_back v ∧ v_Size v = 8192%Z ∧ creation_events v true l1 ∧
     read_back "new" l1 vol ∧ restored (E := E) vol (b_URL backup) l2 ∧
     (man_Create wanted_back empty).2.(m_env).2 = l1 ++ l2).
Proof.
  split.
  - destruct (create_as_asked orc_create_returns wanted empty) as (l & Hl & Hc & _).
    assert (Hok : is_ok (man_Create wanted empty).1 = true) by (vm_compute; reflexivity).
    destruct Hc as [[_ Hc]|(v & full & l1 & l2 & -> & Hv & Hev & Hfull & Hl2)];
      [rewrite Hok in Hc; discriminate Hc|].
    change (v_FromBackup wanted) with "" in Hl2. cbn [String.eqb] in Hl2. subst l2.
    rewrite app_nil_r in Hl. rewrite (Hfull (or_introl Hok)) in Hev.
    exists v, l1. exact (conj Hv (conj Hev Hl)).
  - destruct (create_as_asked orc_create_returns wanted_back empty) as (l & Hl & Hc & _).
    assert (Hok : is_ok (man_Create wanted_back empty).1 = true) by (vm_compute; reflexivity).
    destruct Hc as [[_ Hc]|(v & full & l1 & l2 & -> & Hv & Hev & Hfull & b & Hb & Hsize & Hr)];
      [rewrite Hok in Hc; discriminate Hc|].
    rewrite (Hfull (or_introl Hok)) in Hev. destruct (Hr Hok) as (vol & Hread & Hrest).
    assert (Eb : b = backup).
    { destruct Hb as (es & st & eb & _ & Hst & _ & _ & Hg). injection Hst as <-. vm_compute in Hg. by injection Hg as <-. }
    subst b. exists v, vol, l1, l2. split; [exact Hv|]. split; [change (ParseInt (b_VolumeSize backup)) with (Some 8192%Z) in Hsize; by injection Hsize|].
    exact (conj Hev (conj Hread (conj Hrest Hl))).
Defined.

Lemma attach_bad_replica_panics_witness :
  (doAttach degraded (start degraded)).1 = Panic "nil pointer dereference" ∧
  m_monitors (doAttach degraded (start degraded)).2 = ∅.
Proof.
  destruct (attach_bad_replica_panics degraded (start degraded) "r2" bad_replica) as ((p & Hp & Hwhy) & (Hm & _) & _).
  - reflexivity.
  - vm_compute. reflexivity.
  - reflexivity.
  - vm_compute. eexists. reflexivity.
  - rewrite Hp, Hm, Hwhy; [split; reflexivity|]. intros i [[w t] l] x. discriminate.
Defined.

Lemma cleanup_only_expired_witness :
  (KRemove (inst "r2" true), true) ∈ (man_Cleanup degraded (start degraded)).2.(m_env).2.
Proof.
  destruct (cleanup_only_expired degraded (set_State "detached" degraded) (start degraded) (start degraded))
    as (l & Hl & _ & Hok).
  - vm_compute. reflexivity.
  - change (lg (start degraded)) with (@nil event) in Hl. unfold lg in Hl. cbn [app] in Hl.
    change (@log _ _ _ _ _ _ _) with (@snd store (list event)) in Hl. rewrite Hl. apply Hok.
    + vm_compute. reflexivity.
    + exists "r2", bad_replica. split; [vm_compute; reflexivity|]. split; [reflexivity|].
      right. split; [reflexivity|]. exists (1483228800 * nanos)%Z.
      split; vm_compute; reflexivity.
Defined.

(** One replica in error, one in good order, two wanted. *)
Definition states : list ReplicaInfo :=
  [mkReplica (inst "r1" true) ReplicaModeRW ""; mkReplica (inst "r2" true) ReplicaModeERR ""].

(** The last good replica is gone. *)
Definition lost : list ReplicaInfo := [mkReplica (inst "r1" true) ReplicaModeERR ""].

Lemma check_controller_repairs_witness :
  (∃ r, (CheckController (ctrl states) degraded (start degraded)).2.(m_adds) =
        [mkAdd "vol" (ctrl states) r false]) ∧
  (∃ l0 l1, (CheckController (ctrl lost) attached (start attached)).2.(m_env).2 = l0 ++ l1 ∧
     l0 ≡ₚ [(KDropReplica (mkReplica (inst "r1" true) ReplicaModeERR ""), true);
            (KMarkBad "vol" (mkReplica (inst "r1" true) ReplicaModeERR ""), true)] ∧
     detach_events attached true l1).
Proof.
  split.
  - edestruct (check_controller_repairs (ctrl states) degraded states (start degraded)
                 (m_env (start degraded))) as (l0 & l1 & _ & _ & _ & Ho).
    1: apply ctrl_logged. 1: reflexivity. 1: apply surjective_pairing.
    assert (Hok : is_ok (CheckController (ctrl states) degraded (start degraded)).1 = true)
      by (vm_compute; reflexivity).
    assert (Hneed : needs_replica (start degraded) degraded states = true) by (vm_compute; reflexivity).
    set (m := fan_out _ _ _) in Ho. assert (Hm : m.1 = Ok tt) by (vm_compute; reflexivity). rewrite Hm in Ho.
    change (in_mode ReplicaModeRW states) with [mkReplica (inst "r1" true) ReplicaModeRW ""] in Ho.
    cbn iota in Ho. rewrite Hneed in Ho. unfold replica_coming in Ho. rewrite Hok in Ho.
    destruct Ho as (_ & rn & r & i & _ & Ha). eexists. exact Ha.
  - edestruct (check_controller_repairs (ctrl lost) attached lost (start attached)
                 (m_env (start attached))) as (l0 & l1 & Hl0 & Hl1 & _ & Ho).
    1: apply ctrl_logged. 1: reflexivity. 1: apply surjective_pairing.
    assert (Hok : is_ok (CheckController (ctrl lost) attached (start attached)).1 = true)
      by (vm_compute; reflexivity).
    set (m := fan_out _ _ _) in Ho, Hl0, Hl1.
    assert (Hm : m.1 = Ok tt) by (vm_compute; reflexivity). rewrite Hm in Ho.
    assert (Hget : (oc_GetVolume (v_Name attached) (m_env m.2)).1 = Ok (Some attached))
      by (vm_compute; reflexivity).
    change (in_mode ReplicaModeRW lost) with (@nil ReplicaInfo) in Ho. cbn iota in Ho.
    destruct Ho as (Hperm & Hdet & _). unfold detaching in Hdet.
    rewrite Hget, Hok in Hdet. destruct Hdet as [Hdet|[_ Hdet]]; [|discriminate Hdet].
    rewrite Hl0, <-app_assoc in Hl1. exists l0, l1. split; [exact Hl1|]. split; [exact Hperm|exact Hdet].
Defined.

Lemma manager_state_consistent_witness :
  ∃ s : volumeManager E string, rtc man_step (start degraded) s ∧
    default 0%Z (m_addingReplicas s !! "vol") = wrap64 (Z.of_nat (counted "vol" (m_adds s))) ∧
    counted "vol" (m_adds s) = 1.
Proof.
  set (s1 := (CheckController (ctrl states) degraded (start degraded)).2).
  set (s2 := (add_begin 0 s1).2).
  assert (Hr : rtc man_step (start degraded) s2).
  { eapply rtc_l; [|eapply rtc_l; [|apply rtc_refl]].
    - apply (step_op (OpCheck (ctrl states) degraded) _ (Ok tt) s1); [vm_compute; reflexivity|discriminate|].
      intros c v [= <- <-]. apply ctrl_logged.
    - apply (step_op (OpAddBegin 0) _ (Ok tt) s2); [vm_compute; reflexivity|discriminate..]. }
  exists s2. split; [exact Hr|]. split; [|vm_compute; reflexivity].
  exact (proj2 (manager_state_consistent (m_env (start degraded)) s2 eq_refl Hr "vol")).
Defined.
End ManagerWitness.
