(* ===== verification/Monitor.v ===== *)
(** * Monitoring an attached volume

    [manager/monitor.go] and [manager/event.go]: the ticker that feeds the loops, the
    loop that checks the controller of a volume and gives up on it, the loop that cleans
    up, and the closing of a monitor. *)

From stdpp Require Import base list gmap strings.
From Stdlib Require Import ZArith Lia Ascii.
From S2P Require Import Prelude GoStrings GoTime Json Types Util TaskQueue Controller Backups Retain Cron Manager ManagerSpec Lifecycle Upkeep ManagerDemo.
Local Open Scope string_scope.
Local Open Scope list_scope.

Definition MonitoringPeriod : Z := Second * 2.
Definition MonitoringMaxRetries : Z := 3.
Definition CleanupPeriod : Z := Minute * 2.

(** ** Channels and the ticker *)

Inductive channel : Type := NilChan | OpenChan | ClosedChan.

(** [Send]: on an open channel it returns once the event is received; the panic of a
    send on a closed one is recovered and the zero value is returned. *)
Definition Send (c : channel) : bool :=
  match c with NilChan => false | OpenChan => true | ClosedChan => false end.

(** The goroutine of a ticker waits for the timer, or sends a tick, or is gone. *)
Inductive tick_goroutine : Type := Waiting | Sending.

Record tickerImpl := mkTicker {
  tk_timer : option bool;                (* created; armed *)
  tk_running : list tick_goroutine;      (* the goroutines of [tick] *)
}.

Definition NewTicker : tickerImpl := mkTicker None [].

Definition tk_Start (t : tickerImpl) : tickerImpl :=
  match tk_timer t with
  | None => mkTicker (Some true) (tk_running t ++ [Waiting])
  | Some _ => mkTicker (Some true) (tk_running t)
  end.

Definition tk_Stop (t : tickerImpl) : tickerImpl :=
  mkTicker (match tk_timer t with Some _ => Some false | None => None end) (tk_running t).

(** The steps of a ticker: its methods, the timer firing, and the end of a send. *)
Inductive ticker_step : tickerImpl → tickerImpl → Prop :=
| ticker_start t : ticker_step t (tk_Start t)
| ticker_stop t : ticker_step t (tk_Stop t)
| ticker_fire gs1 gs2 :
    ticker_step (mkTicker (Some true) (gs1 ++ Waiting :: gs2))
                (mkTicker (Some false) (gs1 ++ Sending :: gs2))
| ticker_sent armed gs1 gs2 c :
    Send c = true →
    ticker_step (mkTicker (Some armed) (gs1 ++ Sending :: gs2))
                (mkTicker (Some true) (gs1 ++ gs2 ++ [Waiting]))
| ticker_closed armed gs1 gs2 c :
    Send c = false →
    ticker_step (mkTicker (Some armed) (gs1 ++ Sending :: gs2)) (mkTicker (Some armed) (gs1 ++ gs2)).

(** However it is started, stopped and restarted, a ticker has at most one goroutine. *)
Lemma ticker_single t : rtc ticker_step NewTicker t → length (tk_running t) <= 1.
Proof.
  intros Hr.
  assert (Hinv : length (tk_running t) <= 1 ∧ (tk_timer t = None → tk_running t = [])); [|tauto].
  revert t Hr. apply rtc_ind_r; [simpl; auto|]. intros t t' _ Hs [H1 H2].
  inversion Hs; subst; simpl in *; rewrite ?length_app in *; simpl in *.
  - unfold tk_Start. destruct (tk_timer t) as [b|]; simpl; [split; [done|discriminate]|].
    specialize (H2 eq_refl). rewrite H2. split; [simpl; lia|discriminate].
  - unfold tk_Stop. destruct (tk_timer t); simpl; split; auto; discriminate.
  - split; [lia|done].
  - rewrite ?length_app in *. simpl in *. split; [lia|done].
  - split; [lia|done].
Qed.

(** ** Closing a monitor *)

Record monitorChan := mkMonitorChan {
  mc_volume : VolumeInfo;
  mc_cronCh : channel;
  mc_monitorCh : channel;
  mc_cleanupCh : channel;
}.

(** The deferred calls run in turn, a panic in one of them (closing a closed or nil
    channel) not keeping the next from running; [true]: [controller.Cleanup] was called.
    The last one recovers. *)
Definition close_chan (c : channel) : channel :=
  match c with NilChan => NilChan | _ => ClosedChan end.
Definition mc_Close (mc : monitorChan) : monitorChan * bool :=
  (mkMonitorChan (mc_volume mc) (close_chan (mc_cronCh mc)) (close_chan (mc_monitorCh mc))
     (close_chan (mc_cleanupCh mc)), true).

(** ** The loops *)

Section Loops.
Context {E Mon : Type} `{Orchestrator E} `{ManagerDeps E Mon} `{Clock E} `{Random E}.
Context `{MapOrder} `{GoSched} `{CronSpec}.
Abbreviation MM := (M (volumeManager E Mon)).

(** [err.(ControllerError)]: an error that has a method [Cause() error], which those
    made by [errors.Wrapf] have too. *)
Definition is_ControllerError (e : error) : bool :=
  match e with CtrlErr _ | Wrapf _ _ => true | _ => false end.

(** How the loop stands after some ticks. *)
Inductive monitor_state : Type :=
| Watching (failedAttempts : Z)
| GaveUp.

Definition abandon (volume : VolumeInfo) : MM monitor_state :=
  ignore (man_Detach (v_Name volume));; mret GaveUp.

(** One round of [for range ch]. *)
Definition monitor_tick (ctrl : Controller E) (volume : VolumeInfo) (failedAttempts : Z)
    : MM monitor_state :=
  r ← attempt (CheckController ctrl volume);
  match r with
  | inl _ => mret (Watching 0)
  | inr err =>
    if is_ControllerError err then abandon volume
    else
      let failedAttempts := (failedAttempts + 1)%Z in
      if (MonitoringMaxRetries <? failedAttempts)%Z then abandon volume
      else mret (Watching failedAttempts)
  end.

(** The loop over [n] ticks; giving up closes the channel, which ends it. *)
Fixpoint monitor_loop (ctrl : Controller E) (volume : VolumeInfo) (n : nat) (failedAttempts : Z)
    : MM monitor_state :=
  match n with
  | O => mret (Watching failedAttempts)
  | S n =>
    st ← monitor_tick ctrl volume failedAttempts;
    match st with
    | Watching f => monitor_loop ctrl volume n f
    | GaveUp => mret GaveUp
    end
  end.

(** The first tick is only waited for. *)
Definition monitor (ctrl : Controller E) (volume : VolumeInfo) (ticks : nat) : MM monitor_state :=
  match ticks with
  | O => mret (Watching 0)
  | S n => monitor_loop ctrl volume n 0
  end.

Definition cleanup_loop (volume : VolumeInfo) (n : nat) : MM unit :=
  mfor (λ _, ignore (man_Cleanup volume)) (seq 0 n).
Definition cleanup (volume : VolumeInfo) (ticks : nat) : MM unit := cleanup_loop volume (pred ticks).

(** ** When the loop gives up *)

(** The results of checks that follow each other, the newest first. *)
Inductive checked (ctrl : Controller E) (v : VolumeInfo)
    : volumeManager E Mon → list (option error) → volumeManager E Mon → Prop :=
| checked_nil s : checked ctrl v s [] s
| checked_cons s h s1 o s2 :
    checked ctrl v s h s1 → attempt (CheckController ctrl v) s1 = (Ok o, s2) →
    checked ctrl v s (match o with inl _ => None | inr e => Some e end :: h) s2.

(** How many checks have failed since the last one that did not. *)
Fixpoint fails (h : list (option error)) : nat :=
  match h with Some _ :: h' => S (fails h') | _ => 0 end.

(** The check just made failed for good, or is the fourth in a row to fail. *)
Definition hopeless (h : list (option error)) : bool :=
  match h with
  | Some e :: _ => is_ControllerError e || (3 <? fails h)%nat
  | _ => false
  end.

Definition hopeful (h : list (option error)) : Prop := ∀ h', h' `suffix_of` h → hopeless h' = false.

Lemma hopeful_nil : hopeful [].
Proof. intros h' Hs. by apply suffix_nil_inv in Hs as ->. Qed.

Lemma hopeful_cons r h : hopeful h → hopeless (r :: h) = false → hopeful (r :: h).
Proof.
  intros Hh Hr h' [[|x k] Hk]; simplify_eq/=; [done|]. apply Hh. by exists k.
Qed.

Lemma monitor_tick_spec ctrl v h s s1 o s2 :
  checked ctrl v s h s1 → hopeful h →
  monitor_tick ctrl v (Z.of_nat (fails h)) s1 = (o, s2) →
  match o with
  | Ok (Watching f) => ∃ r, checked ctrl v s (r :: h) s2 ∧ hopeful (r :: h) ∧ f = Z.of_nat (fails (r :: h))
  | Ok GaveUp => ∃ r s3 o', checked ctrl v s (r :: h) s3 ∧ hopeless (r :: h) = true ∧
                   man_Detach (v_Name v) s3 = (o', s2)
  | _ => True
  end.
Proof.
  intros Hc Hh Et. unfold monitor_tick in Et. unfold mbind at 1, M_bind at 1 in Et.
  destruct (attempt (CheckController ctrl v) s1) as [[[[]|e]|e|x] s3] eqn:Ea; [..|by injection Et as <- <-|by injection Et as <- <-].
  - injection Et as <- <-. exists None. split_and!; [exact (checked_cons _ _ _ _ _ _ _ Hc Ea)| |done].
    by apply hopeful_cons.
  - pose proof (checked_cons _ _ _ _ _ _ _ Hc Ea) as Hc'. cbn beta iota in Hc'.
    assert (Hab : ∀ o s2, abandon v s3 = (o, s2) → match o with
      | Ok GaveUp => ∃ o', man_Detach (v_Name v) s3 = (o', s2) | Ok (Watching _) => False | _ => True end).
    { intros o0 s0. unfold abandon, ignore, mbind, M_bind, attempt.
      destruct (man_Detach (v_Name v) s3) as [[?|?|?] s4]; intros [= <- <-]; eauto. }
    assert (Hgive : hopeless (Some e :: h) = true → abandon v s3 = (o, s2) → match o with
      | Ok (Watching f) => ∃ r, checked ctrl v s (r :: h) s2 ∧ hopeful (r :: h) ∧ f = Z.of_nat (fails (r :: h))
      | Ok GaveUp => ∃ r s3 o', checked ctrl v s (r :: h) s3 ∧ hopeless (r :: h) = true ∧
                       man_Detach (v_Name v) s3 = (o', s2)
      | _ => True end).
    { intros Hl Ha. apply Hab in Ha. destruct o as [[f|]|?|?]; try done. destruct Ha as [o' Ho']. eauto 10. }
    destruct (is_ControllerError e) eqn:Ee; [apply Hgive; [simpl; by rewrite Ee|done]|].
    destruct (Z.ltb_spec MonitoringMaxRetries (Z.of_nat (fails h) + 1)) as [Hlt|Hge].
    + apply Hgive; [|done]. simpl. rewrite Ee. apply Nat.ltb_lt. unfold MonitoringMaxRetries in *. lia.
    + injection Et as <- <-. exists (Some e). split_and!; [done| |simpl; lia].
      apply hopeful_cons; [done|]. simpl. rewrite Ee. apply Nat.ltb_ge. unfold MonitoringMaxRetries in *. lia.
Qed.

(** C19: the monitor gives up when it has to and not before.  After any number of
    ticks it is still watching if and only if no check has failed for good and no four
    checks in a row have failed; the first time one of those happens, the volume is
    detached, and no check follows. *)
Theorem monitor_gives_up ctrl v n s o s' :
  monitor_loop ctrl v n 0 s = (o, s') →
  match o with
  | Ok (Watching f) => ∃ h, checked ctrl v s h s' ∧ length h = n ∧ hopeful h ∧ f = Z.of_nat (fails h)
  | Ok GaveUp => ∃ r h s1 o', checked ctrl v s (r :: h) s1 ∧ length h < n ∧ hopeful h ∧
                   hopeless (r :: h) = true ∧ man_Detach (v_Name v) s1 = (o', s')
  | Err _ => False
  | Panic _ => True
  end.
Proof.
  assert (Hgen : ∀ n h s1 o s', checked ctrl v s h s1 → hopeful h →
    monitor_loop ctrl v n (Z.of_nat (fails h)) s1 = (o, s') →
    match o with
    | Ok (Watching f) => ∃ h', checked ctrl v s h' s' ∧ length h' = n + length h ∧ hopeful h' ∧
                           f = Z.of_nat (fails h')
    | Ok GaveUp => ∃ r h' s1 o', checked ctrl v s (r :: h') s1 ∧ length h' < n + length h ∧ hopeful h' ∧
                     hopeless (r :: h') = true ∧ man_Detach (v_Name v) s1 = (o', s')
    | Err _ => False
    | Panic _ => True
    end).
  { clear n o s'. induction n as [|n IH]; intros h s1 o s' Hc Hh El; cbn [monitor_loop] in El.
    - injection El as <- <-. eauto 10.
    - unfold mbind, M_bind in El. destruct (monitor_tick _ _ _ s1) as [o1 s2] eqn:Et.
      assert (Hne : ∀ e, o1 ≠ Err e).
      { intros e ->. clear -Et. unfold monitor_tick, abandon, ignore, mbind, M_bind, attempt in Et.
        destruct (CheckController ctrl v s1) as [[[]|e1|x] s3]; try done.
        by repeat case_match. }
      pose proof (monitor_tick_spec _ _ _ _ _ _ _ Hc Hh Et) as Hs.
      destruct o1 as [[f|]|e|x]; [| |by destruct (Hne e)|by injection El as <- <-].
      + destruct Hs as (r & Hc' & Hh' & ->). apply (IH _ _ _ _ Hc' Hh') in El. simpl length in El.
        by rewrite Nat.add_succ_r in El.
      + injection El as <- <-. destruct Hs as (r & s3 & o' & Hc' & Hl & Hd).
        exists r, h, s3, o'. split_and!; [done|lia|done..]. }
  intros El. specialize (Hgen n [] s o s' (checked_nil _ _ _) hopeful_nil El). simpl in Hgen.
  by rewrite Nat.add_0_r in Hgen.
Qed.

Lemma fan_out_nil {A} (f : A → MM unit) s : fan_out f [] s = (Ok tt, s).
Proof.
  unfold fan_out. replace (go_order (@nil A)) with (@nil A); [done|].
  symmetry. apply Permutation_nil_r, go_order_perm.
Qed.

(** C33: one failed repair detaches the volume.  When the controller has good replicas
    but too few, and the replacement cannot be created, the very first tick gives the
    volume up: the error carries a cause, so it is taken for a failure of the
    controller, and the retries are for other errors only. *)
Theorem failed_repair_detaches ctrl v rs f s e1 :
  ct_GetReplicaStates ctrl (m_env s) = (Ok rs, e1) →
  in_mode ReplicaModeERR rs = [] → in_mode ReplicaModeRW rs ≠ [] → needs_replica s v rs = true →
  (∀ n rn w, ∃ x w', oc_CreateReplica n rn w = (Err x, w')) →
  ∃ s1, monitor_tick ctrl v f s = abandon v s1.
Proof.
  intros Ers Herr Hrw Hneed Hfail. unfold monitor_tick, mbind at 1, M_bind at 1, attempt at 1.
  unfold CheckController, mbind at 1, M_bind at 1, attempt at 1, onE at 1. rewrite Ers. cbn beta iota.
  unfold err_jobs. rewrite Herr. cbn [mbind list_bind]. unfold mbind at 1, M_bind at 1.
  rewrite fan_out_nil. unfold needs_replica in Hneed.
  destruct (in_mode ReplicaModeRW rs) as [|r0 rw]; [done|].
  unfold mbind at 1, M_bind at 1, addingReplicasCount at 1. cbn [m_addingReplicas]. rewrite Hneed.
  unfold createAndAddReplicaToController, GetReplicaName, RandomID, onE, mbind, M_bind, wrap.
  cbn [m_env]. destruct (UUID e1) as [u e2]. cbn.
  match goal with |- context [oc_CreateReplica ?a ?b ?c] => destruct (Hfail a b c) as (x & e3 & ->) end.
  cbn. by eexists.
Qed.
End Loops.

(** ** The properties at concrete inputs *)
Module MonitorDemo.
#[local] Existing Instance list_order.
#[local] Existing Instance in_order.
Import ManagerWitness.
#[local] Existing Instances cronspec clock random orc deps.

(** The same orchestrator, but no replica can be created. *)
#[local] Instance full : Orchestrator store := {|
  oc_CreateVolume := oc_CreateVolume (E := store);
  oc_DeleteVolume := oc_DeleteVolume (E := store);
  oc_GetVolume := oc_GetVolume (E := store);
  oc_ListVolumes := oc_ListVolumes (E := store);
  oc_MarkBadReplica := oc_MarkBadReplica (E := store);
  oc_UpdateVolume := oc_UpdateVolume (E := store);
  oc_CreateController := oc_CreateController (E := store);
  oc_CreateReplica _ _ := fail (ExtErr "unable to find suitable host");
  oc_StartInstance := oc_StartInstance (E := store);
  oc_StopInstance := oc_StopInstance (E := store);
  oc_RemoveInstance := oc_RemoveInstance (E := store);
  oc_ListHosts := oc_ListHosts (E := store);
  oc_GetHost := oc_GetHost (E := store);
  oc_GetCurrentHostID := oc_GetCurrentHostID (E := store);
  oc_GetAddress := oc_GetAddress (E := store);
  oc_GetSettings := oc_GetSettings (E := store);
  oc_SetSettings := oc_SetSettings (E := store);
|}.

Definition one_good : list ReplicaInfo := [mkReplica (inst "r1" true) ReplicaModeRW ""].

Lemma failed_repair_detaches_witness :
  ∃ s1, monitor_tick (ctrl one_good) attached 0 (start attached) = abandon attached s1.
Proof.
  eapply (failed_repair_detaches (ctrl one_good) attached one_good 0 (start attached)).
  - reflexivity.
  - reflexivity.
  - discriminate.
  - vm_compute. reflexivity.
  - intros n rn w. eexists _, _. reflexivity.
Defined.

Lemma monitor_gives_up_witness :
  ∃ r h s1, checked (ctrl one_good) attached (start attached) (r :: h) s1 ∧ hopeless (r :: h) = true.
Proof.
  destruct (monitor_loop (ctrl one_good) attached 3 0 (start attached)) as [o s'] eqn:El.
  pose proof (monitor_gives_up (ctrl one_good) attached 3 (start attached) o s' El) as Hm.
  assert (Ho : o = Ok GaveUp).
  { change o with ((o, s').1). rewrite <-El. vm_compute. reflexivity. }
  rewrite Ho in Hm. destruct Hm as (r & h & s1 & o' & Hc & _ & _ & Hl & _).
  exists r, h, s1. split; [exact Hc|exact Hl].
Defined.
End MonitorDemo.
