(* ===== verification/Clients.v ===== *)
(** * The clients of a manager

    The interfaces the manager is written against ([ManagerDeps]) with what [main.go]
    gives it: controllers from the holder of [controller/controller.go], the backup store of
    [backups/backups.go], and the monitors of [manager/monitor.go].  They leave the store
    and Docker alone, which [System] relies on.  The client of a volume is released by
    the monitor that watches it, and only then. *)

From stdpp Require Import base list gmap strings.
From Stdlib Require Import ZArith Lia Ascii.
From S2P Require Import Prelude GoStrings GoTime Json Types Util Backend KVSpec DockerSpec TaskQueue Controller Backups Retain Cron Manager ManagerSpec Lifecycle Upkeep ManagerDemo Monitor.
Local Open Scope string_scope.
Local Open Scope list_scope.

(** ** What the clients keep

    The holder of controllers, and the goroutines that belong to a controller or to a
    monitor: the queue of its background tasks and its worker ([TaskQueue]), the purges it
    has pending, the loop that runs recurring jobs ([Cron.RunJobs]).  Controllers are
    told apart by their numbers in the holder. *)
Class Clients (W : Type) := {
  cl_holder : W → holder;
  cl_set_holder : holder → W → W;
  cl_Put : nat → BgTask W → M W unit;
  cl_List : nat → M W (list (BgTask W));
  cl_Latest : nat → M W (list (BgTask W));
  cl_purging : nat → W → nat;
  cl_CronCh : VolumeInfo → list RecurringJob → M W unit;
}.

Section Clients.
Context {W : Type} `{Engine W} `{JsonText} `{Mapstructure} `{MapOrder} `{Clients W}.

(** *** The methods of [controller] *)

Definition ctrl_SnapshotOps (c : controller) : SnapshotOps W := {|
  sn_Create := snap_Create (co_url c);
  sn_List := snap_List (co_url c);
  sn_Get := snap_Get (co_url c);
  sn_Delete := snap_Delete (co_url c);
  sn_Revert := snap_Revert (co_url c);
  sn_Purge := λ w, snap_Purge (co_url c) (cl_purging (co_id c) w) w;
|}.

Definition ctrl_BackupOps (c : controller) : VolumeBackupOps W := {|
  vb_StartBackup := StartBackup (co_url c) (cl_Put (co_id c));
  vb_Restore := Restore (co_url c);
  vb_DeleteBackup := DeleteBackup (co_url c);
|}.

Definition client (c : controller) : Controller W := {|
  ct_Name := co_name c;
  ct_Endpoint := Endpoint (co_url c);
  ct_GetReplicaStates := GetReplicaStates (co_url c);
  ct_AddReplica := AddReplica (co_url c);
  ct_RemoveReplica := RemoveReplica (co_url c);
  ct_PutTask := cl_Put (co_id c);
  ct_ListTasks := cl_List (co_id c);
  ct_LatestBgTasks := cl_Latest (co_id c);
  ct_SnapshotOps := ctrl_SnapshotOps c;
  ct_BackupOps := ctrl_BackupOps c;
|}.

(** *** The holder *)

(** [controller.Get]: a request to the goroutine of the holder, and its answer. *)
Definition controller_Get (volume : option VolumeInfo) : M W (option (Controller W)) := λ w,
  let '(h, c) := ctrl_Get (cl_holder w) volume in (Ok (client <$> c), cl_set_holder h w).

(** [controller.Cleanup]. *)
Definition controller_Cleanup (volume : VolumeInfo) : M W unit := λ w,
  (Ok tt, cl_set_holder (ctrl_Cleanup (cl_holder w) volume) w).

(** *** Monitors *)

(** [Monitor]: the clients of the goroutines are obtained when they are started; the
    goroutines are the loops of [Monitor] and [Cron]. *)
Definition Monitor_begin (volume : VolumeInfo) : M W monitorChan :=
  controller_Get (Some volume);;
  controller_Get (Some volume);;
  mret (mkMonitorChan volume OpenChan OpenChan OpenChan).

Definition monitor_Close (mc : monitorChan) : M W unit :=
  if (mc_Close mc).2 then controller_Cleanup (mc_volume mc) else mret tt.

(** What [RunManager] passes to [manager.New]. *)
#[export] Instance clients_deps : ManagerDeps W monitorChan := {|
  getController := controller_Get;
  getBackups := backup_ops;
  BeginMonitoring := Monitor_begin;
  mon_Close := monitor_Close;
  mon_CronUpdate mc := cl_CronCh (mc_volume mc);
|}.
End Clients.

(** ** Keeping to themselves *)

(** Reading the holder gives what was written; it is in the memory of the manager, and an
    engine is asked over the network: neither has to do with the store or Docker. *)
Class ClientsSpec (W : Type) `{BackendSpec W} `{ContainerNames W} `{Engine W} `{Clients W} := {
  holder_set : ∀ h w, cl_holder (cl_set_holder h w) = h;
  set_holder_free : ∀ h w, kv_frame w (cl_set_holder h w);
  engine_free : ∀ args t, kv_free (cmd_CombinedOutput args t);
}.

Section Apart.
Context {W : Type} `{ClientsSpec W} `{JsonText} `{Mapstructure} `{MapOrder}.

Lemma controller_Get_free v : kv_free (controller_Get v).
Proof.
  intros w. unfold wp, controller_Get. destruct (ctrl_Get (cl_holder w) v). apply set_holder_free.
Qed.
Lemma controller_Cleanup_free v : kv_free (controller_Cleanup v).
Proof. intros w. apply set_holder_free. Qed.
Hint Resolve controller_Get_free controller_Cleanup_free engine_free : frame.

Lemma Endpoint_free url : kv_free (Endpoint url).
Proof. unfold Endpoint, ctrl_info, Execute, ExecuteWithTimeout. frees. Qed.
Lemma Monitor_begin_free v : kv_free (Monitor_begin v).
Proof. unfold Monitor_begin. frees. Qed.
Lemma monitor_Close_free mc : kv_free (monitor_Close mc).
Proof. unfold monitor_Close. frees. Qed.

Lemma controller_Get_client v (w : W) c w' :
  controller_Get v w = (Ok (Some c), w') → ∃ x, c = client x.
Proof.
  unfold controller_Get. destruct (ctrl_Get (cl_holder w) v) as [h [x|]]; [|done].
  intros [= <- _]. by exists x.
Qed.
End Apart.

(** ** The life of a client *)

Section Life.
Context {E : Type} `{Orchestrator E} `{Engine E} `{JsonText} `{Mapstructure} `{MapOrder} `{Clients E}.
Context `{Clock E} `{Random E} `{GoSched} `{CronSpec}.
Abbreviation man := (volumeManager E monitorChan).
Implicit Types (s : man) (v : VolumeInfo) (h : holder).

(** The orchestrator and the engines do not touch the holder. *)
Definition same_holder (w w' : E) : Prop := cl_holder w' = cl_holder w.
#[local] Instance same_holder_preorder : PreOrder same_holder.
Proof. split; [done|]. intros w1 w2 w3 E1 E2. red. by rewrite E2. Qed.

Record holder_apart : Prop := {
  ha_set : ∀ h (w : E), cl_holder (cl_set_holder h w) = h;
  ha_get : ∀ n, preserves same_holder (oc_GetVolume n);
  ha_stop : ∀ i, preserves same_holder (oc_StopInstance i);
  ha_remove : ∀ i, preserves same_holder (oc_RemoveInstance i);
  ha_engine : ∀ args t, preserves same_holder (cmd_CombinedOutput args t);
}.
Hypothesis apart : holder_apart.

(** Neither the holder nor the monitors change. *)
Definition client_frame s s' : Prop :=
  same_holder (m_env s) (m_env s') ∧ m_monitors s' = m_monitors s.
#[local] Instance client_frame_preorder : PreOrder client_frame.
Proof.
  split; [intros s; by split|]. intros s1 s2 s3 [Ha1 E1] [Ha2 E2].
  split; [by etrans|congruence].
Qed.

Lemma onE_client {A} (m : M E A) : preserves same_holder m → preserves client_frame (onE (Mon := monitorChan) m).
Proof. intros Hm s. specialize (Hm (m_env s)). unfold wp, onE in *. by destruct (m (m_env s)). Qed.
Lemma stop_client i : preserves client_frame (onE (Mon := monitorChan) (oc_StopInstance i)).
Proof. apply onE_client, (ha_stop apart). Qed.
Lemma remove_client i : preserves client_frame (onE (Mon := monitorChan) (oc_RemoveInstance i)).
Proof. apply onE_client, (ha_remove apart). Qed.
Hint Resolve stop_client remove_client : frame.

Lemma fan_out_client {A} (f : A → M man unit) xs :
  (∀ x, preserves client_frame (f x)) → preserves client_frame (fan_out f xs).
Proof.
  intros Hf. unfold fan_out. apply preserves_bind; [apply _|apply preserves_gather; [apply _|auto]|].
  intros [|e es]; frees.
Qed.

Lemma Endpoint_client url : preserves client_frame (onE (Mon := monitorChan) (Endpoint url)).
Proof.
  pose proof (ha_engine apart). apply onE_client. unfold Endpoint, ctrl_info, Execute, ExecuteWithTimeout. frees.
Qed.

(** Completing a volume asks for its client. *)
Lemma complete_client v s r s' :
  completeVolumeState v s = (Ok r, s') →
  cl_holder (m_env s') = (ctrl_Get (cl_holder (m_env s)) (Some v)).1 ∧ m_monitors s' = m_monitors s ∧
  v_Name r = v_Name v.
Proof.
  unfold completeVolumeState. cbv zeta. set (v' := set_Endpoint "" (set_State (volumeState v) v)).
  assert (Hv : ∀ h, ctrl_Get h (Some v') = ctrl_Get h (Some v)) by done.
  assert (Hr : ctrl_running v' = match running v with Some _ => true | None => false end).
  { unfold ctrl_running, running, v'. simpl. destruct (v_Controller v) as [[i]|]; [|done]. by destruct (i_Running i) eqn:Ei; cbn; rewrite Ei. }
  rewrite Hr. destruct (running v) as [i|] eqn:Ei.
  - intros Er. apply bind_ok_inv in Er as (c & s1 & Eg & Er).
    unfold onE in Eg. simpl in Eg. unfold controller_Get in Eg. rewrite Hv in Eg.
    destruct (ctrl_Get (cl_holder (m_env s)) (Some v)) as [h [x|]]; injection Eg as <- <-; [|discriminate Er].
    apply bind_ok_inv in Er as (c & s2 & Ec & Er). injection Ec as <- <-.
    apply bind_ok_inv in Er as (ep & s3 & Ee & Er). injection Er as <- <-.
    pose proof (wp_elim _ _ _ _ _ (Endpoint_client _ _) Ee) as [Hh Hm]. cbn in Hh, Hm.
    split_and!; [by rewrite Hh, (ha_set apart)|done|done].
  - intros [= <- <-]. split_and!; [|done|done]. simpl. by rewrite Ei.
Qed.

(** What follows the stop of the monitor in [doDetach]. *)
Lemma rest_client v : preserves client_frame (
  match v_Controller v with
  | Some c =>
    if i_Running (c_Instance c) then
      wrap "error stopping the controller id='%s', volume '%s'"
        (onE (oc_StopInstance (c_Instance c));; mret tt)
    else mret tt
  | None => mret tt
  end;;
  fan_out stop_replica (range (replicas_of v)).*2;;
  match v_Controller v with
  | Some c =>
    wrap "error removing the controller id='%s', volume '%s'"
      (onE (oc_RemoveInstance (c_Instance c)));;
    mret (set_Controller None v)
  | None => mret v
  end).
Proof.
  assert (Hf : preserves client_frame (fan_out stop_replica (range (replicas_of v)).*2)).
  { apply fan_out_client. intros x. unfold stop_replica. frees. }
  frees.
Qed.

(** C26: a client is released by its monitor and by nothing else.  Detaching asks for the
    client of an attached volume in any case.  When the volume was monitored here, the
    client is gone afterwards and the queue of its tasks is closed; when it was not,
    because another host had attached it, the client stays, with its queue open and its
    worker running, although the volume is detached. *)
Theorem client_released_by_monitor n v s s' w1 :
  holder_wf (cl_holder (m_env s)) →
  (∀ m mc, m_monitors s !! m = Some mc → v_Name (mc_volume mc) = m) →
  oc_GetVolume n (m_env s) = (Ok (Some v), w1) → v_Name v = n →
  man_Detach n s = (Ok tt, s') →
  let asked := (ctrl_Get (cl_holder (m_env s)) (Some v)).1 in
  let left := cl_holder (m_env s') in
  m_monitors s' = delete n (m_monitors s) ∧
  match m_monitors s !! n with
  | Some _ => hd_cs left !! n = None ∧ ∀ c, hd_cs asked !! n = Some c → co_id c ∉ hd_open left
  | None => left = asked ∧ ∀ i, running v = Some i →
              ∃ c, hd_cs left !! n = Some c ∧ co_url c = getControllerURL (i_Address i) ∧ co_id c ∈ hd_open left
  end.
Proof.
  intros Hwf Hnamed Ev Hn E0 asked left.
  assert (Hrun : ∀ i, running v = Some i → ∃ c, hd_cs asked !! n = Some c ∧
    co_url c = getControllerURL (i_Address i) ∧ co_id c ∈ hd_open asked).
  { intros i Hi. pose proof (ctrl_Get_running _ v i Hwf Hi) as Hr. subst asked. rewrite <-Hn.
    destruct (ctrl_Get _ _) as [h1 r]. destruct Hr as (_ & c & _ & Hr). by exists c. }
  unfold man_Detach, man_Get in E0.
  apply bind_ok_inv in E0 as (ov & s1 & Eg & E0). apply bind_ok_inv in Eg as (v0 & s2 & Er & Eg).
  apply wrap_ok_inv in Er. unfold onE in Er. rewrite Ev in Er. injection Er as <- <-.
  apply bind_ok_inv in Eg as (v1 & s3 & Ec & Eg). injection Eg as <- <-.
  destruct (complete_client _ _ _ _ Ec) as (Hh & Hm & Hv1). cbn in Hh, Hm.
  rewrite (wp_elim _ _ _ _ _ (ha_get apart n (m_env s)) Ev) in Hh. fold asked in Hh.
  apply bind_ok_inv in E0 as (v2 & s4 & Ed & E0). injection E0 as <-.
  unfold doDetach in Ed. apply bind_ok_inv in Ed as ([] & s5 & Es & Ed).
  pose proof (wp_elim _ _ _ _ _ (rest_client v1 s5) Ed) as [Hl Hml]. cbn beta in Hl, Hml.
  subst left. rewrite Hl, Hml. clear Hl Hml Ed.
  unfold stopMonitoring in Es. apply bind_ok_inv in Es as (s6 & s7 & Eg & Es). injection Eg as <- <-.
  rewrite Hv1, Hn, Hm in Es. destruct (m_monitors s !! n) as [mc|] eqn:Emc.
  - apply bind_ok_inv in Es as ([] & s8 & Ei & Es). apply bind_ok_inv in Es as (s9 & s10 & Eg & Es).
    injection Eg as <- <-. injection Es as <-. unfold ignore, attempt, onE in Ei. simpl in Ei.
    injection Ei as <-. simpl. rewrite (ha_set apart), Hh, Hm.
    destruct (ctrl_Cleanup_released asked (mc_volume mc)) as [H1' H2']. by rewrite (Hnamed _ _ Emc) in *.
  - injection Es as <-. rewrite Hm, delete_id by done. split; [done|]. split; [done|].
    rewrite Hh. exact Hrun.
Qed.
End Life.

(** ** The property at a concrete manager

    The volume of [ManagerWitness] is attached to another host; this one is asked to
    detach it. *)
Module ClientsDemo.
Import ManagerWitness.
#[local] Existing Instance list_order.
#[local] Existing Instance in_order.
#[local] Existing Instances cronspec clock random orc.

(** The memory of a manager beside the world of the orchestrator. *)
Abbreviation E := (store * holder)%type.
Definition on_fst {A} (m : M store A) : M E A := λ w, let '(o, e) := m w.1 in (o, (e, w.2)).

#[local] Instance beside_orc : Orchestrator E := {|
  oc_CreateVolume v := on_fst (oc_CreateVolume v);
  oc_DeleteVolume n := on_fst (oc_DeleteVolume n);
  oc_GetVolume n := on_fst (oc_GetVolume n);
  oc_ListVolumes := on_fst oc_ListVolumes;
  oc_MarkBadReplica n r := on_fst (oc_MarkBadReplica n r);
  oc_UpdateVolume v := on_fst (oc_UpdateVolume v);
  oc_CreateController n cn rs := on_fst (oc_CreateController n cn rs);
  oc_CreateReplica n rn := on_fst (oc_CreateReplica n rn);
  oc_StartInstance i := on_fst (oc_StartInstance i);
  oc_StopInstance i := on_fst (oc_StopInstance i);
  oc_RemoveInstance i := on_fst (oc_RemoveInstance i);
  oc_ListHosts := on_fst oc_ListHosts;
  oc_GetHost id := on_fst (oc_GetHost id);
  oc_GetCurrentHostID := oc_GetCurrentHostID (E := store);
  oc_GetAddress id := on_fst (oc_GetAddress id);
  oc_GetSettings := on_fst oc_GetSettings;
  oc_SetSettings si := on_fst (oc_SetSettings si);
|}.
#[local] Instance clients : Clients E := {|
  cl_holder := snd; cl_set_holder h w := (w.1, h);
  cl_Put _ _ := mret tt; cl_List _ := mret []; cl_Latest _ := mret [];
  cl_purging _ _ := 0; cl_CronCh _ _ := mret tt;
|}.
#[local] Instance engine : Engine E := {|
  cmd_CombinedOutput _ _ := mret None; cmd_Scan _ := mret (Scanned [] None);
  cmd_Stdout _ := mret ""; cmd_Output _ := mret ("", None);
|}.
#[local] Instance json_text : JsonText := {| json_decode _ := None |}.
#[local] Instance mapstructure : Mapstructure := {| mapstructure_Decode _ := None |}.

Lemma on_fst_same {A} (m : M store A) : preserves same_holder (on_fst m).
Proof. intros w. unfold wp, on_fst. by destruct (m w.1). Qed.
Lemma beside_apart : holder_apart (E := E).
Proof. split; [done|intros; apply on_fst_same..|intros args t w; done]. Qed.

Definition here : volumeManager E monitorChan := man_New (({[ "vol" := attached ]}, 0%Z), holder0).
Definition watched : volumeManager E monitorChan :=
  mkMan (m_env here) {[ "vol" := mkMonitorChan attached OpenChan OpenChan OpenChan ]} ∅ [].

Lemma here_detached : man_Detach "vol" here = (Ok tt, (man_Detach "vol" here).2).
Proof. vm_compute. reflexivity. Qed.
Lemma watched_detached : man_Detach "vol" watched = (Ok tt, (man_Detach "vol" watched).2).
Proof. vm_compute. reflexivity. Qed.
Lemma watched_named m mc : m_monitors watched !! m = Some mc → v_Name (mc_volume mc) = m.
Proof. unfold watched. cbn [m_monitors]. intros [<- <-]%lookup_singleton_Some. reflexivity. Qed.

Lemma client_released_by_monitor_witness :
  (∃ c, hd_cs (cl_holder (m_env (man_Detach "vol" here).2)) !! "vol" = Some c ∧
        co_id c ∈ hd_open (cl_holder (m_env (man_Detach "vol" here).2))) ∧
  hd_cs (cl_holder (m_env (man_Detach "vol" watched).2)) !! "vol" = None.
Proof.
  split.
  - destruct (client_released_by_monitor beside_apart "vol" attached here (man_Detach "vol" here).2
      (m_env here) holder0_wf ltac:(discriminate) eq_refl eq_refl here_detached) as (_ & _ & Hc).
    destruct (Hc _ eq_refl) as (c & Hl & _ & Ho). exists c. exact (conj Hl Ho).
  - destruct (client_released_by_monitor beside_apart "vol" attached watched (man_Detach "vol" watched).2
      (m_env watched) holder0_wf watched_named eq_refl eq_refl watched_detached) as (_ & Hl & _).
    exact Hl.
Defined.
End ClientsDemo.
