(* ===== verification/System.v ===== *)
(** * The system put together

    The manager of a host over the Docker orchestrator of that host, in a cluster whose
    nodes answer each other's schedule requests, over one store.  What a successful
    operation of the manager leaves in the store and in the daemons, end to end. *)

From stdpp Require Import base functions list gmap strings.
From Stdlib Require Import ZArith Lia Ascii.
From S2P Require Import Prelude GoStrings GoTime Json Types Util Codec Backend KVStore KVSpec KVVolumes Scheduler Docker World DockerSpec Cluster Records TaskQueue Controller Backups Retain Cron Manager ManagerSpec Lifecycle ManagerDemo Monitor Clients.
Local Open Scope string_scope.
Local Open Scope list_scope.

(** A loop all of whose bodies succeed. *)
Lemma gather_succeeds {S A} (I : list A → S → Prop) (f : A → M S unit) xs s s' :
  I xs s → (∀ x xs s s', I (x :: xs) s → f x s = (Ok tt, s') → I xs s') →
  gather f xs s = (Ok [], s') → I [] s'.
Proof.
  intros HI Hstep. revert s HI. induction xs as [|x xs IH]; intros s HI E; simpl in E.
  - by injection E as <-.
  - apply bind_ok_inv in E as (r & s1 & E1 & E). apply bind_ok_inv in E as (es & s2 & E2 & E).
    unfold attempt in E1. destruct (f x s) as [[[]|e|p] s3] eqn:Ef; try discriminate E1;
      injection E1 as <- <-; [|discriminate E].
    injection E as -> ->. eapply IH; [|exact E2]. by eapply Hstep.
Qed.

Lemma fan_out_succeeds {S A} `{GoSched} (I : list A → S → Prop) (f : A → M S unit) xs s s' :
  (∀ ys, ys ≡ₚ xs → I ys s) → (∀ x xs s s', I (x :: xs) s → f x s = (Ok tt, s') → I xs s') →
  fan_out f xs s = (Ok tt, s') → I [] s'.
Proof.
  intros HI Hstep E. unfold fan_out in E. apply bind_ok_inv in E as ([|e es] & s1 & E1 & E); [|discriminate].
  injection E as <-. eapply gather_succeeds; [apply HI, go_order_perm|exact Hstep|exact E1].
Qed.

Lemma mfor_succeeds {S A} (I : list A → S → Prop) (f : A → M S unit) xs s s' :
  I xs s → (∀ x xs s s', I (x :: xs) s → f x s = (Ok tt, s') → I xs s') →
  mfor f xs s = (Ok tt, s') → I [] s'.
Proof.
  intros HI Hstep. revert s HI. induction xs as [|x xs IH]; intros s HI E; simpl in E.
  - by injection E as <-.
  - apply bind_ok_inv in E as ([] & s1 & E1 & E). eapply IH; [|exact E]. by eapply Hstep.
Qed.

(** A volume as the store presents it has the instances of the store. *)
Lemma vol_of_instances st n v :
  vol_of st n = Some v → v_Controller v = st_ctrl st n ∧ replicas_of v = st_reps st n.
Proof.
  unfold vol_of. destruct (st_base st n) as [b|]; [|done]. intros [= <-].
  split; [done|]. unfold replicas_of. cbn. case_decide as Hz; [|done].
  apply map_size_empty_inv in Hz. by rewrite Hz.
Qed.

Section System.
Context {W Mon : Type} `{DockerSpec W} `{MapOrder} `{GoSched} `{Random W} `{CronSpec}.
Context `{!ManagerDeps W Mon}.
Context (ps : list string) (nodes : list dockerOrc) (d : dockerOrc).
Hypothesis ps_nonempty : ps ≠ [].
Hypothesis ps_simple : Forall (λ n, simple_name n = true) ps.
Hypothesis nodes_named : ∀ d, d ∈ nodes → simple_name (GetCurrentHostID d) = true.
Hypothesis nodes_unique : ∀ d d', d ∈ nodes → d' ∈ nodes →
  GetCurrentHostID d = GetCurrentHostID d' → d = d'.
Hypothesis d_node : d ∈ nodes.

(** The clients of the engines and the monitors have nothing to do with the store or
    with Docker. *)
Record deps_apart : Prop := {
  da_Get : ∀ v, kv_free (getController (Mon := Mon) v);
  da_Endpoint : ∀ v w c w', getController (Mon := Mon) v w = (Ok (Some c), w') → kv_free (ct_Endpoint c);
  da_Begin : ∀ v, kv_free (BeginMonitoring (Mon := Mon) v);
  da_Close : ∀ m, kv_free (mon_Close (Mon := Mon) m);
}.
Hypothesis apart : deps_apart.

Local Abbreviation Rel := (Rel ps).
Local Abbreviation http := (cluster_http (path ps) nodes).
#[local] Instance orc : Orchestrator W := docker_orchestrator (H4 := http) (path ps) d.
Abbreviation man := (volumeManager W Mon).
Implicit Types (s : man) (st : store) (w : W) (v : VolumeInfo).

Definition sys s st : Prop := Rel (m_env s) st ∧ consistent nodes (m_env s) st.

(** ** What leaves the store alone *)

Definition env_frame s s' : Prop := kv_frame (m_env s) (m_env s').
#[export] Instance env_frame_preorder : PreOrder env_frame.
Proof. split; [intros s; apply (reflexivity (m_env s))|]. intros s1 s2 s3 H1' H2'. red. by etrans. Qed.
Abbreviation env_free := (preserves env_frame).

Lemma env_frame_sys s s' st : env_frame s s' → sys s st → sys s' st.
Proof.
  intros (Hv & Hd & _ & Hk) [Hr Hc]. split; [by eapply Rel_frame|by eapply consistent_kept].
Qed.
Lemma env_frame_names s s' : env_frame s s' → names_kept (m_env s) (m_env s').
Proof. by intros (_&_&_&?). Qed.

Lemma onE_env_free {A} (m : M W A) : kv_free m → env_free (onE (Mon := Mon) m).
Proof.
  intros Hm s. specialize (Hm (m_env s)). unfold wp, onE, env_frame in *. by destruct (m (m_env s)).
Qed.
Lemma get_man_free : env_free (get_man (E := W) (Mon := Mon)).
Proof. intros s. apply (reflexivity (m_env s)). Qed.
Lemma put_monitors_free ms : env_free (put_monitors (E := W) (Mon := Mon) ms).
Proof. intros s. apply (reflexivity (m_env s)). Qed.
Hint Resolve onE_env_free get_man_free put_monitors_free : frame.

Lemma stopMonitoring_free v : env_free (stopMonitoring (Mon := Mon) v).
Proof. pose proof (da_Close apart). unfold stopMonitoring. frees. Qed.
Lemma startMonitoring_free v : env_free (startMonitoring (Mon := Mon) v).
Proof. pose proof (da_Begin apart). unfold startMonitoring. frees. Qed.

Lemma complete_free v : env_free (completeVolumeState (Mon := Mon) v).
Proof.
  pose proof (da_Get apart) as Hg. unfold completeVolumeState. cbv zeta. case_match; [|frees].
  apply preserves_bind_inv; [apply _|frees|]. intros c s s' E.
  unfold onE in E. destruct (getController _ (m_env s)) as [o w'] eqn:Eg. injection E as -> <-.
  destruct c as [c|]; [|frees]. pose proof (da_Endpoint apart _ _ _ _ Eg).
  apply preserves_bind_inv; [apply _|frees|]. intros c' s1 s2 Ec. injection Ec as <- <-. frees.
Qed.

Lemma man_Get_free n : env_free (man_Get (Mon := Mon) n).
Proof.
  pose proof complete_free. unfold man_Get. apply preserves_bind; [apply _| |intros; frees].
  apply preserves_wrap, onE_env_free, GetVolume_free.
Qed.

(** The manager reads what the store has, its state and its endpoint filled in. *)
Lemma man_Get_sys n s st ov s' :
  sys s st → simple_name n = true → man_Get n s = (Ok ov, s') →
  sys s' st ∧ names_kept (m_env s) (m_env s') ∧
  match ov with
  | None => vol_of st n = None
  | Some v => ∃ v0, vol_of st n = Some v0 ∧ v_Name v = n ∧ v_State v = volumeState v0 ∧
      v_Controller v = st_ctrl st n ∧ replicas_of v = st_reps st n
  end.
Proof.
  intros Hs Hn E. pose proof (wp_elim _ _ _ _ _ (man_Get_free n s) E) as Hf. cbn beta in Hf.
  split_and!; [by eapply env_frame_sys|by apply env_frame_names|].
  unfold man_Get in E. apply bind_ok_inv in E as (vol & s1 & Eg & E). apply wrap_ok_inv in Eg.
  unfold onE in Eg. destruct (oc_GetVolume n (m_env s)) as [o w1] eqn:Ev. injection Eg as -> <-.
  pose proof (wp_elim _ _ _ _ _ (GetVolume_spec ps ps_nonempty ps_simple n (m_env s) st (proj1 Hs) Hn) Ev)
    as (_ & _ & ->).
  destruct (vol_of st n) as [v0|] eqn:Hv0; [|by injection E as <- <-].
  pose proof (vol_of_name _ _ _ (rel_wf _ _ _ (proj1 Hs)) Hv0) as Hname.
  pose proof (vol_of_instances _ _ _ Hv0) as Hparts.
  apply bind_ok_inv in E as (v1 & s2 & Ec & E). injection E as <- <-. exists v0.
  assert (Hv1 : v_Name v1 = v_Name v0 ∧ v_State v1 = volumeState v0 ∧
                v_Controller v1 = v_Controller v0 ∧ replicas_of v1 = replicas_of v0).
  { unfold completeVolumeState in Ec. cbv zeta in Ec. case_match; [|by injection Ec as <- _].
    go_inv Ec. by injection Ec as <- _. }
  destruct Hv1 as (-> & -> & -> & ->). by rewrite Hname.
Qed.

(** ** Requests for instances *)

Local Abbreviation genuine := (genuine nodes).

Lemma onE_inv {A} (m : M W A) s o s' :
  onE (Mon := Mon) m s = (o, s') → m (m_env s) = (o, m_env s').
Proof. unfold onE. destruct (m (m_env s)). by intros [= <- <-]. Qed.

Lemma start_sys i s st r s' :
  sys s st → genuine (m_env s) i → onE (oc_StartInstance i) s = (Ok r, s') →
  sys s' (record_instance r st) ∧ names_kept (m_env s) (m_env s') ∧ same_instance i r.
Proof.
  intros [Hr Hc] Hi E. apply onE_inv in E.
  destruct (request_effect ps nodes ps_nonempty ps_simple nodes_named nodes_unique d _ _ _ i _ st r _
    (or_introl eq_refl) d_node Hr Hc Hi E) as (st' & ? & ? & ? & ? & _ & -> & _). done.
Qed.

Lemma stop_sys i s st r s' :
  sys s st → genuine (m_env s) i → onE (oc_StopInstance i) s = (Ok r, s') →
  sys s' (record_instance r st) ∧ names_kept (m_env s) (m_env s') ∧ same_instance i r ∧
  i_Running r = false.
Proof.
  intros [Hr Hc] Hi E. apply onE_inv in E.
  destruct (request_effect ps nodes ps_nonempty ps_simple nodes_named nodes_unique d _ _ _ i _ st r _
    (or_intror (or_introl eq_refl)) d_node Hr Hc Hi E) as (st' & ? & ? & ? & ? & _ & -> & Hstop).
  split_and!; [done..|]. by apply Hstop.
Qed.

Lemma remove_sys i s st r s' :
  sys s st → genuine (m_env s) i → onE (oc_RemoveInstance i) s = (Ok r, s') →
  sys s' (forget_instance i st) ∧ names_kept (m_env s) (m_env s') ∧ present st i = true.
Proof.
  intros [Hr Hc] Hi E. apply onE_inv in E.
  destruct (request_effect ps nodes ps_nonempty ps_simple nodes_named nodes_unique d _ _ _ i _ st r _
    (or_intror (or_intror eq_refl)) d_node Hr Hc Hi E) as (st' & ? & ? & ? & _ & _ & [Hp ->] & _). done.
Qed.

(** Recording an instance in the place of a controller, or of a replica. *)
Lemma record_ctrl c j st :
  is_controller (c_Instance c) = true → same_instance (c_Instance c) j →
  record_instance j st = put_ctrl (i_VolumeName (c_Instance c)) (Some (mkController j)) st.
Proof.
  intros Hc (_ & _ & Hty & Hvol & _). unfold record_instance, is_controller in *.
  by rewrite Hty, Hc, Hvol.
Qed.

Lemma record_rep x j st y :
  is_replica (r_Instance x) = true → same_instance (r_Instance x) j →
  st_reps st (i_VolumeName (r_Instance x)) !! r_Name x = Some y →
  let n := i_VolumeName (r_Instance x) in
  record_instance j st = put_reps n (<[r_Name x := set_Instance j y]> (st_reps st n)) st.
Proof.
  intros Hx (_ & _ & Hty & Hvol & Hn) Hy. cbv zeta. unfold record_instance.
  assert (Hc : is_controller j = false).
  { unfold is_controller, is_replica in *. rewrite Hty. apply String.eqb_eq in Hx. by rewrite Hx. }
  rewrite Hc. unfold is_replica in *. rewrite Hty, Hx, Hvol, Hn. unfold r_Name in *. by rewrite Hy.
Qed.

(** ** Detaching *)

(** The replicas of [n] in [st'] are those of [st] as they were found after an action,
    and all of them stopped unless they are among [rest], which are as they were. *)
Definition refreshed_replicas (n : string) (rest : list ReplicaInfo) (stopped : bool) st st' : Prop :=
  dom (st_reps st' n) = dom (st_reps st n) ∧
  ∀ r x, st_reps st n !! r = Some x →
    (x ∈ rest ∧ st_reps st' n !! r = Some x) ∨
    ∃ j, st_reps st' n !! r = Some (set_Instance j x) ∧ same_instance (r_Instance x) j ∧
         (stopped = true → i_Running j = false).

(** A volume that has been detached: no controller, its replicas stopped, everything
    else as it was. *)
Record detached (n : string) st st' : Prop := {
  dt_ctrl : st_ctrl st' n = None;
  dt_base : st_base st' n = st_base st n;
  dt_reps : refreshed_replicas n [] true st st';
  dt_other : same_except n st st';
}.

(** One replica is stopped or started: the next step of [refreshed_replicas]. *)
Lemma refresh_step n x rest (stopped : bool) st st1 j :
  store_wf st → (∀ r y, st_reps st n !! r = Some y → is_replica (r_Instance y) = true) →
  st_reps st n !! r_Name x = Some x →
  refreshed_replicas n (x :: rest) stopped st st1 →
  same_instance (r_Instance x) j → (stopped = true → i_Running j = false) →
  refreshed_replicas n rest stopped st (record_instance j st1) ∧
  same_except n st1 (record_instance j st1) ∧
  st_base (record_instance j st1) n = st_base st1 n ∧
  st_ctrl (record_instance j st1) n = st_ctrl st1 n.
Proof.
  intros Hwf Hrep Hx [Hdom Href] Hj Hstop.
  destruct (wf_rep _ Hwf _ _ _ Hx) as (_ & Hvol & _ & _).
  assert (Hy : ∃ y, st_reps st1 n !! r_Name x = Some y ∧ set_Instance j y = set_Instance j x).
  { destruct (Href _ _ Hx) as [[_ Hy]|(k & Hy & _)]; eauto. }
  destruct Hy as (y & Hy & Hjy). rewrite <-Hvol in Hy.
  rewrite (record_rep x j st1 y (Hrep _ _ Hx) Hj Hy), Hvol, Hjy. rewrite Hvol in Hy.
  split_and!; [| |done..].
  - split; simpl; rewrite fn_lookup_insert.
    + rewrite dom_insert_lookup_L by eauto. done.
    + intros r z Hz. destruct (decide (r = r_Name x)) as [->|Hne].
      * right. exists j. rewrite lookup_insert_eq. simplify_eq. done.
      * rewrite lookup_insert_ne by done. destruct (Href _ _ Hz) as [[Hin Hr]|?]; [|by right].
        left. split; [|done]. apply elem_of_cons in Hin as [->|?]; [|done].
        destruct (wf_rep _ Hwf _ _ _ Hz) as [<- _]. done.
  - apply same_except_put_reps.
Qed.

Lemma refreshed_weaken n rest rest' (stopped : bool) st st' :
  refreshed_replicas n rest stopped st st' → rest ⊆ rest' → refreshed_replicas n rest' stopped st st'.
Proof. intros [Hd Hr] Hsub. split; [done|]. intros r x Hx. destruct (Hr r x Hx) as [[? ?]|?]; auto. Qed.

(** On the way from the store [st] of the state [s0], in the midst of a fan-out over the
    replicas of [n], the controller being recorded as [c]. *)
Definition midway n st s0 (stopped : bool) (c : option ControllerInfo) (rest : list ReplicaInfo) s : Prop :=
  names_kept (m_env s0) (m_env s) ∧ ∃ st1, sys s st1 ∧ refreshed_replicas n rest stopped st st1 ∧
    same_except n st st1 ∧ st_base st1 n = st_base st n ∧ st_ctrl st1 n = c.

Lemma midway_start n st s0 (stopped : bool) s st1 rest :
  sys s st1 → names_kept (m_env s0) (m_env s) → st_reps st1 n = st_reps st n →
  same_except n st st1 → st_base st1 n = st_base st n →
  (∀ r x, st_reps st n !! r = Some x → x ∈ rest) →
  midway n st s0 stopped (st_ctrl st1 n) rest s.
Proof.
  intros Hs Hk Hreps Hsame Hbase Hall. split; [done|]. exists st1. split_and!; [done| |done..].
  split; rewrite Hreps; [done|]. intros r x Hx. left. eauto.
Qed.

Lemma midway_step n st s0 stopped c x rest s s' :
  sys s0 st → st_reps st n !! r_Name x = Some x →
  midway n st s0 stopped c (x :: rest) s →
  (∀ st1, sys s st1 → genuine (m_env s) (r_Instance x) → ∃ j, sys s' (record_instance j st1) ∧
     names_kept (m_env s) (m_env s') ∧ same_instance (r_Instance x) j ∧
     (stopped = true → i_Running j = false)) →
  midway n st s0 stopped c rest s'.
Proof.
  intros [Hr0 Hc0] Hx (Hk & st1 & Hs & Href & Hsame & Hbase & Hctrl) Hm.
  destruct (con_rep _ _ _ Hc0 _ _ _ Hx) as [_ Hg].
  destruct (Hm st1 Hs (genuine_kept _ _ _ _ Hg Hk)) as (j & Hs' & Hk' & Hj & Hstop).
  destruct (refresh_step n x rest stopped st st1 j (rel_wf _ _ _ Hr0)
              (λ r y Hy, proj1 (con_rep _ _ _ Hc0 _ _ _ Hy)) Hx Href Hj Hstop)
    as (Href' & Hsame' & Hbase' & Hctrl').
  split; [by etrans|]. exists (record_instance j st1). rewrite Hbase', Hctrl'.
  split_and!; [done..|by etrans|done|done].
Qed.

Lemma stop_replica_step n st s0 (stopped : bool) c x rest s s' :
  sys s0 st → st_reps st n !! r_Name x = Some x →
  midway n st s0 stopped c (x :: rest) s → stop_replica x s = (Ok tt, s') →
  midway n st s0 stopped c rest s'.
Proof.
  intros Hs0 Hx Hmid E. unfold stop_replica in E. apply wrap_ok_inv, bind_ok_inv in E as (j & s1 & E & E').
  injection E' as <-. eapply midway_step; [done..|]. intros st1 Hs Hg.
  destruct (stop_sys _ _ _ _ _ Hs Hg E) as (? & ? & ? & ?). by exists j.
Qed.

(** The replicas in the record of a volume are those of the store. *)
Lemma replica_place v st s x n :
  sys s st → replicas_of v = st_reps st n → x ∈ (range (replicas_of v)).*2 →
  st_reps st n !! r_Name x = Some x.
Proof.
  intros [Hr _] Heq Hx. apply list_elem_of_fmap in Hx as ([r y] & -> & Hin).
  apply elem_of_range in Hin. rewrite Heq in Hin. cbn [snd].
  by destruct (wf_rep _ (rel_wf _ _ _ Hr) _ _ _ Hin) as [-> _].
Qed.

Lemma replica_listed v st x n r :
  replicas_of v = st_reps st n → st_reps st n !! r = Some x → x ∈ (range (replicas_of v)).*2.
Proof.
  intros Heq Hx. apply list_elem_of_fmap. exists (r, x). split; [done|].
  apply elem_of_range. by rewrite Heq.
Qed.

Lemma stops_sys n v st s0 c s s' :
  sys s0 st → replicas_of v = st_reps st n →
  (∀ ys, ys ≡ₚ (range (replicas_of v)).*2 → midway n st s0 true c ys s) →
  fan_out stop_replica (range (replicas_of v)).*2 s = (Ok tt, s') →
  midway n st s0 true c [] s'.
Proof.
  intros Hs0 Hreps Hmid E.
  apply (fan_out_succeeds (λ ys s, Forall (λ x, st_reps st n !! r_Name x = Some x) ys ∧
           midway n st s0 true c ys s) _ _ _ _) in E; [by destruct E| |].
  - intros ys Hp. split; [|auto]. apply Forall_forall. intros x Hx. rewrite Hp in Hx.
    by eapply replica_place.
  - intros x xs s1 s2 [[Hx Hxs]%Forall_cons Hm] E1. split; [done|]. by eapply stop_replica_step.
Qed.

(** The parts of a volume that [doDetach] uses agree with the store. *)
Definition presents n v st : Prop :=
  v_Name v = n ∧ v_Controller v = st_ctrl st n ∧ replicas_of v = st_reps st n.

Lemma ctrl_place s st n c :
  sys s st → st_ctrl st n = Some c →
  is_controller (c_Instance c) = true ∧ genuine (m_env s) (c_Instance c) ∧
  i_VolumeName (c_Instance c) = n.
Proof.
  intros [Hr Hc] Hx. destruct (con_ctrl _ _ _ Hc _ _ Hx).
  by destruct (wf_ctrl _ (rel_wf _ _ _ Hr) _ _ Hx).
Qed.

(** The same controller, as it was found after an action. *)
Abbreviation same_controller :=
  (option_Forall2 (λ c c', same_instance (c_Instance c) (c_Instance c'))).

(** The controller is stopped, unless it is not running. *)
Lemma stop_controller_sys n v st s0 s s' :
  sys s0 st → presents n v st → sys s st → names_kept (m_env s0) (m_env s) →
  match v_Controller v with
  | Some c =>
    if i_Running (c_Instance c) then
      wrap "error stopping the controller id='%s', volume '%s'"
        (onE (oc_StopInstance (c_Instance c));; mret tt)
    else mret tt
  | None => mret tt
  end s = (Ok tt, s') →
  ∃ c', same_controller (st_ctrl st n) c' ∧
    ∀ ys, ys ≡ₚ (range (replicas_of v)).*2 → midway n st s0 true c' ys s'.
Proof.
  intros Hs0 (Hname & Hctrl & Hreps) Hs Hk E. rewrite Hctrl in E.
  assert (Hstay : s' = s → ∃ c', same_controller (st_ctrl st n) c' ∧
    ∀ ys, ys ≡ₚ (range (replicas_of v)).*2 → midway n st s0 true c' ys s').
  { intros ->. exists (st_ctrl st n). split; [by destruct (st_ctrl st n); constructor|]. intros ys Hp.
    apply midway_start; [done..|]. intros r x Hx. rewrite Hp. by eapply replica_listed. }
  destruct (st_ctrl st n) as [c|] eqn:Ec; [|apply Hstay; by injection E].
  destruct (i_Running (c_Instance c)); [|apply Hstay; by injection E].
  apply wrap_ok_inv, bind_ok_inv in E as (j & s1 & E & E'). injection E' as <-.
  destruct (ctrl_place _ _ _ _ Hs0 Ec) as (Hc & Hg & Hvol).
  destruct (stop_sys _ _ _ _ _ Hs (genuine_kept _ _ _ _ Hg Hk) E) as (Hs1 & Hk1 & Hj & _).
  rewrite (record_ctrl c j st Hc Hj), Hvol in Hs1.
  exists (Some (mkController j)). split; [by constructor|]. intros ys Hp.
  assert (Hnew : st_ctrl (put_ctrl n (Some (mkController j)) st) n = Some (mkController j))
    by apply fn_lookup_insert.
  rewrite <-Hnew. eapply midway_start; [done|by etrans|done| |done|].
  - apply same_except_put_ctrl.
  - intros r x Hx. rewrite Hp. by eapply replica_listed.
Qed.

(** What a successful [doDetach] leaves. *)
Lemma doDetach_sys n v v' st s s' :
  sys s st → presents n v st → doDetach v s = (Ok v', s') →
  ∃ st', sys s' st' ∧ detached n st st' ∧ names_kept (m_env s) (m_env s').
Proof.
  intros Hs Hv E. pose proof Hv as (Hname & Hctrl & Hreps). unfold doDetach in E.
  apply bind_ok_inv in E as ([] & s1 & Em & E).
  pose proof (wp_elim _ _ _ _ _ (stopMonitoring_free v s) Em) as Hf. cbn beta in Hf.
  apply bind_ok_inv in E as ([] & s2 & Ec & E).
  destruct (stop_controller_sys n v st s s1 s2 Hs Hv (env_frame_sys _ _ _ Hf Hs)
              (env_frame_names _ _ Hf) Ec) as (c' & Hc' & Hmid).
  apply bind_ok_inv in E as ([] & s3 & Es & E).
  destruct (stops_sys n v st s c' s2 s3 Hs Hreps Hmid Es) as (Hk & st1 & Hs1 & Href & Hsame & Hbase & Hct).
  rewrite Hctrl in E. destruct (st_ctrl st n) as [c|] eqn:Ect.
  - apply bind_ok_inv in E as (j & s4 & Er & E). injection E as _ <-. apply wrap_ok_inv in Er.
    destruct (ctrl_place _ _ _ _ Hs Ect) as (Hc & Hg & Hvol).
    destruct (remove_sys _ _ _ _ _ Hs1 (genuine_kept _ _ _ _ Hg Hk) Er) as (Hs4 & Hk4 & _).
    assert (Hforget : forget_instance (c_Instance c) st1 = put_ctrl n None st1)
      by (unfold forget_instance; by rewrite Hc, Hvol).
    rewrite Hforget in Hs4. exists (put_ctrl n None st1). split; [done|]. split; [|by etrans].
    split; [apply fn_lookup_insert|done|done|]. etrans; [done|]. apply same_except_put_ctrl.
  - injection E as _ <-. exists st1. split; [done|]. split; [|done].
    split; [|done..]. rewrite Hct. by inversion Hc'.
Qed.

(** The volume [n] has a replica that is not marked bad. *)
Definition has_good st n : Prop := ∃ r x, st_reps st n !! r = Some x ∧ good x = true.

Lemma refreshed_good n rest stopped st st' :
  refreshed_replicas n rest stopped st st' → has_good st n → has_good st' n.
Proof.
  intros [_ Hr] (r & x & Hx & Hg). destruct (Hr r x Hx) as [[_ ?]|(j & ? & _)]; by exists r; eexists.
Qed.

(** C4: detaching stops everything and loses nothing.  After the manager of any host
    has detached a volume, the store has no controller for it, every one of its
    replicas is recorded as before except that it is not running, and no other volume
    has changed; and the volume then reads as detached when it has a good replica. *)
Theorem detach_stops_all n s st s' :
  sys s st → simple_name n = true → is_Some (vol_of st n) → man_Detach n s = (Ok tt, s') →
  ∃ st', sys s' st' ∧ detached n st st' ∧
    ∀ ov s'', man_Get n s' = (Ok ov, s'') →
      ∃ v, ov = Some v ∧ v_Controller v = None ∧
           (has_good st n → v_State v = VolumeStateDetached).
Proof.
  intros Hs Hn [v0 Hv0] E. unfold man_Detach in E. apply bind_ok_inv in E as (ov & s1 & Eg & E).
  destruct (man_Get_sys _ _ _ _ _ Hs Hn Eg) as (Hs1 & _ & Hv). destruct ov as [v|]; [|congruence].
  destruct Hv as (v1 & _ & Hname & _ & Hctrl & Hreps).
  apply bind_ok_inv in E as (v' & s2 & Ed & E). injection E as <-.
  destruct (doDetach_sys n v v' st s1 s2 Hs1 (conj Hname (conj Hctrl Hreps)) Ed) as (st' & Hs2 & Hdt & _).
  exists st'. split_and!; [done..|]. intros ov s3 Eg2.
  destruct (man_Get_sys _ _ _ _ _ Hs2 Hn Eg2) as (_ & _ & Hv).
  assert (Hsome : is_Some (vol_of st' n)).
  { unfold vol_of in *. rewrite (dt_base _ _ _ Hdt). destruct (st_base st n); [by eexists|done]. }
  destruct ov as [v2|]; [|by destruct Hsome; congruence]. exists v2. split; [done|].
  destruct Hv as (v3 & Hv3 & _ & Hst & Hct & _). rewrite (dt_ctrl _ _ _ Hdt) in Hct.
  split; [done|]. intros Hg%(refreshed_good _ _ _ _ _ (dt_reps _ _ _ Hdt)).
  rewrite Hst. destruct (vol_of_instances _ _ _ Hv3) as (Hc3 & Hr3). unfold volumeState.
  destruct (Nat.eqb_spec (goodReplicaCount v3) 0) as [Hz|_].
  - exfalso. revert Hz. apply goodReplicaCount_pos. rewrite Hr3. exact Hg.
  - by rewrite Hc3, (dt_ctrl _ _ _ Hdt).
Qed.

(** ** Deleting *)

Lemma drop_same_except n st st' : same_except n st st' → drop_volume n st' ≡ drop_volume n st.
Proof.
  intros (Hh & Hse & Ho). unfold drop_volume. split_and!; simpl; [done..| | |]; intros m;
    (destruct (decide (m = n)) as [->|Hm];
       [by rewrite !fn_lookup_insert|rewrite !fn_lookup_insert_ne by done; by destruct (Ho m Hm) as (?&?&?)]).
Qed.

Lemma forget_rep x n st :
  is_replica (r_Instance x) = true → i_VolumeName (r_Instance x) = n →
  forget_instance (r_Instance x) st = put_reps n (delete (r_Name x) (st_reps st n)) st.
Proof.
  intros Hx Hvol. unfold forget_instance.
  assert (Hc : is_controller (r_Instance x) = false).
  { unfold is_controller, is_replica in *. apply String.eqb_eq in Hx. by rewrite Hx. }
  by rewrite Hc, Hx, Hvol.
Qed.

(** The replicas of a volume are removed, one after the other. *)
Lemma remove_replicas_sys n v st s0 st1 s s' :
  sys s0 st → replicas_of v = st_reps st n →
  sys s st1 → names_kept (m_env s0) (m_env s) → same_except n st st1 →
  mfor (λ replica : ReplicaInfo,
          wrap "error removing replica container %s(%s), volume '%s'"
            (onE (oc_RemoveInstance (r_Instance replica));; mret tt))
       (range (replicas_of v)).*2 s = (Ok tt, s') →
  ∃ st2, sys s' st2 ∧ names_kept (m_env s0) (m_env s') ∧ same_except n st st2.
Proof.
  intros Hs0 Hreps Hs1 Hk1 Hsame1 E.
  apply (mfor_succeeds (λ ys s, Forall (λ x, st_reps st n !! r_Name x = Some x) ys ∧
           ∃ st2, sys s st2 ∧ names_kept (m_env s0) (m_env s) ∧ same_except n st st2)) in E.
  - by destruct E.
  - split; [|by exists st1]. apply Forall_forall. intros x Hx. by eapply replica_place.
  - intros x xs s1 s2 [[Hx Hxs]%Forall_cons (st2 & Hs2 & Hk2 & Hsame2)] E1. split; [done|].
    apply wrap_ok_inv, bind_ok_inv in E1 as (j & s3 & Er & E1). injection E1 as <-.
    destruct Hs0 as [Hr0 Hc0]. destruct (con_rep _ _ _ Hc0 _ _ _ Hx) as [Hrep Hg].
    destruct (wf_rep _ (rel_wf _ _ _ Hr0) _ _ _ Hx) as (_ & Hvol & _).
    destruct (remove_sys _ _ _ _ _ Hs2 (genuine_kept _ _ _ _ Hg Hk2) Er) as (Hs3 & Hk3 & _).
    rewrite (forget_rep x n st2 Hrep Hvol) in Hs3. eexists. split; [exact Hs3|].
    split; [by etrans|]. etrans; [done|]. apply same_except_put_reps.
Qed.

(** C15: deleting leaves no trace and touches nothing else.  When the manager of any
    host has deleted a volume, the store is what it was without the record, the
    controller and the replicas of that volume. *)
Theorem delete_leaves_no_trace n s st s' :
  sys s st → simple_name n = true → is_Some (vol_of st n) → man_Delete n s = (Ok tt, s') →
  ∃ st', sys s' st' ∧ st' ≡ drop_volume n st.
Proof.
  intros Hs Hn [v0 Hv0] E. unfold man_Delete in E. apply bind_ok_inv in E as (ov & s1 & Eg & E).
  destruct (man_Get_sys _ _ _ _ _ Hs Hn Eg) as (Hs1 & _ & Hv). destruct ov as [v|]; [|congruence].
  destruct Hv as (v1 & _ & Hname & _ & Hctrl & Hreps).
  apply bind_ok_inv in E as (v' & s2 & Ed & E). apply wrap_ok_inv in Ed.
  destruct (doDetach_sys n v v' st s1 s2 Hs1 (conj Hname (conj Hctrl Hreps)) Ed)
    as (st1 & Hs2 & Hdt & Hk2).
  apply bind_ok_inv in E as ([] & s3 & Er & E).
  destruct (remove_replicas_sys n v st s1 st1 s2 s3 Hs1 Hreps Hs2 Hk2 (dt_other _ _ _ Hdt) Er)
    as (st2 & [Hr3 Hc3] & Hk3 & Hsame).
  apply wrap_ok_inv, onE_inv in E. exists (drop_volume n st2).
  pose proof (wp_elim _ _ _ _ _ (DeleteVolume_spec ps ps_nonempty ps_simple n st2 _ Hr3 Hn) E) as [_ Hr'].
  assert (Hdel : preserves names_kept (DeleteVolume (path ps) n))
    by (pose proof delete_names; unfold DeleteVolume; frees).
  pose proof (wp_elim _ _ _ _ _ (Hdel (m_env s3)) E) as Hk'. cbn beta in *.
  split; [|by apply drop_same_except]. split; [done|]. eapply consistent_kept; [|done].
  destruct Hc3 as [Hcc Hcr]. split; simpl.
  - intros m c. destruct (decide (m = n)) as [->|]; [by rewrite fn_lookup_insert|].
    rewrite fn_lookup_insert_ne by done. eauto.
  - intros m r x. destruct (decide (m = n)) as [->|]; [by rewrite fn_lookup_insert|].
    rewrite fn_lookup_insert_ne by done. eauto.
Qed.

(** ** Attaching *)

Lemma prepare_free n cn names : kv_free (prepareCreateController (path ps) n cn names).
Proof. pose proof (GetVolume_free (path ps) n). unfold prepareCreateController. frees. Qed.

(** A controller is created on the host that asks for it. *)
Lemma create_controller_sys n cn rs s st c s' :
  sys s st → simple_name n = true → onE (oc_CreateController n cn rs) s = (Ok c, s') →
  sys s' (put_ctrl n (Some c) st) ∧ i_HostID (c_Instance c) = GetCurrentHostID d.
Proof.
  intros [Hr Hc] Hn E. apply onE_inv in E.
  change (CreateController (H4 := http) (path ps) d n cn rs (m_env s) = (Ok c, m_env s')) in E.
  unfold CreateController in E. apply bind_ok_inv in E as (od & w1 & Ep & E). apply wrap_ok_inv in Ep.
  pose proof (wp_elim _ _ _ _ _ (prepare_free _ _ _ (m_env s)) Ep) as (Hv & Hd & _ & Hk1).
  apply bind_ok_inv in E as (data & w2 & Ed & E). destruct od as [data'|]; [|done].
  injection Ed as -> <-.
  destruct (prepare_controller_inv _ _ _ _ _ _ _ Ep) as (x & -> & Hx).
  apply bind_ok_inv in E as (i & w3 & Es & E). injection E as <- Ew. apply wrap_ok_inv in Es.
  rewrite Ew in Es. assert (Hr1 : Rel w1 st) by by eapply Rel_frame.
  pose proof (λ Hh, pinned_run ps nodes ps_nonempty ps_simple d _ _ w1 st i _ Hr1 Hh Es) as Hpin.
  destruct (Hpin (nodes_named d d_node))
    as (d' & w4 & Hd' & Hhost & (Hv4 & Hd4 & _ & Hk4) & Ei).
  assert (d' = d) as -> by (apply nodes_unique; [by destruct Hd' as [->|]|done|exact Hhost]).
  assert (Hr4 : Rel w4 st) by by eapply Rel_frame.
  set (item := mkScheduleItem _ _ _) in Ei.
  assert (Hok : item_ok item).
  { split; [|done]. intros y. unfold item. cbn [it_Data]. rewrite payload_roundtrip. intros [= <-].
    cbn. by rewrite Hx. }
  pose proof (wp_elim _ _ _ _ _ (process_schedule_spec ps ps_nonempty ps_simple d item w4 st Hr4 Hok) Ei)
    as (Hsub & st' & Ha & Hr').
  pose proof (wp_elim _ _ _ _ _ (process_names ps d item w4) Ei) as Hk'. cbn beta in Hk'.
  assert (Hc' : consistent nodes (m_env s') st').
  { eapply (consistent_apply nodes d item i w4); [|done..]. eapply consistent_kept; [done|]. by etrans. }
  destruct Hsub as (_ & Hty & (y & Hy & Hvol) & (Hh & _)).
  unfold item in Hy. cbn [it_Data] in Hy. rewrite payload_roundtrip in Hy. injection Hy as <-.
  cbn in Hvol, Hty. rewrite Hx in Hvol. split; [|exact Hh].
  unfold apply_item in Ha. destruct (_ || _); [done|]. cbn in Ha. injection Ha as <-.
  unfold record_instance, is_controller in Hr', Hc'. rewrite Hty, Hvol in Hr', Hc'. done.
Qed.

(** The replicas of [n] are the same instances, with the same marks. *)
Definition keeps_replicas (n : string) st st' : Prop :=
  dom (st_reps st' n) = dom (st_reps st n) ∧
  ∀ r x, st_reps st n !! r = Some x → ∃ y, st_reps st' n !! r = Some y ∧
    i_ID (r_Instance y) = i_ID (r_Instance x) ∧ i_HostID (r_Instance y) = i_HostID (r_Instance x) ∧
    r_BadTimestamp y = r_BadTimestamp x.

Lemma refreshed_keeps n rest (stopped : bool) st st' :
  refreshed_replicas n rest stopped st st' → keeps_replicas n st st'.
Proof.
  intros [Hd Hr]. split; [done|]. intros r x Hx.
  destruct (Hr r x Hx) as [[_ ?]|(j & Hj & (? & ? & _) & _)]; [by exists x|by exists (set_Instance j x)].
Qed.

(** A volume that has been attached here. *)
Record attached (n : string) st st' : Prop := {
  at_ctrl : ∃ c, st_ctrl st' n = Some c ∧ i_HostID (c_Instance c) = GetCurrentHostID d;
  at_base : st_base st' n = st_base st n;
  at_reps : keeps_replicas n st st';
  at_other : same_except n st st';
}.

Lemma start_replica_step n st s0 x rest s s' :
  sys s0 st → st_reps st n !! r_Name x = Some x →
  midway n st s0 false None (x :: rest) s →
  wrap "failed to start replica '%s' for volume '%s'"
    (onE (oc_StartInstance (r_Instance x));; mret tt) s = (Ok tt, s') →
  midway n st s0 false None rest s'.
Proof.
  intros Hs0 Hx Hmid E. apply wrap_ok_inv, bind_ok_inv in E as (j & s1 & E & E').
  injection E' as <-. eapply midway_step; [done..|]. intros st1 Hs Hg.
  destruct (start_sys _ _ _ _ _ Hs Hg E) as (? & ? & ?). by exists j.
Qed.

(** A fan-out over some of the replicas, the others being as they were. *)
Lemma midway_fan_out n st s0 (f : ReplicaInfo → M man unit) xs all s s' :
  Forall (λ x, st_reps st n !! r_Name x = Some x) xs →
  (∀ x rest s s', st_reps st n !! r_Name x = Some x → midway n st s0 false None (x :: rest) s →
     f x s = (Ok tt, s') → midway n st s0 false None rest s') →
  midway n st s0 false None all s → fan_out f xs s = (Ok tt, s') →
  midway n st s0 false None all s'.
Proof.
  intros Hxs Hf Hmid E.
  apply (fan_out_succeeds (λ ys s, Forall (λ x, st_reps st n !! r_Name x = Some x) ys ∧
           midway n st s0 false None all s)) in E; [by destruct E|by intros ys ->|].
  intros x ys s1 s2 [[Hx Hys]%Forall_cons (Hk & st1 & Hs1 & Href & Hrest)] E1. split; [done|].
  eapply Hf; [done| |done]. split; [done|]. exists st1. split_and!; [done| |apply Hrest..].
  eapply refreshed_weaken; [done|]. intros y Hy. by right.
Qed.

Lemma attach_replicas_sys n v v' st s0 all s s' :
  sys s0 st → simple_name n = true → v_Name v = n → replicas_of v = st_reps st n →
  midway n st s0 false None all s → attach_replicas v s = (Ok v', s') →
  ∃ st', sys s' st' ∧ attached n st st'.
Proof.
  intros Hs0 Hn Hname Hreps Hmid E. unfold attach_replicas in E.
  pose proof (pick_replicas_range v) as Hrange.
  pose proof (pick_replicas_started (range (replicas_of v)) ∅ None) as [_ Hst].
  destruct (pick_replicas _ _ _) as [rns pk]. cbn [fst snd] in Hrange, Hst.
  apply bind_ok_inv in E as ([rs rb] & s1 & Ep & E).
  assert (pk = Ok (rs, rb) ∧ s1 = s) as [-> ->].
  { destruct pk as [[rs' rb']|e|x]; [by injection Ep as -> -> <-|discriminate|].
    by apply bind_ok_inv in Ep as (? & ? & _ & ?). }
  rewrite (Hst _ eq_refl) in E. clear Ep Hst. destruct (Hrange rs rb eq_refl) as [-> Hrs]. cbn beta iota zeta in E.
  assert (Hid : (if bool_decide (rs = ∅) then rs else rs) = rs) by by destruct (bool_decide (rs = ∅)).
  rewrite Hid in E. clear Hid.
  apply bind_ok_inv in E as ([] & s2 & Es & E).
  apply (midway_fan_out n st s0 _ _ all) in Es; [| |intros; by eapply stop_replica_step|done].
  2: { apply Forall_forall. intros x [_ Hx]%list_elem_of_filter. by eapply replica_place. }
  case_bool_decide; [discriminate|]. apply bind_ok_inv in E as ([] & s3 & Est & E).
  apply (midway_fan_out n st s0 _ _ all) in Est; [| |intros; by eapply start_replica_step|done].
  2: { apply Forall_forall. intros x ([r y] & -> & Hin)%list_elem_of_fmap.
       apply elem_of_range, Hrs in Hin as [Hin _]. rewrite Hreps in Hin. cbn [snd].
       eapply replica_place; [done..|]. by eapply replica_listed. }
  apply bind_ok_inv in E as (c & s4 & Ec & E). apply wrap_ok_inv in Ec.
  destruct Est as (_ & st1 & Hs3 & Href & Hsame & Hbase & _). rewrite Hname in Ec.
  destruct (create_controller_sys _ _ _ _ _ _ _ Hs3 Hn Ec) as [Hs4 Hhost].
  apply bind_ok_inv in E as ([] & s5 & Em & E). injection E as _ <-.
  pose proof (wp_elim _ _ _ _ _ (startMonitoring_free _ s4) Em) as Hf. cbn beta in Hf.
  exists (put_ctrl n (Some c) st1). split; [by eapply env_frame_sys|]. split.
  - exists c. split; [apply fn_lookup_insert|done].
  - done.
  - by eapply refreshed_keeps.
  - etrans; [done|]. apply same_except_put_ctrl.
Qed.

Lemma vol_of_unmoved n st st' :
  st_base st' n = st_base st n → is_Some (vol_of st n) → is_Some (vol_of st' n).
Proof. unfold vol_of. intros ->. destruct (st_base st n); [by eexists|by intros [??]]. Qed.

(** C6: attaching brings the controller here.  After the manager of a host has attached
    a volume, wherever it was attached before, the store has a controller for it on
    this very host; its replicas are the same instances with the same marks, and no
    other volume has changed. *)
Theorem attach_brings_controller n s st s' :
  sys s st → simple_name n = true → is_Some (vol_of st n) → man_Attach n s = (Ok tt, s') →
  ∃ st', sys s' st' ∧ attached n st st'.
Proof.
  intros Hs Hn [v0 Hv0] E. unfold man_Attach in E. apply bind_ok_inv in E as (ov & s1 & Eg & E).
  destruct (man_Get_sys _ _ _ _ _ Hs Hn Eg) as (Hs1 & _ & Hv). destruct ov as [v|]; [|congruence].
  destruct Hv as (v1 & _ & Hname & _ & Hctrl & Hreps).
  apply bind_ok_inv in E as (vd & s2 & Ed & E). injection Ed as <- <-.
  apply bind_ok_inv in E as (v2 & s2 & E & E'). injection E' as <-.
  assert (Hstart : ∀ st1 s3, sys s3 st1 → names_kept (m_env s1) (m_env s3) →
    st_ctrl st1 n = None → refreshed_replicas n [] true st st1 ∨ st1 = st → same_except n st st1 →
    st_base st1 n = st_base st n →
    midway n st s1 false None (range (replicas_of v)).*2 s3).
  { intros st1 s3 Hs3 Hk Hc Href Hsame Hbase. split; [done|]. exists st1. split_and!; [done| |done..].
    destruct Href as [[Hd Hr]| ->]; (split; [done|]); intros r x Hx.
    - right. destruct (Hr r x Hx) as [[[]%elem_of_nil _]|(j & ? & ? & _)]. by exists j.
    - left. split; [by eapply replica_listed|done]. }
  unfold doAttach in E. rewrite Hctrl in E. destruct (st_ctrl st n) as [c|] eqn:Ec.
  - destruct (i_Running _ && _) eqn:Hlocal.
    + apply bind_ok_inv in E as ([] & s3 & Em & E). injection E as _ <-.
      pose proof (wp_elim _ _ _ _ _ (startMonitoring_free _ s1) Em) as Hf. cbn beta in Hf.
      exists st. split; [by eapply env_frame_sys|]. split; [|done|by split; eauto|done].
      exists c. split; [done|]. apply andb_true_iff in Hlocal as [_ Hh]. by apply String.eqb_eq in Hh.
    + apply bind_ok_inv in E as ([] & s3 & Em & E). apply wrap_ok_inv in Em. rewrite Hname in Em.
      unfold man_Detach in Em. apply bind_ok_inv in Em as (ov & s4 & Eg2 & Em).
      destruct (man_Get_sys _ _ _ _ _ Hs1 Hn Eg2) as (Hs4 & Hk4 & Hv'). destruct ov as [v3|]; [|congruence].
      destruct Hv' as (v4 & _ & Hname3 & _ & Hctrl3 & Hreps3).
      apply bind_ok_inv in Em as (v' & s5 & Edt & Em). injection Em as <-.
      destruct (doDetach_sys n v3 v' st s4 s5 Hs4 (conj Hname3 (conj Hctrl3 Hreps3)) Edt)
        as (st1 & Hs5 & Hdt & Hk5).
      eapply (attach_replicas_sys n v v2 st s1); [done..| |exact E].
      eapply (Hstart st1); [done|by etrans|apply Hdt|left; apply Hdt|apply Hdt..].
  - eapply (attach_replicas_sys n v v2 st s1); [done..| |exact E].
    by apply (Hstart st s1); auto.
Qed.
End System.

(** ** The clients of the program

    What [main.go] gives the manager is apart, so the theorems above hold of it. *)
Lemma real_clients_apart {W} `{DockerSpec W} `{!Engine W} `{!Clients W} `{!ClientsSpec W}
    `{JsonText} `{Mapstructure} `{MapOrder} : deps_apart (W := W) (Mon := monitorChan).
Proof.
  split.
  - apply controller_Get_free.
  - intros v w c w' [x ->]%controller_Get_client. apply Endpoint_free.
  - apply Monitor_begin_free.
  - apply monitor_Close_free.
Qed.

(** ** The properties at a concrete cluster

    Two hosts, a volume with a replica, and its controller on the first host. *)
Module SystemDemo.
Import ClusterDemo RecordsDemo.
#[local] Existing Instance list_order.
#[local] Existing Instance in_order.
#[local] Instance random : Random world := {| UUID w := ("0a1b2c3d-0000-4000-8000-000000000000", w) |}.

(** The clients that [main.go] wires up, over engines that answer. *)
#[local] Instance engine : Engine world := {|
  cmd_CombinedOutput _ _ := mret (Some (inl "{ .. }"));
  cmd_Scan _ := mret (Scanned ["ADDRESS MODE CHAIN"] None);
  cmd_Stdout _ := mret "{}";
  cmd_Output _ := mret ("{}", None);
|}.
#[local] Instance json_text : JsonText := {|
  json_decode _ := Some (JObj [("name", JStr "vol"); ("endpoint", JStr "/dev/longhorn/vol")]);
|}.
#[local] Instance mapstructure : Mapstructure := {| mapstructure_Decode _ := None |}.
#[local] Instance clients : Clients world := {|
  cl_holder := w_holder;
  cl_set_holder h w := mkWorld (w_etcd w) (w_docker w) (w_names w) (w_fresh w) (w_clock w) h;
  cl_Put _ _ := mret tt; cl_List _ := mret []; cl_Latest _ := mret [];
  cl_purging _ _ := 0; cl_CronCh _ _ := mret tt;
|}.
#[local] Instance clients_spec : ClientsSpec world.
Proof.
  split; [done|intros h w; split_and!; [done|auto..|intros cli; reflexivity]|]. intros args t. apply preserves_ret. apply _.
Qed.

Lemma clients_apart : deps_apart (W := world) (Mon := monitorChan).
Proof. apply real_clients_apart. Qed.

Definition item2 : ScheduleItem :=
  mkScheduleItem ScheduleActionCreateController
    (mkScheduleInstance "vol-controller" "controller" "h1" "vol" "")
    (mkScheduleData OrcName (Some (to_json
       (mkDockerData "vol-controller" "vol" "" "engine" ["tcp://10.0.0.5:9502"])))).
Definition c1 : InstanceInfo := mkInstance "c1" "controller" "vol-controller" "h1" "10.0.0.c1" true "vol".

Lemma item2_ok : item_ok item2.
Proof.
  split; [|discriminate]. unfold item2. cbn [it_Data]. intros data. rewrite payload_roundtrip.
  intros [= <-]. reflexivity.
Qed.

Definition w3 : world := (ProcessSchedule (path ps) n1 item2 w2).2.
Definition st3 : store := record_instance c1 st2.

Lemma sys_w3 : sys (Mon := monitorChan) ps nodes (man_New w3) st3.
Proof.
  pose proof (process_schedule_spec ps (proj1 KVDemo.ps_ok) (proj2 KVDemo.ps_ok) n1 item2 w2 st2
                rel_w2 item2_ok) as Hp.
  unfold wp in Hp. replace (ProcessSchedule (path ps) n1 item2 w2).1 with (Ok c1) in Hp
    by (vm_compute; reflexivity).
  destruct Hp as (_ & st' & Ha & Hr). injection Ha as <-. split; [exact Hr|].
  apply consistent_record.
  - split_and!; [done..|]. exists n1. split; [left|]. split; [done|]. vm_compute. reflexivity.
  - eapply (consistent_kept nodes w2); [apply con_w2|].
    exact (process_names ps n1 item2 w2).
Qed.

Lemma vol_there : is_Some (vol_of st3 "vol").
Proof. by eexists. Qed.

(** The second host detaches the volume, deletes it, or attaches it to itself. *)
Lemma n2_node : n2 ∈ nodes.
Proof. right. left. Qed.

Lemma detach_stops_all_witness :
  ∃ st', detached "vol" st3 st' ∧ st_ctrl st3 "vol" = Some (mkController c1) ∧
    sys ps nodes (man_Detach (H := orc ps nodes n2) "vol" (man_New (Mon := monitorChan) w3)).2 st'.
Proof.
  destruct (detach_stops_all ps nodes n2 (proj1 KVDemo.ps_ok) (proj2 KVDemo.ps_ok) nodes_named
              nodes_unique n2_node clients_apart "vol" (man_New w3) st3
              (man_Detach (H := orc ps nodes n2) "vol" (man_New (Mon := monitorChan) w3)).2
              sys_w3 eq_refl vol_there) as (st' & Hs & Hd & _).
  - vm_compute. reflexivity.
  - exists st'. split; [exact Hd|]. split; [reflexivity|exact Hs].
Defined.

Lemma delete_leaves_no_trace_witness :
  ∃ st', st' ≡ drop_volume "vol" st3 ∧
    sys ps nodes (man_Delete (H := orc ps nodes n2) "vol" (man_New (Mon := monitorChan) w3)).2 st'.
Proof.
  destruct (delete_leaves_no_trace ps nodes n2 (proj1 KVDemo.ps_ok) (proj2 KVDemo.ps_ok) nodes_named
              nodes_unique n2_node clients_apart "vol" (man_New w3) st3
              (man_Delete (H := orc ps nodes n2) "vol" (man_New (Mon := monitorChan) w3)).2
              sys_w3 eq_refl vol_there) as (st' & Hs & Hd).
  - vm_compute. reflexivity.
  - exists st'. exact (conj Hd Hs).
Defined.

Lemma attach_brings_controller_witness :
  ∃ st' c, st_ctrl st' "vol" = Some c ∧ i_HostID (c_Instance c) = "h2" ∧
    sys ps nodes (man_Attach (H := orc ps nodes n2) "vol" (man_New (Mon := monitorChan) w3)).2 st'.
Proof.
  destruct (attach_brings_controller ps nodes n2 (proj1 KVDemo.ps_ok) (proj2 KVDemo.ps_ok) nodes_named
              nodes_unique n2_node clients_apart "vol" (man_New w3) st3
              (man_Attach (H := orc ps nodes n2) "vol" (man_New (Mon := monitorChan) w3)).2
              sys_w3 eq_refl vol_there) as (st' & Hs & Ha).
  - vm_compute. reflexivity.
  - destruct (at_ctrl _ _ _ _ Ha) as (c & Hc & Hh). exists st', c. exact (conj Hc (conj Hh Hs)).
Defined.
End SystemDemo.
