(* ===== verification/Provision.v ===== *)
(** * Creating a volume, end to end

    What a creation that succeeds leaves in the store, over the Docker orchestrators of
    a cluster: the record that was asked for, and as many new replicas. *)

From stdpp Require Import base functions list gmap strings.
From Stdlib Require Import ZArith Lia Ascii.
From S2P Require Import Prelude GoStrings GoTime Json Types Util Codec Backend KVStore KVSpec KVVolumes Scheduler Docker World DockerSpec Cluster Records TaskQueue Controller Backups Retain Cron Manager ManagerSpec ManagerDemo Monitor Clients System.
Local Open Scope string_scope.
Local Open Scope list_scope.

(** Docker gives a container a new ID, and the name it is asked for. *)
Class ContainerNaming (W : Type) `{ContainerNames W} `{DockerCli W} := {
  create_named : ∀ cli cfg w id w', ContainerCreate cli cfg w = (Ok id, w') →
    names w cli !! id = None ∧ names w' cli !! id = Some (cc_Name cfg);
}.

Section Provision.
Context {W Mon : Type} `{DockerSpec W} `{!ContainerNaming W} `{MapOrder} `{GoSched} `{Random W} `{CronSpec}.
Context `{!ManagerDeps W Mon}.
Context (ps : list string) (nodes : list dockerOrc) (d : dockerOrc).
Hypothesis ps_nonempty : ps ≠ [].
Hypothesis ps_simple : Forall (λ n, simple_name n = true) ps.
Hypothesis nodes_unique : ∀ d d', d ∈ nodes → d' ∈ nodes →
  GetCurrentHostID d = GetCurrentHostID d' → d = d'.
Hypothesis d_node : d ∈ nodes.
Hypothesis apart : deps_apart (W := W) (Mon := Mon).
(** The source of random names is not the store. *)
Hypothesis random_free : ∀ w : W, kv_frame w (UUID w).2.

Local Abbreviation Rel := (Rel ps).
Local Abbreviation http := (cluster_http (path ps) nodes).
Local Abbreviation sys := (sys (Mon := Mon) ps nodes).
#[local] Instance orc : Orchestrator W := System.orc ps nodes d.
Abbreviation man := (volumeManager W Mon).
Implicit Types (s : man) (st : store) (w : W) (v : VolumeInfo) (i : InstanceInfo).

(** ** A replica *)

(** The container of [i] is one that [d'] did not have before, under the name [name]. *)
Definition new_on (d' : dockerOrc) w (name : string) i : Prop :=
  names w (d_cli d') !! i_ID i = None ∧ i_Name i = name.

Lemma create_replica_new d' data w i w' :
  createReplica d' data w = (Ok i, w') → new_on d' w (ds_InstanceName data) i.
Proof.
  unfold createReplica. intros E. apply bind_ok_inv in E as (id & w1 & Ec & E). apply wrap_ok_inv in Ec.
  destruct (create_named _ _ _ _ _ Ec) as [Hfresh Hname].
  apply bind_ok_inv in E as (r & w2 & Er & E). unfold attempt in Er.
  destruct (refreshInstanceInfo d' _ w1) as [[k|e|x] w3] eqn:Ek; try discriminate Er; injection Er as <- <-.
  - injection E as <- <-. pose proof (wp_elim _ _ _ _ _ (refresh_free d' _ w1) Ek) as (_ & _ & _ & Hk).
    apply refresh_inv in Ek as ((_ & _ & _ & _ & _ & Hn) & Hid & _).
    specialize (Hid (names_full _ _ _ _ Hname)). cbn in Hid. split; [by rewrite Hid|].
    rewrite Hid in Hn. pose proof (lookup_weaken _ _ _ _ Hname (Hk _)). cbn in *. congruence.
  - by apply bind_ok_inv in E as (? & ? & _ & E).
Qed.

Section Replica.
Context (n name : string) (data : dockerScheduleData) (si : ScheduleInstance).
Hypothesis n_simple : simple_name n = true.
Hypothesis data_volume : ds_VolumeName data = n.
Hypothesis data_name : ds_InstanceName data = name.
Definition replica_item : ScheduleItem :=
  mkScheduleItem ScheduleActionCreateReplica si (mkScheduleData OrcName (Some (to_json data))).

(** The store with the new replica. *)
Definition with_replica i st : store :=
  put_reps n (<[name := mkReplica i "" ""]> (st_reps st n)) st.

Definition state w st : Prop := Rel w st ∧ consistent nodes w st.

Lemma state_kept w w' st : state w st → kv_frame w w' → state w' st.
Proof.
  intros [Hr Hc] (? & ? & _ & ?). split; [by eapply Rel_frame|by eapply consistent_kept].
Qed.

(** One node processes the item: there is a new replica only if there was none. *)
Lemma replica_processed d' w st o w' :
  d' ∈ nodes → state w st → ProcessSchedule (path ps) d' replica_item w = (o, w') →
  (is_ok o = false ∧ state w' st) ∨
  ∃ i, st_reps st n !! name = None ∧ state w' (with_replica i st) ∧ ∀ r, o = Ok r → r = i.
Proof.
  intros Hd [Hr Hc] E.
  assert (Hok : item_ok replica_item).
  { split; [|done]. intros y. unfold replica_item. cbn [it_Data]. rewrite payload_roundtrip. intros [= <-].
    unfold target_volume. cbn. by rewrite data_volume. }
  assert (HQ : ∀ data' i j w1, schedule_payload (it_Data replica_item) = Ok data' →
     run_action d' (it_Action replica_item) data' j w = (Ok i, w1) → new_on d' w name i).
  { intros data' i j w1 Hp Ea. unfold replica_item in Hp. cbn [it_Data] in Hp.
    rewrite payload_roundtrip in Hp. injection Hp as <-. rewrite <-data_name.
    change (createReplica d' data w = (Ok i, w1)) in Ea. by eapply create_replica_new. }
  pose proof (wp_elim _ _ _ _ _ (process_schedule_with ps ps_nonempty ps_simple (new_on d' w name)
    d' replica_item w st Hr Hok HQ) E) as Hp.
  pose proof (wp_elim _ _ _ _ _ (process_names ps d' replica_item w) E) as Hk. cbn beta in Hk.
  assert (Heff : ∀ i st', new_on d' w name i → subject d' replica_item i w' →
    apply_item replica_item i st = Some st' → Rel w' st' →
    st_reps st n !! name = None ∧ state w' (with_replica i st)).
  { intros i st' [Hfresh Hname] Hsub Ha Hr'.
    pose proof (consistent_apply nodes d' replica_item i w w' st st' Hc Hk Hd Hsub Ha) as Hc'.
    destruct Hsub as (_ & Hty & (y & Hy & Hvol) & (Hh & _)).
    unfold replica_item in Hy. cbn [it_Data] in Hy. rewrite payload_roundtrip in Hy. injection Hy as <-.
    cbn in Hvol, Hty. rewrite data_volume in Hvol.
    assert (Hrep : is_replica i = true) by (unfold is_replica; by rewrite Hty).
    assert (Hnc : is_controller i = false) by (unfold is_controller; by rewrite Hty).
    unfold apply_item in Ha. destruct (incomplete i); [done|]. cbn [orb] in Ha.
    destruct (conflict st i) eqn:Hcf; [done|]. injection Ha as <-.
    assert (Hnone : st_reps st n !! name = None).
    { destruct (st_reps st n !! name) as [x|] eqn:Ex; [|done]. exfalso.
      unfold conflict, recorded in Hcf. rewrite Hnc, Hrep, Hvol, Hname, Ex in Hcf. cbn in Hcf.
      apply other_instance_false in Hcf as [Hid Hhost].
      destruct (con_rep _ _ _ Hc _ _ _ Ex) as (_ & _ & _ & d0 & Hd0 & Hh0 & Hn0).
      assert (d0 = d') as -> by (apply nodes_unique; [done..|congruence]). rewrite Hid in Hn0. congruence. }
    split; [done|]. unfold record_instance in Hr', Hc'. rewrite Hnc, Hrep, Hvol, Hname, Hnone in Hr', Hc'.
    by split. }
  assert (Hsame : Rel w' st → state w' st) by (intros; split; [done|by eapply consistent_kept]).
  destruct o as [r|e|x]; simpl in Hp.
  { right. destruct Hp as (HQr & Hs & st' & Ha & Hr'). exists r.
    destruct (Heff r st' HQr Hs Ha Hr') as [? ?]. split_and!; [done..|]. by intros ? [= <-]. }
  all: destruct Hp as [?|(i & st' & HQi & Hs & Ha & Hr')]; [left; auto|right; exists i];
    destruct (Heff i st' HQi Hs Ha Hr') as [? ?]; by split_and!.
Qed.

(** Nothing was recorded so far, or a node that failed has recorded the replica. *)
Definition attempted st w : Prop :=
  state w st ∨ ∃ st1, state w st1 ∧ is_Some (st_reps st1 n !! name).

Lemma attempted_kept st w w' : attempted st w → kv_frame w w' → attempted st w'.
Proof. intros [?|(st1 & ? & ?)] Hf; [left|right; exists st1; split; [|done]]; by eapply state_kept. Qed.

Lemma attempted_next d' st w o w' :
  d' ∈ nodes → attempted st w → ProcessSchedule (path ps) d' replica_item w = (o, w') → attempted st w'.
Proof.
  intros Hd [Hs|(st1 & Hs & Hthere)] E.
  - destruct (replica_processed d' w st o w' Hd Hs E) as [[_ ?]|(i & _ & Hs' & _)]; [by left|].
    right. exists (with_replica i st). split; [done|]. simpl. rewrite fn_lookup_insert, lookup_insert_eq. eauto.
  - destruct (replica_processed d' w st1 o w' Hd Hs E) as [[_ ?]|(i & Hn & _)].
    + right. by exists st1.
    + rewrite Hn in Hthere. by destruct Hthere.
Qed.

Lemma attempted_runs tr st w w' :
  runs ps tr w w' → Forall (λ di, replica_item = di.2 ∧ (di.1 = d ∨ di.1 ∈ nodes)) tr →
  attempted st w → attempted st w'.
Proof.
  induction 1 as [w|tr w w1 w' Hf _ IH|d1 item tr w o w1 w' E _ IH]; intros Htr Ha; [done| |].
  - apply IH; [done|]. by eapply attempted_kept.
  - apply Forall_cons in Htr as [[Hitem Hd1] Htr]. cbn in Hitem, Hd1. subst item.
    apply IH; [done|]. eapply attempted_next; [|done..].
    by destruct Hd1 as [->|?].
Qed.

Lemma attempted_tried ids st w w' :
  tried (H := http) (H0 := orc_ops (path ps) d) replica_item ids w w' → attempted st w → attempted st w'.
Proof.
  induction 1 as [w|id ids e w w1 w' E _ IH]; [done|]. intros Ha. apply IH.
  destruct (wp_elim _ _ _ _ _ (schedule_process_emits ps nodes d replica_item _ w) E) as (tr & Hruns & Htr).
  by eapply attempted_runs.
Qed.

(** The scheduler has found a host: the replica is new, and is what that host made. *)
Lemma replica_scheduled p st w i w' :
  s_HostID si = "" → state w st →
  orc_schedule (H4 := http) (path ps) d replica_item (Some p) w = (Ok i, w') →
  st_reps st n !! name = None ∧ state w' (with_replica i st).
Proof.
  intros Hsi Hs E. apply schedule_anti_affinity in E; [|done].
  destruct E as (hosts & w0 & failed & id & w1 & Hl & Ht & Hid & Erun & _).
  pose proof (wp_elim _ _ _ _ _ (ListHosts_free (path ps) w) Hl) as Hf. cbn beta in Hf.
  pose proof (wp_elim _ _ _ _ _ (ListHosts_spec ps ps_nonempty ps_simple w st (proj1 Hs)) Hl) as (_ & _ & ->).
  assert (Hsimple : simple_name id = true).
  { destruct Hid as [h Hh]. apply (wf_host _ (rel_wf _ _ _ (proj1 Hs)) _ _ Hh). }
  assert (Ha : attempted st w1) by (eapply attempted_tried; [exact Ht|left; by eapply state_kept]).
  assert (Hrel : ∃ st1, state w1 st1 ∧ (st1 = st ∨ is_Some (st_reps st1 n !! name))).
  { destruct Ha as [?|(st1 & ? & ?)]; [exists st|exists st1]; auto. }
  destruct Hrel as (st1 & Hs1 & Hcase).
  destruct (schedule_process_run ps nodes ps_nonempty ps_simple d replica_item id w1 st1 i w' (proj1 Hs1) Hsimple Erun)
    as (d' & w2 & Hd' & _ & Hf2 & Ep).
  destruct (replica_processed d' w2 st1 (Ok i) w') as [[Hno _]|(j & Hnone & Hs' & Hij)];
    [by destruct Hd' as [->|?]|by eapply state_kept|done|done|].
  destruct Hcase as [->|Hthere]; [|rewrite Hnone in Hthere; by destruct Hthere].
  by rewrite (Hij i eq_refl).
Qed.
End Replica.

(** The orchestrator has made a replica: there was none of that name. *)
Lemma create_replica_sys n name s st r s' :
  sys s st → simple_name n = true → is_Some (vol_of st n) →
  onE (oc_CreateReplica n name) s = (Ok r, s') →
  ∃ i, st_reps st n !! name = None ∧ sys s' (with_replica n name i st).
Proof.
  intros Hs Hn [v Hv] E. apply onE_inv in E.
  change (CreateReplica (H4 := http) (path ps) d n name (m_env s) = (Ok r, m_env s')) in E.
  unfold CreateReplica in E. apply bind_ok_inv in E as (vol & w0 & Eg & E). apply wrap_ok_inv in Eg.
  pose proof (wp_elim _ _ _ _ _ (GetVolume_spec ps ps_nonempty ps_simple n (m_env s) st (proj1 Hs) Hn) Eg)
    as (_ & _ & ->). rewrite Hv in E.
  pose proof (wp_elim _ _ _ _ _ (GetVolume_free (path ps) n (m_env s)) Eg) as Hf. cbn beta in Hf.
  apply bind_ok_inv in E as (sd & w1 & Ed & E). unfold prepareCreateReplica in Ed.
  destruct (v_Size v =? 0)%Z; [discriminate Ed|]. injection Ed as <- <-.
  apply bind_ok_inv in E as (i & w2 & Es & E). injection E as _ Ew. rewrite Ew in Es. apply wrap_ok_inv in Es.
  exists i. pose proof (vol_of_name _ _ _ (rel_wf _ _ _ (proj1 Hs)) Hv) as Hname.
  apply (replica_scheduled n name (mkDockerData name (v_Name v) (FormatInt (v_Size v)) (v_EngineImage v) [])
           (mkScheduleInstance name InstanceTypeReplica "" n "") Hn Hname eq_refl
           (prepareCreateReplicaPolicy v) st w0 i (m_env s') eq_refl); [|exact Es].
  by eapply state_kept.
Qed.

(** ** The volume *)

(** The store with [k] more replicas of [n]. *)
Record provisioned (n : string) (k : nat) st st' : Prop := {
  pv_base : st_base st' n = st_base st n;
  pv_ctrl : st_ctrl st' n = st_ctrl st n;
  pv_kept : st_reps st n ⊆ st_reps st' n;
  pv_size : size (st_reps st' n) = (size (st_reps st n) + k)%nat;
  pv_new : ∀ r x, st_reps st' n !! r = Some x → st_reps st n !! r = None → good x = true;
  pv_other : same_except n st st';
}.

Lemma provisioned_none n st : provisioned n 0 st st.
Proof. split; [done|done|done|lia|congruence|done]. Qed.

Lemma provisioned_next n k name i st st' :
  provisioned n k st st' → st_reps st' n !! name = None →
  provisioned n (S k) st (with_replica n name i st').
Proof.
  intros [Hb Hc Hk Hsz Hnew Ho] Hnone. split; simpl; rewrite ?fn_lookup_insert; try done.
  - apply insert_subseteq_r; [|done]. by eapply lookup_weaken_None.
  - rewrite map_size_insert_None by done. lia.
  - intros r x [[<- <-]|[_ Hx]]%lookup_insert_Some; [done|]. by apply Hnew.
  - etrans; [done|]. apply same_except_put_reps.
Qed.

Lemma create_volume_sys v s st v' s' :
  sys s st → simple_name (v_Name v) = true → volume_in_range v →
  onE (oc_CreateVolume v) s = (Ok v', s') →
  v' = v ∧ sys s' (put_base (v_Name v) (Some (base_of v)) st).
Proof.
  intros [Hr Hc] Hn Hv E. apply onE_inv in E. change (CreateVolume (path ps) v (m_env s) = (Ok v', m_env s')) in E.
  unfold CreateVolume in E. apply bind_ok_inv in E as (b & w1 & Eg & E).
  assert (Hg : kv_free (attempt (GetVolumeBase (path ps) (v_Name v)))).
  { pose proof (get_free (W := W)). unfold GetVolumeBase, getVolumeBaseByKey, get_or_nil, b_get_as, unmarshal. frees. }
  pose proof (kv_free_rel ps _ _ _ _ _ Hg Hr Eg) as Hr1.
  pose proof (wp_elim _ _ _ _ _ (Hg (m_env s)) Eg) as (_ & _ & _ & Hk1).
  assert (E' : (wrap "fail to create new volume metadata" (SetVolumeBase (path ps) v);; mret v) w1 = (Ok v', m_env s'))
    by (destruct b as [[?|]|]; [discriminate E|exact E..]).
  clear E. apply bind_ok_inv in E' as ([] & w2 & Es & E). injection E as <- Ew. rewrite Ew in Es. apply wrap_ok_inv in Es.
  split; [done|].
  pose proof (wp_elim _ _ _ _ _ (SetVolumeBase_spec ps ps_nonempty ps_simple v st w1 Hr1 Hn Hv) Es) as [_ Hr2].
  split; [exact Hr2|]. eapply consistent_kept; [destruct Hc; by split|]. etrans; [exact Hk1|].
  assert (Hset : preserves names_kept (SetVolumeBase (path ps) v)) by (unfold SetVolumeBase; apply set_names).
  exact (wp_elim _ _ _ _ _ (Hset w1) Es).
Qed.

Lemma RandomID_free : kv_free (RandomID (W := W)).
Proof. intros w. pose proof (random_free w). unfold wp, RandomID. by destruct (UUID w). Qed.

Lemma replica_name_sys n s st name s' : sys s st → GetReplicaName n s = (Ok name, s') → sys s' st.
Proof.
  intros Hs E. apply bind_ok_inv in E as (id & s1 & E & E'). injection E' as _ <-.
  pose proof (wp_elim _ _ _ _ _ (onE_env_free _ RandomID_free s) E) as Hf. cbn beta in Hf.
  by eapply env_frame_sys.
Qed.

(** The loop makes as many replicas as it has turns. *)
Lemma replicas_sys n (l : list nat) s st s' :
  sys s st → simple_name n = true → is_Some (vol_of st n) →
  mfor (λ _ : nat,
          replicaName ← GetReplicaName n;
          wrap "error creating replica '%s', volume '%s'" (onE (oc_CreateReplica n replicaName));;
          mret tt) l s = (Ok tt, s') →
  ∃ st', sys s' st' ∧ provisioned n (length l) st st'.
Proof.
  intros Hs Hn Hv E.
  apply (mfor_succeeds (λ xs s, ∃ st' k, sys s st' ∧ provisioned n k st st' ∧ k + length xs = length l)%nat) in E.
  - destruct E as (st' & k & ? & Hp & Hk). exists st'. simpl in Hk. by replace (length l) with k by lia.
  - exists st, 0%nat. split_and!; [done|apply provisioned_none|done].
  - intros x xs s1 s2 (st1 & k & Hs1 & Hp & Hk) E1.
    apply bind_ok_inv in E1 as (name & s3 & En & E1). pose proof (replica_name_sys _ _ _ _ _ Hs1 En) as Hs3.
    apply bind_ok_inv in E1 as (r & s4 & Er & E1). injection E1 as <-. apply wrap_ok_inv in Er.
    assert (Hv1 : is_Some (vol_of st1 n)) by (eapply vol_of_unmoved; [apply Hp|done]).
    destruct (create_replica_sys _ _ _ _ _ _ Hs3 Hn Hv1 Er) as (i & Hnone & Hs4).
    exists (with_replica n name i st1), (S k). split_and!; [done|by apply provisioned_next|]. simpl in Hk. lia.
Qed.

Lemma GetSettings_free : kv_free (orc_GetSettings (path ps) d).
Proof.
  pose proof (get_free (W := W)). unfold orc_GetSettings, GetSettings, b_get_as, unmarshal. frees.
Qed.

(** C7: a volume that was created is there, with all its replicas.  When the manager of
    any host has created a volume, there was none of that name, and the store has its
    record as it was asked for, with the time and an engine image filled in; exactly as
    many replicas as wanted are recorded in addition to any there were, each under a
    name of its own and marked good, although their names are chosen at random and
    hosts may refuse or fail on the way; nothing else of the store has changed. *)
Theorem create_provisions volume s st r s' :
  sys s st → simple_name (v_Name volume) = true → volume_in_range volume →
  v_FromBackup volume = "" → man_Create volume s = (Ok r, s') →
  let n := v_Name volume in
  ∃ t image st' v, vol_of st n = None ∧ image ≠ "" ∧ sys s' st' ∧
    provisioned n (Z.to_nat (v_NumberOfReplicas volume))
      (put_base n (Some (base_of (set_Created t (set_EngineImage image volume)))) st) st' ∧
    r = Some v ∧ v_Name v = n ∧ replicas_of v = st_reps st' n.
Proof.
  intros Hs Hn Hrange Hback E n. unfold man_Create in E.
  apply bind_ok_inv in E as (ov & s1 & Eg & E).
  destruct (man_Get_sys ps nodes d ps_nonempty ps_simple apart _ _ _ _ _ Hs Hn Eg) as (Hs1 & _ & Hv).
  destruct ov as [v0|]; [discriminate E|]. apply bind_ok_inv in E as (set & s2 & Es & E).
  pose proof (wp_elim _ _ _ _ _ (preserves_attempt _ _ (onE_env_free (Mon := Mon) _ GetSettings_free) s1) Es) as Hf.
  cbn beta in Hf. pose proof (env_frame_sys _ _ _ _ _ Hf Hs1) as Hs2.
  destruct set as [settings|]; [|discriminate E].
  set (image := if String.eqb (v_EngineImage volume) "" then si_EngineImage settings else v_EngineImage volume) in *.
  destruct (String.eqb_spec image "") as [|Himage]; [discriminate E|].
  cbn [v_FromBackup set_EngineImage] in E. rewrite Hback in E. cbn [String.eqb] in E.
  unfold doCreate in E. apply bind_ok_inv in E as (t & s3 & Et & E).
  assert (Ht : kv_free (Now : M W string)) by (pose proof kv_free_now; unfold Now; frees).
  pose proof (env_frame_sys _ _ _ _ _ (wp_elim _ _ _ _ _ (onE_env_free (Mon := Mon) _ Ht s2) Et) Hs2) as Hs3.
  apply bind_ok_inv in E as (vol & s4 & Ec & E). apply wrap_ok_inv in Ec.
  destruct (create_volume_sys (set_Created t (set_EngineImage image volume)) _ _ _ _ Hs3 Hn Hrange Ec)
    as [-> Hs4].
  apply bind_ok_inv in E as ([] & s5 & El & E).
  assert (Hthere : is_Some (vol_of (put_base n (Some (base_of (set_Created t (set_EngineImage image volume)))) st) n)).
  { unfold vol_of. simpl. rewrite fn_lookup_insert. by eexists. }
  destruct (replicas_sys n (seq 0 (Z.to_nat (v_NumberOfReplicas volume))) _ _ _ Hs4 Hn Hthere El)
    as (st' & Hs5 & Hp). rewrite length_seq in Hp.
  destruct (man_Get_sys ps nodes d ps_nonempty ps_simple apart _ _ _ _ _ Hs5 Hn E) as (Hs6 & _ & Hr).
  destruct r as [v|].
  - destruct Hr as (v0 & _ & Hname & _ & _ & Hreps). by exists t, image, st', v.
  - assert (Hv' : is_Some (vol_of st' n)) by (eapply vol_of_unmoved; [apply Hp|done]).
    change (vol_of st' n = None) in Hr. rewrite Hr in Hv'. by destruct Hv'.
Qed.
End Provision.

(** ** The property at a concrete cluster

    The second host of [SystemDemo] creates a volume with two replicas. *)
Module ProvisionDemo.
Import ClusterDemo RecordsDemo SystemDemo.
#[local] Existing Instance list_order.
#[local] Existing Instance in_order.
#[local] Existing Instances engine json_text mapstructure clients clients_spec.

(** UUIDs that differ when a container was made in between. *)
#[local] Instance random : Random world := {| UUID w := ("4a1b2c3d-" +:+ FormatInt (Z.of_nat (w_fresh w)), w) |}.
#[local] Instance cronspec : CronSpec := {| cron_parses _ := true |}.
#[local] Instance naming : ContainerNaming world.
Proof.
  split. intros cli cfg w id w' E. unfold ContainerCreate, world_docker, create in E.
  destruct (negb _); [discriminate E|]. destruct (decide _) as [|Hno]; [discriminate E|].
  injection E as <- <-. simpl. unfold names_of. simpl. rewrite lookup_insert_eq. simpl.
  rewrite lookup_insert_eq. split; [|done]. apply eq_None_not_Some. intros Hs. apply Hno. by right.
Qed.

Lemma random_apart (w : world) : kv_frame w (UUID w).2.
Proof. apply (reflexivity (R := kv_frame) w). Qed.

Definition vol2 : VolumeInfo := mkVolume "vol2" 8192 "" "" 2 0 None None "" "" "" "" [].
Abbreviation creation := (man_Create (H := orc ps nodes n2) vol2 (man_New (Mon := monitorChan) w3)).

Lemma creation_ok : ∃ r, creation = (Ok r, creation.2).
Proof. eexists. vm_compute. reflexivity. Qed.

Lemma create_provisions_witness :
  ∃ st', sys ps nodes creation.2 st' ∧ size (st_reps st' "vol2") = 2.
Proof.
  destruct creation_ok as [r Hr].
  destruct (create_provisions ps nodes n2 (proj1 KVDemo.ps_ok) (proj2 KVDemo.ps_ok)
              nodes_unique n2_node clients_apart random_apart vol2 (man_New w3) st3
              r creation.2 sys_w3 eq_refl ltac:(split_and!; [reflexivity..|constructor]) eq_refl Hr)
    as (t & image & st' & v & _ & _ & Hs & Hp & _).
  exists st'. split; [exact Hs|]. exact (pv_size _ _ _ _ Hp).
Defined.
End ProvisionDemo.
