(* ===== verification/Teardown.v ===== *)
(** * Requests that are served

    A request to stop or to remove an instance, when etcd, the daemons and the other
    managers answer: it succeeds, and what it does to the containers.  [Completion] uses
    it for the operations of the manager. *)

From stdpp Require Import base functions list gmap strings.
From Stdlib Require Import ZArith Lia Ascii.
From S2P Require Import Prelude Total GoStrings GoTime Json Types Util Codec Backend KVStore KVSpec KVVolumes Scheduler Docker World DockerSpec Cluster Records DockerVolumes TaskQueue Controller Backups Retain Cron Manager ManagerSpec ManagerDemo Monitor Clients System.
Local Open Scope string_scope.
Local Open Scope list_scope.

(** ** Daemons that answer

    While [up] holds, a container that exists can be stopped and inspected, and removed
    when it is [halted], that is, does not run: the program does not force a removal.  A
    stop halts its container, and nothing but a start has it run again; no such call, and
    no request to the store, ends [up]. *)

Class LiveDocker (W : Type) `{Backend W} `{DockerCli W} `{HostOS W} `{Clock W} `{!ContainerSpec W} := {
  up : W → Prop;
  halted : W → string → string → Prop;   (* the daemon, the container *)
  up_stop : ∀ cli id t w, up w → id ∈ containers w cli → ∃ w', ContainerStop cli id t w = (Ok tt, w');
  up_inspect : ∀ cli id w, up w → id ∈ containers w cli → ∃ j w', ContainerInspect cli id w = (Ok j, w');
  up_remove : ∀ cli id v w, up w → id ∈ containers w cli → halted w cli id →
    ∃ w', ContainerRemove cli id v w = (Ok tt, w');
  stop_halts : ∀ cli id t w w', up w → id ∈ containers w cli →
    ContainerStop cli id t w = (Ok tt, w') → halted w' cli id;
  stays (w w' : W) := ∀ cli id, halted w cli id → halted w' cli id;
  up_kept (w w' : W) := (up w → up w') ∧ stays w w';
  stop_up : ∀ cli id t, preserves up_kept (ContainerStop cli id t);
  inspect_up : ∀ cli id, preserves up_kept (ContainerInspect cli id);
  remove_up : ∀ cli id v, preserves up_kept (ContainerRemove cli id v);
  get_up : ∀ k, preserves up_kept (b_get k);
  set_up : ∀ k j, preserves up_kept (b_set k j);
  delete_up : ∀ k, preserves up_kept (b_delete k);
  keys_up : ∀ k, preserves up_kept (b_keys k);
}.

Section Calm.
Context {W : Type} `{LiveDocker W} `{!BackendSpec W}.

(** The daemons answer as before, and have the same containers, of which none has been
    started. *)
Definition calm (w w' : W) : Prop := up_kept w w' ∧ ct_same w w'.
#[export] Instance stays_preorder : PreOrder stays.
Proof. split; [by intros w c id|]. intros w1 w2 w3 H1' H2' c id ?. by apply H2', H1'. Qed.
#[export] Instance up_kept_preorder : PreOrder up_kept.
Proof.
  split; [intros w; split; [by intros ?|reflexivity]|].
  intros w1 w2 w3 [Hu1 Hs1] [Hu2 Hs2]. split; [by intros ?; apply Hu2, Hu1|by etrans].
Qed.
#[export] Instance calm_preorder : PreOrder calm.
Proof.
  split; [intros w; split; reflexivity|]. intros w1 w2 w3 [Hu1 Hc1] [Hu2 Hc2]. split; by etrans.
Qed.

Lemma calm_both {A} (m : M W A) : preserves up_kept m → preserves ct_same m → preserves calm m.
Proof. intros Hu Hc w. split; [apply Hu|apply Hc]. Qed.

Lemma stop_calm cli id t : preserves calm (ContainerStop cli id t).
Proof. apply calm_both; [apply stop_up|apply ct_stop]. Qed.
Lemma inspect_calm cli id : preserves calm (ContainerInspect cli id).
Proof. apply calm_both; [apply inspect_up|apply ct_inspect]. Qed.
Lemma get_calm k : preserves calm (b_get k).
Proof. apply calm_both; [apply get_up|apply ct_get]. Qed.
Lemma set_calm k j : preserves calm (b_set k j).
Proof. apply calm_both; [apply set_up|apply ct_set]. Qed.
Lemma delete_calm k : preserves calm (b_delete k).
Proof. apply calm_both; [apply delete_up|apply ct_delete]. Qed.
Lemma keys_calm k : preserves calm (b_keys k).
Proof. apply calm_both; [apply keys_up|apply ct_keys]. Qed.
End Calm.
#[export] Hint Resolve stop_calm inspect_calm get_calm set_calm delete_calm keys_calm : frame.

Section StoreCalm.
Context {W : Type} `{LiveDocker W} `{MapOrder}.
Context (Prefix : string).

Lemma get_or_nil_calm {T} (f : json → option T) k : preserves calm (get_or_nil f k).
Proof. unfold get_or_nil, b_get_as, unmarshal. frees. Qed.
Hint Resolve get_or_nil_calm : frame.

Lemma metadata_calm item i : preserves calm (if deletes (it_Action item) then removeInstanceMetadata Prefix i
                                             else updateInstanceMetadata Prefix i).
Proof.
  unfold removeInstanceMetadata, updateInstanceMetadata, GetVolumeController, GetVolumeReplica,
    getVolumeControllerByKey, getVolumeReplicaByKey, SetVolumeController, SetVolumeReplica,
    DeleteVolumeController, DeleteVolumeReplica. frees.
Qed.

Lemma GetHost_calm id : preserves calm (GetHost Prefix id).
Proof. unfold GetHost, getHostByKey. frees. Qed.

Lemma GetVolume_calm n : preserves calm (GetVolume Prefix n).
Proof.
  unfold GetVolume, getVolumeByKey, getVolumeBaseByKey, getVolumeControllerByKey, getVolumeReplicasByKey.
  assert (Hl : ∀ l m, preserves calm (getVolumeReplicas_loop l m)).
  { induction l as [|k l IH]; intros m; simpl; unfold getVolumeReplicaByKey; frees. }
  frees.
Qed.

Lemma DeleteVolume_calm n : preserves calm (DeleteVolume Prefix n).
Proof. unfold DeleteVolume. frees. Qed.
End StoreCalm.

(** ** A schedule item on its node *)

Section Node.
Context {W : Type} `{DockerSpec W} `{!ContainerSpec W} `{!LiveDocker W} `{MapOrder}.
Context (ps : list string) (nodes : list dockerOrc).
Hypothesis ps_nonempty : ps ≠ [].
Hypothesis ps_simple : Forall (λ n, simple_name n = true) ps.
Hypothesis nodes_named : ∀ d, d ∈ nodes → simple_name (GetCurrentHostID d) = true.
Hypothesis nodes_unique : ∀ d d', d ∈ nodes → d' ∈ nodes →
  GetCurrentHostID d = GetCurrentHostID d' → d = d'.
Implicit Types (w : W) (st : store) (i : InstanceInfo) (d : dockerOrc).

Local Abbreviation Rel := (Rel ps).
Local Abbreviation http := (cluster_http (path ps) nodes).
Local Abbreviation consistent := (consistent nodes).

Lemma writes_healthy (m : M W unit) w st st' :
  wp m w (writes ps w st st') → healthy w → succeeds m w (λ _ w', healthy w' ∧ Rel w' st').
Proof.
  unfold wp. destruct (m w) as [o w'] eqn:E. intros [Hs Ho] Hh. destruct (Hs Hh) as [? [[] Hok]].
  simpl in *. subst o. eapply succeeds_run; [exact E|done].
Qed.

Lemma reads_succeeds {A} (m : M W A) w st x :
  wp m w (reads ps w st x) → healthy w → succeeds m w (λ a w', a = x ∧ healthy w' ∧ Rel w' st).
Proof. intros Hm Hh. destruct (reads_healthy ps _ _ _ _ Hm Hh) as (w' & E & ? & ?). by exists x, w'. Qed.

(** Its metadata can be written, and removed when it is there. *)
Lemma metadata_succeeds item i st w :
  Rel w st → healthy w → named i → incomplete i = false → conflict st i = false →
  (deletes (it_Action item) = true → present st i = true) →
  succeeds (if deletes (it_Action item) then removeInstanceMetadata (path ps) i
            else updateInstanceMetadata (path ps) i) w (λ _ w', healthy w').
Proof.
  intros Hr Hh [Hv Hn] Hinc Hcf Hp. unfold conflict, present, recorded in *.
  assert (Hdone : ∀ (m : M W unit) w1 st', wp m w1 (writes ps w1 st st') → healthy w1 →
    succeeds m w1 (λ _ w', healthy w')).
  { intros m w1 st' Hm Hh1. go_with (writes_healthy m w1 st st' Hm Hh1). by intros ??? [??]. }
  destruct (deletes _); unfold removeInstanceMetadata, updateInstanceMetadata; rewrite Hinc;
    fold (is_controller i); fold (is_replica i); (destruct (is_controller i) eqn:Hc; [|destruct (is_replica i)]).
  - do 2 go_on. go_with (reads_succeeds _ _ _ _ (GetVolumeController_spec ps ps_nonempty ps_simple _ st w Hr Hv) Hh).
    intros c w1 _ (-> & Hh1 & Hr1). destruct (st_ctrl st (i_VolumeName i)) as [c|]; [|by specialize (Hp eq_refl)].
    cbn in Hcf. rewrite Hcf. go_on. eapply Hdone; [|done].
    by apply (DeleteVolumeController_spec ps ps_nonempty ps_simple).
  - go_on. go_on. go_with (reads_succeeds _ _ _ _ (GetVolumeReplica_spec ps ps_nonempty ps_simple _ _ st w Hr Hv Hn) Hh).
    intros c w1 _ (-> & Hh1 & Hr1).
    destruct (st_reps st (i_VolumeName i) !! i_Name i) as [x|] eqn:Ex; [|by specialize (Hp eq_refl)].
    cbn in Hcf. rewrite Hcf. go_on. destruct (wf_rep _ (rel_wf _ _ _ Hr) _ _ _ Ex) as (-> & -> & _).
    eapply Hdone; [|done]. by apply (DeleteVolumeReplica_spec ps ps_nonempty ps_simple).
  - by go_on.
  - do 2 go_on. go_with (reads_succeeds _ _ _ _ (GetVolumeController_spec ps ps_nonempty ps_simple _ st w Hr Hv) Hh).
    intros c w1 _ (-> & Hh1 & Hr1).
    assert (Hnc : match st_ctrl st (i_VolumeName i) with Some c => other_instance (c_Instance c) i | None => false end = false)
      by (by destruct (st_ctrl st (i_VolumeName i))).
    rewrite Hnc. go_on. eapply Hdone; [|done]. by apply (SetVolumeController_spec ps ps_nonempty ps_simple).
  - go_on. go_on. go_with (reads_succeeds _ _ _ _ (GetVolumeReplica_spec ps ps_nonempty ps_simple _ _ st w Hr Hv Hn) Hh).
    intros c w1 _ (-> & Hh1 & Hr1).
    destruct (st_reps st (i_VolumeName i) !! i_Name i) as [x|] eqn:Ex; cbn in Hcf; rewrite ?Hcf; go_on;
      (eapply Hdone; [|done]); by apply (SetVolumeReplica_spec ps ps_nonempty ps_simple).
  - by go_on.
Qed.

(** The daemon [c] runs the instance [i] as the container [id]. *)
Definition runs_as (c id : string) i : Prop :=
  i_ID i = id ∧ ∃ d, d ∈ nodes ∧ GetCurrentHostID d = i_HostID i ∧ d_cli d = c.

(** Of the containers of [w], those of the instances [gone] are no more. *)
Definition without (gone : list InstanceInfo) w w' : Prop :=
  ∀ c id, id ∈ containers w' c ↔ id ∈ containers w c ∧ Forall (λ i, ¬ runs_as c id i) gone.

(** The instance [i] is recorded, on a node of the cluster, and its container exists. *)
Definition placed w st i : Prop :=
  genuine nodes w i ∧ (is_controller i = true ∨ is_replica i = true) ∧
  conflict st i = false ∧ present st i = true ∧ ∀ c id, runs_as c id i → id ∈ containers w c.

(** The network of a node is one its containers are attached to. *)
Definition networked d : Prop :=
  d_Network d = "" ∨ ∀ id (w : W) j w', ContainerInspect (d_cli d) id w = (Ok j, w') →
                       is_Some (cj_Networks j !! d_Network d).
Hypothesis nodes_networked : ∀ d, d ∈ nodes → networked d.

(** The item that asks for [action] on [i]. *)
Definition instance_item (action : string) i : ScheduleItem :=
  mkScheduleItem action
    (mkScheduleInstance (i_ID i) (i_Type i) (i_HostID i) (i_VolumeName i) (i_Name i))
    (mkScheduleData OrcName None).

(** A container that was stopped can be inspected. *)
Lemma refresh_stopped d i w :
  d ∈ nodes → up w → i_ID i ∈ containers w (d_cli d) →
  (∀ j w', ContainerInspect (d_cli d) (i_ID i) w = (Ok j, w') → cj_Running j = false) →
  succeeds (refreshInstanceInfo d i) w (λ _ _, True).
Proof.
  intros Hd Hu Hin Hstop. unfold refreshInstanceInfo.
  destruct (up_inspect _ _ _ Hu Hin) as (j & w1 & Ei). do 2 go_on.
  eapply succeeds_run; [exact Ei|]. go_on.
  eapply (succeeds_mono _ _ (λ _ _, True)).
  - destruct (nodes_networked d Hd) as [->|Hnet]; [by apply succeeds_ret|].
    destruct (Hnet _ _ _ _ Ei) as [a ->]. destruct (String.eqb _ ""); by apply succeeds_ret.
  - intros a w2 _ _. cbv beta zeta. cbn [i_Running i_Address]. rewrite (Hstop _ _ Ei). cbn [andb]. by go_on.
Qed.

(** The instances that are no more when the action is done. *)
Definition after (action : string) i : list InstanceInfo := if deletes action then [i] else [].

(** The container of [i] does not run, wherever it is. *)
Definition halted_as w i : Prop := ∀ c id, runs_as c id i → halted w c id.

(** What does not run still does not when the action is done, unless that is a start; and
    after a stop the container of [i] does not. *)
Definition halts (action : string) i w w' : Prop :=
  (action ≠ ScheduleActionStartInstance → stays w w') ∧
  (action = ScheduleActionStopInstance → halted_as w' i).

(** A container that is to be removed does not run. *)
Definition allowed (action : string) w i : Prop := deletes action = true → halted_as w i.

(** On its node the action succeeds for a container that exists, and does not run if it
    is to be removed, with a result that satisfies [P]; and what is left of the
    containers. *)
Definition performed (P : InstanceInfo → Prop) (action : string) i : Prop := ∀ d w,
  d ∈ nodes → GetCurrentHostID d = i_HostID i → up w → i_ID i ∈ containers w (d_cli d) → allowed action w i →
  succeeds (run_action d action no_data
    (mkInstance (i_ID i) (i_Type i) (i_Name i) (i_HostID i) "" false (i_VolumeName i))) w
    (λ r w', P r ∧ up w' ∧ halts action i w w' ∧ ∀ c, containers w' c =
       if deletes action then (if decide (c = d_cli d) then containers w c ∖ {[ i_ID i ]} else containers w c)
       else containers w c).

(** The actions on an instance that exists. *)
Definition on_instance (action : string) : Prop :=
  action = ScheduleActionStartInstance ∨ action = ScheduleActionStopInstance ∨ action = ScheduleActionDeleteInstance.

Lemma teardown_performed action i :
  action = ScheduleActionStopInstance ∨ action = ScheduleActionDeleteInstance →
  performed (λ _, True) action i.
Proof.
  intros Hact d w Hd Hh Hu Hin Hal.
  assert (Hhere : ∀ w', halted w' (d_cli d) (i_ID i) → halted_as w' i).
  { intros w' Hhalt c id (<- & d' & Hd' & Hh' & <-). by assert (d' = d) as -> by (apply nodes_unique; congruence). }
  unfold run_action. destruct Hact as [-> | ->]; cbn -[wrap mbind M_bind].
  - unfold stopInstance, stopContainer. do 2 go_on. cbn [i_ID].
    destruct (up_stop _ _ ContainerStopTimeout _ Hu Hin) as [w1 Es]. eapply succeeds_run; [exact Es|].
    pose proof (wp_elim _ _ _ _ _ (stop_calm _ _ _ w) Es) as [[Hu1 Hs1] Hc1]. cbn beta in Hu1, Hs1, Hc1.
    pose proof (stop_halts _ _ _ _ _ Hu Hin Es) as Hhalt.
    set (i' := mkInstance _ _ _ _ _ _ _).
    eapply succeeds_mono; [eapply succeeds_wp|].
    + apply (refresh_stopped d i' w1 Hd (Hu1 Hu)); [by rewrite Hc1|].
      intros j w2 Ej. by eapply stopped_result.
    + assert (Hr : preserves calm (refreshInstanceInfo d i')) by (unfold refreshInstanceInfo; frees).
      apply (Hr w1).
    + intros j w2 _ [_ [[Hu2 Hs2] Hc2]]. split_and!; [done|auto| |intros c; by rewrite Hc2, Hc1].
      split; [intros _; by etrans|]. intros _. by apply Hhere, Hs2.
  - unfold removeInstance, removeContainer. do 2 go_on. cbn [i_ID].
    assert (Hhalt : halted w (d_cli d) (i_ID i)) by (apply Hal; [done|]; split; [done|by exists d]).
    destruct (up_remove _ _ true _ Hu Hin Hhalt) as [w1 Er]. eapply succeeds_run; [exact Er|]. go_on.
    pose proof (wp_elim _ _ _ _ _ (remove_up _ _ _ w) Er) as [Hu1 Hs1].
    split_and!; [done|auto|by split|]. apply (wp_elim _ _ _ _ _ (ct_remove _ _ _ w Hin) Er).
Qed.

Lemma complete_fields i :
  incomplete i = false →
  String.eqb (i_ID i) "" = false ∧ String.eqb (i_Name i) "" = false ∧ String.eqb (i_HostID i) "" = false ∧
  String.eqb (i_Type i) InstanceTypeNone = false ∧ String.eqb (i_VolumeName i) "" = false.
Proof. unfold incomplete. rewrite !orb_false_iff. tauto. Qed.

(** The hosts of the nodes are registered, each under an address of its own. *)
Definition registered st : Prop :=
  ∀ d, d ∈ nodes → st_hosts st !! GetCurrentHostID d = Some (d_currentHost d).
Hypothesis nodes_urls : ∀ d d', d ∈ nodes → d' ∈ nodes → node_url d = node_url d' → d = d'.

(** ** Requests on an instance that exists *)

Section Requests.
Context (P : InstanceInfo → Prop) (action : string) (i : InstanceInfo).
Hypothesis Hact : on_instance action.
Hypothesis Hperf : performed P action i.

(** The node of a placed instance processes the item. *)
Lemma node_succeeds d w st :
  Rel w st → consistent w st → healthy w → up w → placed w st i → allowed action w i →
  d ∈ nodes → GetCurrentHostID d = i_HostID i →
  succeeds (ProcessSchedule (path ps) d (instance_item action i)) w (λ r w',
    healthy w' ∧ up w' ∧ without (after action i) w w' ∧ same_instance i r ∧ halts action i w w' ∧ P r).
Proof.
  intros Hr Hc Hh Hu (Hg & Hkind & Hcf & Hp & Hthere) Hal Hd Hhost.
  pose proof Hg as (Hinc & Hnm & d0 & Hd0 & Hh0 & Hn0).
  assert (d0 = d) as -> by (apply nodes_unique; congruence). clear Hd0 Hh0.
  assert (Hin : i_ID i ∈ containers w (d_cli d)) by (apply Hthere; split; [done|by exists d]).
  set (item := instance_item action i).
  assert (Hok : item_ok item).
  { destruct Hnm. split; [|done]. intros data [= <-]. unfold target_volume, item. by destruct Hact as [-> | [-> | ->]]. }
  assert (Hk : known_action action = true) by (by destruct Hact as [-> | [-> | ->]]).
  unfold ProcessSchedule. cbn [it_Data it_Action it_Instance item instance_item sd_Orchestrator schedule_payload sd_Data
    s_ID s_Type s_Name s_HostID s_VolumeName]. rewrite String.eqb_refl. cbn [negb]. go_on. go_on.
  assert (Hid : String.eqb (i_ID i) "" = false)
    by (unfold incomplete in Hinc; by destruct (String.eqb (i_ID i) "")).
  rewrite Hid, Hk. cbn [negb]. go_on. go_on.
  eapply succeeds_mono; [eapply succeeds_wp; [by apply (Hperf d)|apply (run_action_free d action no_data _ w)]|].
  intros r w1 Ea [(HP & Hu1 & [Hst1 Hhalt1] & Hc1) Hf]. cbn beta in Hf. pose proof Hf as (_ & _ & Hh1 & Hk1).
  assert (Hr1 : Rel w1 st) by (destruct Hf as (? & ? & _); by eapply Rel_frame).
  pose proof (run_action_inv ps ps_nonempty d item no_data w r w1 Hok Hk eq_refl Ea) as Hsub.
  assert (Hsame : same_instance i r).
  { destruct Hsub as (_ & Hty & (data & Hdata & Hvol) & Hsub). injection Hdata as <-.
    revert Hty Hvol Hsub. unfold same_instance, item, deletes, target_type, target_volume, creates.
    destruct Hact as [-> | [-> | ->]]; cbn; intros Hty Hvol Hsub; [| |tauto];
      destruct Hsub as (Hhost' & _ & Hn & Hid' & _); specialize (Hid' eq_refl (names_full _ _ _ _ Hn0)); cbn in Hid'; rewrite Hid' in Hn;
      pose proof (lookup_weaken _ _ _ _ Hn0 (Hk1 _)); split_and!; congruence. }
  do 2 go_on. change (String.eqb action ScheduleActionDeleteInstance) with (deletes (it_Action item)).
  pose proof Hsame as (Eid & Eh & Ety & Ev & En).
  assert (Hkinds : is_controller r = is_controller i ∧ is_replica r = is_replica i)
    by (unfold is_controller, is_replica; by rewrite Ety).
  destruct Hkinds as [Ec Er].
  eapply succeeds_mono; [eapply succeeds_wp; [apply (metadata_succeeds item r st w1 Hr1 (Hh1 Hh) (proj1 Hsub))|
    apply (metadata_calm (path ps) item r w1)]|].
  - unfold incomplete in *. by rewrite Eid, En, Eh, Ety, Ev.
  - unfold conflict, recorded, other_instance in *. by rewrite Ec, Er, Eid, Eh, Ev, En.
  - intros _. unfold present, recorded in *. by rewrite Ec, Er, Ev, En.
  - intros _ w2 _ [Hh2 [[Hu2 Hs2] Hc2]]. go_on. split_and!; [done|auto| |done| |done].
    2: { split; [intros Hne; etrans; [by apply Hst1|done]|]. intros Hstop c id Hrun. by apply Hs2, Hhalt1. }
    intros c id. rewrite Hc2, Hc1. unfold after. destruct (deletes action); [|rewrite Forall_nil; tauto].
    rewrite Forall_singleton. unfold runs_as. destruct (decide (c = d_cli d)) as [->|Hne].
    + rewrite elem_of_difference, elem_of_singleton. split; [|naive_solver].
      intros [? Hne]. split; [done|]. intros [<- _]. done.
    + split; [|tauto]. intros ?. split; [done|]. intros (_ & d' & Hd' & Hh' & <-).
      destruct Hne. f_equal. apply nodes_unique; congruence.
Qed.

(** *** Through the scheduler *)

(** What a request on [i] brings about. *)
Definition served_request w (r : InstanceInfo) w' : Prop :=
  healthy w' ∧ up w' ∧ without (after action i) w w' ∧ same_instance i r ∧ halts action i w w' ∧ P r.

Lemma process_succeeds d w st :
  Rel w st → consistent w st → healthy w → up w → placed w st i → allowed action w i →
  d ∈ nodes → GetCurrentHostID d = i_HostID i →
  succeeds (Process (H0 := orc_ops (path ps) d) (mkScheduleSpec (i_HostID i)) (instance_item action i)) w
    (served_request w).
Proof.
  intros Hr Hc Hh Hu Hi Hal Hd Hhost. unfold Process. cbn [so_GetCurrentHostID so_ProcessSchedule orc_ops spec_HostID].
  rewrite Hhost, String.eqb_refl. cbn [negb]. do 3 go_on.
  go_with (node_succeeds d w st Hr Hc Hh Hu Hi Hal Hd Hhost). intros r w1 _ Ho. go_on.
  pose proof Ho as (_ & _ & _ & (Eid & _ & Ety & _) & _). rewrite Eid, Ety.
  destruct (complete_fields i (proj1 (proj1 Hi))) as (-> & _ & _ & -> & _). cbn [orb]. by go_on.
Qed.

Lemma request_succeeds d s1 s2 w st :
  d ∈ nodes →
  Rel w st → consistent w st → registered st → healthy w → up w → placed w st i → allowed action w i →
  succeeds (instance_request (H4 := http) (path ps) d action s1 s2 i) w (served_request w).
Proof.
  intros Hd Hr Hc Hreg Hh Hu Hi Hal. pose proof (proj1 Hi) as (Hinc & Hnm & d0 & Hd0 & Hh0 & Hn0).
  destruct (complete_fields i Hinc) as (Eid & En & Eh & Ety & Ev).
  unfold instance_request, getScheduleInstanceFromInstance. rewrite Eid, En, Eh, Ety, Ev. cbn [orb wrap_outcome].
  do 3 go_on. unfold orc_schedule, Schedule.
  cbn [it_Instance s_ID s_Type s_HostID]. rewrite Eid, Ety, Eh. cbn [orb negb].
  unfold ScheduleProcess. cbn [so_GetCurrentHostID so_GetHost orc_ops spec_HostID].
  destruct (String.eqb_spec (GetCurrentHostID d) (i_HostID i)) as [Hhost|Hhost];
    [by apply (process_succeeds d w st)|].
  do 2 go_on. rewrite <-Hh0 at 1. eapply succeeds_mono; [eapply succeeds_wp; [eapply succeeds_wp|]|].
  - apply (reads_succeeds _ _ _ _ (GetHost_spec ps ps_nonempty ps_simple _ st w Hr (nodes_named d0 Hd0)) Hh).
  - apply (GetHost_free (path ps) _ w).
  - apply (GetHost_calm (path ps) _ w).
  - intros h w1 _ [[(-> & Hh1 & Hr1) Hf] [[Hu1 Hs1] Hc1]]. cbn beta in *. rewrite (Hreg d0 Hd0). do 3 go_on.
    unfold client_Schedule, client_post, client_do. do 3 go_on. cbn [cl_address newSchedulerClient cl_hostID].
    cbn [http_Do cluster_http]. fold (node_url d0).
    destruct (list_find (λ d, node_url d = node_url d0) nodes) as [[k d1]|] eqn:Ef.
    2: { apply list_find_None in Ef. rewrite Forall_forall in Ef. by destruct (Ef d0 Hd0). }
    apply list_find_Some in Ef as (Hk & Hurl & _). apply list_elem_of_lookup_2 in Hk as Hd1.
    assert (d1 = d0) as -> by by apply nodes_urls.
    assert (Hi1 : placed w1 st i).
    { destruct Hi as (Hg & ? & ? & ? & Hthere). split_and!; [eapply genuine_kept; [done|apply Hf]|done..|].
      intros c id Hrun. rewrite Hc1. auto. }
    assert (Hc1' : consistent w1 st) by (eapply consistent_kept; [done|apply Hf]).
    assert (Hal1 : allowed action w1 i) by (intros Hdel c id Hrun; by apply Hs1, Hal).
    destruct (process_succeeds d0 w1 st Hr1 Hc1' Hh1 (Hu1 Hu) Hi1 Hal1 Hd0 Hh0)
      as (r & w2 & Ep & Ho).
    change (h_UUID (d_currentHost d0)) with (GetCurrentHostID d0). rewrite Hh0.
    eapply (succeeds_run _ _ (mkResponse 200 (Some (mkScheduleOutput r))) w2).
    + unfold served_by, handle_Schedule, man_ProcessSchedule. cbn [in_Spec in_Item].
      unfold attempt, wrap, mbind, M_bind. fold (instance_item action i). by rewrite Ep.
    + cbn [StatusCode Body Z.leb Z.compare Pos.compare Pos.compare_cont]. go_on. cbn [out_Instance].
      pose proof Ho as (Hh2 & Hu2 & Hgone & Hsame & [Hst Hhalt] & HP). destruct Hsame as (E1 & Hsame). rewrite E1, Eid. go_on.
      split_and!; [done..| |by split|split; [intros Hne; etrans; [done|by apply Hst]|done]|done].
      intros c id. by rewrite (Hgone c id), Hc1.
Qed.
End Requests.
End Node.
