(* ===== verification/Recurring.v ===== *)
(** * Recurring jobs of a stored volume

    [UpdateRecurring] over the Docker orchestrator, on every branch: what is stored, what
    is answered, and what the monitor of the volume is told. *)

From stdpp Require Import base functions list gmap strings.
From Stdlib Require Import ZArith Lia Ascii.
From S2P Require Import Prelude Total GoStrings GoTime Json Types Util Codec Backend KVStore KVSpec KVVolumes Scheduler Docker World DockerSpec Cluster Records DockerVolumes TaskQueue Controller Backups Retain Cron Manager ManagerSpec ManagerDemo Monitor Clients System Teardown.
Local Open Scope string_scope.
Local Open Scope list_scope.

Section Recurring.
Context {W Mon : Type} `{DockerSpec W} `{MapOrder} `{HTTPClient W} `{!ManagerDeps W Mon} `{CronSpec}.
Context (ps : list string) (d : dockerOrc).
Hypothesis ps_nonempty : ps ≠ [].
Hypothesis ps_simple : Forall (λ n, simple_name n = true) ps.
Local Abbreviation Rel := (Rel ps).
#[local] Instance recurring_orc : Orchestrator W := docker_orchestrator (path ps) d.
Abbreviation man := (volumeManager W Mon).
Implicit Types (s : man) (st : store) (w : W) (v : VolumeInfo).

Definition with_env w s : man := mkMan w (m_monitors s) (m_addingReplicas s) (m_adds s).

Lemma onE_ok {A} (m : M W A) s a w : m (m_env s) = (Ok a, w) → onE (Mon := Mon) m s = (Ok a, with_env w s).
Proof. unfold onE. by intros ->. Qed.

(** A stored volume with other jobs can be stored, and is then what is read. *)
Lemma vol_of_jobs st n v jobs :
  store_wf st → vol_of st n = Some v → Forall job_in_range jobs →
  volume_in_range (set_RecurringJobs jobs v) ∧
  vol_of (put_base n (Some (base_of (set_RecurringJobs jobs v))) st) n = Some (set_RecurringJobs jobs v).
Proof.
  intros Hwf Hv Hj. unfold vol_of in *. simpl. rewrite fn_lookup_insert.
  destruct (st_base st n) as [b|] eqn:Eb; [|done]. injection Hv as <-.
  destruct (base_in_range st n b Hwf Eb) as (? & ? & ? & _). by destruct b.
Qed.

(** C38: the jobs are stored before they are validated.  When the backend answers, jobs
    that are refused are in the store of a volume that exists, as the jobs of which it
    reads afterwards, and the error is returned, the monitor not being told; accepted ones
    are stored likewise and passed to the monitor.  Without such a volume the manager
    panics. *)
Theorem update_recurring_stores_first n jobs s st :
  Rel (m_env s) st → simple_name n = true → healthy (m_env s) → Forall job_in_range jobs →
  match vol_of st n with
  | None => ∃ p s', UpdateRecurring n jobs s = (Panic p, s') ∧ Rel (m_env s') st
  | Some v => ∃ s' st', Rel (m_env s') st' ∧ healthy (m_env s') ∧ m_monitors s' = m_monitors s ∧
      vol_of st' n = Some (set_RecurringJobs jobs v) ∧
      UpdateRecurring n jobs s =
        match ValidateJobs jobs with
        | Ok _ => updateCron (set_RecurringJobs jobs v) jobs s'
        | Err e => (Err e, s')
        | Panic p => (Panic p, s')
        end
  end.
Proof.
  intros Hr Hn Hh Hj. unfold UpdateRecurring.
  destruct (reads_healthy ps _ _ _ _ (GetVolume_spec ps ps_nonempty ps_simple n (m_env s) st Hr Hn) Hh)
    as (w1 & E1 & Hh1 & Hr1). set (s1 := with_env w1 s).
  rewrite (bind_ok _ _ _ (vol_of st n) s1) by (apply wrap_ok_inv, onE_ok, E1).
  destruct (vol_of st n) as [v|] eqn:Ev; [|by eexists _, s1].
  pose proof (vol_of_name _ _ _ (rel_wf _ _ _ Hr) Ev) as Hname.
  destruct (vol_of_jobs st n v jobs (rel_wf _ _ _ Hr) Ev Hj) as [Hrange Hv'].
  set (v' := set_RecurringJobs jobs v) in *.
  assert (Hn' : simple_name (v_Name v') = true) by (simpl; congruence).
  destruct (update_volume_run ps ps_nonempty ps_simple v' w1 st Hr1 Hh1 Hn' Hrange) as (w2 & E2 & Hh2 & Hr2).
  replace (v_Name v') with n in Hr2 by (symmetry; exact Hname).
  exists (with_env w2 s), (put_base n (Some (base_of v')) st). split_and!; [done..|].
  rewrite (bind_ok _ _ _ v s1) by done. cbv zeta.
  rewrite (bind_ok _ _ _ tt (with_env w2 s)) by (apply wrap_ok_inv, (onE_ok _ s1), E2).
  unfold mbind, M_bind, lift. by destruct (ValidateJobs jobs) as [[]| |].
Qed.
End Recurring.

(** ** The property at a concrete volume *)
Module RecurringDemo.
Import ClusterDemo.
#[local] Existing Instance list_order.
#[local] Instance cronspec : CronSpec := {| cron_parses s := negb (String.eqb s "") |}.
#[local] Instance http : HTTPClient world := cluster_http (path ps) nodes.
Definition backups : ManagerBackupOps world := {|
  mb_List _ := mret []; mb_Get _ := mret None; mb_Delete _ := mret tt; mb_ListVolumes := mret [];
  mb_GetVolume _ := mret (mkBackupVolume "" "" "");
|}.
#[local] Instance deps : ManagerDeps world unit := {|
  getController _ := mret None; getBackups _ := backups; BeginMonitoring _ := mret tt;
  mon_Close _ := mret tt; mon_CronUpdate _ _ := mret tt;
|}.

(** A job without a schedule. *)
Definition never : RecurringJob := mkJob "never" "" SnapshotTaskName 3.

Lemma update_recurring_stores_first_witness :
  ∃ e s' v st', UpdateRecurring (H := docker_orchestrator (path ps) n1) "vol" [never] (man_New w1) = (Err e, s') ∧
    Rel ps (m_env s') st' ∧ vol_of st' "vol" = Some v ∧ v_RecurringJobs v = [never].
Proof.
  pose proof (update_recurring_stores_first (Mon := unit) ps n1 (proj1 KVDemo.ps_ok) (proj2 KVDemo.ps_ok) "vol" [never]
                (man_New w1) st1 rel_w1 eq_refl eq_refl ltac:(by repeat constructor)) as H.
  destruct H as (s' & st' & Hr & _ & _ & Hv & E). eexists _, s', _, st'.
  split; [exact E|]. split; [exact Hr|]. split; [exact Hv|]. reflexivity.
Defined.
End RecurringDemo.
