(* ===== verification/Completion.v ===== *)
(** * Detaching and deleting, to the end

    The programs of [System] when etcd, the daemons and the other managers answer: a
    detach and a deletion complete, and the containers of the volume are gone. *)

From stdpp Require Import base functions list gmap strings pretty.
From Stdlib Require Import ZArith Lia Ascii.
From S2P Require Import Prelude Total GoStrings GoTime Json Types Util Codec Backend KVStore KVSpec KVVolumes Scheduler Docker World DockerSpec Cluster Records DockerVolumes TaskQueue Controller Backups Retain Cron Manager ManagerSpec ManagerDemo Monitor Clients System Teardown.
Local Open Scope string_scope.
Local Open Scope list_scope.

(** A fan-out all of whose bodies succeed. *)
Lemma succeeds_fan_out {W A} `{GoSched} (I : list A → W → Prop) (f : A → M W unit) xs w :
  (∀ ys, ys ≡ₚ xs → I ys w) → (∀ x xs w, I (x :: xs) w → succeeds (f x) w (λ _ w', I xs w')) →
  succeeds (fan_out f xs) w (λ _ w', I [] w').
Proof.
  intros HI Hf. unfold fan_out. go_on.
  go_with (succeeds_gather I f (go_order xs) w (HI _ (go_order_perm xs)) Hf).
  intros es w' _ [-> ?]. by go_on.
Qed.

Section Completion.
Context {W Mon : Type} `{DockerSpec W} `{!ContainerSpec W} `{!LiveDocker W} `{MapOrder} `{GoSched}.
Context `{!ManagerDeps W Mon}.
Context (ps : list string) (nodes : list dockerOrc) (d : dockerOrc).
Hypothesis ps_nonempty : ps ≠ [].
Hypothesis ps_simple : Forall (λ n, simple_name n = true) ps.
Hypothesis nodes_named : ∀ d, d ∈ nodes → simple_name (GetCurrentHostID d) = true.
Hypothesis nodes_unique : ∀ d d', d ∈ nodes → d' ∈ nodes →
  GetCurrentHostID d = GetCurrentHostID d' → d = d'.
Hypothesis nodes_urls : ∀ d d', d ∈ nodes → d' ∈ nodes → node_url d = node_url d' → d = d'.
Hypothesis nodes_networked : ∀ d, d ∈ nodes → networked (W := W) d.
Hypothesis d_node : d ∈ nodes.
Hypothesis apart : deps_apart (W := W) (Mon := Mon).

(** The clients of the engines answer, and have nothing to do with Docker; closing a
    monitor does not panic. *)
Record deps_answer : Prop := {
  an_Get : ∀ v (w : W), ctrl_running v = true →
    ∃ c w', getController (Mon := Mon) (Some v) w = (Ok (Some c), w');
  an_Endpoint : ∀ v (w : W) c w', getController (Mon := Mon) v w = (Ok (Some c), w') →
    preserves calm (ct_Endpoint c) ∧ ∀ w1, ∃ ep w2, ct_Endpoint c w1 = (Ok ep, w2);
  an_Close : ∀ m (w : W) p, (mon_Close (Mon := Mon) m w).1 ≠ Panic p;
  an_calm_Get : ∀ v, preserves calm (getController (Mon := Mon) v);
  an_calm_Close : ∀ m, preserves calm (mon_Close (Mon := Mon) m);
}.
Hypothesis answer : deps_answer.

Local Abbreviation sys := (sys (Mon := Mon) ps nodes).
Local Abbreviation placed := (placed nodes).
Local Abbreviation without := (without nodes).
Local Abbreviation runs_as := (runs_as nodes).
Local Abbreviation halted_as := (halted_as nodes).
#[local] Instance orc : Orchestrator W := System.orc ps nodes d.
Abbreviation man := (volumeManager W Mon).
Implicit Types (s : man) (st : store) (w : W) (v : VolumeInfo) (i : InstanceInfo).

(** ** Everything answers *)

Definition live s : Prop := healthy (m_env s) ∧ up (m_env s).

Definition calm_frame s s' : Prop := env_frame s s' ∧ calm (m_env s) (m_env s').
#[local] Instance calm_frame_preorder : PreOrder calm_frame.
Proof.
  split; [intros s; split; reflexivity|]. intros s1 s2 s3 [? ?] [? ?]. split; by etrans.
Qed.

Lemma calm_live s s' : calm_frame s s' → live s → live s'.
Proof. intros [(_ & _ & Hh & _) [[Hu _] _]] [? ?]. split; auto. Qed.

Lemma onE_calm {A} (m : M W A) : kv_free m → preserves calm m → preserves calm_frame (onE (Mon := Mon) m).
Proof.
  intros Hf Hc s. specialize (Hf (m_env s)). specialize (Hc (m_env s)). unfold wp, onE, calm_frame, env_frame in *.
  by destruct (m (m_env s)).
Qed.

Lemma onE_succeeds {A} (m : M W A) s (Q : A → W → Prop) :
  succeeds m (m_env s) Q → succeeds (onE (Mon := Mon) m) s (λ a s', Q a (m_env s')).
Proof.
  intros (a & w & E & Hq). unfold onE. eexists a, _. rewrite E. by split.
Qed.

(** ** The parts of the volume *)

Definition volume_instance (n : string) st i : Prop :=
  (∃ c, st_ctrl st n = Some c ∧ i = c_Instance c) ∨
  (∃ r x, st_reps st n !! r = Some x ∧ i = r_Instance x).

(** The hosts are registered, the containers of the volume exist, its controller does not
    run if it is not recorded as running, and it is not named like a replica. *)
Record intact (n : string) st w : Prop := {
  in_hosts : registered nodes st;
  in_there : ∀ i, volume_instance n st i → ∀ c id, runs_as c id i → id ∈ containers w c;
  in_halted : ∀ c, st_ctrl st n = Some c → i_Running (c_Instance c) = false → halted_as w (c_Instance c);
  in_names : ∀ c, st_ctrl st n = Some c → st_reps st n !! i_Name (c_Instance c) = None;
}.

Lemma genuine_same i j w w' c id :
  genuine nodes w i → genuine nodes w' j → names_kept w w' → runs_as c id i → runs_as c id j →
  i_Name i = i_Name j.
Proof.
  intros (_ & _ & d1 & Hd1 & Hh1 & Hn1) (_ & _ & d2 & Hd2 & Hh2 & Hn2) Hk
    (<- & d1' & Hd1' & Hh1' & <-) (Hid & d2' & Hd2' & Hh2' & Hcli).
  assert (d1' = d1) as -> by (apply nodes_unique; congruence).
  assert (d2' = d2) as -> by (apply nodes_unique; congruence).
  pose proof (lookup_weaken _ _ _ _ Hn1 (Hk _)) as Hn1'. rewrite <-Hcli, <-Hid in Hn1'. congruence.
Qed.

Lemma without_nil w w' : without [] w w' ↔ ct_same w w'.
Proof.
  unfold without, ct_same. split.
  - intros Hw c. apply set_eq. intros id. rewrite (Hw c id), Forall_nil. tauto.
  - intros Hw c id. rewrite Hw, Forall_nil. tauto.
Qed.

Lemma without_trans g1 g2 w w1 w2 : without g1 w w1 → without g2 w1 w2 → without (g1 ++ g2) w w2.
Proof. intros Hw1 Hw2 c id. rewrite (Hw2 c id), (Hw1 c id), Forall_app. tauto. Qed.

(** What is recorded with the ID and the host of [i] is no other instance than [i]. *)
Lemma same_recorded st i j :
  recorded st i = Some j → i_ID j = i_ID i → i_HostID j = i_HostID i →
  conflict st i = false ∧ present st i = true.
Proof.
  intros Hrec Hid Hh. unfold conflict, present. rewrite Hrec. split; [|done]. by apply other_instance_false.
Qed.

Lemma controller_placed s st n c :
  sys s st → st_ctrl st n = Some c → (∀ k id, runs_as k id (c_Instance c) → id ∈ containers (m_env s) k) →
  placed (m_env s) st (c_Instance c).
Proof.
  intros Hs Hc Hthere. destruct (ctrl_place ps nodes s st n c Hs Hc) as (Hctrl & Hg & Hvol).
  destruct (same_recorded st (c_Instance c) (c_Instance c)) as [Hcf Hp]; [|done..|].
  - unfold recorded. by rewrite Hctrl, Hvol, Hc.
  - split_and!; [done|by left|done..].
Qed.

Lemma replica_placed s0 s st st1 n x y :
  sys s0 st → names_kept (m_env s0) (m_env s) →
  st_reps st n !! r_Name x = Some x → st_reps st1 n !! r_Name x = Some y →
  i_ID (r_Instance y) = i_ID (r_Instance x) → i_HostID (r_Instance y) = i_HostID (r_Instance x) →
  (∀ k id, runs_as k id (r_Instance x) → id ∈ containers (m_env s) k) →
  placed (m_env s) st1 (r_Instance x).
Proof.
  intros [Hr0 Hc0] Hk Hx Hy Hid Hh Hthere. destruct (con_rep _ _ _ Hc0 _ _ _ Hx) as [Hrep Hg].
  destruct (wf_rep _ (rel_wf _ _ _ Hr0) _ _ _ Hx) as (_ & Hvol & _).
  assert (Hc : is_controller (r_Instance x) = false).
  { unfold is_controller, is_replica in *. apply String.eqb_eq in Hrep. by rewrite Hrep. }
  destruct (same_recorded st1 (r_Instance x) (r_Instance y)) as [Hcf Hp]; [|done..|].
  - unfold recorded. rewrite Hc, Hrep, Hvol. unfold r_Name in Hy. by rewrite Hy.
  - split_and!; [by eapply genuine_kept|by right|done..].
Qed.

(** ** Requests of the manager *)

(** A stop of a placed instance succeeds, and a removal if it does not run. *)
Lemma stop_succeeds i s st :
  sys s st → live s → registered nodes st → placed (m_env s) st i →
  succeeds (onE (Mon := Mon) (oc_StopInstance i)) s (λ _ s', live s' ∧ ct_same (m_env s) (m_env s') ∧
    stays (m_env s) (m_env s') ∧ halted_as (m_env s') i).
Proof.
  intros [Hr Hc] [Hh Hu] Hreg Hi. eapply succeeds_mono; [apply onE_succeeds|].
  - apply (request_succeeds ps nodes ps_nonempty ps_simple nodes_named nodes_unique nodes_urls (λ _, True)
      ScheduleActionStopInstance i) with (st := st); [by unfold on_instance; auto|by apply teardown_performed; auto|done..|by intros ?].
  - intros r s' _ (? & ? & Hw & _ & [Hst Hhalt] & _).
    split_and!; [done..|by apply without_nil|by apply Hst|by apply Hhalt].
Qed.

Lemma remove_succeeds i s st :
  sys s st → live s → registered nodes st → placed (m_env s) st i → halted_as (m_env s) i →
  succeeds (onE (Mon := Mon) (oc_RemoveInstance i)) s (λ _ s', live s' ∧ without [i] (m_env s) (m_env s') ∧
    stays (m_env s) (m_env s')).
Proof.
  intros [Hr Hc] [Hh Hu] Hreg Hi Hhalt. eapply succeeds_mono; [apply onE_succeeds|].
  - apply (request_succeeds ps nodes ps_nonempty ps_simple nodes_named nodes_unique nodes_urls (λ _, True)
      ScheduleActionDeleteInstance i) with (st := st); [by unfold on_instance; auto|by apply teardown_performed; auto|done..|by intros _].
  - intros r s' _ (? & ? & Hw & _ & [Hst _] & _). split_and!; [done..|by apply Hst].
Qed.

(** ** Reading the volume *)

Lemma complete_succeeds v s : succeeds (completeVolumeState (Mon := Mon) v) s (λ _ s', calm_frame s s').
Proof.
  unfold completeVolumeState. cbv zeta. destruct (ctrl_running _) eqn:Hrun; [|by go_on]. go_on.
  destruct (an_Get answer _ (m_env s) Hrun) as (c & w1 & Eg).
  eapply succeeds_mono; [eapply succeeds_wp;
    [by apply (onE_succeeds _ s (λ c' w', c' = Some c ∧ w' = w1)); exists (Some c), w1|
     apply (onE_calm _ (da_Get apart _) (an_calm_Get answer _) s)]|].
  cbn beta. intros c' s1 _ [[-> Hw1] Hf]. do 2 go_on. go_on.
  destruct (an_Endpoint answer _ _ _ _ Eg) as [Hcalm Hep]. destruct (Hep (m_env s1)) as (ep & w2 & Ee).
  eapply succeeds_mono; [eapply succeeds_wp;
    [by apply (onE_succeeds _ s1 (λ _ _, True)); exists ep, w2|
     apply (onE_calm _ (da_Endpoint apart _ _ _ _ Eg) Hcalm s1)]|].
  cbn beta. intros ep' s2 _ [_ Hf2]. go_on. by etrans.
Qed.

Lemma man_Get_succeeds n s st :
  sys s st → live s → simple_name n = true →
  succeeds (man_Get n) s (λ _ s', calm_frame s s').
Proof.
  intros [Hr Hc] [Hh Hu] Hn. unfold man_Get. do 2 go_on.
  eapply succeeds_mono; [eapply succeeds_wp; [apply onE_succeeds|]|].
  - apply (reads_succeeds ps _ _ _ _ (GetVolume_spec ps ps_nonempty ps_simple n (m_env s) st Hr Hn) Hh).
  - apply (onE_calm _ (GetVolume_free (path ps) n) (GetVolume_calm (path ps) n) s).
  - cbn beta. intros ov s1 _ [_ Hf]. destruct ov as [v|]; [|by go_on]. go_on.
    go_with (complete_succeeds v s1). intros v' s2 _ Hf2. go_on. by etrans.
Qed.

Lemma stopMonitoring_succeeds v s :
  succeeds (stopMonitoring (Mon := Mon) v) s (λ _ s', calm_frame s s').
Proof.
  unfold stopMonitoring. go_on. eapply (succeeds_run _ _ s s); [done|]. cbn beta.
  destruct (m_monitors s !! v_Name v) as [m|]; [|by go_on]. go_on.
  apply succeeds_ignore.
  - intros p. unfold onE. pose proof (an_Close answer m (m_env s) p). by destruct (mon_Close m (m_env s)).
  - pose proof (onE_calm _ (da_Close apart m) (an_calm_Close answer m) s) as Hf. unfold wp in Hf.
    destruct (onE (mon_Close m) s) as [o s1]. simpl in *. go_on.
    eapply (succeeds_run _ _ s1 s1); [done|]. cbn beta. eapply succeeds_run; [done|]. exact Hf.
Qed.

(** ** Detaching *)

(** Neither the controller nor the replicas run, those in [rest] left out. *)
Definition controller_halted n st w : Prop :=
  ∀ c, st_ctrl st n = Some c → halted_as w (c_Instance c).
Definition replicas_halted n st (rest : list ReplicaInfo) w : Prop :=
  ∀ r x, st_reps st n !! r = Some x → x ∈ rest ∨ halted_as w (r_Instance x).

(** In the midst of the stops nothing is removed. *)
Definition stopping (n : string) st s0 (c : option ControllerInfo) (rest : list ReplicaInfo) s : Prop :=
  midway ps nodes n st s0 true c rest s ∧ live s ∧ ct_same (m_env s0) (m_env s) ∧
  Forall (λ x, st_reps st n !! r_Name x = Some x) rest ∧
  controller_halted n st (m_env s) ∧ replicas_halted n st rest (m_env s).

Lemma stop_replica_succeeds n st s0 c x rest s :
  sys s0 st → intact n st (m_env s0) → stopping n st s0 c (x :: rest) s →
  succeeds (stop_replica x) s (λ _ s', stopping n st s0 c rest s').
Proof.
  intros Hs0 Hin (Hmid & Hl & Hct & [Hx Hrest]%Forall_cons & Hch & Hrh).
  pose proof Hmid as (Hk & st1 & Hs1 & [_ Href] & (Hhosts & _) & _).
  assert (Hy : ∃ y, st_reps st1 n !! r_Name x = Some y ∧
    i_ID (r_Instance y) = i_ID (r_Instance x) ∧ i_HostID (r_Instance y) = i_HostID (r_Instance x)).
  { destruct (Href _ _ Hx) as [[_ ?]|(j & ? & (? & ? & _) & _)]; [by exists x|by exists (set_Instance j x)]. }
  destruct Hy as (y & Hy & Hid & Hh).
  assert (Hp : placed (m_env s) st1 (r_Instance x)).
  { eapply (replica_placed s0 s st st1 n x y); [done..|]. intros k id Hrun. rewrite Hct.
    eapply (in_there _ _ _ Hin); [right; eauto|done]. }
  assert (Hreg : registered nodes st1) by (intros d' Hd'; rewrite <-Hhosts; by apply (in_hosts _ _ _ Hin)).
  assert (Hrun : succeeds (stop_replica x) s (λ _ s', live s' ∧ ct_same (m_env s) (m_env s') ∧
    stays (m_env s) (m_env s') ∧ halted_as (m_env s') (r_Instance x))).
  { unfold stop_replica. do 2 go_on. go_with (stop_succeeds _ s st1 Hs1 Hl Hreg Hp). intros j s1 _ Ho. by go_on. }
  destruct Hrun as ([] & s' & E & Hl' & Hct' & Hst' & Hhalt). exists tt, s'. split; [done|].
  split_and!; [|done|by etrans|done|by intros c0 Hc0 k id Hr; apply Hst', (Hch c0)|].
  2: { intros r z Hz. destruct (Hrh r z Hz) as [[->|?]%elem_of_cons|Hz']; [by right|by left|].
       right. intros k id Hr. by apply Hst', Hz'. }
  eapply (stop_replica_step ps nodes d ps_nonempty ps_simple nodes_named nodes_unique d_node); [exact Hs0|done..].
Qed.

Lemma stop_controller_succeeds n v st s0 s :
  sys s0 st → intact n st (m_env s0) → presents n v st → sys s st → live s →
  names_kept (m_env s0) (m_env s) → ct_same (m_env s0) (m_env s) → stays (m_env s0) (m_env s) →
  succeeds (match v_Controller v with
    | Some c =>
      if i_Running (c_Instance c) then
        wrap "error stopping the controller id='%s', volume '%s'"
          (onE (oc_StopInstance (c_Instance c));; mret tt)
      else mret tt
    | None => mret tt
    end) s (λ _ s', live s' ∧ ct_same (m_env s0) (m_env s') ∧ controller_halted n st (m_env s')).
Proof.
  intros Hs0 Hin (Hname & Hctrl & Hreps) Hs Hl Hk Hct Hst. rewrite Hctrl. unfold controller_halted.
  destruct (st_ctrl st n) as [c|] eqn:Ec; [|by go_on]. destruct (i_Running _) eqn:Hrec.
  2: { go_on. split_and!; [done..|]. intros ? [= <-] k id Hr. by apply Hst, (in_halted _ _ _ Hin c Ec Hrec). }
  assert (Hp : placed (m_env s) st (c_Instance c)).
  { apply (controller_placed s st n c Hs Ec). intros k id Hrun. rewrite Hct.
    eapply (in_there _ _ _ Hin); [left; eauto|done]. }
  do 2 go_on. go_with (stop_succeeds _ s st Hs Hl (in_hosts _ _ _ Hin) Hp).
  intros j s1 _ (? & ? & ? & Hhalt). go_on. split_and!; [done|by etrans|]. by intros ? [= <-].
Qed.

(** The controller, as far as there is one. *)
Definition controllers n st : list InstanceInfo :=
  match st_ctrl st n with Some c => [c_Instance c] | None => [] end.

Lemma doDetach_succeeds n v st s0 s :
  sys s0 st → intact n st (m_env s0) → presents n v st → sys s st → live s →
  names_kept (m_env s0) (m_env s) → ct_same (m_env s0) (m_env s) → stays (m_env s0) (m_env s) →
  succeeds (doDetach v) s (λ _ s', live s' ∧ without (controllers n st) (m_env s0) (m_env s') ∧
    replicas_halted n st [] (m_env s')).
Proof.
  intros Hs0 Hin Hv Hs Hl Hk Hct Hst. pose proof Hv as (Hname & Hctrl & Hreps). unfold doDetach. go_on.
  go_with (stopMonitoring_succeeds v s). intros [] s1 _ Hf1. pose proof Hf1 as [He1 [[_ Hst1] Hct1]]. go_on.
  assert (Hs1 : sys s1 st) by by eapply env_frame_sys.
  assert (Hk1 : names_kept (m_env s0) (m_env s1)) by (etrans; [done|by apply env_frame_names]).
  assert (Hct1' : ct_same (m_env s0) (m_env s1)) by by etrans.
  assert (Hst1' : stays (m_env s0) (m_env s1)) by by etrans.
  go_with (stop_controller_succeeds n v st s0 s1 Hs0 Hin Hv Hs1 (calm_live _ _ Hf1 Hl) Hk1 Hct1' Hst1').
  intros [] s2 E2 (Hl2 & Hct2 & Hch2).
  destruct (stop_controller_sys ps nodes d ps_nonempty ps_simple nodes_named nodes_unique d_node
    n v st s0 s1 s2 Hs0 Hv Hs1 Hk1 E2) as (c' & Hc' & Hmid). go_on.
  go_with (succeeds_fan_out (λ ys s, stopping n st s0 c' ys s)).
  { intros ys Hp. split_and!; [by apply Hmid|done..| |done|].
    - apply Forall_forall. intros x Hx. rewrite Hp in Hx. by eapply replica_place.
    - intros r x Hx. left. rewrite Hp, Hreps. apply list_elem_of_fmap. exists (r, x). by rewrite elem_of_range. }
  { intros x xs s3 Hst3. by apply (stop_replica_succeeds n st s0 c' x xs s3). }
  intros [] s3 _ ((Hk3 & st1 & Hs3 & _ & (Hhosts & _) & _ & Hc3) & Hl3 & Hct3 & _ & Hch3 & Hrh3).
  unfold controllers. rewrite Hctrl. destruct (st_ctrl st n) as [c|] eqn:Ec.
  - destruct (ctrl_place ps nodes s0 st n c Hs0 Ec) as (Hctl & Hg & Hvol).
    assert (Hp : placed (m_env s3) st1 (c_Instance c)).
    { inversion Hc' as [c0 c1 Hsame|]; subst. destruct Hsame as (Hid & Hh & _).
      destruct (same_recorded st1 (c_Instance c) (c_Instance c1)) as [Hcf Hpr]; [|done..|].
      - unfold recorded. rewrite Hctl, Hvol. by replace (st_ctrl st1 _) with (Some c1).
      - split_and!; [by eapply genuine_kept|by left|done..|]. intros k id Hrun. rewrite Hct3.
        eapply (in_there _ _ _ Hin); [left; eauto|done]. }
    do 2 go_on. eapply succeeds_mono; [apply (remove_succeeds _ s3 st1 Hs3 Hl3)|]; [|done|by apply Hch3|].
    + intros d' Hd'. rewrite <-Hhosts. by apply (in_hosts _ _ _ Hin).
    + intros j s4 _ (Hl4 & Hw & Hst4). go_on. split_and!; [done| |].
      * apply (without_trans [] [c_Instance c] _ (m_env s3)); [by apply without_nil|done].
      * intros r x Hx. destruct (Hrh3 r x Hx) as [?|Hhalt]; [by left|]. right. intros k id Hr. by apply Hst4, Hhalt.
  - go_on. split_and!; [done| |done]. by apply without_nil.
Qed.

(** What reading the volume gives. *)
Lemma volume_read n s st :
  sys s st → live s → simple_name n = true → is_Some (vol_of st n) →
  succeeds (man_Get n) s (λ ov s', calm_frame s s' ∧ sys s' st ∧ ∃ v, ov = Some v ∧ presents n v st).
Proof.
  intros Hs Hl Hn [v0 Hv0]. go_with (man_Get_succeeds n s st Hs Hl Hn). intros ov s1 Eg Hf.
  destruct (man_Get_sys ps nodes d ps_nonempty ps_simple apart _ _ _ _ _ Hs Hn Eg) as (Hs1 & _ & Hv).
  split_and!; [done..|]. destruct ov as [v|]; [|congruence].
  destruct Hv as (_ & _ & Hname & _ & Hctrl & Hreps). by exists v.
Qed.

(** C3: a detach completes.  When etcd, the daemons and the other managers answer, the
    hosts are registered, the containers of the volume exist and a controller that is not
    recorded as running does not run, detaching it succeeds, whichever host is asked and
    wherever the instances are; and of all containers of the cluster just that of its
    controller is gone.  The daemons refuse to remove a container that runs: the
    controller is stopped first. *)
Theorem detach_completes n s st :
  sys s st → simple_name n = true → is_Some (vol_of st n) →
  healthy (m_env s) → up (m_env s) → intact n st (m_env s) →
  ∃ s', man_Detach n s = (Ok tt, s') ∧
    ∀ c id, id ∈ containers (m_env s') c ↔
      id ∈ containers (m_env s) c ∧ ¬ ∃ x, st_ctrl st n = Some x ∧ runs_as c id (c_Instance x).
Proof.
  intros Hs Hn Hv Hh Hu Hin. cut (succeeds (man_Detach n) s (λ _ s',
    without (controllers n st) (m_env s) (m_env s'))).
  { intros ([] & s' & E & Hw). exists s'. split; [done|]. intros c id. rewrite (Hw c id). unfold controllers.
    destruct (st_ctrl st n); rewrite ?Forall_singleton, ?Forall_nil; naive_solver. }
  unfold man_Detach. go_on. go_with (volume_read n s st Hs (conj Hh Hu) Hn Hv).
  intros ov s1 _ (Hf & Hs1 & v & -> & Hp). pose proof Hf as [He [[_ Hst] Hct]]. go_on.
  go_with (doDetach_succeeds n v st s s1 Hs Hin Hp Hs1 (calm_live _ _ Hf (conj Hh Hu)) (env_frame_names _ _ He) Hct Hst).
  intros v' s2 _ (_ & Hw & _). by go_on.
Qed.

(** ** Deleting *)

(** In the midst of the removals: [gone] of the replicas [all] have been removed, and none
    of the others runs. *)
Definition removing (n : string) st s0 (all rest : list ReplicaInfo) s : Prop :=
  ∃ st2 gone, sys s st2 ∧ names_kept (m_env s0) (m_env s) ∧ registered nodes st2 ∧ live s ∧
    all = gone ++ rest ∧ without (controllers n st ++ (r_Instance <$> gone)) (m_env s0) (m_env s) ∧
    Forall (λ x, ∃ y, st_reps st2 n !! r_Name x = Some y ∧
      i_ID (r_Instance y) = i_ID (r_Instance x) ∧ i_HostID (r_Instance y) = i_HostID (r_Instance x)) rest ∧
    Forall (λ x, halted_as (m_env s) (r_Instance x)) rest.

Section Removals.
Context (n : string) (st : store) (s0 : man) (all : list ReplicaInfo).
Hypothesis Hs0 : sys s0 st.
Hypothesis Hin : intact n st (m_env s0).
Hypothesis all_stored : Forall (λ x, st_reps st n !! r_Name x = Some x) all.
Hypothesis all_distinct : NoDup (r_Name <$> all).

(** The container of a replica that is left is none of those removed. *)
Lemma replica_left s gone x rest :
  all = gone ++ x :: rest → names_kept (m_env s0) (m_env s) →
  without (controllers n st ++ (r_Instance <$> gone)) (m_env s0) (m_env s) →
  ∀ k id, runs_as k id (r_Instance x) → id ∈ containers (m_env s) k.
Proof.
  intros Hall Hk Hw k id Hrun. pose proof all_stored as Hst. rewrite Hall in Hst.
  apply Forall_app in Hst as [Hgone [Hx _]%Forall_cons].
  assert (Hg : ∀ y, st_reps st n !! r_Name y = Some y → genuine nodes (m_env s0) (r_Instance y))
    by (intros y Hy; apply (con_rep _ _ _ (proj2 Hs0) _ _ _ Hy)).
  apply Hw. split; [eapply (in_there _ _ _ Hin); [right; eauto|done]|]. apply Forall_app. split.
  - unfold controllers. destruct (st_ctrl st n) as [c|] eqn:Ec; [|constructor]. apply Forall_singleton. intros Hc.
    destruct (ctrl_place ps nodes s0 st n c Hs0 Ec) as (_ & Hgc & _).
    pose proof (genuine_same _ _ _ _ _ _ Hgc (Hg x Hx) (reflexivity _) Hc Hrun) as Heq.
    pose proof (in_names _ _ _ Hin c Ec) as Hnone. rewrite Heq in Hnone. unfold r_Name in Hx. congruence.
  - apply Forall_fmap, Forall_forall. intros y Hy. cbn. intros Hry. rewrite Forall_forall in Hgone.
    pose proof (genuine_same _ _ _ _ _ _ (Hg y (Hgone y Hy)) (Hg x Hx) (reflexivity _) Hry Hrun) as Heq.
    pose proof all_distinct as Hnd. rewrite Hall, fmap_app in Hnd. apply NoDup_app in Hnd as (_ & Hnd & _).
    apply (Hnd (r_Name y)); [by apply list_elem_of_fmap_2|]. unfold r_Name. rewrite Heq. left.
Qed.

Lemma remove_replica_succeeds x rest s :
  removing n st s0 all (x :: rest) s →
  succeeds (wrap "error removing replica container %s(%s), volume '%s'"
    (onE (oc_RemoveInstance (r_Instance x));; mret tt)) s (λ _ s', removing n st s0 all rest s').
Proof.
  intros (st2 & gone & Hs2 & Hk & Hreg & Hl & Hall & Hw & [(y & Hy & Hid & Hh) Hrest]%Forall_cons & [Hhalt Hhalts]%Forall_cons).
  pose proof all_stored as Hst. rewrite Hall in Hst. apply Forall_app in Hst as [_ [Hx _]%Forall_cons].
  pose proof (replica_placed s0 s st st2 n x y Hs0 Hk Hx Hy Hid Hh (replica_left s gone x rest Hall Hk Hw)) as Hp.
  do 2 go_on. go_with (remove_succeeds _ s st2 Hs2 Hl Hreg Hp Hhalt). intros j s1 E (Hl1 & Hw1 & Hst1). go_on.
  destruct (con_rep _ _ _ (proj2 Hs0) _ _ _ Hx) as [Hrep Hg].
  destruct (wf_rep _ (rel_wf _ _ _ (proj1 Hs0)) _ _ _ Hx) as (_ & Hvol & _).
  destruct (remove_sys ps nodes d ps_nonempty ps_simple nodes_named nodes_unique d_node _ _ _ _ _ Hs2
    (proj1 Hp) E) as (Hs3 & Hk3 & _). rewrite (forget_rep x n st2 Hrep Hvol) in Hs3.
  eexists _, (gone ++ [x]). split_and!; [exact Hs3|by etrans|done|done|by rewrite <-app_assoc|..].
  - rewrite fmap_app, app_assoc. by eapply without_trans.
  - pose proof all_distinct as Hnd. rewrite Hall, fmap_app in Hnd. apply NoDup_app in Hnd as (_ & _ & Hnd).
    apply NoDup_cons in Hnd as [Hnot _]. rewrite Forall_forall in Hrest |- *. intros z Hz.
    destruct (Hrest z Hz) as (yz & ? & ?). exists yz. split; [|done]. simpl. rewrite fn_lookup_insert.
    rewrite lookup_delete_ne; [done|]. intros Heq. apply Hnot. rewrite Heq. by apply list_elem_of_fmap_2.
  - eapply Forall_impl; [exact Hhalts|]. cbn. intros z Hz k id Hr. by apply Hst1, Hz.
Qed.
End Removals.

(** The replicas of a map that names them, in the order of a loop. *)
Lemma names_distinct (m : gmap string ReplicaInfo) :
  (∀ r x, m !! r = Some x → r_Name x = r) → NoDup (r_Name <$> (range m).*2).
Proof.
  intros Hm. rewrite <-list_fmap_compose.
  assert (Heq : (r_Name ∘ snd) <$> range m = (range m).*1).
  { apply list_fmap_ext. intros k [r x] Hx. cbn. apply list_elem_of_lookup_2, elem_of_range in Hx. by apply Hm. }
  rewrite Heq, range_perm. apply NoDup_fst_map_to_list.
Qed.

Lemma stored_instances n st i :
  i ∈ match st_ctrl st n with Some c => [c_Instance c] | None => [] end ∨
  (∃ x, i = r_Instance x ∧ x ∈ (range (st_reps st n)).*2) ↔ volume_instance n st i.
Proof.
  unfold volume_instance. f_equiv.
  - destruct (st_ctrl st n) as [c|]; [|set_solver]. rewrite list_elem_of_singleton. naive_solver.
  - setoid_rewrite list_elem_of_fmap. split.
    + intros (x & -> & [r y] & -> & Hin%elem_of_range). eauto.
    + intros (r & x & Hx & ->). exists x. split; [done|]. exists (r, x). by rewrite elem_of_range.
Qed.

(** C2: a deletion completes, and takes the containers with it.  When etcd, the daemons
    and the other managers answer, the hosts are registered, the containers of the volume
    exist and a controller that is not recorded as running does not run, deleting it
    succeeds, whichever host is asked; and of all containers of the cluster exactly those
    of its controller and of its replicas are gone, on whichever hosts they were.  The
    daemons refuse to remove a container that runs: each is stopped first. *)
Theorem delete_completes n s st :
  sys s st → simple_name n = true → is_Some (vol_of st n) →
  healthy (m_env s) → up (m_env s) → intact n st (m_env s) →
  ∃ s', man_Delete n s = (Ok tt, s') ∧
    ∀ c id, id ∈ containers (m_env s') c ↔
      id ∈ containers (m_env s) c ∧ ¬ ∃ i, volume_instance n st i ∧ runs_as c id i.
Proof.
  intros Hs Hn Hv Hh Hu Hin.
  cut (succeeds (man_Delete n) s (λ _ s', ∃ l, (∀ i, i ∈ l ↔ volume_instance n st i) ∧
         without l (m_env s) (m_env s'))).
  { intros ([] & s' & E & l & Hl & Hw). exists s'. split; [done|]. intros c id. rewrite (Hw c id), Forall_forall.
    naive_solver. }
  unfold man_Delete. go_on. go_with (volume_read n s st Hs (conj Hh Hu) Hn Hv).
  intros ov s1 _ (Hf & Hs1 & v & -> & Hp). pose proof Hf as [He [[_ Hst] Hct]]. pose proof Hp as (_ & _ & Hreps). do 2 go_on.
  go_with (doDetach_succeeds n v st s s1 Hs Hin Hp Hs1 (calm_live _ _ Hf (conj Hh Hu)) (env_frame_names _ _ He) Hct Hst).
  intros v' s2 Ed (Hl2 & Hw2 & Hrh2).
  destruct (doDetach_sys ps nodes d ps_nonempty ps_simple nodes_named nodes_unique d_node apart n v v' st s1 s2 Hs1 Hp Ed)
    as (st1 & Hs2 & [_ _ [_ Href] (Hhosts & _)] & Hk2). go_on.
  set (all := (range (replicas_of v)).*2).
  assert (Hall : Forall (λ x, st_reps st n !! r_Name x = Some x) all)
    by (apply Forall_forall; intros x Hx; by apply (replica_place ps nodes v st s x n)).
  assert (Hnd : NoDup (r_Name <$> all)) by (unfold all; rewrite Hreps; apply names_distinct; intros r x Hx;
      by destruct (wf_rep _ (rel_wf _ _ _ (proj1 Hs)) _ _ _ Hx)).
  go_with (succeeds_mfor (removing n st s all)).
  { exists st1, []. split_and!; [done| | |done|done|by rewrite app_nil_r| |].
    - etrans; [by apply env_frame_names|done].
    - intros d' Hd'. rewrite <-Hhosts. by apply (in_hosts _ _ _ Hin).
    - eapply Forall_impl; [exact Hall|]. cbn. intros x Hx.
      destruct (Href _ _ Hx) as [[[]%elem_of_nil _]|(j & ? & (? & ? & _) & _)]. by exists (set_Instance j x).
    - eapply Forall_impl; [exact Hall|]. cbn. intros x Hx. by destruct (Hrh2 _ _ Hx) as [[]%elem_of_nil|?]. }
  { intros x xs s3 Hr. by apply (remove_replica_succeeds n st s all). }
  intros [] s3 _ (st3 & gone & Hs3 & _ & _ & Hl3 & Hgone & Hw3 & _). rewrite app_nil_r in Hgone. subst gone.
  go_on. eapply succeeds_mono; [eapply succeeds_wp; [apply onE_succeeds|]|].
  - apply (writes_healthy ps _ _ _ _ (DeleteVolume_spec ps ps_nonempty ps_simple n st3 _ (proj1 Hs3) Hn) (proj1 Hl3)).
  - assert (Hc : preserves (λ s s', calm (m_env s) (m_env s')) (onE (Mon := Mon) (DeleteVolume (path ps) n))).
    { intros s4. pose proof (DeleteVolume_calm (path ps) n (m_env s4)) as Hc. unfold wp, onE in *.
      by destruct (DeleteVolume (path ps) n (m_env s4)). }
    apply (Hc s3).
  - intros [] s4 _ [_ [_ Hct4]]. cbn beta in Hct4. exists (controllers n st ++ (r_Instance <$> all)). split.
    + intros i. rewrite elem_of_app, list_elem_of_fmap. unfold volume_instance, controllers, all. rewrite Hreps.
      by apply stored_instances.
    + intros c id. by rewrite Hct4.
Qed.
End Completion.

(** ** The clients of the program

    What [main.go] gives the manager answers, whether or not the engine does: an endpoint
    that cannot be had is the empty one. *)

Section RealClients.
Context {W : Type} `{DockerSpec W} `{!ContainerSpec W} `{!LiveDocker W} `{!Engine W} `{!Clients W}.
Context `{JsonText} `{Mapstructure} `{MapOrder}.
Hypothesis holder_calm : ∀ h (w : W), calm w (cl_set_holder h w).
Hypothesis engine_calm : ∀ args t, preserves calm (cmd_CombinedOutput args t).
Hypothesis engine_returns : ∀ args t (w : W) p, (cmd_CombinedOutput args t w).1 ≠ Panic p.

Lemma controller_Get_calm v : preserves calm (controller_Get v).
Proof. intros w. unfold wp, controller_Get. destruct (ctrl_Get (cl_holder w) v). apply holder_calm. Qed.

Lemma Endpoint_calm url : preserves calm (Endpoint url).
Proof. unfold Endpoint, ctrl_info, Execute, ExecuteWithTimeout. frees. Qed.

Lemma Endpoint_returns url (w : W) : ∃ ep w', Endpoint url w = (Ok ep, w').
Proof.
  unfold Endpoint, ctrl_info, Execute, ExecuteWithTimeout, attempt, wrap, mbind, M_bind.
  pose proof (engine_returns ["--url"; url; "info"] cmdTimeout w) as Hp.
  destruct (cmd_CombinedOutput _ _ w) as [[[[out|err]|]|e|p] w1]; simpl; [|by eexists _, _..|by destruct (Hp p)].
  change (option_bind _ _ _ _) with (json_decode out ≫= dec_volumeInfo).
  destruct (json_decode out ≫= dec_volumeInfo); by eexists _, _.
Qed.

Lemma real_clients_answer : deps_answer (W := W) (Mon := monitorChan).
Proof.
  split.
  - intros v w Hrun. simpl. unfold controller_Get, ctrl_Get.
    assert (Hr : ∃ i, running v = Some i).
    { unfold running, ctrl_running in *. destruct (v_Controller v) as [c|]; [|done]. rewrite Hrun. eauto. }
    destruct Hr as [i Hi]. rewrite Hi. unfold holdControllers_step. rewrite Hi.
    destruct (hd_cs _ !! v_Name v) as [c|]; [destruct (String.eqb _ _)|]; cbn; eauto.
  - intros v w c w' [x ->]%controller_Get_client. split; [apply Endpoint_calm|apply Endpoint_returns].
  - intros m w p. simpl. unfold monitor_Close, controller_Cleanup. by destruct (mc_Close m).2.
  - intros v. apply controller_Get_calm.
  - intros m. simpl. unfold monitor_Close. destruct (mc_Close m).2; [|apply preserves_ret, _].
    intros w. apply holder_calm.
Qed.
End RealClients.

(** ** The properties at a concrete cluster

    The second host of [SystemDemo] detaches or deletes a volume whose containers are on
    the first one. *)
Module CompletionDemo.
Import ClusterDemo RecordsDemo SystemDemo.
#[local] Existing Instance list_order.
#[local] Existing Instance in_order.
#[local] Existing Instances engine json_text mapstructure clients clients_spec.

(** The container IDs given so far. *)
Definition issued (n : nat) : list string := (λ k : nat, "c" +:+ pretty k) <$> seq 0 n.
#[global] Arguments issued : simpl never.
Lemma issued_S n : issued (S n) = issued n ++ ["c" +:+ pretty n].
Proof. unfold issued. by rewrite seq_S, fmap_app. Qed.

(** The names of the containers are those that were given, to as many as there have been,
    and none has an image that cannot be run. *)
Definition world_up (w : world) : Prop :=
  (∀ cli id c, containers_of cli w !! id = Some c →
     simple_name (ct_name c) = true ∧ names_of cli w !! id = Some (ct_name c) ∧ ct_image c ≠ "broken") ∧
  ∀ cli id nm, names_of cli w !! id = Some nm →
    id ∈ issued (w_fresh w).

Lemma world_up_same (w w' : world) :
  w_docker w' = w_docker w → w_names w' = w_names w → w_fresh w' = w_fresh w → world_up w → world_up w'.
Proof. unfold world_up, containers_of, names_of. by intros -> -> ->. Qed.

(** A container does not run, or there is none. *)
Definition world_halted (w : world) (cli id : string) : Prop :=
  ∀ c, containers_of cli w !! id = Some c → ct_running c = false.

(** What a call leaves as it was. *)
Definition world_kept (w w' : world) : Prop :=
  (world_up w → world_up w') ∧ ∀ cli id, world_halted w cli id → world_halted w' cli id.
#[local] Instance world_kept_preorder : PreOrder world_kept.
Proof. split; [by intros w; split|]. intros w1 w2 w3 [Hu1 Hh1] [Hu2 Hh2]. split; auto. Qed.

Lemma world_kept_same (w w' : world) :
  w_docker w' = w_docker w → w_names w' = w_names w → w_fresh w' = w_fresh w → world_kept w w'.
Proof.
  intros Hd Hn Hf. split; [by apply world_up_same|]. intros cli id. unfold world_halted, containers_of. by rewrite Hd.
Qed.

Lemma zoom_kept {A} (m : M EtcdRef.etcd A) : preserves world_kept (zoom m).
Proof. intros w. unfold wp, zoom. destruct (m (w_etcd w)). by apply world_kept_same. Qed.

Lemma on_container_up {A} (cli id : string) (f : container → world → outcome A * world) (w : world) :
  world_up w → id ∈ containers w cli →
  ∃ c, containers_of cli w !! id = Some c ∧ on_container cli id f w = f c w.
Proof.
  intros Hu Hin. change (id ∈ dom (containers_of cli w)) in Hin. apply elem_of_dom in Hin as [c Hc].
  exists c. split; [done|]. unfold on_container. rewrite Hc. destruct (proj1 Hu _ _ _ Hc) as (-> & Hn & _).
  by rewrite bool_decide_eq_true_2.
Qed.

Lemma set_containers_up cli m (w : world) :
  world_up w → (∀ id c, m !! id = Some c → ∃ c', containers_of cli w !! id = Some c' ∧
    ct_name c' = ct_name c ∧ ct_image c' = ct_image c) →
  world_up (set_containers cli m w).
Proof.
  intros [Hu Hf] Hm. split; [|exact Hf]. intros cli' id c. unfold containers_of, set_containers, names_of. simpl.
  destruct (decide (cli' = cli)) as [->|Hne]; [|rewrite lookup_insert_ne by done; apply Hu].
  rewrite lookup_insert_eq. simpl. intros (c' & Hc' & <- & <-)%Hm. by apply Hu.
Qed.

(** A set of containers that runs no more of them than before. *)
Lemma set_containers_kept cli m (w : world) :
  (∀ id c, m !! id = Some c → ∃ c', containers_of cli w !! id = Some c' ∧
    ct_name c' = ct_name c ∧ ct_image c' = ct_image c ∧ (ct_running c = true → ct_running c' = true)) →
  world_kept w (set_containers cli m w).
Proof.
  intros Hm. split.
  - intros Hu. apply set_containers_up; [done|]. intros id c (c' & ? & ? & ? & _)%Hm. eauto.
  - intros cli' id Hh c. unfold containers_of, set_containers. simpl.
    destruct (decide (cli' = cli)) as [->|Hne]; [|rewrite lookup_insert_ne by done; apply Hh].
    rewrite lookup_insert_eq. simpl. intros (c' & Hc' & _ & _ & Hr)%Hm. specialize (Hh c' Hc').
    destruct (ct_running c); [|done]. rewrite Hr in Hh; done.
Qed.

#[local, refine] Instance world_live : LiveDocker world := {| up := world_up; halted := world_halted |}.
Proof.
  - intros cli id t w Hu Hin. unfold ContainerStop, world_docker, set_running.
    edestruct (on_container_up (A := unit) cli id) as (c & _ & E); [exact Hu|exact Hin|]. eexists. exact E.
  - intros cli id w Hu Hin. unfold ContainerInspect, world_docker.
    edestruct (on_container_up (A := ContainerJSON) cli id) as (c & _ & E); [exact Hu|exact Hin|]. eexists _, _. exact E.
  - intros cli id v w Hu Hin Hh. unfold ContainerRemove, world_docker.
    edestruct (on_container_up (A := unit) cli id) as (c & Hc & E); [exact Hu|exact Hin|].
    rewrite E, (Hh c Hc). by eexists.
  - intros cli id t w w' Hu Hin. unfold ContainerStop, world_docker, set_running.
    edestruct (on_container_up (A := unit) cli id) as (c & _ & E); [exact Hu|exact Hin|]. rewrite E. cbn [andb].
    intros [= <-] c'. unfold containers_of, set_containers. simpl. rewrite lookup_insert_eq. simpl.
    rewrite lookup_insert_eq. by intros [= <-].
  - intros cli id t w. unfold wp, ContainerStop, world_docker, set_running, on_container.
    destruct (containers_of cli w !! id) as [c|] eqn:Hc; [|done]. destruct (_ && _); [|done]. cbn [andb].
    apply set_containers_kept. intros id' c' [[<- <-]|[_ Hc']]%lookup_insert_Some; [exists c|exists c']; by split_and!.
  - intros cli id w. unfold wp, ContainerInspect, world_docker, on_container.
    destruct (containers_of cli w !! id) as [c|]; [|done]. by destruct (_ && _).
  - intros cli id v w. unfold wp, ContainerRemove, world_docker, on_container.
    destruct (containers_of cli w !! id) as [c|] eqn:Hc; [|done]. destruct (_ && _); [|done].
    destruct (ct_running c); [done|].
    apply set_containers_kept. intros id' c' [_ Hc']%lookup_delete_Some. exists c'. by split_and!.
  - intros k. cbn. unfold etcd_Get. frees; apply zoom_kept.
  - intros k j. apply zoom_kept.
  - intros k. cbn. unfold etcd_Delete. frees; apply zoom_kept.
  - intros k. cbn. unfold etcd_Keys. frees; apply zoom_kept.
Defined.

Lemma world_up_checked (w : world) :
  map_Forall (λ cli m, map_Forall (λ id c, simple_name (ct_name c) = true ∧
    names_of cli w !! id = Some (ct_name c) ∧ ct_image c ≠ "broken") m) (w_docker w) →
  map_Forall (λ cli m, map_Forall (λ id _, id ∈ issued (w_fresh w)) m) (w_names w) →
  world_up w.
Proof.
  intros Hm Hn. split; intros cli id.
  - intros c. unfold containers_of. destruct (w_docker w !! cli) as [m|] eqn:E; simpl; [|by rewrite lookup_empty].
    apply (Hm _ _ E).
  - intros nm. unfold names_of. destruct (w_names w !! cli) as [m|] eqn:E; simpl; [|by rewrite lookup_empty].
    apply (Hn _ _ E).
Qed.

Lemma up_w3 : world_up w3.
Proof. apply world_up_checked; by_deciding. Qed.

Lemma w3_containers : dom (containers_of "docker1" w3) = {[ "c0"; "c1" ]} ∧ dom (containers_of "docker2" w3) = ∅.
Proof. by_deciding. Qed.

Lemma w3_instances i : volume_instance "vol" st3 i ↔ i = c1 ∨ i = r1.
Proof.
  unfold volume_instance. split.
  - intros [(c & [= <-] & ->)|(r & x & Hx & ->)]; [by left|]. right.
    assert (Hr : st_reps st3 "vol" = {[ "r1" := mkReplica r1 "" "" ]}) by (vm_compute; reflexivity).
    rewrite Hr in Hx. by apply lookup_singleton_Some in Hx as [<- <-].
  - intros [->| ->]; [left|right].
    + exists (mkController c1). split; reflexivity.
    + exists "r1", (mkReplica r1 "" ""). split; vm_compute; reflexivity.
Qed.

Lemma c1_runs : i_Running c1 = true.
Proof. vm_compute. reflexivity. Qed.

Lemma w3_intact : intact nodes "vol" st3 w3.
Proof.
  destruct w3_containers as [Hd1 _]. split.
  - intros d [->|[->|[]%elem_of_nil]%elem_of_cons]%elem_of_cons; vm_compute; reflexivity.
  - intros i Hi c id (<- & d & Hd & Hh & <-). change (i_ID i ∈ dom (containers_of (d_cli d) w3)).
    assert (i_HostID i = "h1" ∧ (i_ID i = "c0" ∨ i_ID i = "c1")) as [Hh1 Hid]
      by (apply w3_instances in Hi as [->| ->]; cbn; auto).
    assert (d = n1) as ->.
    { apply elem_of_cons in Hd as [->|[->|[]%elem_of_nil]%elem_of_cons]; [done|]. rewrite Hh1 in Hh. done. }
    cbn [d_cli n1]. rewrite Hd1. destruct Hid as [-> | ->]; set_solver.
  - intros c [= <-] Hr. cbn [c_Instance] in Hr. rewrite c1_runs in Hr. discriminate Hr.
  - intros c [= <-]. vm_compute. reflexivity.
Qed.

Lemma urls_differ d d' : d ∈ nodes → d' ∈ nodes → node_url d = node_url d' → d = d'.
Proof.
  intros [->|[->|[]%elem_of_nil]%elem_of_cons]%elem_of_cons
         [->|[->|[]%elem_of_nil]%elem_of_cons]%elem_of_cons; vm_compute; congruence.
Qed.

Lemma bridged d : d ∈ nodes → networked (W := world) d.
Proof. intros [->|[->|[]%elem_of_nil]%elem_of_cons]%elem_of_cons; by left. Qed.

Lemma clients_answer : deps_answer (W := world) (Mon := monitorChan).
Proof.
  apply real_clients_answer.
  - intros h w. split; [by apply world_kept_same|by intros c].
  - intros args t. apply preserves_ret. apply _.
  - done.
Qed.

Lemma detach_completes_witness :
  ∃ s', man_Detach (H := orc ps nodes n2) "vol" (man_New (Mon := monitorChan) w3) = (Ok tt, s') ∧
    ∀ c id, id ∈ containers (m_env s') c ↔
      id ∈ containers w3 c ∧ ¬ ∃ x, st_ctrl st3 "vol" = Some x ∧ runs_as nodes c id (c_Instance x).
Proof.
  apply (detach_completes ps nodes n2 (proj1 KVDemo.ps_ok) (proj2 KVDemo.ps_ok) nodes_named nodes_unique
           urls_differ bridged n2_node clients_apart clients_answer "vol" (man_New w3) st3
           sys_w3 eq_refl vol_there eq_refl up_w3 w3_intact).
Defined.

(** Nothing is left on either host. *)
Lemma delete_completes_witness :
  ∃ s', man_Delete (H := orc ps nodes n2) "vol" (man_New (Mon := monitorChan) w3) = (Ok tt, s') ∧
    containers (m_env s') "docker1" = ∅ ∧ containers (m_env s') "docker2" = ∅.
Proof.
  destruct (delete_completes ps nodes n2 (proj1 KVDemo.ps_ok) (proj2 KVDemo.ps_ok) nodes_named nodes_unique
              urls_differ bridged n2_node clients_apart clients_answer "vol" (man_New w3) st3
              sys_w3 eq_refl vol_there eq_refl up_w3 w3_intact) as (s' & E & Hc).
  exists s'. split; [exact E|]. set (w := m_env (man_New (Mon := monitorChan) w3)) in *.
  assert (Hd1 : containers w "docker1" = {[ "c0"; "c1" ]}) by exact (proj1 w3_containers).
  assert (Hd2 : containers w "docker2" = ∅) by exact (proj2 w3_containers).
  split; apply set_eq; intros id; rewrite Hc, elem_of_empty.
  - rewrite Hd1, elem_of_union, !elem_of_singleton. split; [|intros []]. intros [Hid []].
    destruct Hid as [-> | ->]; [exists r1|exists c1]; (split; [apply w3_instances; auto|]);
      (split; [reflexivity|]); exists n1; (split; [left|split; reflexivity]).
  - rewrite Hd2, elem_of_empty. clear. tauto.
Defined.
End CompletionDemo.
