(* ===== verification/Bringup.v ===== *)
(** * Instances that come up

    What a request to start an instance and the creation of a controller do when the
    daemons run what they are asked to run and the engines answer within the time-outs:
    the polling loops end in time, the instance is recorded as running, with an address.
    [Attachment] uses it for the manager. *)

From stdpp Require Import base functions list gmap strings.
From Stdlib Require Import ZArith Lia Ascii.
From S2P Require Import Prelude Total GoStrings GoTime Json Types Util Codec Backend KVStore KVSpec KVVolumes Scheduler Docker World DockerSpec Cluster Records DockerVolumes TaskQueue Controller Backups Retain Cron Manager ManagerSpec ManagerDemo Monitor Clients System Teardown.
Local Open Scope string_scope.
Local Open Scope list_scope.

(** ** Polling *)

(** One of the next [n] polls, a second apart, gets a good answer. *)
Fixpoint answers_within {W A} `{Clock W} (ok : A → bool) (m : M W A) (n : nat) (w : W) : Prop :=
  match n with
  | O => False
  | S n' => match m w with
            | (Ok a, _) => ok a = true
            | (Err _, w') => answers_within ok m n' (clock_Sleep (1 * Second)%Z w')
            | (Panic _, _) => False
            end
  end.

(** ** Daemons that run containers

    The daemons run the images that are [runnable]; [serving w ip cmd]: in [w] there is
    an engine at [ip] that was started with the command [cmd]. *)

Class LiveEngine (W : Type) `{LiveDocker W} `{!ContainerNames W} := {
  runnable : string → Prop;
  serving : W → string → list string → Prop;
  up_create : ∀ cli cfg w, up w → runnable (cc_Image cfg) → simple_name (cc_Name cfg) = true →
    (∀ id, id ∈ containers w cli → ∃ nm, names w cli !! id = Some nm ∧ nm ≠ cc_Name cfg) →
    ∃ id w', ContainerCreate cli cfg w = (Ok id, w') ∧ up w' ∧ id ≠ "";
  up_start : ∀ cli id w, up w → id ∈ containers w cli → ∃ w', ContainerStart cli id w = (Ok tt, w');
  up_started : ∀ cli id w w1 j w2, up w → ContainerStart cli id w = (Ok tt, w1) →
    ContainerInspect cli id w1 = (Ok j, w2) →
    cj_Running j = true ∧ cj_IPAddress j ≠ "" ∧ ∀ net a, cj_Networks j !! net = Some a → a ≠ "";
  up_serving : ∀ cli cfg id w w1 w2 j w3, up w → ContainerCreate cli cfg w = (Ok id, w1) →
    ContainerStart cli id w1 = (Ok tt, w2) → ContainerInspect cli id w2 = (Ok j, w3) →
    serving w3 (cj_IPAddress j) (cc_Cmd cfg) ∧
    ∀ net a, cj_Networks j !! net = Some a → serving w3 a (cc_Cmd cfg);
  up_api : ∀ w ip d data, up w → serving w ip (cc_Cmd (controller_config d data)) →
    answers_within (λ _, true) (http_Get ("http://" +:+ ip +:+ ":9501/v1")) (Z.to_nat WaitAPITimeout) w;
  up_device : ∀ w ip d data, up w → serving w ip (cc_Cmd (controller_config d data)) →
    answers_within id (os_Stat (getDeviceName (ds_VolumeName data))) (Z.to_nat WaitDeviceTimeout) w;
  up_served (w w' : W) := (up w → up w') ∧ ∀ ip cmd, serving w ip cmd → serving w' ip cmd;
  start_up : ∀ cli id, preserves (λ w w', up w → up w') (ContainerStart cli id);
  http_up : ∀ url, preserves up_served (http_Get url);
  stat_up : ∀ dev, preserves up_served (os_Stat dev);
  sleep_up : ∀ t w, up_served w (clock_Sleep t w);
}.

Section Polls.
Context {W : Type} `{LiveEngine W}.

(** A poll leaves the daemons, the containers and the engines as they were. *)
Definition polled (w w' : W) : Prop := up_served w w' ∧ ct_same w w'.
#[local] Instance polled_preorder : PreOrder polled.
Proof.
  split; [intros w; split; [split; [by intros ?|done]|reflexivity]|].
  intros w1 w2 w3 [[Hu1 Hs1] Hc1] [[Hu2 Hs2] Hc2]. split; [|by etrans].
  split; [by intros ?; apply Hu2, Hu1|auto].
Qed.

Lemma sleep_polled t : preserves polled (sleep (W := W) t).
Proof. intros w. split; [apply sleep_up|apply ct_clock]. Qed.
Lemma http_polled url : preserves polled (http_Get url).
Proof. intros w. split; [apply http_up|apply ct_http]. Qed.
Lemma stat_polled dev : preserves polled (os_Stat dev).
Proof. intros w. split; [apply stat_up|apply ct_stat]. Qed.

Lemma WaitForAPI_polled url t : preserves polled (WaitForAPI url t).
Proof.
  pose proof sleep_polled. pose proof http_polled. unfold WaitForAPI.
  induction (Z.to_nat t) as [|n IH]; simpl; frees.
Qed.
Lemma WaitForDevice_polled dev t : preserves polled (WaitForDevice dev t).
Proof.
  pose proof sleep_polled. pose proof stat_polled. unfold WaitForDevice.
  induction (Z.to_nat t) as [|n IH]; simpl; frees.
Qed.

(** The wait ends as soon as a poll is answered. *)
Lemma WaitForAPI_succeeds url t w :
  answers_within (λ _, true) (http_Get url) (Z.to_nat t) w → succeeds (WaitForAPI url t) w (λ _ w', polled w w').
Proof.
  intros Ha. cut (succeeds (WaitForAPI url t) w (λ _ _, True)).
  { intros Hw. eapply succeeds_mono; [apply (succeeds_wp _ _ _ _ Hw (WaitForAPI_polled url t w))|]. by intros ??? [_ ?]. }
  unfold WaitForAPI. revert w Ha. induction (Z.to_nat t) as [|n IH]; intros w Ha; simpl in *; [done|].
  go_on. unfold attempt. destruct (http_Get url w) as [[a|e|p] w1] eqn:E; [| |done].
  - eapply succeeds_run; [by rewrite E|]. cbv beta match. by go_on.
  - eapply succeeds_run; [by rewrite E|]. cbv beta match. go_on. eapply succeeds_run; [done|]. by apply IH.
Qed.

Lemma WaitForDevice_succeeds dev t w :
  answers_within id (os_Stat dev) (Z.to_nat t) w → succeeds (WaitForDevice dev t) w (λ _ w', polled w w').
Proof.
  intros Ha. cut (succeeds (WaitForDevice dev t) w (λ _ _, True)).
  { intros Hw. eapply succeeds_mono; [apply (succeeds_wp _ _ _ _ Hw (WaitForDevice_polled dev t w))|]. by intros ??? [_ ?]. }
  unfold WaitForDevice. revert w Ha. induction (Z.to_nat t) as [|n IH]; intros w Ha; simpl in *; [done|].
  go_on. unfold attempt. destruct (os_Stat dev w) as [[a|e|p] w1] eqn:E; [| |done].
  - eapply succeeds_run; [by rewrite E|]. cbn in Ha. subst a. cbv beta match. by go_on.
  - eapply succeeds_run; [by rewrite E|]. cbv beta match. go_on. eapply succeeds_run; [done|]. by apply IH.
Qed.
End Polls.

(** ** Starting, and creating a controller, on a node *)

Section Node.
Context {W : Type} `{DockerSpec W} `{!ContainerSpec W} `{!LiveDocker W} `{!LiveEngine W} `{MapOrder}.
Context (ps : list string) (nodes : list dockerOrc).
Hypothesis ps_nonempty : ps ≠ [].
Hypothesis ps_simple : Forall (λ n, simple_name n = true) ps.
Hypothesis nodes_networked : ∀ d, d ∈ nodes → networked (W := W) d.
Implicit Types (w : W) (st : store) (i : InstanceInfo) (d : dockerOrc).
Local Abbreviation Rel := (Rel ps).

Lemma refresh_calm d i : preserves calm (refreshInstanceInfo d i).
Proof. unfold refreshInstanceInfo. frees. Qed.
(** A start ends neither [up] nor a container, but a container then runs. *)
Definition up_same w w' : Prop := (up w → up w') ∧ ct_same w w'.
Lemma start_up_same cli id : preserves up_same (ContainerStart cli id).
Proof. intros w. split; [apply start_up|apply ct_start]. Qed.

(** What is known of a container that has been started. *)
Definition running_at (j : ContainerJSON) : Prop :=
  cj_Running j = true ∧ cj_IPAddress j ≠ "" ∧ ∀ net a, cj_Networks j !! net = Some a → a ≠ "".
Definition address_of (j : ContainerJSON) (a : string) : Prop :=
  a = cj_IPAddress j ∨ ∃ net, cj_Networks j !! net = Some a.

(** An instance that is up. *)
Definition is_up (r : InstanceInfo) : Prop := i_Running r = true ∧ i_Address r ≠ "".

Lemma refresh_started d i w :
  d ∈ nodes → up w → i_ID i ∈ containers w (d_cli d) →
  (∀ j w', ContainerInspect (d_cli d) (i_ID i) w = (Ok j, w') → running_at j) →
  succeeds (refreshInstanceInfo d i) w (λ r w', is_up r ∧ i_Type r = i_Type i ∧
    ∃ j, ContainerInspect (d_cli d) (i_ID i) w = (Ok j, w') ∧ address_of j (i_Address r)).
Proof.
  intros Hd Hu Hin Hrun. unfold refreshInstanceInfo.
  destruct (up_inspect _ _ _ Hu Hin) as (j & w1 & Ei). destruct (Hrun _ _ Ei) as (Hj & Hip & Hnet).
  do 2 go_on. eapply succeeds_run; [exact Ei|]. go_on.
  eapply (succeeds_mono _ _ (λ a w', w' = w1 ∧ a ≠ "" ∧ address_of j a)).
  - destruct (String.eqb_spec (d_Network d) "") as [_|Hn]; [go_on; split_and!; [done..|by left]|].
    destruct (nodes_networked d Hd) as [?|Hat]; [done|]. destruct (Hat _ _ _ _ Ei) as [a Ha].
    rewrite Ha. go_on. split_and!; [done|by eapply Hnet|right; eauto].
  - intros a w2 _ (-> & Ha & Hof). cbv beta zeta. cbn [i_Running i_Address]. rewrite Hj.
    destruct (String.eqb_spec a "") as [|_]; [done|]. cbn [andb]. go_on.
    split_and!; [by split|done|]. by exists j.
Qed.

(** Starting a container that exists. *)
Lemma startInstance_succeeds d i w :
  d ∈ nodes → up w → i_ID i ∈ containers w (d_cli d) →
  succeeds (startInstance d i) w (λ r w', is_up r ∧ i_Type r = i_Type i ∧ up_same w w' ∧
    ∃ w1 j, ContainerStart (d_cli d) (i_ID i) w = (Ok tt, w1) ∧
      ContainerInspect (d_cli d) (i_ID i) w1 = (Ok j, w') ∧ address_of j (i_Address r)).
Proof.
  intros Hd Hu Hin. unfold startInstance, startContainer. do 2 go_on.
  destruct (up_start _ _ _ Hu Hin) as [w1 Es]. eapply succeeds_run; [exact Es|].
  pose proof (wp_elim _ _ _ _ _ (start_up_same _ _ w) Es) as [Hu1 Hct1]. cbn beta in Hu1, Hct1.
  eapply succeeds_mono; [eapply succeeds_wp; [apply (refresh_started d i w1 Hd (Hu1 Hu))|apply (refresh_calm d i w1)]|].
  - by rewrite Hct1.
  - intros j w2 Ej. by eapply up_started.
  - cbn beta. intros r w2 _ [(Hr & Ht & j & Ej & Ha) [[Hu2 _] Hc2]].
    split_and!; [done..| |eauto]. split; [auto|by etrans].
Qed.

Lemma start_performed i : performed nodes is_up ScheduleActionStartInstance i.
Proof.
  intros d w Hd Hh Hu Hin _. unfold run_action. cbn -[startInstance].
  set (i' := mkInstance _ _ _ _ _ _ _). go_with (startInstance_succeeds d i' w Hd Hu Hin).
  intros r w1 _ (Hr & _ & [Hu1 Hc1] & _). split_and!; [done|auto|by split|apply Hc1].
Qed.

(** No container of the daemon bears the name. *)
Definition name_free (cli name : string) w : Prop :=
  ∀ id, id ∈ containers w cli → ∃ nm, names w cli !! id = Some nm ∧ nm ≠ name.

(** The containers of the daemon [cli], and the new one [id]. *)
Definition with_container (cli id : string) w w' : Prop :=
  ∀ c, containers w' c = if decide (c = cli) then {[ id ]} ∪ containers w c else containers w c.

Lemma createController_succeeds d data w :
  d ∈ nodes → up w → runnable (ds_EngineImage data) → simple_name (ds_InstanceName data) = true →
  name_free (d_cli d) (ds_InstanceName data) w →
  succeeds (createController d data) w (λ r w', is_up r ∧ i_ID r ≠ "" ∧ up w' ∧
    with_container (d_cli d) (i_ID r) w w').
Proof.
  intros Hd Hu Him Hn Hfree. unfold createController. do 2 go_on.
  destruct (up_create (d_cli d) (controller_config d data) w Hu Him Hn Hfree) as (id & w1 & Ec & Hu1 & Hid).
  eapply succeeds_run; [exact Ec|]. do 2 go_on.
  pose proof (wp_elim _ _ _ _ _ (ct_create _ _ w) Ec) as Hc1. cbn beta match in Hc1.
  set (i := mkInstance id _ _ _ _ _ _).
  go_with (startInstance_succeeds d i w1 Hd Hu1).
  { rewrite Hc1, decide_True by done. set_solver. }
  intros r w2 Es (Hr & Hty & [Hu2 Hc2] & w1' & j & Est & Ei & Ha).
  destruct (up_serving _ _ _ _ _ _ _ _ Hu Ec Est Ei) as [Hip Hnet].
  assert (Hserv : serving w2 (i_Address r) (cc_Cmd (controller_config d data)))
    by (destruct Ha as [-> |[net ?]]; eauto).
  cbv zeta. do 4 go_on. go_with (WaitForAPI_succeeds _ _ w2 (up_api _ _ _ _ (Hu2 Hu1) Hserv)).
  intros _ w3 _ [[Hu3 Hs3] Hc3]. go_on. go_with (WaitForDevice_succeeds _ _ w3 (up_device _ _ _ _ (Hu3 (Hu2 Hu1)) (Hs3 _ _ Hserv))).
  intros _ w4 _ [[Hu4 _] Hc4]. go_on.
  assert (Hrid : i_ID r = id).
  { assert (Hin1 : id ∈ containers w1 (d_cli d)) by (rewrite Hc1, decide_True by done; set_solver).
    unfold startInstance, startContainer in Es. apply bind_ok_inv in Es as ([] & wa & Esa & Es). apply wrap_ok_inv in Esa.
    pose proof (wp_elim _ _ _ _ _ (ct_start _ _ w1) Esa) as Hcs. cbn beta in Hcs.
    apply refresh_id in Es; [done|]. rewrite Hcs. exact Hin1. }
  rewrite Hrid. split_and!; [done..|auto|]. intros c. by rewrite Hc4, Hc3, Hc2, Hc1.
Qed.

(** ** The request for a controller *)

Hypothesis nodes_named : ∀ d, d ∈ nodes → simple_name (GetCurrentHostID d) = true.
Local Abbreviation http := (cluster_http (path ps) nodes).

Lemma name_free_kept cli name w w' :
  names_kept w w' → ct_same w w' → name_free cli name w → name_free cli name w'.
Proof.
  intros Hk Hc Hf id. rewrite Hc. intros (nm & Hnm & ?)%Hf. exists nm. split; [|done].
  exact (lookup_weaken _ _ _ _ Hnm (Hk _)).
Qed.

Lemma with_container_kept cli id w w1 w' :
  ct_same w w1 → with_container cli id w1 w' → with_container cli id w w'.
Proof. intros Hc Hw c. by rewrite Hw, Hc. Qed.

(** The item that asks for a controller on the node [d]. *)
Definition controller_item d (n cn : string) (data : dockerScheduleData) : ScheduleItem :=
  mkScheduleItem ScheduleActionCreateController
    (mkScheduleInstance cn InstanceTypeController (GetCurrentHostID d) n "")
    (mkScheduleData OrcName (Some (to_json data))).

Lemma create_node_succeeds d n cn data w st :
  d ∈ nodes → Rel w st → healthy w → up w → simple_name n = true → simple_name cn = true →
  ds_VolumeName data = n → ds_InstanceName data = cn → runnable (ds_EngineImage data) →
  st_ctrl st n = None → name_free (d_cli d) cn w →
  succeeds (ProcessSchedule (path ps) d (controller_item d n cn data)) w (λ r w',
    healthy w' ∧ up w' ∧ is_up r ∧ i_ID r ≠ "" ∧ i_Type r = InstanceTypeController ∧
    with_container (d_cli d) (i_ID r) w w').
Proof.
  intros Hd Hr Hh Hu Hn Hcn Hvol Hname Him Hnone Hfree. set (item := controller_item d n cn data).
  assert (Hpay : schedule_payload (it_Data item) = Ok data) by apply payload_roundtrip.
  assert (Hok : item_ok item).
  { split; [|done]. intros y. rewrite Hpay. intros [= <-]. unfold target_volume. cbn. by rewrite Hvol. }
  unfold ProcessSchedule. rewrite Hpay. cbn [it_Data it_Action it_Instance item controller_item sd_Orchestrator
    s_ID s_Type s_Name s_HostID s_VolumeName]. rewrite String.eqb_refl. cbn [negb]. do 2 go_on.
  rewrite (simple_nonempty cn) by done. cbn [negb]. change (known_action _) with true. cbn [negb]. do 2 go_on.
  set (input := mkInstance _ _ _ _ _ _ _).
  change (run_action d ScheduleActionCreateController data input) with (createController d data).
  rewrite <-Hname in Hcn, Hfree.
  eapply succeeds_mono; [eapply succeeds_wp; [by apply createController_succeeds|apply (createController_free d data w)]|].
  intros r w1 Ea [(Hup & Hrid & Hu1 & Hc1) Hf]. cbn beta in Hf. pose proof Hf as (_ & _ & Hh1 & _).
  assert (Hr1 : Rel w1 st) by (destruct Hf as (? & ? & _); by eapply Rel_frame).
  pose proof (run_action_inv ps ps_nonempty d item data w r w1 Hok eq_refl Hpay Ea) as
    ([Hnm Hnn] & Hty & (y & Hy & Hv) & Hhost & _ & _).
  rewrite Hpay in Hy. injection Hy as <-. unfold target_type in Hty. unfold target_volume in Hv. cbn in Hty, Hv.
  rewrite Hvol in Hv.
  do 2 go_on. change (String.eqb _ ScheduleActionDeleteInstance) with (deletes (it_Action item)).
  eapply succeeds_mono; [eapply succeeds_wp; [apply (metadata_succeeds ps ps_nonempty ps_simple item r st w1 Hr1 (Hh1 Hh) (conj Hnm Hnn))|
    apply (metadata_calm (path ps) item r w1)]|].
  - apply String.eqb_neq in Hrid. unfold incomplete. by rewrite Hty, Hv, Hhost, Hrid, !simple_nonempty by auto.
  - unfold conflict, recorded, is_controller. by rewrite Hty, Hv, Hnone.
  - done.
  - intros _ w2 _ [Hh2 [[Hu2 _] Hc2]]. go_on. split_and!; [done|auto|done..|]. intros c. by rewrite Hc2, Hc1.
Qed.

Lemma replica_urls_addressed reps rnames urls :
  Forall (λ r, ∃ x, reps !! r = Some x ∧ i_Address (r_Instance x) ≠ "") rnames →
  ∃ urls', replica_urls reps rnames urls = Ok urls'.
Proof.
  intros Hall. revert urls. induction Hall as [|r l (x & Hx & Ha) _ IH]; intros urls; simpl; [by eexists|].
  rewrite Hx. destruct (String.eqb_spec (i_Address (r_Instance x)) ""); [done|]. apply IH.
Qed.

Lemma CreateController_succeeds d n cn (rs : gmap string ReplicaInfo) v w st :
  d ∈ nodes → Rel w st → healthy w → up w → simple_name n = true → simple_name cn = true →
  vol_of st n = Some v → runnable (v_EngineImage v) → st_ctrl st n = None →
  (∀ r, r ∈ dom rs → ∃ x, st_reps st n !! r = Some x ∧ i_Address (r_Instance x) ≠ "") →
  name_free (d_cli d) cn w →
  succeeds (CreateController (H4 := http) (path ps) d n cn rs) w (λ c w',
    healthy w' ∧ up w' ∧ is_up (c_Instance c) ∧ with_container (d_cli d) (i_ID (c_Instance c)) w w').
Proof.
  intros Hd Hr Hh Hu Hn Hcn Hv Him Hnone Haddr Hfree.
  unfold CreateController, prepareCreateController. cbv zeta. do 4 go_on.
  eapply succeeds_mono; [eapply succeeds_wp; [eapply succeeds_wp|]|].
  - apply (reads_succeeds ps _ _ _ _ (GetVolume_spec ps ps_nonempty ps_simple n w st Hr Hn) Hh).
  - apply (GetVolume_free (path ps) n w).
  - apply (GetVolume_calm (path ps) n w).
  - intros ov w1 _ [[(-> & Hh1 & Hr1) (_ & _ & _ & Hk1)] [[Hu1 _] Hc1]]. rewrite Hv.
    destruct (vol_of_instances _ _ _ Hv) as [_ Hreps]. rewrite Hreps.
    destruct (replica_urls_addressed (st_reps st n) (range rs).*1 []) as [urls Eu].
    { apply Forall_forall. intros r ([r' x] & -> & Hin)%list_elem_of_fmap. apply Haddr.
      apply elem_of_range in Hin. by eapply elem_of_dom_2. }
    rewrite Eu. do 5 go_on. unfold orc_schedule, Schedule. set (data := mkDockerData _ _ _ _ _).
    fold (controller_item d n cn data). cbn [it_Instance controller_item s_ID s_Type s_HostID].
    rewrite !simple_nonempty by auto. cbn [orb negb]. change (String.eqb InstanceTypeController InstanceTypeNone) with false.
    cbv match. do 2 go_on. unfold ScheduleProcess, Process.
    cbn [so_GetCurrentHostID so_ProcessSchedule orc_ops spec_HostID]. rewrite String.eqb_refl. cbn [negb]. do 3 go_on.
    go_with (create_node_succeeds d n cn data w1 st Hd Hr1 Hh1 (Hu1 Hu) Hn Hcn eq_refl eq_refl Him Hnone
      (name_free_kept _ _ _ _ Hk1 Hc1 Hfree)).
    intros r w2 _ (Hh2 & Hu2 & Hup & Hrid & Hty & Hw). go_on. rewrite Hty.
    destruct (String.eqb_spec (i_ID r) ""); [done|]. cbn [orb]. change (String.eqb InstanceTypeController InstanceTypeNone) with false.
    cbv match. do 2 go_on. split_and!; [done..|]. by eapply with_container_kept.
Qed.
End Node.
