(* ===== verification/Attachment.v ===== *)
(** * Attaching completes

    When the store, the daemons, the engines and the other managers answer, a volume with
    a good replica can be attached, on whichever host it was before, and it is up. *)

From stdpp Require Import base functions list gmap strings.
From Stdlib Require Import ZArith Lia Ascii.
From S2P Require Import Prelude Total GoStrings GoTime Json Types Util Codec Backend KVStore KVSpec KVVolumes Scheduler Docker World DockerSpec Cluster Records DockerVolumes TaskQueue Controller Backups Retain Cron Manager ManagerSpec Lifecycle ManagerDemo Monitor Clients System Teardown Completion Bringup.
Local Open Scope string_scope.
Local Open Scope list_scope.

Lemma controller_name_simple n : simple_name n = true → simple_name (GetControllerName n) = true.
Proof.
  intros Hn%simple_name_no_slash. apply simple_name_spec. unfold GetControllerName.
  assert (Hlen : ∀ s, String.length s <= 10 → n +:+ "-controller" ≠ s).
  { intros s Hs Heq. apply (f_equal String.length) in Heq. rewrite slength_app in Heq. simpl in Heq. lia. }
  split_and!; [by apply Hlen; simpl; lia..|]. rewrite Count_app, Hn. reflexivity.
Qed.

Section Attachment.
Context {W Mon : Type} `{DockerSpec W} `{!ContainerSpec W} `{!LiveDocker W} `{!LiveEngine W} `{MapOrder} `{GoSched}.
Context `{!ManagerDeps W Mon}.
Context (ps : list string) (nodes : list dockerOrc) (d : dockerOrc).
Hypothesis ps_nonempty : ps ≠ [].
Hypothesis ps_simple : Forall (λ n, simple_name n = true) ps.
Hypothesis nodes_named : ∀ d, d ∈ nodes → simple_name (GetCurrentHostID d) = true.
Hypothesis nodes_unique : ∀ d d', d ∈ nodes → d' ∈ nodes →
  GetCurrentHostID d = GetCurrentHostID d' → d = d'.
Hypothesis nodes_urls : ∀ d d', d ∈ nodes → d' ∈ nodes → node_url d = node_url d' → d = d'.
Hypothesis nodes_networked : ∀ d, d ∈ nodes → networked (W := W) d.
Hypothesis d_node : d ∈ nodes.
Hypothesis apart : deps_apart (W := W) (Mon := Mon).
Hypothesis answer : deps_answer (W := W) (Mon := Mon).

(** Monitors begin. *)
Hypothesis begins : ∀ v (w : W), ∃ mc w', BeginMonitoring (Mon := Mon) v w = (Ok mc, w').
Hypothesis begins_calm : ∀ v, preserves calm (BeginMonitoring (E := W) (Mon := Mon) v).

Local Abbreviation sys := (sys (Mon := Mon) ps nodes).
Local Abbreviation placed := (placed nodes).
Local Abbreviation without := (without nodes).
Local Abbreviation runs_as := (runs_as nodes).
Local Abbreviation controllers := Completion.controllers.
#[local] Instance orc : Orchestrator W := System.orc ps nodes d.
Abbreviation man := (volumeManager W Mon).
Implicit Types (s : man) (st : store) (w : W) (v : VolumeInfo) (i : InstanceInfo).

Lemma startMonitoring_succeeds v s : succeeds (startMonitoring (Mon := Mon) v) s (λ _ s', calm_frame s s').
Proof.
  unfold startMonitoring. go_on. eapply (succeeds_run _ _ s s); [done|]. cbn beta.
  destruct (m_monitors s !! v_Name v) as [m|]; [by go_on|]. go_on.
  destruct (begins v (m_env s)) as (mc & w1 & E).
  eapply succeeds_mono; [eapply succeeds_wp;
    [by apply (onE_succeeds _ s (λ _ _, True)); exists mc, w1|apply (onE_calm _ (da_Begin apart v) (begins_calm v) s)]|].
  cbn beta. intros mc' s1 _ [_ Hf]. go_on. eapply (succeeds_run _ _ s1 s1); [done|]. cbn beta.
  eapply succeeds_run; [done|]. exact Hf.
Qed.

(** ** On the way

    From the store [st] of [s0]: the volume [n] is detached, its old controller removed,
    and the replicas [started] are up. *)
Definition ready n st s0 (started : list string) s : Prop :=
  ∃ st1, sys s st1 ∧ names_kept (m_env s0) (m_env s) ∧ registered nodes st1 ∧ live s ∧
    without (controllers n st) (m_env s0) (m_env s) ∧
    st_ctrl st1 n = None ∧ st_base st1 n = st_base st n ∧
    ∀ r x, st_reps st n !! r = Some x → ∃ y, st_reps st1 n !! r = Some y ∧
      i_ID (r_Instance y) = i_ID (r_Instance x) ∧ i_HostID (r_Instance y) = i_HostID (r_Instance x) ∧
      (r ∈ started → is_up (r_Instance y)).

(** What a request on a replica does. *)
Definition on_replica (b : bool) x st1 s s' : Prop := ∃ j,
  sys s' (record_instance j st1) ∧ names_kept (m_env s) (m_env s') ∧ same_instance (r_Instance x) j ∧
  live s' ∧ ct_same (m_env s) (m_env s') ∧ (b = true → is_up j).

Section Replicas.
Context (n : string) (st : store) (s0 : man).
Hypothesis Hs0 : sys s0 st.
Hypothesis Hin : intact nodes n st (m_env s0).

Lemma ready_step {A} (m : M man A) (b : bool) x started s :
  ready n st s0 started s → st_reps st n !! r_Name x = Some x → r_Name x ∉ started →
  (∀ st1, sys s st1 → registered nodes st1 → live s → placed (m_env s) st1 (r_Instance x) →
     succeeds m s (λ _ s', on_replica b x st1 s s')) →
  succeeds m s (λ _ s', ready n st s0 (if b then r_Name x :: started else started) s').
Proof.
  intros (st1 & Hs1 & Hk & Hreg & Hl & Hw & Hc & Hb & Hreps) Hx Hnot Hm.
  destruct (Hreps _ _ Hx) as (y & Hy & Hid & Hh & _).
  destruct (con_rep _ _ _ (proj2 Hs0) _ _ _ Hx) as [Hrep _].
  destruct (wf_rep _ (rel_wf _ _ _ (proj1 Hs0)) _ _ _ Hx) as (_ & Hvol & _).
  assert (Hp : placed (m_env s) st1 (r_Instance x)).
  { eapply (replica_placed ps nodes s0 s st st1 n x y); [done..|].
    apply (replica_left ps nodes nodes_unique n st s0 [x] Hs0 Hin) with (gone := []) (rest := []);
      [by repeat constructor|by repeat constructor; set_solver|done|done|by rewrite app_nil_r]. }
  go_with (Hm st1 Hs1 Hreg Hl Hp). intros a s' _ (j & Hs' & Hk' & Hj & Hl' & Hct & Hup).
  rewrite <-Hvol in Hy. rewrite (record_rep x j st1 y Hrep Hj Hy), Hvol in Hs'. rewrite Hvol in Hy.
  eexists. split_and!; [exact Hs'|by etrans|done|done|by intros c id; rewrite Hct|done|done|].
  intros r z Hz. simpl. rewrite fn_lookup_insert. destruct (decide (r = r_Name x)) as [->|Hne].
  - assert (z = x) as -> by congruence. rewrite lookup_insert_eq. exists (set_Instance j y).
    destruct Hj as (? & ? & _). split_and!; [done|by symmetry..|]. simpl. destruct b; [by auto|done].
  - rewrite lookup_insert_ne by done. destruct (Hreps _ _ Hz) as (y' & ? & ? & ? & Hu).
    exists y'. split_and!; [done..|]. intros Hr. apply Hu. destruct b; [|done]. by apply elem_of_cons in Hr as [?|?].
Qed.

(** A replica that was running is stopped; one that is to serve is started. *)
Lemma stop_replica_ready x s :
  st_reps st n !! r_Name x = Some x → ready n st s0 [] s →
  succeeds (stop_replica x) s (λ _ s', ready n st s0 [] s').
Proof.
  intros Hx Hr. apply (ready_step _ false x [] s Hr Hx); [apply not_elem_of_nil|].
  intros st1 Hs Hreg Hl Hp. unfold stop_replica. do 2 go_on.
  go_with (stop_succeeds ps nodes d ps_nonempty ps_simple nodes_named nodes_unique nodes_urls nodes_networked
    d_node _ s st1 Hs Hl Hreg Hp).
  intros j s1 E (Hl1 & Hc1 & _). go_on.
  destruct (stop_sys ps nodes d ps_nonempty ps_simple nodes_named nodes_unique d_node _ _ _ _ _ Hs (proj1 Hp) E)
    as (? & ? & ? & ?). by exists j.
Qed.

Definition start_replica x : M man unit :=
  wrap "failed to start replica '%s' for volume '%s'" (onE (oc_StartInstance (r_Instance x));; mret tt).

Lemma start_replica_ready x started s :
  st_reps st n !! r_Name x = Some x → r_Name x ∉ started → ready n st s0 started s →
  succeeds (start_replica x) s (λ _ s', ready n st s0 (r_Name x :: started) s').
Proof.
  intros Hx Hnot Hr. apply (ready_step _ true x started s Hr Hx Hnot).
  intros st1 Hs Hreg [Hh Hu] Hp. unfold start_replica. do 2 go_on. pose proof Hs as [Hr1 Hc1].
  eapply succeeds_mono; [apply onE_succeeds|].
  - apply (request_succeeds ps nodes ps_nonempty ps_simple nodes_named nodes_unique nodes_urls is_up
      ScheduleActionStartInstance (r_Instance x)) with (st := st1);
      [by left|by apply (start_performed nodes nodes_networked)|done..|by intros ?].
  - intros j s1 E (Hh1 & Hu1 & Hw & _ & _ & Hup). go_on.
    destruct (start_sys ps nodes d ps_nonempty ps_simple nodes_named nodes_unique d_node _ _ _ _ _ Hs (proj1 Hp) E)
      as (? & ? & ?). exists j. split_and!; [done..|by apply (without_nil nodes)|done].
Qed.

(** In the midst of the starts, [xs] being left. *)
Definition starting (all : list string) (xs : list ReplicaInfo) s : Prop := ∃ started,
  ready n st s0 started s ∧ (∀ r, r ∈ all → r ∈ started ++ (r_Name <$> xs)) ∧
  NoDup (started ++ (r_Name <$> xs)) ∧ Forall (λ x, st_reps st n !! r_Name x = Some x) xs.

Lemma starting_all (rs : gmap string ReplicaInfo) ys s :
  rs ⊆ st_reps st n → ys ≡ₚ (range rs).*2 → ready n st s0 [] s → starting (elements (dom rs)) ys s.
Proof.
  intros Hsub Hp Hr. rewrite map_subseteq_spec in Hsub.
  assert (Hwf : ∀ r x, rs !! r = Some x → r_Name x = r)
    by (intros r x Hx%Hsub; by destruct (wf_rep _ (rel_wf _ _ _ (proj1 Hs0)) _ _ _ Hx)).
  exists []. simpl. rewrite Hp. split_and!; [done| | |].
  - intros r [x Hx]%elem_of_elements%elem_of_dom. rewrite Hp. apply list_elem_of_fmap. exists x.
    rewrite (Hwf _ _ Hx). split; [done|]. apply list_elem_of_fmap. exists (r, x). by rewrite elem_of_range.
  - by apply names_distinct.
  - apply Forall_forall. intros x ([r y] & -> & Hy%elem_of_range)%list_elem_of_fmap. cbn.
    rewrite (Hwf _ _ Hy). by apply Hsub.
Qed.

Lemma start_replica_succeeds all x xs s :
  starting all (x :: xs) s → succeeds (start_replica x) s (λ _ s', starting all xs s').
Proof.
  intros (started & Hr & Hall & Hnd & [Hx Hxs]%Forall_cons). rewrite fmap_cons in Hall, Hnd.
  rewrite <-Permutation_middle in Hnd. apply NoDup_cons in Hnd as [Hnot Hnd].
  go_with (start_replica_ready x started s Hx).
  { intros Hin'. apply Hnot, elem_of_app. by left. } { done. }
  intros [] s1 _ Hr1. exists (r_Name x :: started). split_and!; [done| | |done].
  - intros r Hr'. specialize (Hall r Hr'). rewrite elem_of_app, elem_of_cons in Hall. simpl.
    rewrite elem_of_cons, elem_of_app. tauto.
  - simpl. by apply NoDup_cons.
Qed.
End Replicas.

(** ** Attaching *)

(** The engine of the volume can be run, and its controller's name is not that of another
    container of this host. *)
Record creatable (n : string) st w : Prop := {
  cr_image : ∀ b, st_base st n = Some b → runnable (v_EngineImage b);
  cr_name : ∀ id, id ∈ containers w (d_cli d) → ∃ nm, names w (d_cli d) !! id = Some nm ∧
    (nm = GetControllerName n → ∃ c, st_ctrl st n = Some c ∧ runs_as (d_cli d) id (c_Instance c));
}.

(** The controller of the volume runs on this host. *)
Definition controller_here (n : string) st w : Prop := ∃ c,
  st_ctrl st n = Some c ∧ i_Running (c_Instance c) = true ∧ i_HostID (c_Instance c) = GetCurrentHostID d ∧
  i_ID (c_Instance c) ∈ containers w (d_cli d).

(** Its good replicas are up. *)
Definition replicas_up (n : string) st st' : Prop := ∀ r x,
  st_reps st n !! r = Some x → good x = true → ∃ y, st_reps st' n !! r = Some y ∧ is_up (r_Instance y).

Section Attach.
Context (n : string) (st : store) (s0 : man).
Hypothesis Hs0 : sys s0 st.
Hypothesis Hin : intact nodes n st (m_env s0).
Hypothesis Hcr : creatable n st (m_env s0).
Hypothesis n_simple : simple_name n = true.
Hypothesis n_volume : is_Some (vol_of st n).

Lemma ready_name_free started s : ready n st s0 started s → name_free (d_cli d) (GetControllerName n) (m_env s).
Proof.
  intros (st1 & _ & Hk & _ & _ & Hw & _) id [Hid Hnot]%Hw.
  destruct (cr_name _ _ _ Hcr id Hid) as (nm & Hnm & Hours). exists nm.
  split; [exact (lookup_weaken _ _ _ _ Hnm (Hk _))|]. intros (c & Hc & Hrun)%Hours.
  unfold Completion.controllers in Hnot. rewrite Hc in Hnot. rewrite Forall_singleton in Hnot. by apply Hnot.
Qed.

(** With the replicas started, the controller is created. *)
Lemma create_ready (rs : gmap string ReplicaInfo) started s :
  ready n st s0 started s → (∀ r, r ∈ dom rs → r ∈ started) → (∀ r, r ∈ dom rs → is_Some (st_reps st n !! r)) →
  succeeds (onE (Mon := Mon) (oc_CreateController n (GetControllerName n) rs)) s (λ c s', live s' ∧
    i_ID (c_Instance c) ∈ containers (m_env s') (d_cli d) ∧ i_Running (c_Instance c) = true ∧
    i_HostID (c_Instance c) = GetCurrentHostID d ∧
    ∃ st1, sys s' (put_ctrl n (Some c) st1) ∧
      ∀ r, r ∈ started → is_Some (st_reps st n !! r) → ∃ y, st_reps st1 n !! r = Some y ∧ is_up (r_Instance y)).
Proof.
  intros Hr Hdom Hrs. pose proof (ready_name_free _ _ Hr) as Hfree.
  destruct Hr as (st1 & Hs & _ & _ & [Hh Hu] & _ & Hc & Hb & Hreps). pose proof Hs as [Hr1 _].
  assert (Hups : ∀ r, r ∈ started → is_Some (st_reps st n !! r) → ∃ y, st_reps st1 n !! r = Some y ∧ is_up (r_Instance y)).
  { intros r Hst [x Hx]. destruct (Hreps r x Hx) as (y & ? & _ & _ & Hup). eauto. }
  assert (Hv : ∃ b, st_base st n = Some b ∧ ∃ v1, vol_of st1 n = Some v1 ∧ v_EngineImage v1 = v_EngineImage b).
  { unfold vol_of in *. rewrite Hb. destruct n_volume as [v Hv]. destruct (st_base st n) as [b|]; [|done].
    exists b. split; [done|]. by eexists. }
  destruct Hv as (b & Hbase & v1 & Hv1 & Him).
  eapply succeeds_mono; [apply onE_succeeds|].
  - apply (CreateController_succeeds ps nodes ps_nonempty ps_simple nodes_networked nodes_named d n _ rs v1 _ st1);
      [done..|by apply controller_name_simple|done| |done| |done].
    + rewrite Him. by apply (cr_image _ _ _ Hcr).
    + intros r Hd. destruct (Hups r (Hdom r Hd) (Hrs r Hd)) as (y & ? & _ & ?). by exists y.
  - intros c s' E (Hh' & Hu' & [Hrun _] & Hw).
    destruct (create_controller_sys ps nodes d ps_nonempty ps_simple nodes_named nodes_unique d_node
      _ _ _ _ _ _ _ Hs n_simple E) as [Hs' Hhost].
    split_and!; [done..| |done|done|by exists st1]. rewrite Hw, decide_True by done. set_solver.
Qed.

Lemma attach_replicas_succeeds v s :
  v_Name v = n → replicas_of v = st_reps st n → attachable (st_reps st n) → has_good st n →
  ready n st s0 [] s →
  succeeds (attach_replicas v) s (λ _ s', ∃ st', sys s' st' ∧
    controller_here n st' (m_env s') ∧ replicas_up n st st').
Proof.
  intros Hname Hreps Hat Hgood Hr. unfold attach_replicas. cbv zeta. rewrite Hreps.
  destruct (pick_replicas_total (range (st_reps st n)) ∅) as [rs Ep].
  { apply Forall_forall. intros [r x] Hx%elem_of_range. cbn. by eapply Hat. }
  assert (Hrs : ∀ k x, rs !! k = Some x ↔ st_reps st n !! k = Some x ∧ good x = true).
  { rewrite <-Hreps in Ep |- *. by apply pick_replicas_range in Ep as [_ ?]. }
  assert (Hne : rs ≠ ∅).
  { destruct Hgood as (r & x & Hx & Hg). intros ->. assert (Hl : (∅ : gmap string ReplicaInfo) !! r = Some x) by by apply Hrs.
    by rewrite lookup_empty in Hl. }
  pose proof (pick_replicas_started (range (st_reps st n)) ∅ None) as [_ Hst].
  destruct (pick_replicas _ _ _) as [rns pk]. cbn in Ep, Hst. specialize (Hst _ Ep). subst pk rns. do 3 go_on.
  go_with (succeeds_fan_out (λ ys s, ready n st s0 [] s ∧ Forall (λ x, st_reps st n !! r_Name x = Some x) ys)).
  { intros ys Hp. split; [done|]. apply Forall_forall. intros x Hx. rewrite Hp in Hx.
    apply list_elem_of_filter in Hx as [_ Hx]. rewrite <-Hreps in Hx. by eapply (replica_place ps nodes v st s0). }
  { intros x xs s1 [Hr1 [Hx Hxs]%Forall_cons]. go_with (stop_replica_ready n st s0 Hs0 Hin x s1 Hx Hr1). done. }
  intros [] s1 _ [Hr1 _]. rewrite (bool_decide_eq_false_2 (rs = ∅)) by done. rewrite (bool_decide_eq_false_2 (rs = ∅)) by done. go_on.
  change (λ replica : ReplicaInfo, _) with start_replica.
  go_with (succeeds_fan_out (starting n st s0 (elements (dom rs)))).
  { intros ys Hp. apply (starting_all n st s0 Hs0 rs ys s1); [by apply map_subseteq_spec; intros k x [? _]%Hrs|done..]. }
  { intros x xs s2 Hst. by apply (start_replica_succeeds n st s0 Hs0 Hin _ x xs s2). }
  intros [] s2 _ (started & Hr2 & Hall & _). do 2 go_on. rewrite Hname.
  go_with (create_ready rs started s2 Hr2).
  { intros r Hd. specialize (Hall r). rewrite fmap_nil, app_nil_r in Hall. by apply Hall, elem_of_elements. }
  { intros r [x Hx]%elem_of_dom. apply Hrs in Hx as [? _]. by eexists. }
  intros c s3 _ (Hl3 & Hid & Hrun & Hhost & st1 & Hs3 & Hup). go_on.
  go_with (startMonitoring_succeeds (set_Controller (Some c) v) s3). intros [] s4 _ [Hf [_ Hct]]. go_on.
  exists (put_ctrl n (Some c) st1). split_and!; [by eapply env_frame_sys| |].
  - exists c. split_and!; [apply fn_lookup_insert|done..|]. by rewrite Hct.
  - intros r x Hx Hg. apply Hup; [|by eexists]. specialize (Hall r). rewrite fmap_nil, app_nil_r in Hall.
    apply Hall, elem_of_elements, elem_of_dom. exists x. by apply Hrs.
Qed.

(** A volume that is attached elsewhere is detached; another one is ready. *)
Lemma detach_ready s :
  sys s st → live s → names_kept (m_env s0) (m_env s) → ct_same (m_env s0) (m_env s) →
  stays (m_env s0) (m_env s) → succeeds (man_Detach n) s (λ _ s', ready n st s0 [] s').
Proof.
  intros Hs Hl Hk Hct Hst. unfold man_Detach. go_on.
  go_with (volume_read ps nodes d ps_nonempty ps_simple apart answer n s st Hs Hl n_simple n_volume).
  intros ov s2 _ (Hf2 & Hs2 & v2 & -> & Hp2). pose proof Hf2 as [He2 [[_ Hst2] Hct2]]. go_on.
  assert (Hk2 : names_kept (m_env s0) (m_env s2)) by (etrans; [done|by apply env_frame_names]).
  go_with (doDetach_succeeds ps nodes d ps_nonempty ps_simple nodes_named nodes_unique nodes_urls nodes_networked
    d_node apart answer n v2 st s0 s2 Hs0 Hin Hp2 Hs2 (calm_live _ _ Hf2 Hl) Hk2); [by etrans|by etrans|].
  intros v3 s3 Ed (Hl3 & Hw3 & _). go_on.
  destruct (doDetach_sys ps nodes d ps_nonempty ps_simple nodes_named nodes_unique d_node apart n v2 v3 st s2 s3
    Hs2 Hp2 Ed) as (st3 & Hs3 & [Hnone Hbase [_ Href] (Hhosts & _)] & Hk3).
  exists st3. split_and!; [done|by etrans| |done..|].
  - intros d' Hd'. rewrite <-Hhosts. by apply (in_hosts _ _ _ _ Hin).
  - intros r x Hx. destruct (Href r x Hx) as [[[]%elem_of_nil _]|(j & ? & (? & ? & _) & _)].
    exists (set_Instance j x). split_and!; [done..|]. by intros []%elem_of_nil.
Qed.

Lemma unattached_ready s :
  sys s st → live s → names_kept (m_env s0) (m_env s) → ct_same (m_env s0) (m_env s) →
  st_ctrl st n = None → ready n st s0 [] s.
Proof.
  intros Hs Hl Hk Hct Hnone. exists st. split_and!; [done..|apply (in_hosts _ _ _ _ Hin)|done| |done|done|].
  - unfold Completion.controllers. rewrite Hnone. by apply without_nil.
  - intros r x Hx. exists x. split_and!; [done..|]. by intros []%elem_of_nil.
Qed.
End Attach.

(** C1: attaching completes.  When etcd, the daemons, the engines and the other managers
    answer, the hosts are registered, the containers of the volume exist and a controller
    that is not recorded as running does not run, a volume with a good replica and no bad
    one with a readable time stamp is attached, whichever host is asked and wherever the
    volume was; its controller then runs on that host, in a container that exists, and
    unless it was running there already its good replicas are up. *)
Theorem attach_completes n s st :
  sys s st → simple_name n = true → is_Some (vol_of st n) →
  healthy (m_env s) → up (m_env s) → intact nodes n st (m_env s) → creatable n st (m_env s) →
  attachable (st_reps st n) → has_good st n →
  ∃ s' st', man_Attach n s = (Ok tt, s') ∧ sys s' st' ∧ controller_here n st' (m_env s') ∧
    (controller_here n st (m_env s) ∨ replicas_up n st st').
Proof.
  intros Hs Hn Hv Hh Hu Hin Hcr Hat Hgood.
  cut (succeeds (man_Attach n) s (λ _ s', ∃ st', sys s' st' ∧ controller_here n st' (m_env s') ∧
    (controller_here n st (m_env s) ∨ replicas_up n st st'))).
  { intros ([] & s' & E & st' & ?). by exists s', st'. }
  unfold man_Attach. go_on. go_with (volume_read ps nodes d ps_nonempty ps_simple apart answer n s st Hs (conj Hh Hu) Hn Hv).
  intros ov s1 _ (Hf & Hs1 & v & -> & (Hname & Hctrl & Hreps)). pose proof Hf as [He [[_ Hst] Hct]].
  pose proof (calm_live _ _ Hf (conj Hh Hu)) as Hl1. do 3 go_on.
  assert (Hgo : ∀ s2, ready n st s [] s2 → succeeds (attach_replicas v) s2 (λ _ s', ∃ st', sys s' st' ∧
    controller_here n st' (m_env s') ∧ (controller_here n st (m_env s) ∨ replicas_up n st st'))).
  { intros s2 Hr. go_with (attach_replicas_succeeds n st s Hs Hin Hcr Hn Hv v s2 Hname Hreps Hat Hgood Hr).
    intros v' s3 _ (st' & ? & ? & ?). exists st'. auto. }
  eapply (succeeds_mono _ _ (λ _ s', ∃ st', sys s' st' ∧ controller_here n st' (m_env s') ∧
    (controller_here n st (m_env s) ∨ replicas_up n st st'))); [|intros v' s2 _ Hq; by go_on].
  unfold doAttach. rewrite Hctrl. destruct (st_ctrl st n) as [c|] eqn:Ec.
  - destruct (i_Running (c_Instance c) && _) eqn:Hlocal.
    + apply andb_true_iff in Hlocal as [Hrun Hhost%String.eqb_eq].
      assert (Hhere : controller_here n st (m_env s)).
      { exists c. split_and!; [done..|]. eapply (in_there _ _ _ _ Hin); [left; by exists c|]. split; [done|]. by exists d. }
      go_on. go_with (startMonitoring_succeeds v s1). intros [] s2 _ [He2 [_ Hct2]]. go_on.
      exists st. split_and!; [by eapply env_frame_sys| |by left].
      destruct Hhere as (c' & ? & ? & ? & ?). exists c'. split_and!; [done..|]. by rewrite Hct2, Hct.
    + do 2 go_on. rewrite Hname. eapply succeeds_mono.
      { apply (detach_ready n st s Hs Hin Hn Hv s1 Hs1 Hl1 (env_frame_names _ _ He) Hct Hst). }
      intros [] s2 _ Hr. by apply Hgo.
  - apply Hgo. by apply (unattached_ready n st s Hin s1 Hs1 Hl1 (env_frame_names _ _ He) Hct).
Qed.
End Attachment.

(** ** The monitors of the program *)

Lemma real_monitors_begin {W} `{Engine W} `{!Clients W} `{JsonText} v (w : W) :
  ∃ mc w', Monitor_begin v w = (Ok mc, w').
Proof.
  assert (Hg : ∀ v (w : W), ∃ c w', controller_Get v w = (Ok c, w')).
  { intros v' w1. unfold controller_Get. destruct (ctrl_Get (cl_holder w1) v'). by eexists _, _. }
  unfold Monitor_begin, mbind, M_bind. destruct (Hg (Some v) w) as (c1 & w1 & ->).
  destruct (Hg (Some v) w1) as (c2 & w2 & ->). by eexists _, _.
Qed.

(** ** The property at a concrete cluster

    The volume of [SystemDemo], attached on the first host, is attached to the second. *)
Module AttachmentDemo.
Import ClusterDemo RecordsDemo SystemDemo CompletionDemo.
#[local] Existing Instance list_order.
#[local] Existing Instance in_order.
#[local] Existing Instances engine json_text mapstructure clients clients_spec world_live.

Lemma fresh_unused (w : world) cli : world_up w → names_of cli w !! fresh_id w = None.
Proof.
  intros [_ Hf]. apply eq_None_not_Some. intros [nm (k & Hk & Hin)%Hf%list_elem_of_fmap].
  unfold fresh_id in Hk. simplify_eq. apply elem_of_seq in Hin. lia.
Qed.

Lemma create_up cli cfg (w : world) :
  world_up w → cc_Image cfg ≠ "broken" → simple_name (cc_Name cfg) = true →
  ∃ id w', ContainerCreate cli cfg w = (Ok id, w') ∧ world_up w' ∧ id ≠ "".
Proof.
  intros Hu Him Hn. pose proof (fresh_unused w cli Hu) as Hfresh. pose proof Hu as [Hc Hf].
  unfold ContainerCreate, world_docker, create. rewrite Hn. cbn [negb].
  rewrite decide_False; [eexists _, _; split; [reflexivity|]; split; [|done]|].
  - split; intros cli' id; unfold containers_of, names_of; simpl;
      (destruct (decide (cli' = cli)) as [->|Hne];
       [rewrite ?lookup_insert_eq|rewrite ?lookup_insert_ne by done]); simpl.
    + intros c [[<- <-]|[Hne Hl]]%lookup_insert_Some; [by rewrite lookup_insert_eq|].
      rewrite lookup_insert_ne by done. by apply Hc.
    + apply Hc.
    + intros nm. rewrite issued_S, elem_of_app. intros [[<- _]|[_ Hl%Hf]]%lookup_insert_Some; [right; by left|by left].
    + intros nm Hl%Hf. rewrite issued_S, elem_of_app. by left.
  - rewrite Hfresh. intros [[c (_ & Hc' & _)%Hc]|[? ?]]; congruence.
Qed.

#[local, refine] Instance world_engine : LiveEngine world := {|
  runnable img := img ≠ "broken"; serving _ _ _ := True;
|}.
Proof.
  - intros cli cfg w Hu Him Hn _. by apply create_up.
  - intros cli id w Hu Hin. unfold ContainerStart, world_docker, set_running.
    match goal with |- context [on_container _ _ ?f] => destruct (on_container_up cli id f w Hu Hin) as (c & Hc & ->) end.
    destruct (proj1 Hu _ _ _ Hc) as (_ & _ & Him%String.eqb_neq). rewrite Him. by eexists.
  - intros cli id w w1 j w2 _ Es Ei. unfold ContainerStart, ContainerInspect, world_docker, set_running, on_container in *.
    destruct (containers_of cli w !! id) as [c|]; [|done]. destruct (_ && _); [|done].
    destruct (_ && _); [done|]. injection Es as <-. unfold containers_of, set_containers in Ei. simpl in Ei.
    rewrite lookup_insert_eq in Ei. simpl in Ei. rewrite lookup_insert_eq in Ei. simpl in Ei. destruct (_ && _); [|done].
    injection Ei as <- _. simpl. split_and!; [done..|].
    intros net a [<- <-]%lookup_singleton_Some. done.
  - done.
  - by intros.
  - by intros.
  - intros cli id w. unfold wp, ContainerStart, world_docker, set_running, on_container.
    destruct (containers_of cli w !! id) as [c|] eqn:Hc; [|by intros ?]. destruct (_ && _); [|by intros ?].
    destruct (_ && _); [by intros ?|]. intros Hu. apply set_containers_up; [done|].
    intros id' c' [[<- <-]|[_ Hc']]%lookup_insert_Some; eauto.
  - intros url w. split; [by intros ?|done].
  - intros dev w. split; [by intros ?|done].
  - intros t w. split; [|done]. intros Hup; by apply (world_up_same w).
Defined.

Lemma w3_creatable : creatable nodes n2 "vol" st3 w3.
Proof.
  split.
  - intros b. assert (Hb : v_EngineImage <$> st_base st3 "vol" = Some "engine") by (vm_compute; reflexivity).
    intros E. rewrite E in Hb. injection Hb as ->. discriminate.
  - intros id. change (containers w3 (d_cli n2)) with (dom (containers_of "docker2" w3)).
    rewrite (proj2 w3_containers). by intros []%elem_of_empty.
Qed.

Lemma monitors_calm v : preserves calm (BeginMonitoring (E := world) (Mon := monitorChan) v).
Proof.
  cbn. unfold Monitor_begin. assert (Hg : ∀ v, preserves calm (controller_Get (W := world) v)).
  { intros v'. apply controller_Get_calm. intros h w. split; [by apply world_kept_same|by intros c]. }
  frees.
Qed.

Lemma not_here : ¬ controller_here n2 "vol" st3 w3.
Proof.
  intros (c & Ec & _ & Hh & _). assert (E : i_HostID ∘ c_Instance <$> st_ctrl st3 "vol" = Some "h1") by (vm_compute; reflexivity).
  rewrite Ec in E. injection E as E. cbn in E. rewrite Hh in E. discriminate E.
Qed.

Lemma w3_attachable : attachable (st_reps st3 "vol").
Proof.
  intros r x Hx. left. assert (Hm : map_Forall (λ _ y, good y = true) (st_reps st3 "vol")) by by_deciding.
  by apply (Hm r x).
Qed.

Lemma w3_good : has_good st3 "vol".
Proof. exists "r1", (mkReplica r1 "" ""). split; vm_compute; reflexivity. Qed.

Lemma attach_completes_witness :
  ∃ s' st', man_Attach (H := orc ps nodes n2) "vol" (man_New (Mon := monitorChan) w3) = (Ok tt, s') ∧
    controller_here n2 "vol" st' (m_env s') ∧ ∃ y, st_reps st' "vol" !! "r1" = Some y ∧ is_up (r_Instance y).
Proof.
  destruct (attach_completes ps nodes n2 (proj1 KVDemo.ps_ok) (proj2 KVDemo.ps_ok) nodes_named nodes_unique
              urls_differ bridged n2_node clients_apart clients_answer real_monitors_begin monitors_calm "vol"
              (man_New w3) st3 sys_w3 eq_refl vol_there eq_refl up_w3 w3_intact w3_creatable w3_attachable w3_good)
    as (s' & st' & E & _ & Hc & Hup).
  exists s', st'. split; [exact E|]. split; [exact Hc|]. destruct Hup as [Hhere|Hup].
  - destruct (not_here Hhere).
  - apply (Hup "r1" (mkReplica r1 "" "")); vm_compute; reflexivity.
Defined.
End AttachmentDemo.
