(* ===== verification/Startup.v ===== *)
(** * Starting the program

    [main.go] and the start-up of [orch/docker/docker.go]: what the flags give, the
    Docker orchestrator with its host registered in the store, the manager with the
    monitors of the volumes that are attached to this host, and the servers.  The library
    that parses the command line and the connections to etcd and Docker are parameters. *)

From stdpp Require Import base functions list gmap strings.
From Stdlib Require Import ZArith Lia Ascii.
From S2P Require Import Prelude GoStrings GoTime Json Types Util Codec Backend KVStore KVSpec KVVolumes Scheduler Docker World DockerSpec Cluster Records TaskQueue Controller Backups Retain Cron Manager ManagerSpec Lifecycle ManagerDemo Monitor Clients System.
Local Open Scope string_scope.
Local Open Scope list_scope.

(** ** The host *)

(** Files, environment and the random source of a host. *)
Class NodeOS (W : Type) := {
  os_Getenv : string → string → string;
  os_Hostname : string → M W string;
  ReadFile : string → string → M W string;
  MkdirAll : string → string → M W unit;
  WriteFile : string → string → string → M W unit;
  new_UUID : W → string * W;
}.

(** [client.New] of etcd for some servers, and [NewEnvClient] of Docker. *)
Class Connections (W : Type) := {
  eCli_New : list string → M W unit;
  NewEnvClient : string → M W unit;
}.

Section Host.
Context {W : Type} `{Backend W} `{DockerCli W} `{NodeOS W} `{MapOrder}.
Context (Prefix cli : string).

Definition getCurrentHost (address : string) : M W HostInfo :=
  name ← os_Hostname cli;
  uuid ← attempt (ReadFile cli hostUUIDFile);
  match uuid with
  | inl uuid => mret (mkHost uuid name address)
  | inr _ =>
    uuid ← (λ w, let '(u, w') := new_UUID w in (Ok u, w'));
    r ← attempt (MkdirAll cli cfgDirectory);
    match r with
    | inr _ => fail (Errorf "Fail to create configuration directory: %v")
    | inl _ =>
      r ← attempt (WriteFile cli hostUUIDFile uuid);
      match r with
      | inr _ => fail (Errorf "Fail to write host uuid file: %v")
      | inl _ => mret (mkHost uuid name address)
      end
    end
  end.

(** The network and the address of the manager's own container. *)
Definition updateNetwork (userSpecifiedNetwork : string) : M W (string * string) :=
  r ← attempt (ContainerInspect cli (os_Getenv cli "HOSTNAME"));
  match r with
  | inr _ => fail (Errorf "cannot find manager container, may not be running inside container")
  | inl inspectJSON =>
    let networks := cj_Networks inspectJSON in
    if decide (size networks = 0) then
      fail (Errorf "cannot find manager container's network")
    else if negb (String.eqb userSpecifiedNetwork "") then
      match networks !! userSpecifiedNetwork with
      | None => fail (Errorf "user specified network %v doesn't exist")
      | Some ip => mret (userSpecifiedNetwork, ip)
      end
    else if decide (1 < size networks) then
      fail (Errorf "found multiple networks for container %v, unable to decide which one to use, use --docker-network option to specify: %+v")
    else mret (foldl (λ _ kv, kv) ("", "") (range networks))
  end.

Definition Register (address : string) : M W HostInfo :=
  currentHost ← getCurrentHost address;
  SetHost Prefix currentHost;;
  mret currentHost.
End Host.

(** ** The orchestrator *)

Record dockerOrcConfig := mkOrcConfig {
  cfg_servers : list string;
  cfg_prefix : string;
  cfg_image : string;
  cfg_network : string;
}.

(** [cli.Context]: what the command line says. *)
Record Context := mkContext {
  c_Bool : string → bool;
  c_String : string → string;
  c_StringSlice : string → list string;
}.

Definition EngineImageParam : string := "engine-image".

Section Orchestrator.
Context {W : Type} `{Backend W} `{DockerCli W} `{NodeOS W} `{Connections W} `{MapOrder}.
Context (cli : string).

Definition NewETCDBackend (servers : list string) : M W (option (Backend W)) :=
  eCli_New servers;; mret (Some _).

(** The field [Prefix] of the store; its other field is the backend. *)
Definition NewKVStore (prefix : string) (backend : option (Backend W)) : outcome string :=
  match backend with
  | None => Err (Errorf "invalid empty backend")
  | Some _ => Ok prefix
  end.

Definition newDocker (cfg : dockerOrcConfig) : M W dockerOrc :=
  etcdBackend ← NewETCDBackend (cfg_servers cfg);
  Prefix ← lift (NewKVStore (cfg_prefix cfg) etcdBackend);
  wrap "cannot connect to docker" (NewEnvClient cli);;
  wrap "cannot pass test to get container list" (ContainerList cli);;
  net ← wrap "fail to detect dedicated container network: %v" (updateNetwork cli (cfg_network cfg));
  let address := net.2 +:+ ":" +:+ FormatInt DefaultPort in
  host ← Register Prefix cli address;
  mret (mkOrc (cfg_image cfg) net.1 net.2 host cli).

Definition docker_New (c : Context) : M W dockerOrc :=
  let servers := c_StringSlice c "etcd-servers" in
  match servers with
  | [] => fail (Errorf "Unspecified etcd servers")
  | _ => newDocker (mkOrcConfig servers (c_String c "etcd-prefix") (c_String c EngineImageParam)
                      (c_String c "docker-network"))
  end.
End Orchestrator.

(** ** The program *)

(** The flags of [main], with what they are when not given. *)
Inductive Flag : Type :=
| BoolFlag (name envVar : string)
| StringFlag (name value envVar : string)
| StringSliceFlag (name : string).

Definition app_Flags : list Flag :=
  [BoolFlag "debug, d" "RANCHER_DEBUG";
   StringFlag "orchestrator" "docker" "";
   StringFlag EngineImageParam "" "LONGHORN_ENGINE_IMAGE";
   StringSliceFlag "etcd-servers";
   StringFlag "etcd-prefix" "/longhorn" "";
   StringFlag "docker-network" "" ""].

Definition sockFile : string := "/var/run/longhorn/volume-manager.sock".

Inductive listener : Type := UnixServer (sockFile : string) | TCPServer (addr : string).

(** What runs once [RunManager] waits for a signal. *)
Record running_manager (W : Type) := mkRunning {
  ru_orc : dockerOrc;
  ru_man : volumeManager W monitorChan;
  ru_servers : list listener;
}.
Arguments mkRunning {W} _ _ _.
Arguments ru_orc {W} _.
Arguments ru_man {W} _.
Arguments ru_servers {W} _.

Section Program.
Context {W : Type} `{Backend W} `{DockerCli W} `{HostOS W} `{Clock W} `{HTTPClient W} `{MapOrder}.
Context `{NodeOS W} `{Connections W} `{Engine W} `{JsonText} `{Mapstructure} `{Clients W}.
Context (cli : string).

(** [manager.New(..)] and [Start]. *)
Definition start_manager (Prefix : string) (d : dockerOrc) : M W (volumeManager W monitorChan) := λ w,
  let '(o, s) := man_Start (H := docker_orchestrator Prefix d) (man_New w) in
  (match o with Ok _ => Ok s | Err e => Err e | Panic p => Panic p end, m_env s).

Definition RunManager (c : Context) : M W (running_manager W) :=
  if String.eqb (c_String c EngineImageParam) "" then fail (Errorf "Must specify %v")
  else
    orc ← (if String.eqb (c_String c "orchestrator") "docker" then docker_New cli c
           else fail (Errorf "Invalid orchestrator %v"));
    man ← start_manager (c_String c "etcd-prefix") orc;
    mret (mkRunning orc man [UnixServer sockFile; TCPServer (":" +:+ FormatInt DefaultPort)]).
End Program.

(** ** What a start leaves *)

(** The host is not the store or Docker; a UUID is a path component, and the file that
    keeps it holds one. *)
Class StartupSpec (W : Type) `{BackendSpec W} `{ContainerNames W} `{DockerCli W} `{NodeOS W} `{Connections W} := {
  list_free : ∀ cli, kv_free (ContainerList cli);
  hostname_free : ∀ cli, kv_free (os_Hostname cli);
  readfile_free : ∀ cli f, kv_free (ReadFile cli f);
  mkdir_free : ∀ cli f, kv_free (MkdirAll cli f);
  writefile_free : ∀ cli f x, kv_free (WriteFile cli f x);
  uuid_free : ∀ w, kv_frame w (new_UUID w).2;
  etcd_free : ∀ servers, kv_free (eCli_New servers);
  docker_free : ∀ cli, kv_free (NewEnvClient cli);
  uuid_simple : ∀ w : W, simple_name (new_UUID w).1 = true;
  uuid_file : ∀ cli (w : W) x w', ReadFile cli hostUUIDFile w = (Ok x, w') → simple_name x = true;
}.
#[export] Hint Resolve list_free hostname_free readfile_free mkdir_free writefile_free etcd_free
  docker_free : frame.

Section Started.
Context {W : Type} `{DockerSpec W} `{!NodeOS W} `{!Connections W} `{!StartupSpec W}.
Context `{!HTTPClient W} `{!Engine W} `{!Clients W} `{!ClientsSpec W} `{JsonText} `{Mapstructure} `{MapOrder}.
Context (ps : list string).
Hypothesis ps_nonempty : ps ≠ [].
Hypothesis ps_simple : Forall (λ n, simple_name n = true) ps.
Local Abbreviation Rel := (Rel ps).
Abbreviation man := (volumeManager W monitorChan).
Implicit Types (s : man) (st : store) (w : W) (v : VolumeInfo) (d : dockerOrc).

(** *** The host is registered *)

Lemma new_uuid_free : kv_free (λ w, let '(u, w') := new_UUID w in (Ok u, w')).
Proof. intros w. pose proof (uuid_free w). unfold wp. by destruct (new_UUID w). Qed.

Lemma getCurrentHost_free cli a : kv_free (getCurrentHost cli a).
Proof. pose proof new_uuid_free. unfold getCurrentHost. frees. Qed.

Lemma updateNetwork_free cli net : kv_free (updateNetwork cli net).
Proof. unfold updateNetwork. frees. Qed.

Lemma getCurrentHost_inv cli a w h w' :
  getCurrentHost cli a w = (Ok h, w') → h_Address h = a ∧ simple_name (h_UUID h) = true.
Proof.
  unfold getCurrentHost. intros E. apply bind_ok_inv in E as (name & w1 & _ & E).
  apply bind_ok_inv in E as ([u|e] & w2 & Ef & E).
  - injection E as <- _. split; [done|]. unfold attempt in Ef.
    destruct (ReadFile _ _ w1) as [[x| |] w3] eqn:Er; try discriminate Ef. injection Ef as -> _.
    by eapply uuid_file.
  - apply bind_ok_inv in E as (u & w3 & Eu & E). pose proof (uuid_simple w2) as Hu.
    destruct (new_UUID w2) as [x w4]. injection Eu as -> <-.
    apply bind_ok_inv in E as ([|] & w5 & _ & E); [|discriminate].
    apply bind_ok_inv in E as ([|] & w6 & _ & E); [|discriminate]. by injection E as <- _.
Qed.

Lemma newDocker_inv cli cfg w st d w' :
  Rel w st → cfg_prefix cfg = path ps → newDocker cli cfg w = (Ok d, w') →
  Rel w' (put_host (d_currentHost d) st) ∧ h_Address (d_currentHost d) = d_IP d +:+ ":9500".
Proof.
  intros Hr Hp E. unfold newDocker in E. rewrite Hp in E.
  apply bind_ok_inv in E as (b & w1 & E1 & E). apply bind_ok_inv in E1 as ([] & w1' & E1 & Eb).
  injection Eb as <- <-. pose proof (kv_free_rel ps _ _ _ _ _ (etcd_free _) Hr E1) as Hr1.
  apply bind_ok_inv in E as (prefix & w2 & Ek & E). injection Ek as <- <-.
  apply bind_ok_inv in E as ([] & w2 & E2 & E). apply wrap_ok_inv in E2.
  pose proof (kv_free_rel ps _ _ _ _ _ (docker_free _) Hr1 E2) as Hr2.
  apply bind_ok_inv in E as ([] & w3 & E3 & E). apply wrap_ok_inv in E3.
  pose proof (kv_free_rel ps _ _ _ _ _ (list_free _) Hr2 E3) as Hr3.
  apply bind_ok_inv in E as ([net ip] & w4 & E4 & E). apply wrap_ok_inv in E4.
  pose proof (kv_free_rel ps _ _ _ _ _ (updateNetwork_free _ _) Hr3 E4) as Hr4.
  apply bind_ok_inv in E as (host & w5 & Eg & E). injection E as <- <-. cbn.
  unfold Register in Eg. apply bind_ok_inv in Eg as (h & w6 & Eh & Eg).
  destruct (getCurrentHost_inv _ _ _ _ _ Eh) as [Ha Hu].
  pose proof (kv_free_rel ps _ _ _ _ _ (getCurrentHost_free _ _) Hr4 Eh) as Hr6.
  apply bind_ok_inv in Eg as ([] & w7 & Es & Eg). injection Eg as <- <-.
  pose proof (wp_elim _ _ _ _ _ (SetHost_spec ps ps_nonempty ps_simple h st w6 Hr6 Hu) Es) as [_ Hr7].
  by split.
Qed.

(** *** The volumes attached here are monitored *)

Section Manager.
Context (d : dockerOrc).
#[local] Instance started_orc : Orchestrator W := docker_orchestrator (path ps) d.

Definition keeps_monitors s s' : Prop := env_frame s s' ∧ m_monitors s' = m_monitors s.
#[local] Instance keeps_monitors_preorder : PreOrder keeps_monitors.
Proof.
  split; [intros s; by split|]. intros s1 s2 s3 [Ha1 E1] [Ha2 E2]. split; [by etrans|congruence].
Qed.

Lemma onE_keeps {A} (m : M W A) : kv_free m → preserves keeps_monitors (onE (Mon := monitorChan) m).
Proof.
  intros Hm s. specialize (Hm (m_env s)). unfold wp, onE, keeps_monitors, env_frame in *. by destruct (m (m_env s)).
Qed.

Lemma complete_keeps v s r s' :
  completeVolumeState v s = (Ok r, s') →
  keeps_monitors s s' ∧ v_Name r = v_Name v ∧ v_Controller r = v_Controller v.
Proof.
  unfold completeVolumeState. cbv zeta. case_match; [|by intros [= <- <-]].
  intros E. apply bind_ok_inv in E as (c & s1 & Eg & E).
  pose proof (wp_elim _ _ _ _ _ (onE_keeps _ (controller_Get_free _) s) Eg) as Hk1. cbn beta in Hk1.
  destruct c as [c|]; [|discriminate E]. apply onE_inv, controller_Get_client in Eg as [x ->]. apply bind_ok_inv in E as (c & s2 & Ec & E). injection Ec as <- <-.
  apply bind_ok_inv in E as (ep & s3 & Ee & E). injection E as <- <-.
  pose proof (wp_elim _ _ _ _ _ (onE_keeps _ (Endpoint_free _) s1) Ee) as Hk2. cbn beta in Hk2.
  split; [by etrans|done].
Qed.

Lemma complete_all_keeps vs s rs s' :
  complete_all vs s = (Ok rs, s') →
  keeps_monitors s s' ∧ Forall2 (λ r v, v_Name r = v_Name v ∧ v_Controller r = v_Controller v) rs vs.
Proof.
  revert s rs. induction vs as [|v vs IH]; intros s rs E; simpl in E; [by injection E as <- <-|].
  apply bind_ok_inv in E as (r & s1 & Ec & E). apply bind_ok_inv in E as (rs' & s2 & Ea & E).
  injection E as <- <-. destruct (complete_keeps _ _ _ _ Ec) as (Hk1 & Hr).
  destruct (IH _ _ Ea) as (Hk2 & Hrs). split; [by etrans|by constructor].
Qed.

(** A volume is among [vs], and its controller runs on this host. *)
Definition attached_in (vs : list VolumeInfo) (n : string) : Prop :=
  ∃ v, v ∈ vs ∧ v_Name v = n ∧ local_controller v = true.

Definition fresh_monitor (n : string) (mc : monitorChan) : Prop :=
  v_Name (mc_volume mc) = n ∧
  mc_cronCh mc = OpenChan ∧ mc_monitorCh mc = OpenChan ∧ mc_cleanupCh mc = OpenChan.

Lemma startMonitoring_here v s s' :
  startMonitoring v s = (Ok tt, s') →
  env_frame s s' ∧ ∀ n,
    (m_monitors s' !! n = m_monitors s !! n ∧ (n = v_Name v → is_Some (m_monitors s !! n))) ∨
    (n = v_Name v ∧ ∃ mc, m_monitors s' !! n = Some mc ∧ fresh_monitor n mc).
Proof.
  intros E. unfold startMonitoring in E. apply bind_ok_inv in E as (s0 & s1 & Eg & E). injection Eg as <- <-.
  destruct (m_monitors s !! v_Name v) as [mc|] eqn:Em.
  - injection E as <-. split; [reflexivity|]. intros n. left. split; [done|]. intros ->. eauto.
  - apply bind_ok_inv in E as (mon & s1 & Eb & E). apply bind_ok_inv in E as (s2 & s3 & Eg & E).
    injection Eg as <- <-. injection E as <-.
    pose proof (wp_elim _ _ _ _ _ (onE_keeps _ (Monitor_begin_free _) s) Eb) as [Hf Hm]. cbn beta in Hf, Hm.
    split; [exact Hf|]. intros n. simpl. rewrite Hm. destruct (decide (v_Name v = n)) as [<-|Hne].
    + right. rewrite lookup_insert_eq. split; [done|]. exists mon. split; [done|].
      apply onE_inv in Eb. simpl in Eb. unfold Monitor_begin in Eb.
      apply bind_ok_inv in Eb as (? & ? & _ & Eb). apply bind_ok_inv in Eb as (? & ? & _ & Eb).
      by injection Eb as <- _.
    + left. rewrite lookup_insert_ne by done. split; [done|]. congruence.
Qed.

Lemma monitor_attached vs s s' :
  m_monitors s = ∅ →
  mfor (λ v, if local_controller v then startMonitoring v else mret tt) vs s = (Ok tt, s') →
  env_frame s s' ∧
  ∀ n, (is_Some (m_monitors s' !! n) ↔ attached_in vs n) ∧
       ∀ mc, m_monitors s' !! n = Some mc → fresh_monitor n mc.
Proof.
  intros Hempty E.
  cut (∀ done rest s, vs = done ++ rest →
    (∀ n, (is_Some (m_monitors s !! n) ↔ attached_in done n) ∧
          ∀ mc, m_monitors s !! n = Some mc → fresh_monitor n mc) →
    mfor (λ v, if local_controller v then startMonitoring v else mret tt) rest s = (Ok tt, s') →
    env_frame s s' ∧
    ∀ n, (is_Some (m_monitors s' !! n) ↔ attached_in vs n) ∧
         ∀ mc, m_monitors s' !! n = Some mc → fresh_monitor n mc).
  { intros Hc. apply (Hc [] vs s); [done| |done]. intros n. rewrite Hempty, lookup_empty.
    split; [|done]. split; [by intros [??]|]. intros (v & []%elem_of_nil & _). }
  clear E Hempty s. intros past rest. revert past.
  induction rest as [|v rest IH]; intros past s -> Hinv E; simpl in E.
  - injection E as <-. rewrite app_nil_r. split; [reflexivity|done].
  - apply bind_ok_inv in E as ([] & s1 & E1 & E).
    assert (Hstep : env_frame s s1 ∧ ∀ n, (is_Some (m_monitors s1 !! n) ↔ attached_in (past ++ [v]) n) ∧
      ∀ mc, m_monitors s1 !! n = Some mc → fresh_monitor n mc).
    { assert (Hin : ∀ n, attached_in (past ++ [v]) n ↔
        attached_in past n ∨ (v_Name v = n ∧ local_controller v = true)).
      { intros n. unfold attached_in. setoid_rewrite elem_of_app. setoid_rewrite list_elem_of_singleton.
        naive_solver. }
      destruct (local_controller v) eqn:Hl.
      - destruct (startMonitoring_here _ _ _ E1) as [Hf Hm]. split; [done|]. intros n. rewrite Hin.
        destruct (Hinv n) as [Hi Hfr].
        destruct (Hm n) as [[Heq Hthere]|(-> & mc & Hmc & Hnew)].
        + rewrite Heq, Hi. split; [|done]. split; [auto|]. intros [?|[Hn _]]; [done|]. apply Hi. auto.
        + rewrite Hmc. split; [split; [auto|by eexists]|]. by intros mc' [= <-].
      - injection E1 as <-. split; [reflexivity|]. intros n. rewrite Hin. destruct (Hinv n) as [Hi Hfr].
        split; [|done]. rewrite Hi. naive_solver. }
    destruct Hstep as [Hf Hinv1]. destruct (IH (past ++ [v]) s1) as [Hf' Hall];
      [by rewrite <-app_assoc|done|done|]. split; [by etrans|]. done.
Qed.

(** [Start] on a store: every volume whose controller runs on this host, and no other. *)
Lemma start_manager_spec w st m w' :
  Rel w st → start_manager (path ps) d w = (Ok m, w') →
  Rel w' st ∧ m_env m = w' ∧
  ∀ n, (is_Some (m_monitors m !! n) ↔ ∃ v, vol_of st n = Some v ∧ local_controller v = true) ∧
       ∀ mc, m_monitors m !! n = Some mc → fresh_monitor n mc.
Proof.
  intros Hr E. unfold start_manager in E.
  destruct (man_Start (man_New w)) as [[[]| |] s] eqn:Es; try discriminate E. injection E as -> <-.
  unfold man_Start in Es. apply bind_ok_inv in Es as (vs & s1 & El & Es).
  unfold man_List in El. apply bind_ok_inv in El as (vols & s2 & El & Ec).
  unfold onE in El. destruct (oc_ListVolumes _) as [o w2] eqn:Ev. injection El as -> <-.
  change (ListVolumes (path ps) w = (Ok vols, w2)) in Ev.
  pose proof (wp_elim _ _ _ _ _ (ListVolumes_spec ps ps_nonempty ps_simple w st Hr) Ev)
    as (_ & Hr2 & names & _ & -> & Hall).
  destruct (complete_all_keeps _ _ _ _ Ec) as [[Hf1 Hm1] Hvs]. cbn in Hf1, Hm1.
  destruct (monitor_attached vs s1 m) as [Hf2 Hmon]; [exact Hm1|exact Es|]. split; [|split; [done|]].
  { destruct Hf1 as (Hv1 & Hd1 & _), Hf2 as (Hv2 & Hd2 & _).
    eapply Rel_frame; [eapply Rel_frame; [exact Hr2|done..]|done..]. }
  intros n. destruct (Hmon n) as [Hi Hfr]. split; [|exact Hfr]. rewrite Hi. unfold attached_in.
  pose proof (vol_of_name st) as Hname. pose proof (rel_wf _ _ _ Hr) as Hwf.
  assert (Hlocal : ∀ r v : VolumeInfo, v_Controller r = v_Controller v → local_controller r = local_controller v)
    by (intros r v Hc; unfold local_controller; by rewrite Hc). split.
  - intros (r & Hin & Hn & Hl). apply list_elem_of_lookup in Hin as [i Hi'].
    destruct (Forall2_lookup_l _ _ _ _ _ Hvs Hi') as (v & Hv & Hrn & Hrc).
    apply list_elem_of_lookup_2, list_elem_of_omap in Hv as (n' & _ & Hv).
    exists v. rewrite (Hname _ _ Hwf Hv) in Hrn. subst n'. rewrite <-Hn. split; [done|].
    by rewrite <-(Hlocal _ _ Hrc).
  - intros (v & Hv & Hl). assert (Hin : v ∈ omap (vol_of st) names).
    { apply list_elem_of_omap. exists n. split; [|done]. apply Hall. by eexists. }
    apply list_elem_of_lookup in Hin as [i Hi']. destruct (Forall2_lookup_r _ _ _ _ _ Hvs Hi') as (r & Hr' & Hrn & Hrc).
    exists r. split; [by eapply list_elem_of_lookup_2|]. rewrite Hrn, (Hlocal _ _ Hrc).
    split; [by apply (Hname _ _ Hwf)|done].
Qed.
End Manager.

(** C10: a program that is up has its host in the store, under the address the other hosts
    reach it at, and watches the volumes that the store says are attached to that host,
    all of them and no others: a restart loses no monitor, whatever ran before.  Nothing
    else of the store is different. *)
Theorem start_up_monitors_local c cli w st p w' :
  Rel w st → c_String c "etcd-prefix" = path ps → RunManager cli c w = (Ok p, w') →
  let host := d_currentHost (ru_orc p) in
  Rel w' (put_host host st) ∧ m_env (ru_man p) = w' ∧
  h_Address host = d_IP (ru_orc p) +:+ ":9500" ∧
  ∀ n,
    (is_Some (m_monitors (ru_man p) !! n) ↔
     ∃ v x, vol_of st n = Some v ∧ v_Controller v = Some x ∧
            i_Running (c_Instance x) = true ∧ i_HostID (c_Instance x) = h_UUID host) ∧
    ∀ mc, m_monitors (ru_man p) !! n = Some mc → fresh_monitor n mc.
Proof.
  intros Hr Hp E. unfold RunManager in E.
  destruct (String.eqb _ ""); [discriminate E|]. apply bind_ok_inv in E as (d & w1 & Ed & E).
  destruct (String.eqb _ "docker"); [|discriminate Ed].
  assert (Hd : ∃ cfg, cfg_prefix cfg = path ps ∧ newDocker cli cfg w = (Ok d, w1)).
  { unfold docker_New in Ed. destruct (c_StringSlice c "etcd-servers") as [|srv srvs]; [discriminate Ed|].
    eexists. split; [|exact Ed]. exact Hp. }
  destruct Hd as (cfg & Hcfg & Ed'). clear Ed.
  destruct (newDocker_inv _ _ _ _ _ _ Hr Hcfg Ed') as [Hr1 Ha].
  apply bind_ok_inv in E as (m & w2 & Em & E). injection E as <- <-. rewrite Hp in Em.
  destruct (start_manager_spec d w1 _ m w2 Hr1 Em) as (Hr2 & Henv & Hm). cbn [ru_orc ru_man].
  split; [exact Hr2|]. split; [exact Henv|]. split; [exact Ha|].
  intros n. destruct (Hm n) as [Hi Hfr]. split; [|exact Hfr]. rewrite Hi.
  unfold local_controller. split.
  - intros (v & Hv & Hl). exists v. destruct (v_Controller v) as [x|]; [|discriminate Hl].
    apply andb_prop in Hl as [Hrun Hl]. apply String.eqb_eq in Hl. by exists x.
  - intros (v & x & Hv & Hc & Hrun & Hh). exists v. split; [done|]. rewrite Hc, Hrun. by apply String.eqb_eq.
Qed.
End Started.

(** ** The property in the reference environment

    The program starts again on the first host of [SystemDemo], which has a controller. *)
Module StartupDemo.
Import ClusterDemo RecordsDemo SystemDemo.
#[local] Existing Instance list_order.
#[local] Existing Instances engine json_text mapstructure clients clients_spec.

#[local] Instance node_os : NodeOS world := {|
  os_Getenv _ name := if String.eqb name "HOSTNAME" then "c1" else "";
  os_Hostname _ := mret "one";
  ReadFile _ _ := mret "h1";
  MkdirAll _ _ := mret tt;
  WriteFile _ _ _ := mret tt;
  new_UUID w := ("h3", w);
|}.
#[local] Instance http : HTTPClient world := cluster_http (path ps) nodes.
#[local] Instance connections : Connections world := {| eCli_New _ := mret tt; NewEnvClient _ := mret tt |}.

Lemma mret_free {A} (x : A) : kv_free (mret x : M world A).
Proof. apply preserves_ret. apply _. Qed.

#[local] Instance startup_spec : StartupSpec world.
Proof.
  split; intros; try apply mret_free; [apply (reflexivity (R := kv_frame))|done|].
  match goal with E : _ = (Ok x, _) |- _ => injection E as <- _ end. reflexivity.
Qed.

(** A command line: what is given, and the flags' own values. *)
Definition flag_value (given : gmap string string) (name : string) : string :=
  default (foldr (λ f r, match f with
                         | StringFlag n value _ => if String.eqb n name then value else r
                         | _ => r
                         end) "" app_Flags) (given !! name).
Definition command_line : Context :=
  mkContext (λ _, false)
    (flag_value {[ EngineImageParam := "engine" ]})
    (λ _, ["http://etcd1:2379"]).

Definition started : outcome (running_manager world) * world := RunManager "docker1" command_line w3.

Lemma started_ok : ∃ p, started = (Ok p, started.2) ∧ h_UUID (d_currentHost (ru_orc p)) = "h1".
Proof. eexists. split; vm_compute; reflexivity. Qed.

Lemma start_up_monitors_local_witness :
  ∃ p, started = (Ok p, started.2) ∧ is_Some (m_monitors (ru_man p) !! "vol") ∧
       h_Address (d_currentHost (ru_orc p)) = d_IP (ru_orc p) +:+ ":9500".
Proof.
  destruct started_ok as (p & Hp & Hh). exists p.
  destruct (start_up_monitors_local ps (proj1 KVDemo.ps_ok) (proj2 KVDemo.ps_ok) command_line "docker1" w3 st3
              p started.2 (proj1 sys_w3) eq_refl Hp) as (_ & _ & Ha & Hm).
  split; [exact Hp|]. split; [|exact Ha]. apply Hm. eexists _, (mkController c1).
  split; [reflexivity|]. split; [reflexivity|]. split; [reflexivity|symmetry; exact Hh].
Defined.
End StartupDemo.
