(* ===== verification/Process.v ===== *)
(** * The process

    [main], [util/server] and [util/daemon]: the goroutines of the servers next to the
    main one, which waits for a signal, as a machine that takes a step whenever a call
    that blocks returns or a signal arrives; and how the process ends.  What the command
    line library makes of the arguments is the argument of [main]. *)

From stdpp Require Import base functions list gmap strings.
From Stdlib Require Import ZArith Lia Ascii.
From S2P Require Import Prelude GoStrings GoTime Json Types Util Codec Backend KVStore KVSpec KVVolumes Scheduler Docker World DockerSpec Cluster Records TaskQueue Controller Backups Retain Cron Manager ManagerSpec Lifecycle ManagerDemo Monitor Clients System Startup.
Local Open Scope string_scope.
Local Open Scope list_scope.

(** ** Servers *)

(** The call of [Serve] that a server is in: [os.MkdirAll], [sockets.NewUnixSocket], and
    [server.Serve] or [http.ListenAndServe]. *)
Inductive stage : Type := InMkdirAll | InNewUnixSocket | InServe.
#[export] Instance stage_eq_dec : EqDecision stage.
Proof. solve_decision. Defined.

Record server := mkServer { sv_listener : listener; sv_stage : stage }.

(** A server whose goroutine starts. *)
Definition serve (l : listener) : server :=
  match l with
  | UnixServer _ => mkServer l InMkdirAll
  | TCPServer _ => mkServer l InServe
  end.

(** [Serve] goes on when the call returns [err]: with the next call, or to [logrus.Fatalf]
    with a message. *)
Definition Serve_step (s : server) (err : option error) : server + string :=
  match sv_listener s, sv_stage s, err with
  | l, InMkdirAll, None => inl (mkServer l InNewUnixSocket)
  | _, InMkdirAll, Some _ => inr "error creating parent dir for '%s'"
  | l, InNewUnixSocket, None => inl (mkServer l InServe)
  | _, InNewUnixSocket, Some _ => inr "Failed opening unix socket '%s'"
  | UnixServer _, InServe, _ => inr "server.Serve returned error: %+v"
  | TCPServer _, InServe, _ => inr "http.ListenAndServe returned error: %+v"
  end.

(** ** The process *)

(** The signals the program handles. *)
Inductive signal : Type := SIGTERM | SIGINT.

(** The process exits with a status, or by a signal nobody has asked for. *)
Inductive ending : Type := Exit (status : Z) | Killed (s : signal).

(** The servers, and whether [signal.Notify] has been called. *)
Record running := mkRunningProcess { pr_servers : list server; pr_notified : bool }.

Inductive process : Type := Alive (r : running) | Ended (e : ending).

Inductive event : Type :=
| EvReturn (i : nat) (err : option error)   (* the call server i is in *)
| EvNotify
| EvSignal (s : signal).

(** One step.  [logrus.Fatalf] exits with status 1; a signal before [Notify] has its default
    effect; one after it makes [WaitForExit], [RunManager] and [main] return. *)
Inductive pstep : process → event → process → Prop :=
| PServe i err s s' r :
    pr_servers r !! i = Some s → Serve_step s err = inl s' →
    pstep (Alive r) (EvReturn i err) (Alive (mkRunningProcess (<[i:=s']> (pr_servers r)) (pr_notified r)))
| PFatal i err s msg r :
    pr_servers r !! i = Some s → Serve_step s err = inr msg →
    pstep (Alive r) (EvReturn i err) (Ended (Exit 1))
| PNotify r :
    pr_notified r = false → pstep (Alive r) EvNotify (Alive (mkRunningProcess (pr_servers r) true))
| PSignal sig r :
    pr_notified r = true → pstep (Alive r) (EvSignal sig) (Ended (Exit 0))
| PKilled sig r :
    pr_notified r = false → pstep (Alive r) (EvSignal sig) (Ended (Killed sig)).

Inductive executes : process → list event → process → Prop :=
| ExNil p : executes p [] p
| ExSnoc p es p' e p'' : executes p es p' → pstep p' e p'' → executes p (es ++ [e]) p''.

(** What [app.Run] makes of the arguments: it refuses them, it prints the help or the
    version and returns without an error, or it runs the action, [RunManager], which
    gets to the result [o] with the servers started. *)
Inductive command (W : Type) : Type :=
| BadUsage (e : error)
| Printed
| Ran (o : outcome (running_manager W)).
Arguments BadUsage {W} _. Arguments Printed {W}. Arguments Ran {W} _.

(** [main]: an error of [app.Run] is fatal, and a panic ends the process with status 2. *)
Definition main {W} (c : command W) : process :=
  match c with
  | Printed => Ended (Exit 0)
  | BadUsage _ | Ran (Err _) => Ended (Exit 1)
  | Ran (Panic _) => Ended (Exit 2)
  | Ran (Ok r) => Alive (mkRunningProcess (serve <$> ru_servers r) false)
  end.

(** The step as a function. *)
Definition process_step (p : process) (e : event) : option process :=
  match p, e with
  | Ended _, _ => None
  | Alive r, EvReturn i err =>
    s ← pr_servers r !! i;
    Some (match Serve_step s err with
          | inl s' => Alive (mkRunningProcess (<[i:=s']> (pr_servers r)) (pr_notified r))
          | inr _ => Ended (Exit 1)
          end)
  | Alive r, EvNotify => if pr_notified r then None else Some (Alive (mkRunningProcess (pr_servers r) true))
  | Alive r, EvSignal sig => Some (Ended (if pr_notified r then Exit 0 else Killed sig))
  end.

Lemma process_step_spec p e p' : process_step p e = Some p' ↔ pstep p e p'.
Proof.
  split.
  - destruct p as [r|], e as [i err| |sig]; simpl; try done.
    + destruct (pr_servers r !! i) as [s|] eqn:Es; [|done]. simpl.
      destruct (Serve_step s err) eqn:E; intros [= <-]; [by eapply PServe|by eapply PFatal].
    + destruct (pr_notified r) eqn:En; [done|]. intros [= <-]. by apply PNotify.
    + intros [= <-]. destruct (pr_notified r) eqn:En; by constructor.
  - intros []; simpl; repeat (match goal with E : _ = _ |- _ => rewrite E end; simpl); done.
Qed.

(** ** How it ends *)

(** The calls that have returned for server [i]. *)
Definition returned (i : nat) (es : list event) : list (option error) :=
  omap (λ e, match e with EvReturn j err => if decide (j = i) then Some err else None | _ => None end) es.

(** How far a server is whose calls have all returned without an error. *)
Definition stage_after (l : listener) (n : nat) : stage :=
  match l, n with
  | UnixServer _, 0 => InMkdirAll
  | UnixServer _, 1 => InNewUnixSocket
  | _, _ => InServe
  end.

(** The calls it takes a server to listen. *)
Definition calls_to_listen (l : listener) : nat := match l with UnixServer _ => 2 | TCPServer _ => 0 end.

Lemma returned_snoc i es e :
  returned i (es ++ [e]) = returned i es ++ match e with EvReturn j err => if decide (j = i) then [err] else [] | _ => [] end.
Proof.
  unfold returned. rewrite omap_app. f_equal. destruct e as [j err| |]; simpl; [|done..]. by case_decide.
Qed.

Section Ends.
Context {W : Type}.
Implicit Types (c : command W) (r : running_manager W).

(** No call of a server has failed, and none of the servers has stopped serving. *)
Definition in_service r (es : list event) : Prop := ∀ i l, ru_servers r !! i = Some l →
  Forall (λ err, err = None) (returned i es) ∧ (List.length (returned i es) ≤ calls_to_listen l)%nat.

(** What is so after the events [es]. *)
Definition after_events c (es : list event) (p : process) : Prop :=
  match p with
  | Alive r' => ∃ r, c = Ran (Ok r) ∧ in_service r es ∧ (pr_notified r' = true ↔ EvNotify ∈ es) ∧
      (∀ sig, EvSignal sig ∉ es) ∧ List.length (pr_servers r') = List.length (ru_servers r) ∧
      ∀ i l, ru_servers r !! i = Some l →
        pr_servers r' !! i = Some (mkServer l (stage_after l (List.length (returned i es))))
  | Ended (Exit status) =>
      (es = [] ∧ ((status = 0%Z ∧ c = Printed) ∨ (status = 1%Z ∧ ∃ e, c = BadUsage e ∨ c = Ran (Err e)) ∨
                  (status = 2%Z ∧ ∃ p, c = Ran (Panic p)))) ∨
      ∃ r es' e, c = Ran (Ok r) ∧ es = es' ++ [e] ∧ in_service r es' ∧ (∀ sig, EvSignal sig ∉ es') ∧
        match e with
        | EvSignal _ => status = 0%Z ∧ EvNotify ∈ es'
        | EvReturn i err => status = 1%Z ∧ ∃ l, ru_servers r !! i = Some l ∧
            (is_Some err ∨ List.length (returned i es') = calls_to_listen l)
        | EvNotify => False
        end
  | Ended (Killed sig) => ∃ r es', c = Ran (Ok r) ∧ es = es' ++ [EvSignal sig] ∧ in_service r es' ∧ EvNotify ∉ es'
  end.

Lemma serve_after l n err :
  (n ≤ calls_to_listen l)%nat →
  match Serve_step (mkServer l (stage_after l n)) err with
  | inl s' => err = None ∧ (S n ≤ calls_to_listen l)%nat ∧ s' = mkServer l (stage_after l (S n))
  | inr _ => is_Some err ∨ n = calls_to_listen l
  end.
Proof.
  intros Hn. destruct l as [f|a]; simpl in *.
  - destruct n as [|[|n]]; destruct err; simpl; try (by left; eexists); try done.
    all: try (split_and!; [done|lia|done]). right. lia.
  - destruct err; [left; by eexists|right; lia].
Qed.

Lemma after_step c es p e p' :
  after_events c es p → pstep p e p' → after_events c (es ++ [e]) p'.
Proof.
  intros IH Hs. destruct Hs as [i err s s' r Hi E|i err s msg r Hi E|r En|sig r En|sig r En];
  destruct IH as (r0 & Ho & Hin & Hn & Hsig & Hlen & Hst).
  all: try (destruct (lookup_lt_is_Some_2 (ru_servers r0) i) as [l Hl];
    [rewrite <-Hlen; by eapply lookup_lt_Some|]; pose proof (Hst i l Hl) as Hi'; rewrite Hi in Hi'; injection Hi' as ->;
    destruct (Hin i l Hl) as [Hall Hle]; pose proof (serve_after l _ err Hle) as Hsv; rewrite E in Hsv).
  - destruct Hsv as (-> & Hle' & ->). exists r0. split_and!; [done| | | | |].
    + intros j l' Hl'. rewrite returned_snoc. destruct (Hin j l' Hl') as [Hj Hjle]. case_decide as Hij.
      * subst j. simplify_eq. rewrite Forall_app, length_app, Forall_singleton. simpl. split; [done|lia].
      * by rewrite app_nil_r.
    + simpl. rewrite elem_of_app, list_elem_of_singleton. rewrite Hn. split; [by left|by intros [?|?]].
    + intros sig. rewrite elem_of_app, list_elem_of_singleton. intros [?|?]; [by eapply Hsig|done].
    + simpl. by rewrite length_insert.
    + intros j l' Hl'. simpl. rewrite returned_snoc. case_decide as Hij.
      * subst j. simplify_eq. rewrite length_app, Nat.add_comm. rewrite list_lookup_insert_eq; [done|].
         by eapply lookup_lt_Some.
      * rewrite app_nil_r, list_lookup_insert_ne by done. by apply Hst.
  - right. exists r0, es, (EvReturn i err). split_and!; [done..|]. by exists l.
  - exists r0. split_and!; [done| | | |done|].
    + intros j l' Hl'. rewrite returned_snoc, app_nil_r. by apply Hin.
    + simpl. split; [|done]. intros _. apply elem_of_app. right. by apply list_elem_of_singleton.
    + intros sig. rewrite elem_of_app, list_elem_of_singleton. intros [?|?]; [by eapply Hsig|done].
    + intros j l' Hl'. rewrite returned_snoc, app_nil_r. by apply Hst.
  - right. exists r0, es, (EvSignal sig). split_and!; [done..|]. by apply Hn.
  - exists r0, es. split_and!; [done..|]. intros ?%Hn. congruence.
Qed.

End Ends.

(** ** The property at a concrete run

    The program of [StartupDemo] comes up, and is stopped. *)
Fixpoint process_run (p : process) (es : list event) : option process :=
  match es with [] => Some p | e :: es' => p' ← process_step p e; process_run p' es' end.

Lemma executes_app p es p' es' p'' : executes p es p' → executes p' es' p'' → executes p (es ++ es') p''.
Proof.
  intros H1 H2. induction H2 as [|p1 es1 p2 e p3 _ IH Hs]; [by rewrite app_nil_r|].
  rewrite app_assoc. eapply ExSnoc; [by apply IH|done].
Qed.

Lemma process_run_spec p es p' : process_run p es = Some p' → executes p es p'.
Proof.
  revert p. induction es as [|e es IH]; intros p; simpl; [intros [= <-]; constructor|].
  destruct (process_step p e) as [p1|] eqn:E; [|done]. simpl. intros Hr%IH.
  apply (executes_app p [e] p1); [|done]. apply (ExSnoc p [] p e p1); [constructor|by apply process_step_spec].
Qed.

Module ProcessDemo.
Import StartupDemo.

Definition events : list event := [EvReturn 0 None; EvNotify; EvReturn 0 None; EvSignal SIGTERM].

Lemma stopped : process_run (main (Ran started.1)) events = Some (Ended (Exit 0)).
Proof. vm_compute. reflexivity. Qed.

End ProcessDemo.
