(* ===== verification/Resources.v ===== *)
(** * The resources of the API

    [api/model.go]: what the API shows of volumes, snapshots, backups, hosts, settings
    and tasks, with the actions it offers; and the input that creates a volume
    ([api/volume.go]). *)

From stdpp Require Import base list gmap strings.
From Stdlib Require Import ZArith Lia Ascii.
From S2P Require Import Prelude GoStrings GoTime Json Types Util TaskQueue.
Local Open Scope string_scope.
Local Open Scope list_scope.

(** The fields of [client.Resource] the code sets. *)
Record Resource := mkResource {
  rs_Id : string;
  rs_Type : string;
  rs_Actions : gmap string string;
}.

(** [apiContext.UrlBuilder]. *)
Class UrlBuilder := {
  ActionLink : Resource → string → string;
  CollectionLink : string → string;
}.

(** ** The types of the API *)

Record api_Instance := mkApiInstance { ai_HostID : string; ai_Address : string; ai_Running : bool }.

Record api_Replica := mkApiReplica {
  ar_Instance : api_Instance;
  ar_Name : string;
  ar_Mode : string;
  ar_BadTimestamp : string;
}.

Record api_Volume := mkApiVolume {
  av_Resource : Resource;
  av_Name : string;
  av_Size : string;
  av_BaseImage : string;
  av_FromBackup : string;
  av_NumberOfReplicas : Z;
  av_StaleReplicaTimeout : Z;
  av_State : string;
  av_EngineImage : string;
  av_Endpoint : string;
  av_Created : string;
  av_RecurringJobs : list RecurringJob;
  av_Replicas : list api_Replica;
  av_Controller : option api_Instance;
}.

Record api_Snapshot := mkApiSnapshot { as_Resource : Resource; as_Info : SnapshotInfo }.
Record api_Host := mkApiHost {
  ah_Resource : Resource; ah_UUID : string; ah_Name : string; ah_Address : string }.
Record api_BackupVolume := mkApiBackupVolume { abv_Resource : Resource; abv_Info : BackupVolumeInfo }.
Record api_Backup := mkApiBackup { ab_Resource : Resource; ab_Info : BackupInfo }.
Record api_Setting := mkApiSetting { ast_Resource : Resource; ast_Name : string; ast_Value : string }.
Record api_BgTask (W : Type) := mkApiTask { at_Resource : Resource; at_Task : BgTask W }.
Arguments mkApiTask {W} _ _.
Arguments at_Resource {W} _.
Arguments at_Task {W} _.

Record AttachInput := mkAttachInput { in_HostID : string }.
Record SnapshotInput := mkSnapshotInput { si_Name : string; si_Labels : gmap string string }.
Record BackupInput := mkBackupInput { bi_Name : string }.
Record RecurringInput := mkRecurringInput { ri_Jobs : list RecurringJob }.
Record ReplicaRemoveInput := mkReplicaRemoveInput { rr_Name : string }.

(** ** From the data model *)

Definition toSettingResource (name value : string) : api_Setting :=
  mkApiSetting (mkResource name "setting" ∅) name value.

Definition toSettingCollection (settings : SettingsInfo) : list api_Setting :=
  [toSettingResource "backupTarget" (si_BackupTarget settings);
   toSettingResource "engineImage" (si_EngineImage settings)].

(** The actions a volume in a state has. *)
Definition attached_actions : list string :=
  ["detach"; "snapshotPurge"; "snapshotCreate"; "snapshotList"; "snapshotGet"; "snapshotDelete";
   "snapshotRevert"; "snapshotBackup"; "recurringUpdate"; "bgTaskQueue"; "replicaRemove"].
Definition state_actions (state : string) : list string :=
  if String.eqb state VolumeStateDetached then ["attach"; "recurringUpdate"; "replicaRemove"]
  else if String.eqb state VolumeStateHealthy then attached_actions
  else if String.eqb state VolumeStateDegraded then attached_actions
  else if String.eqb state VolumeStateCreated then ["recurringUpdate"]
  else [].

Section ToResources.
Context `{MapOrder} `{UrlBuilder}.

(** The mode of a replica is shown while it runs. *)
Definition toReplicaResource (r : ReplicaInfo) : api_Replica :=
  mkApiReplica
    (mkApiInstance (i_HostID (r_Instance r)) (i_Address (r_Instance r)) (r_Running r))
    (r_Name r) (if r_Running r then r_Mode r else "") (r_BadTimestamp r).

Definition toVolumeResource (v : VolumeInfo) : api_Volume :=
  let res := mkResource (v_Name v) "volume" ∅ in
  mkApiVolume
    (mkResource (v_Name v) "volume"
       (list_to_map ((λ a, (a, ActionLink res a)) <$> state_actions (v_State v))))
    (v_Name v) (FormatInt (v_Size v)) (v_BaseImage v) (v_FromBackup v) (v_NumberOfReplicas v)
    (Z.quot (v_StaleReplicaTimeout v) Minute) (v_State v) (v_EngineImage v) (v_Endpoint v)
    (v_Created v) (v_RecurringJobs v)
    (toReplicaResource <$> (range (replicas_of v)).*2)
    ((λ c, mkApiInstance (i_HostID (c_Instance c)) (i_Address (c_Instance c)) (i_Running (c_Instance c)))
       <$> v_Controller v).

(** A nil snapshot is only warned about. *)
Definition toSnapshotResource (s : option SnapshotInfo) : option api_Snapshot :=
  (λ s, mkApiSnapshot (mkResource (sn_Name s) "snapshot" ∅) s) <$> s.
Definition toSnapshotCollection (ss : list (option SnapshotInfo)) : list (option api_Snapshot) :=
  toSnapshotResource <$> ss.

Definition toBgTaskRes {W} (t : BgTask W) : api_BgTask W :=
  mkApiTask (mkResource (FormatInt (bg_Num t)) "bgTask" ∅) t.
Definition toBgTaskCollection {W} (ts : list (BgTask W)) : list (api_BgTask W) := toBgTaskRes <$> ts.

(** A nil host panics. *)
Definition toHostResource (h : option HostInfo) : outcome api_Host :=
  match h with
  | None => Panic "nil pointer dereference"
  | Some h => Ok (mkApiHost (mkResource (h_UUID h) "host" ∅) (h_UUID h) (h_Name h) (h_Address h))
  end.
Definition host_resource (h : HostInfo) : api_Host :=
  mkApiHost (mkResource (h_UUID h) "host" ∅) (h_UUID h) (h_Name h) (h_Address h).
Definition toHostCollection (hosts : gmap string HostInfo) : list api_Host :=
  host_resource <$> (range hosts).*2.

(** A nil backup volume and a nil backup are only warned about. *)
Definition backup_volume_resource (bv : BackupVolumeInfo) : api_BackupVolume :=
  let res := mkResource (bv_Name bv) "backupVolume" ∅ in
  mkApiBackupVolume
    (mkResource (bv_Name bv) "backupVolume"
       (list_to_map ((λ a, (a, ActionLink res a)) <$> ["backupList"; "backupGet"; "backupDelete"]))) bv.
Definition toBackupVolumeResource (bv : option BackupVolumeInfo) : option api_BackupVolume :=
  backup_volume_resource <$> bv.
Definition toBackupVolumeCollection (bvs : list (option BackupVolumeInfo)) : list (option api_BackupVolume) :=
  toBackupVolumeResource <$> bvs.

Definition toBackupResource (b : option BackupInfo) : option api_Backup :=
  (λ b, mkApiBackup (mkResource (b_Name b) "backup" ∅) b) <$> b.
Definition toBackupCollection (bs : list (option BackupInfo)) : list (option api_Backup) :=
  toBackupResource <$> bs.
End ToResources.

(** ** The input that creates a volume *)

(** [time.Duration(n) * time.Minute] wraps around. *)
Definition filterCreateVolumeInput `{Units} (v : api_Volume) : outcome VolumeInfo :=
  match ConvertSize (SizeString (av_Size v)) with
  | Ok size =>
    Ok (mkVolume (av_Name v) (RoundUpSize size) (av_BaseImage v) (av_FromBackup v)
          (av_NumberOfReplicas v) (wrap64 (av_StaleReplicaTimeout v * Minute)) None None "" "" "" "" [])
  | Err e => Err (Wrapf e "error converting size '%s'")
  | Panic s => Panic s
  end.
