(* ===== verification/Api.v ===== *)
(** * The HTTP API

    [api/impl.go], [api/volume.go], [api/snapshot.go], [api/backup.go],
    [api/settings.go], [api/host.go], [api/internal.go] and the table of [api/api.go]: the
    handlers over the manager, and the forwarding of a request to the host that holds the
    volume.  The internal handler is over any orchestrator that may have a scheduler;
    [Cluster] has it over the Docker orchestrators.  Routing by pattern, the decoding of
    bodies and the writing of responses are of the libraries: a handler gets the variables
    of the route and the decoded input, and returns what it writes. *)

From stdpp Require Import base list gmap strings.
From Stdlib Require Import ZArith Lia Ascii.
From S2P Require Import Prelude GoStrings GoTime Json Types Util Scheduler TaskQueue Controller Backups Retain Cron Manager Resources.
Local Open Scope string_scope.
Local Open Scope list_scope.

(** ** Requests and responses *)

Record Request := mkRequest {
  rq_Host : string;
  rq_vars : gmap string string;         (* mux.Vars *)
  rq_Body : string;
}.
Definition var (key : string) (req : Request) : string := default "" (rq_vars req !! key).

(** [util.CopyReq]: the request and its copy can both be read from the start. *)
Definition CopyReq (req : Request) : Request * Request :=
  let buf := rq_Body req in
  (mkRequest (rq_Host req) (rq_vars req) buf, mkRequest (rq_Host req) (rq_vars req) buf).

(** [apiContext.Read] and the JSON decoder on the inputs of the handlers. *)
Class Reader := {
  read_AttachInput : string → outcome AttachInput;
  read_Volume : string → outcome api_Volume;
  read_RecurringInput : string → outcome RecurringInput;
  read_ReplicaRemoveInput : string → outcome ReplicaRemoveInput;
  read_SnapshotInput : string → outcome SnapshotInput;
  read_BackupInput : string → outcome BackupInput;
  read_Setting : string → outcome api_Setting;
  read_ScheduleInput : string → outcome ScheduleInput;
}.

(** What a handler writes; an error it returns is written by [HandleError]. *)
Inductive response (W : Type) : Type :=
| WVolumes (l : list api_Volume)
| WVolume (v : api_Volume)
| WEmpty
| WNotFound (* status 404 *)
| WTasks (l : list (api_BgTask W))
| WSnapshot (s : option api_Snapshot)
| WSnapshots (l : list (option api_Snapshot))
| WBackupVolumes (l : list (option api_BackupVolume))
| WBackupVolume (b : option api_BackupVolume)
| WBackups (l : list (option api_Backup))
| WBackup (b : option api_Backup)
| WHosts (l : list api_Host)
| WHost (h : api_Host)
| WSettings (l : list api_Setting)
| WSetting (s : api_Setting)
| WScheduled (o : ScheduleOutput)
| WNothing
| WForwarded (host : string). (* proxied *)
Arguments WVolumes {W} _. Arguments WVolume {W} _. Arguments WEmpty {W}. Arguments WNotFound {W}.
Arguments WTasks {W} _. Arguments WSnapshot {W} _. Arguments WSnapshots {W} _.
Arguments WBackupVolumes {W} _. Arguments WBackupVolume {W} _. Arguments WBackups {W} _.
Arguments WBackup {W} _. Arguments WHosts {W} _. Arguments WHost {W} _. Arguments WSettings {W} _.
Arguments WSetting {W} _. Arguments WScheduled {W} _. Arguments WNothing {W}. Arguments WForwarded {W} _.

(** ** Forwarding *)

(** [types.ServiceLocator]. *)
Record ServiceLocator (S : Type) := mkLocator {
  sl_GetCurrentHostID : string;
  sl_GetAddress : string → M S string;
}.
Arguments sl_GetCurrentHostID {S} _.
Arguments sl_GetAddress {S} _ _.

Section Forward.
Context {S R : Type}.

(** [Fwd.Handler]. *)
Definition fwd_Handler (sl : ServiceLocator S) (forwarded : string → R)
    (getHostID : Request → M S string) (h : Request → M S R) (req : Request) : M S R :=
  let '(req, copy) := CopyReq req in
  hostID ← wrap "fail to get host ID" (getHostID copy);
  if negb (String.eqb hostID "") && negb (String.eqb hostID (sl_GetCurrentHostID sl)) then
    targetHost ← wrap "cannot find host %v" (sl_GetAddress sl hostID);
    if negb (String.eqb targetHost (rq_Host req)) then mret (forwarded targetHost)
    else h req
  else h req.
End Forward.

(** [types.Orchestrator.Scheduler], nil when it is not supported, by the [Process] of the
    scheduler. *)
Class ScheduledOrchestrator (W : Type) := {
  oc_Scheduler : option (ScheduleSpec → ScheduleItem → M W InstanceInfo);
}.

Section Api.
Context {E Mon : Type} `{Orchestrator E} `{ManagerDeps E Mon} `{Clock E} `{Random E}.
Context `{MapOrder} `{GoSched} `{CronSpec} `{UrlBuilder} `{Reader} `{Units} `{ScheduledOrchestrator E}.
Abbreviation MM := (M (volumeManager E Mon)).
Abbreviation resp := (response E).
Implicit Types (req : Request).

(** The host that a request is for. *)
Definition HostIDFromAttachReq req : MM string :=
  attachInput ← wrap "error parsing request body" (lift (read_AttachInput (rq_Body req)));
  mret (in_HostID attachInput).

Definition HostIDFromVolume req : MM string :=
  volume ← wrap "error getting volume '%s'" (man_Get (var "name" req));
  mret (match volume with
        | None => ""
        | Some v => match v_Controller v with
                    | None => ""
                    | Some c => if i_Running (c_Instance c) then i_HostID (c_Instance c) else ""
                    end
        end).

Definition locator : ServiceLocator (volumeManager E Mon) :=
  mkLocator _ oc_GetCurrentHostID (λ id, onE (oc_GetAddress id)).

(** ** Volumes *)

Definition ListVolume req : MM resp :=
  volumes ← wrap "unable to list" man_List;
  mret (WVolumes (toVolumeResource <$> volumes)).

Definition api_GetVolume req : MM resp :=
  v ← wrap "unable to get volume" (man_Get (var "name" req));
  mret (match v with
        | None => WNotFound
        | Some v => WVolume (toVolumeResource v)
        end).

Definition api_UpdateRecurring req : MM resp :=
  recurring ← wrap "unable to parse recurring schedule for update"
    (lift (read_RecurringInput (rq_Body req)));
  wrap "unable to update volume recurring schedule"
    (Manager.UpdateRecurring (var "name" req) (ri_Jobs recurring));;
  api_GetVolume req.

Definition api_BgTaskQueue req : MM resp :=
  controller ← wrap "unable to get VolumeBackupOps for volume '%s'" (man_Controller (var "name" req));
  controller ← deref controller;
  latest ← onE (ct_LatestBgTasks controller);
  queued ← onE (ct_ListTasks controller);
  mret (WTasks (toBgTaskCollection (latest ++ queued))).

Definition api_DeleteVolume req : MM resp :=
  wrap "unable to delete volume" (man_Delete (var "name" req));;
  mret WNothing.

Definition api_CreateVolume req : MM resp :=
  v ← lift (read_Volume (rq_Body req));
  volume ← wrap "unable to filter create volume input" (lift (filterCreateVolumeInput v));
  volumeResp ← wrap "unable to create volume" (man_Create volume);
  volumeResp ← deref volumeResp;
  mret (WVolume (toVolumeResource volumeResp)).

Definition AttachVolume req : MM resp :=
  wrap "unable to attach volume" (man_Attach (var "name" req));;
  api_GetVolume req.

Definition DetachVolume req : MM resp :=
  wrap "unable to detach volume" (man_Detach (var "name" req));;
  api_GetVolume req.

Definition api_ReplicaRemove req : MM resp :=
  input ← wrap "error read replicaRemoveInput" (lift (read_ReplicaRemoveInput (rq_Body req)));
  wrap "unable to remove replica" (Manager.ReplicaRemove (var "name" req) (rr_Name input));;
  api_GetVolume req.

(** ** Snapshots *)

Definition snap_ops (volName : string) : MM (SnapshotOps E) :=
  if String.eqb volName "" then fail (Errorf "volume name required")
  else wrap "error getting SnapshotOps for volume '%s'" (man_SnapshotOps volName).

Definition read_named (req : Request) : MM SnapshotInput :=
  input ← wrap "error read snapshotInput" (lift (read_SnapshotInput (rq_Body req)));
  if String.eqb (si_Name input) "" then fail (Errorf "empty snapshot name not allowed")
  else mret input.

(** The tail of the handlers: the snapshot is read back and written. *)
Definition write_snapshot (missing : string) (ops : SnapshotOps E) (name : string) : MM resp :=
  snap ← wrap "error getting snapshot '%s', for volume '%s'" (onE (sn_Get ops name));
  match snap with
  | None => fail (Errorf missing)
  | Some _ => mret (WSnapshot (toSnapshotResource snap))
  end.

Definition label_ok (kv : string * string) : bool :=
  negb (Contains "=" kv.1 || Contains "=" kv.2).

Definition sh_Create req : MM resp :=
  input ← wrap "error read snapshotInput" (lift (read_SnapshotInput (rq_Body req)));
  if negb (forallb label_ok (range (si_Labels input))) then
    fail (Errorf "labels cannot contain '='")
  else
    ops ← snap_ops (var "name" req);
    snapName ← wrap "error creating snapshot '%s', for volume '%s'"
      (onE (sn_Create ops (si_Name input) (si_Labels input)));
    write_snapshot "not found just created snapshot '%s', for volume '%s'" ops snapName.

Definition sh_List req : MM resp :=
  ops ← snap_ops (var "name" req);
  l ← wrap "error listing snapshots, for volume '%+v'" (onE (sn_List ops));
  mret (WSnapshots (toSnapshotCollection l)).

Definition sh_Get req : MM resp :=
  input ← read_named req;
  ops ← snap_ops (var "name" req);
  write_snapshot "not found snapshot '%s', for volume '%s'" ops (si_Name input).

Definition sh_Delete req : MM resp :=
  input ← read_named req;
  ops ← snap_ops (var "name" req);
  wrap "error deleting snapshot '%+v', for volume '%+v'" (onE (sn_Delete ops (si_Name input)));;
  write_snapshot "not found snapshot '%s', for volume '%s'" ops (si_Name input).

Definition sh_Revert req : MM resp :=
  input ← read_named req;
  ops ← snap_ops (var "name" req);
  wrap "error reverting to snapshot '%+v', for volume '%+v'" (onE (sn_Revert ops (si_Name input)));;
  write_snapshot "not found snapshot '%s', for volume '%s'" ops (si_Name input).

(** The backup target, without which the handlers of backups do nothing. *)
Definition backup_target : MM string :=
  r ← attempt (onE oc_GetSettings);
  match r with
  | inr _ => fail (Errorf "cannot backup: unable to read settings")
  | inl settings =>
    if String.eqb (si_BackupTarget settings) "" then fail (Errorf "cannot backup: backupTarget not set")
    else mret (si_BackupTarget settings)
  end.

Definition sh_Backup req : MM resp :=
  input ← read_named req;
  let volName := var "name" req in
  if String.eqb volName "" then fail (Errorf "volume name required")
  else
    backupTarget ← backup_target;
    backups ← wrap "error getting VolumeBackupOps for volume '%s'" (man_VolumeBackupOps volName);
    wrap "error creating backup: snapshot '%s', volume '%s', dest '%s'"
      (onE (vb_StartBackup backups (si_Name input) backupTarget));;
    mret WEmpty.

Definition sh_Purge req : MM resp :=
  ops ← snap_ops (var "name" req);
  wrap "error purging snapshots, for volume '%+v'" (onE (sn_Purge ops));;
  mret WEmpty.

(** ** Backups *)

Definition bh_ListVolume req : MM resp :=
  backupTarget ← backup_target;
  volumes ← wrap "error listing backups, backupTarget '%s'"
    (onE (mb_ListVolumes (man_ManagerBackupOps backupTarget)));
  mret (WBackupVolumes (toBackupVolumeCollection (Some <$> volumes))).

Definition bh_GetVolume req : MM resp :=
  backupTarget ← backup_target;
  bv ← wrap "error get backup volume, backupTarget '%s', volume '%s'"
    (onE (mb_GetVolume (man_ManagerBackupOps backupTarget) (var "volName" req)));
  mret (WBackupVolume (toBackupVolumeResource (Some bv))).

Definition bh_List req : MM resp :=
  backupTarget ← backup_target;
  bs ← wrap "error listing backups, backupTarget '%s', volume '%s'"
    (onE (mb_List (man_ManagerBackupOps backupTarget) (var "volName" req)));
  mret (WBackups (toBackupCollection (Some <$> bs))).

Definition backupURL (backupTarget backupName volName : string) : string :=
  backupTarget +:+ "?backup=" +:+ backupName +:+ "&volume=" +:+ volName.

Definition read_backup req : MM BackupInput :=
  input ← lift (read_BackupInput (rq_Body req));
  if String.eqb (bi_Name input) "" then fail (Errorf "empty backup name is not allowed")
  else mret input.

Definition bh_Get req : MM resp :=
  input ← read_backup req;
  backupTarget ← backup_target;
  let url := backupURL backupTarget (bi_Name input) (var "volName" req) in
  backup ← wrap "error getting backup '%s'" (onE (mb_Get (man_ManagerBackupOps backupTarget) url));
  mret (match backup with
        | None => WNotFound
        | Some b => WBackup (toBackupResource (Some b))
        end).

Definition bh_Delete req : MM resp :=
  input ← read_backup req;
  backupTarget ← backup_target;
  let url := backupURL backupTarget (bi_Name input) (var "volName" req) in
  wrap "error deleting backup '%s'" (onE (mb_Delete (man_ManagerBackupOps backupTarget) url));;
  mret WEmpty.

(** ** Settings and hosts *)

Definition settings_List req : MM resp :=
  si ← wrap "fail to read settings" (onE oc_GetSettings);
  mret (WSettings (toSettingCollection si)).

Definition settings_Get req : MM resp :=
  let name := var "name" req in
  si ← wrap "fail to read settings" (onE oc_GetSettings);
  if String.eqb name "backupTarget" then mret (WSetting (toSettingResource name (si_BackupTarget si)))
  else if String.eqb name "engineImage" then mret (WSetting (toSettingResource name (si_EngineImage si)))
  else fail (Errorf "invalid setting name %v").

(** For any other name the nil error is wrapped: nothing is written, and no error. *)
Definition settings_Set req : MM resp :=
  setting ← lift (read_Setting (rq_Body req));
  let name := var "name" req in
  let value := ast_Value setting in
  si ← wrap "fail to read settings" (onE oc_GetSettings);
  let store si :=
    wrap "fail to set settings %v" (onE (oc_SetSettings si));;
    mret (WSetting (toSettingResource name value)) in
  if String.eqb name "backupTarget" then store (mkSettings value (si_EngineImage si))
  else if String.eqb name "engineImage" then store (mkSettings (si_BackupTarget si) value)
  else mret WNothing.

Definition ListHost req : MM resp :=
  hosts ← wrap "fail to list host" man_ListHosts;
  mret (WHosts (toHostCollection hosts)).

Definition api_GetHost req : MM resp :=
  host ← wrap "fail to get host" (man_GetHost (var "id" req));
  r ← lift (toHostResource host);
  mret (WHost r).

(** The internal request of the other hosts: [Server.Schedule] over
    [manager.ProcessSchedule]. *)
Definition api_ProcessSchedule (spec : ScheduleSpec) (item : ScheduleItem) : MM InstanceInfo :=
  match oc_Scheduler with
  | None => fail (Errorf "No scheduler found for the orchestrator")
  | Some process => onE (process spec item)
  end.

Definition api_Schedule req : MM resp :=
  input ← wrap "error read scheduleInput" (lift (read_ScheduleInput (rq_Body req)));
  instance ← wrap "fail to execute %v %+v" (api_ProcessSchedule (in_Spec input) (in_Item input));
  mret (WScheduled (mkScheduleOutput instance)).

(** ** The table of the actions of a volume *)

Definition forward (getHostID : Request → MM string) (h : Request → MM resp) : Request → MM resp :=
  fwd_Handler locator WForwarded getHostID h.

Definition volumeActions : list (string * (Request → MM resp)) :=
  [("attach", forward HostIDFromAttachReq AttachVolume);
   ("detach", forward HostIDFromVolume DetachVolume);
   ("snapshotPurge", forward HostIDFromVolume sh_Purge);
   ("snapshotCreate", forward HostIDFromVolume sh_Create);
   ("snapshotList", forward HostIDFromVolume sh_List);
   ("snapshotGet", forward HostIDFromVolume sh_Get);
   ("snapshotDelete", forward HostIDFromVolume sh_Delete);
   ("snapshotRevert", forward HostIDFromVolume sh_Revert);
   ("snapshotBackup", forward HostIDFromVolume sh_Backup);
   ("recurringUpdate", forward HostIDFromVolume api_UpdateRecurring);
   ("bgTaskQueue", forward HostIDFromVolume api_BgTaskQueue);
   ("replicaRemove", forward HostIDFromVolume api_ReplicaRemove)].

Definition backupActions : list (string * (Request → MM resp)) :=
  [("backupList", bh_List); ("backupGet", bh_Get); ("backupDelete", bh_Delete)].

(** The routes with a handler of the server: the method, the pattern, the value of
    [action] where one is asked for. *)
Definition routes : list (string * string * option string * (Request → MM resp)) :=
  [("GET", "/v1/settings", None, settings_List);
   ("GET", "/v1/settings/{name}", None, settings_Get);
   ("PUT", "/v1/settings/{name}", None, settings_Set);
   ("GET", "/v1/volumes", None, ListVolume);
   ("GET", "/v1/volumes/{name}", None, api_GetVolume);
   ("DELETE", "/v1/volumes/{name}", None, api_DeleteVolume);
   ("POST", "/v1/volumes", None, api_CreateVolume)] ++
  ((λ a, ("POST", "/v1/volumes/{name}", Some a.1, a.2)) <$> volumeActions) ++
  [("GET", "/v1/backupvolumes", None, bh_ListVolume);
   ("GET", "/v1/backupvolumes/{volName}", None, bh_GetVolume)] ++
  ((λ a, ("POST", "/v1/backupvolumes/{volName}", Some a.1, a.2)) <$> backupActions) ++
  [("GET", "/v1/hosts", None, ListHost);
   ("GET", "/v1/hosts/{id}", None, api_GetHost);
   ("POST", "/v1/schedule", None, api_Schedule)].
End Api.
