(* ===== verification/ApiSpec.v ===== *)
(** * What the API promises

    A request is handled by the host that holds its volume, after at most one
    forwarding; the actions a volume offers fit its state and are served; a setting that
    is written is read back; the input that creates a volume is kept. *)

From stdpp Require Import base list gmap strings.
From Stdlib Require Import ZArith Lia Ascii.
From S2P Require Import Prelude GoStrings GoTime Json Types Util TaskQueue Controller Backups Retain Cron Manager ManagerSpec Resources Api.
Local Open Scope string_scope.
Local Open Scope list_scope.

(** ** Forwarding between hosts *)

Section Hosts.
Context {S A : Type}.
(** The hosts by their IDs, the network by the addresses. *)
Context (locs : string → ServiceLocator S) (host_at : string → option string) (addr : string → string).
Context (getHostID : Request → M S string) (h : string → Request → M S A).

(** What the reverse proxy sends on. *)
Definition with_host (host : string) (req : Request) : Request :=
  mkRequest host (rq_vars req) (rq_Body req).

(** Host [id] gets the request, which follows at most [hops] forwardings; the result
    says which host handled it. *)
Fixpoint deliver (hops : nat) (id : string) (req : Request) : M S (option (string * A)) :=
  r ← fwd_Handler (locs id) inr getHostID (λ req, a ← h id req; mret (inl a)) req;
  match r with
  | inl a => mret (Some (id, a))
  | inr target =>
    match hops, host_at target with
    | Datatypes.S hops, Some id' => deliver hops id' (with_host target req)
    | _, _ => mret None
    end
  end.

Hypothesis loc_id : ∀ id, sl_GetCurrentHostID (locs id) = id.
Hypothesis loc_addr : ∀ id id' w, sl_GetAddress (locs id) id' w = (Ok (addr id'), w).
Hypothesis at_addr : ∀ id, host_at (addr id) = Some id.

(** A host that is the target, or that gets a request for no host, handles it. *)
Lemma deliver_here hops a id req w :
  getHostID req w = (Ok id, w) → id = "" ∨ id = a →
  deliver hops a req w = (r ← h a req; mret (Some (a, r))) w.
Proof.
  intros Eid Hid. destruct req as [rh vars body].
  assert (Hf : fwd_Handler (locs a) inr getHostID (λ req, r ← h a req; mret (inl r)) (mkRequest rh vars body) w =
               (r ← h a (mkRequest rh vars body); mret (inl r)) w).
  { unfold fwd_Handler, CopyReq. cbn [rq_Host rq_vars rq_Body]. erewrite bind_ok by by apply wrap_ok_inv.
    rewrite loc_id. destruct Hid as [-> | ->]; [done|]. by rewrite String.eqb_refl, andb_false_r. }
  destruct hops; cbn [deliver]; unfold mbind at 1, M_bind at 1; rewrite Hf;
    unfold mbind, M_bind; by destruct (h a _ w) as [[]].
Qed.

(** C20: a request is handled where its volume is.  Whatever host gets it, a request
    for host [id] is handled by [id] after at most one forwarding, with the variables and
    the body it came with, and one for no host is handled where it arrives; no other
    host does anything.  A request whose Host header is the address of its target is taken
    to have reached the target, so a client is supposed to send that header nowhere
    else. *)
Theorem forwarded_once hops a id req w :
  (∀ rh, getHostID (with_host rh req) w = (Ok id, w)) →
  (rq_Host req = addr id → a = id) →
  let target := if String.eqb id "" then a else id in
  ∃ req', rq_vars req' = rq_vars req ∧ rq_Body req' = rq_Body req ∧
    deliver (Datatypes.S hops) a req w = (r ← h target req'; mret (Some (target, r))) w.
Proof.
  intros Eid Hrouted target.
  assert (Ereq : getHostID req w = (Ok id, w)) by (destruct req as [rh vars body]; exact (Eid rh)).
  destruct (decide (id = "" ∨ id = a)) as [Hhere|Hfar].
  - exists req. split_and!; [done..|]. rewrite (deliver_here _ _ id) by done. unfold target.
    destruct (String.eqb_spec id ""); [done|]. by destruct Hhere as [? | ->].
  - exists (with_host (addr id) req). split_and!; [done..|].
    assert (Hne : id ≠ "") by tauto. unfold target. rewrite (proj2 (String.eqb_neq _ _) Hne).
    assert (Hfwd : fwd_Handler (locs a) inr getHostID (λ req, r ← h a req; mret (inl r)) req w =
                   (Ok (inr (addr id)), w)).
    { destruct req as [rh vars body]. unfold fwd_Handler, CopyReq. cbn [rq_Host rq_vars rq_Body] in *.
      erewrite bind_ok by by apply wrap_ok_inv.
      rewrite loc_id, (proj2 (String.eqb_neq _ _) Hne), (proj2 (String.eqb_neq id a)) by tauto.
      cbn [negb andb]. erewrite bind_ok by (apply wrap_ok_inv, loc_addr).
      rewrite (proj2 (String.eqb_neq (addr id) rh)); [done|]. intros Heq. destruct Hfar. right.
      symmetry. by apply Hrouted. }
    cbn [deliver]. unfold mbind at 1, M_bind at 1. rewrite Hfwd, at_addr.
    rewrite (deliver_here _ _ id); [done|apply Eid|by right].
Qed.
End Hosts.

(** ** The actions of a volume *)

Section Actions.
Context {E Mon : Type} `{Orchestrator E} `{ManagerDeps E Mon} `{Clock E} `{Random E}.
Context `{MapOrder} `{GoSched} `{CronSpec} `{UrlBuilder} `{Reader} `{Units} `{ScheduledOrchestrator E}.

Definition offers (v : VolumeInfo) (a : string) : Prop :=
  is_Some (rs_Actions (av_Resource (toVolumeResource v)) !! a).

Lemma offers_spec v a : offers v a ↔ a ∈ state_actions (v_State v).
Proof.
  unfold offers, toVolumeResource. cbn [av_Resource rs_Actions].
  set (f := λ a, (a, ActionLink (mkResource (v_Name v) "volume" ∅) a)). split.
  - intros [x Hx]. apply elem_of_list_to_map_2, list_elem_of_fmap in Hx as (b & Hb & Hin).
    unfold f in Hb. by injection Hb as -> _.
  - intros Ha. destruct (list_to_map (M := gmap string string) (f <$> state_actions (v_State v)) !! a) eqn:Em;
      [by eexists|]. apply not_elem_of_list_to_map in Em. destruct Em.
    apply (list_elem_of_fmap_2 f) in Ha. by apply (list_elem_of_fmap_2 fst) in Ha.
Qed.

(** C29: a volume offers what can be done with it, and what it offers is served.  For a
    volume as the manager returns it, attaching is offered exactly when it has a good
    replica and no controller; detaching, its snapshots and its tasks exactly when it has
    both; changing its recurring jobs and removing a replica exactly when it has a good
    replica; a volume without a good replica offers nothing, whether or not it still has a
    controller; and every action offered has a handler. *)
Theorem actions_fit_state v :
  v_State v = volumeState v →
  let has_good := ∃ k r, replicas_of v !! k = Some r ∧ good r = true in
  (offers v "attach" ↔ has_good ∧ v_Controller v = None) ∧
  (∀ a, a ∈ ["detach"; "snapshotPurge"; "snapshotCreate"; "snapshotList"; "snapshotGet";
             "snapshotDelete"; "snapshotRevert"; "snapshotBackup"; "bgTaskQueue"] →
    (offers v a ↔ has_good ∧ v_Controller v ≠ None)) ∧
  (∀ a, a ∈ ["recurringUpdate"; "replicaRemove"] → (offers v a ↔ has_good)) ∧
  ((∃ a, offers v a) ↔ has_good) ∧
  (∀ a, offers v a → a ∈ (volumeActions (E := E) (Mon := Mon)).*1).
Proof.
  intros Hst has_good. setoid_rewrite offers_spec. rewrite Hst. clear Hst.
  assert (Hg : has_good ↔ goodReplicaCount v ≠ 0) by apply goodReplicaCount_pos.
  clearbody has_good. setoid_rewrite Hg. clear Hg. unfold volumeState.
  destruct (Nat.eqb_spec (goodReplicaCount v) 0) as [Hz|Hz]; cbn [state_actions].
  - change (state_actions VolumeStateFaulted) with (@nil string). setoid_rewrite elem_of_nil.
    split_and!; [by split; [|intros [? _]]|by intros a _; split; [|intros [? _]]|done|by split; [intros [? ?]|]|done].
  - destruct (v_Controller v) as [c|].
    + assert (Hs : state_actions (if (Z.of_nat (goodReplicaCount v) =? v_NumberOfReplicas v)%Z
                     then VolumeStateHealthy else VolumeStateDegraded) = attached_actions) by by case_match.
      rewrite Hs. split_and!.
      * split; [|by intros [_ ?]]. intros Ha. exfalso. revert Ha. apply (bool_decide_unpack (_ ∉ _)). by vm_compute.
      * intros a Ha. split; [by intros _; split; [|discriminate]|]. intros _. revert a Ha.
        apply Forall_forall. by apply (bool_decide_unpack (Forall (λ a, a ∈ attached_actions) _)).
      * intros a Ha. split; [done|]. intros _. revert a Ha.
        apply Forall_forall. by apply (bool_decide_unpack (Forall (λ a, a ∈ attached_actions) _)).
      * split; [done|]. intros _. exists "detach". by left.
      * apply Forall_forall. cbn [volumeActions fmap list_fmap fst].
        by apply (bool_decide_unpack (Forall _ _)).
    + change (state_actions VolumeStateDetached) with ["attach"; "recurringUpdate"; "replicaRemove"].
      split_and!.
      * split; [done|]. intros _. by left.
      * intros a Ha. split; [|by intros [_ ?]]. intros Hin. exfalso. revert a Ha Hin.
        apply (proj1 (Forall_forall (λ a, a ∉ ["attach"; "recurringUpdate"; "replicaRemove"]) _)).
        by apply (bool_decide_unpack (Forall (λ a, a ∉ _) _)).
      * intros a Ha. split; [done|]. intros _. by right.
      * split; [done|]. intros _. exists "attach". by left.
      * apply Forall_forall. cbn [volumeActions fmap list_fmap fst].
        by apply (bool_decide_unpack (Forall _ _)).
Qed.
End Actions.

(** ** Settings *)

Section Settings.
Context {E Mon : Type} `{Orchestrator E} `{ManagerDeps E Mon} `{Clock E} `{Random E}.
Context `{MapOrder} `{GoSched} `{CronSpec} `{UrlBuilder} `{Reader} `{Units}.
Implicit Types (s : volumeManager E Mon).

(** The store keeps the settings it is given. *)
Hypothesis set_get : ∀ si e e', oc_SetSettings si e = (Ok tt, e') → oc_GetSettings e' = (Ok si, e').

(** C37: a setting that is written is read back, and no other changes.  When writing
    one of the two settings succeeds, reading it returns the value written and reading
    the other returns what it was; a write under any other name reports success and
    stores nothing.  That settings are read back as they were stored is the
    orchestrator's part, [set_get]; here is what the two handlers make of it. *)
Theorem settings_set_get req setting s e1 si s' r :
  read_Setting (rq_Body req) = Ok setting →
  oc_GetSettings (m_env s) = (Ok si, e1) →
  settings_Set req s = (Ok r, s') →
  if bool_decide (var "name" req ∈ ["backupTarget"; "engineImage"]) then
    ∀ req', var "name" req' ∈ ["backupTarget"; "engineImage"] →
      ∃ s2, settings_Get req' s' =
        (Ok (WSetting (toSettingResource (var "name" req')
           (if String.eqb (var "name" req') (var "name" req) then ast_Value setting
            else if String.eqb (var "name" req') "backupTarget" then si_BackupTarget si
            else si_EngineImage si))), s2)
  else r = WNothing ∧ m_env s' = e1.
Proof.
  intros Hread Hget Eset. unfold settings_Set in Eset. rewrite Hread in Eset.
  apply bind_ok_inv in Eset as (st & s0 & Hst & Eset). injection Hst as <- <-.
  apply bind_ok_inv in Eset as (si' & s1 & Hsi & Eset). apply wrap_ok_inv in Hsi.
  unfold onE in Hsi. rewrite Hget in Hsi. injection Hsi as <- <-.
  assert (Hread_back : ∀ si1 s3, oc_GetSettings (m_env s3) = (Ok si1, m_env s3) →
    ∀ req', var "name" req' ∈ ["backupTarget"; "engineImage"] →
      ∃ s4, settings_Get req' s3 =
        (Ok (WSetting (toSettingResource (var "name" req')
           (if String.eqb (var "name" req') "backupTarget" then si_BackupTarget si1
            else si_EngineImage si1))), s4)).
  { intros si1 s3 Hg req' Hn. unfold settings_Get, mbind, M_bind, wrap, onE. rewrite Hg. cbn.
    destruct (String.eqb_spec (var "name" req') "backupTarget"); [by eexists|].
    destruct (String.eqb_spec (var "name" req') "engineImage"); [by eexists|].
    exfalso. rewrite !elem_of_cons, elem_of_nil in Hn. tauto. }
  destruct (String.eqb_spec (var "name" req) "backupTarget") as [Hn|Hn];
    [|destruct (String.eqb_spec (var "name" req) "engineImage") as [Hn'|Hn']].
  3: { rewrite bool_decide_eq_false_2 by (rewrite !elem_of_cons, elem_of_nil; tauto). by injection Eset as <- <-. }
  all: rewrite bool_decide_eq_true_2 by (rewrite ?Hn, ?Hn', !elem_of_cons; tauto).
  all: apply bind_ok_inv in Eset as ([] & s3 & Hset & Eset); injection Eset as <- <-;
       apply wrap_ok_inv in Hset; unfold onE in Hset; cbn [m_env] in Hset.
  all: match type of Hset with context [oc_SetSettings ?x ?e] =>
         destruct (oc_SetSettings x e) as [o e3] eqn:Es end; injection Hset as -> <-; apply set_get in Es.
  all: intros req' Hr; destruct (Hread_back _ (mkMan e3 (m_monitors s) (m_addingReplicas s) (m_adds s)) Es req' Hr)
         as (s4 & Hs4); exists s4; rewrite Hs4; do 4 f_equal.
  - rewrite Hn. by destruct (String.eqb (var "name" req') "backupTarget").
  - rewrite Hn'. cbn [si_BackupTarget si_EngineImage].
    destruct (String.eqb_spec (var "name" req') "backupTarget") as [Hb|Hb],
      (String.eqb_spec (var "name" req') "engineImage") as [Hi|Hi]; try done; [congruence|].
    exfalso. rewrite !elem_of_cons, elem_of_nil in Hr. tauto.
Qed.

(** The input that creates a volume is shown again as it was given: the size rounded
    up to blocks, and the time-out in minutes if it fits 64 bits of nanoseconds. *)
Lemma create_input_kept v volume size :
  ConvertSize (SizeString (av_Size v)) = Ok size →
  filterCreateVolumeInput v = Ok volume →
  av_Name (toVolumeResource volume) = av_Name v ∧
  av_Size (toVolumeResource volume) = FormatInt (RoundUpSize size) ∧
  av_NumberOfReplicas (toVolumeResource volume) = av_NumberOfReplicas v ∧
  ((-153722867 <= av_StaleReplicaTimeout v <= 153722867)%Z →
   av_StaleReplicaTimeout (toVolumeResource volume) = av_StaleReplicaTimeout v).
Proof.
  intros Hs Hf. unfold filterCreateVolumeInput in Hf. rewrite Hs in Hf. injection Hf as <-.
  split_and!; [done..|]. intros Hr. unfold toVolumeResource. cbn [av_StaleReplicaTimeout v_StaleReplicaTimeout].
  rewrite wrap64_id.
  - rewrite Z.quot_mul; [done|]. vm_compute. discriminate.
  - unfold in_int64, int64_min, int64_max, Minute, Second, nanos. apply andb_true_iff.
    rewrite !Z.leb_le. lia.
Qed.
End Settings.

(** ** The properties at concrete inputs *)
Module ApiDemo.
#[local] Existing Instance list_order.
#[local] Existing Instance in_order.

(** Two hosts; the request names the host it is for in its body. *)
Definition locs (id : string) : ServiceLocator nat :=
  mkLocator _ id (λ id, mret (id +:+ ":9500")).
Definition addr (id : string) : string := id +:+ ":9500".
Definition find_host (a : string) : option string := Some (TrimSuffix a ":9500").
Definition getHost (req : Request) : M nat string := mret (rq_Body req).
(** Handling a request counts it. *)
Definition handle (id : string) (req : Request) : M nat string := λ n, (Ok (rq_Body req), S n).

Lemma find_addr id : find_host (addr id) = Some id.
Proof. unfold find_host, addr. by rewrite TrimSuffix_app. Qed.

Definition request : Request := mkRequest "h1:9500" {[ "name" := "vol" ]} "h2".

Lemma forwarded_once_witness :
  deliver locs find_host getHost handle 1 "h1" request 0 = (Ok (Some ("h2", "h2")), 1).
Proof.
  destruct (forwarded_once locs find_host addr getHost handle (λ _, eq_refl) (λ _ _ _, eq_refl)
              find_addr 0 "h1" "h2" request 0) as (req' & _ & Hb & Hd).
  - intros rh. reflexivity.
  - discriminate.
  - rewrite Hd. cbn. unfold handle, mbind, M_bind. rewrite Hb. reflexivity.
Defined.

#[local] Instance links : UrlBuilder := {|
  ActionLink r a := "/v1/" +:+ rs_Type r +:+ "s/" +:+ rs_Id r +:+ "?action=" +:+ a;
  CollectionLink t := "/v1/" +:+ t +:+ "s";
|}.
#[local] Instance reader : Reader := {|
  read_AttachInput s := Ok (mkAttachInput s);
  read_Volume _ := Err (ExtErr "json");
  read_RecurringInput _ := Err (ExtErr "json");
  read_ReplicaRemoveInput s := Ok (mkReplicaRemoveInput s);
  read_SnapshotInput s := Ok (mkSnapshotInput s ∅);
  read_BackupInput s := Ok (mkBackupInput s);
  read_Setting s := Ok (toSettingResource "" s);
  read_ScheduleInput _ := Err (ExtErr "json");
|}.
#[local] Instance units : Units := {| RAMInBytes s := Ok 0%Z |}.
#[local] Instance cronspec : CronSpec := {| cron_parses _ := true |}.

(** An orchestrator that is only its settings. *)
#[local] Instance clock : Clock SettingsInfo := {| clock_Now _ := 0%Z; clock_Sleep _ w := w |}.
#[local] Instance random : Random SettingsInfo := {| UUID w := ("", w) |}.
#[local] Instance orc : Orchestrator SettingsInfo := {|
  oc_CreateVolume v := mret v; oc_DeleteVolume _ := mret tt; oc_GetVolume _ := mret None;
  oc_ListVolumes := mret []; oc_MarkBadReplica _ _ := mret tt; oc_UpdateVolume _ := mret tt;
  oc_CreateController _ _ _ := fail (ExtErr ""); oc_CreateReplica _ _ := mret None;
  oc_StartInstance i := mret i; oc_StopInstance i := mret i; oc_RemoveInstance i := mret i;
  oc_ListHosts := mret ∅; oc_GetHost _ := mret None; oc_GetCurrentHostID := "h1";
  oc_GetAddress _ := mret "";
  oc_GetSettings := λ w, (Ok w, w);
  oc_SetSettings si := λ w, (Ok tt, si);
|}.
#[local] Instance no_scheduler : ScheduledOrchestrator SettingsInfo := {| oc_Scheduler := None |}.
#[local] Instance deps : ManagerDeps SettingsInfo unit := {|
  getController _ := mret None;
  getBackups _ := mkManagerBackupOps _ (λ _, mret []) (λ _, mret None) (λ _, mret tt) (mret [])
                    (λ _, fail (ExtErr ""));
  BeginMonitoring _ := mret tt; mon_Close _ := mret tt; mon_CronUpdate _ _ := mret tt;
|}.

Definition setting_req (name value : string) : Request := mkRequest "" {[ "name" := name ]} value.
Definition before : volumeManager SettingsInfo unit := man_New (mkSettings "" "image").

Lemma orc_keeps si e e' : oc_SetSettings si e = (Ok tt, e') → oc_GetSettings e' = (Ok si, e').
Proof. by intros [= <-]. Qed.

Lemma settings_set_get_witness :
  ∃ s', settings_Set (setting_req "backupTarget" "s3://b") before =
          (Ok (WSetting (toSettingResource "backupTarget" "s3://b")), s') ∧
        ∃ s2, settings_Get (setting_req "backupTarget" "") s' =
          (Ok (WSetting (toSettingResource "backupTarget" "s3://b")), s2).
Proof.
  exists (man_New (mkSettings "s3://b" "image")). split; [vm_compute; reflexivity|].
  refine (@settings_set_get SettingsInfo unit orc reader orc_keeps
    (setting_req "backupTarget" "s3://b") (toSettingResource "" "s3://b") before (m_env before)
    (mkSettings "" "image") (man_New (mkSettings "s3://b" "image"))
    (WSetting (toSettingResource "backupTarget" "s3://b")) eq_refl eq_refl _
    (setting_req "backupTarget" "") _).
  - vm_compute. reflexivity.
  - left.
Defined.

Definition ready : VolumeInfo :=
  mkVolume "vol" 4096 "" "" 1 0 None
    (Some {[ "r1" := mkReplica (mkInstance "i" "replica" "r1" "h1" "" false "vol") "" "" ]})
    "detached" "image" "" "" [].

Lemma actions_fit_state_witness :
  offers ready "attach" ∧ ¬ offers ready "detach" ∧ offers ready "recurringUpdate".
Proof.
  edestruct (actions_fit_state (E := SettingsInfo) (Mon := unit) ready) as (Ha & Hd & Hr & _ & _); [vm_compute; reflexivity|].
  assert (Hgood : ∃ k r, replicas_of ready !! k = Some r ∧ good r = true).
  { exists "r1". eexists. split; [vm_compute; reflexivity|reflexivity]. }
  split; [exact (proj2 Ha (conj Hgood eq_refl))|]. split.
  - intros Ho. apply (Hd "detach") in Ho; [|left]. exact (proj2 Ho eq_refl).
  - exact (proj2 (Hr "recurringUpdate" ltac:(left)) Hgood).
Defined.
End ApiDemo.
