(* ===== verification/Schema.v ===== *)
(** * The schemas of the API

    [NewSchema] of [api/model.go] and the functions it calls: what the API says of
    itself, and its agreement with what it serves ([Api.routes]) and with what it
    offers ([Resources.toVolumeResource]).  The schema that [AddType] of the library
    derives from a Go type is a parameter. *)

From stdpp Require Import base list gmap strings.
From Stdlib Require Import ZArith Lia Ascii.
From S2P Require Import Prelude GoStrings GoTime Json Types Util TaskQueue Controller Backups Retain Cron Manager Resources Api ApiSpec.
Local Open Scope string_scope.
Local Open Scope list_scope.

(** The parts of [client.Field], [client.Action] and [client.Schema] the code uses. *)
Inductive default_value : Type := DStr (s : string) | DInt (n : Z).
Record Field := mkField {
  fd_Type : string;
  fd_Default : option default_value;
  fd_Unique : bool;
  fd_Nullable : bool;
  fd_Create : bool;
  fd_Required : bool;
  fd_Update : bool;
}.
(** The zero value, which a missing field reads as. *)
Definition no_field : Field := mkField "" None false false false false false.
Record Action := mkAction { ac_Input : string; ac_Output : string }.
Record Schema := mkSchema {
  sc_Id : string;
  sc_CollectionMethods : list string;
  sc_ResourceMethods : list string;
  sc_ResourceActions : gmap string Action;
  sc_ResourceFields : gmap string Field;
}.

Definition set_methods (collection resource : list string) (s : Schema) : Schema :=
  mkSchema (sc_Id s) collection resource (sc_ResourceActions s) (sc_ResourceFields s).
Definition set_actions (a : gmap string Action) (s : Schema) : Schema :=
  mkSchema (sc_Id s) (sc_CollectionMethods s) (sc_ResourceMethods s) a (sc_ResourceFields s).

(** [f := s.ResourceFields[k]; ..; s.ResourceFields[k] = f]. *)
Definition on_field (k : string) (f : Field → Field) (s : Schema) : Schema :=
  let field := default no_field (sc_ResourceFields s !! k) in
  mkSchema (sc_Id s) (sc_CollectionMethods s) (sc_ResourceMethods s) (sc_ResourceActions s)
    (<[k := f field]> (sc_ResourceFields s)).

Definition with_type (t : string) (f : Field) : Field :=
  mkField t (fd_Default f) (fd_Unique f) (fd_Nullable f) (fd_Create f) (fd_Required f) (fd_Update f).
Definition with_default (d : default_value) (f : Field) : Field :=
  mkField (fd_Type f) (Some d) (fd_Unique f) (fd_Nullable f) (fd_Create f) (fd_Required f) (fd_Update f).
Definition uniquely (f : Field) : Field :=
  mkField (fd_Type f) (fd_Default f) true (fd_Nullable f) (fd_Create f) (fd_Required f) (fd_Update f).
Definition creatable (f : Field) : Field :=
  mkField (fd_Type f) (fd_Default f) (fd_Unique f) (fd_Nullable f) true (fd_Required f) (fd_Update f).
Definition required (f : Field) : Field :=
  mkField (fd_Type f) (fd_Default f) (fd_Unique f) (fd_Nullable f) (fd_Create f) true (fd_Update f).
Definition updatable (f : Field) : Field :=
  mkField (fd_Type f) (fd_Default f) (fd_Unique f) (fd_Nullable f) (fd_Create f) (fd_Required f) true.

Definition recurringSchema (recurring : Schema) : Schema :=
  on_field "jobs" (with_type "array[recurringJob]") recurring.

Definition settingSchema (setting : Schema) : Schema :=
  on_field "value" (λ f, updatable (required f))
    (on_field "name" (λ f, uniquely (required f))
      (set_methods ["GET"] ["GET"; "PUT"] setting)).

Definition hostSchema (host : Schema) : Schema := set_methods ["GET"] ["GET"] host.

Definition volume_actions : list (string * Action) :=
  [("attach", mkAction "attachInput" "volume");
   ("detach", mkAction "" "volume");
   ("snapshotPurge", mkAction "" "");
   ("snapshotCreate", mkAction "snapshotInput" "snapshot");
   ("snapshotGet", mkAction "snapshotInput" "snapshot");
   ("snapshotList", mkAction "" "");
   ("snapshotDelete", mkAction "snapshotInput" "snapshot");
   ("snapshotRevert", mkAction "snapshotInput" "snapshot");
   ("snapshotBackup", mkAction "snapshotInput" "");
   ("recurringUpdate", mkAction "recurringInput" "");
   ("bgTaskQueue", mkAction "" "");
   ("replicaRemove", mkAction "replicaRemoveInput" "volume")].

Definition volumeSchema (volume : Schema) : Schema :=
  let v := set_actions (list_to_map volume_actions)
             (set_methods ["GET"; "POST"] ["GET"; "DELETE"] volume) in
  let v := mkSchema (sc_Id v) (sc_CollectionMethods v) (sc_ResourceMethods v) (sc_ResourceActions v)
             (<["controller" := mkField "struct" None false true false false false]>
                (sc_ResourceFields v)) in
  let v := on_field "name" (λ f, uniquely (required (creatable f))) v in
  let v := on_field "size" (λ f, with_default (DStr "100G") (required (creatable f))) v in
  let v := on_field "fromBackup" creatable v in
  let v := on_field "numberOfReplicas" (λ f, with_default (DInt 2) (required (creatable f))) v in
  on_field "staleReplicaTimeout" (λ f, with_default (DInt 20) (creatable f)) v.

Definition backup_volume_actions : list (string * Action) :=
  [("backupList", mkAction "" "");
   ("backupGet", mkAction "backupInput" "backup");
   ("backupDelete", mkAction "backupInput" "backupVolume")].

Definition backupVolumeSchema (backupVolume : Schema) : Schema :=
  set_actions (list_to_map backup_volume_actions) (set_methods ["GET"] ["GET"] backupVolume).

(** ** All of them *)

(** [schemas.AddType], by the name of the type: each name is used once. *)
Class TypeSchemas := {
  AddType : string → Schema;
  added_id : ∀ n, sc_Id (AddType n) = n;
  added_actions : ∀ n, sc_ResourceActions (AddType n) = ∅;
}.

Section NewSchema.
Context `{TypeSchemas}.

Definition NewSchema : list Schema :=
  [AddType "apiVersion"; AddType "schema"; AddType "error"; AddType "snapshot";
   AddType "attachInput"; AddType "snapshotInput"; AddType "backup"; AddType "backupInput";
   AddType "recurringJob"; AddType "bgTask"; AddType "replicaRemoveInput";
   hostSchema (AddType "host"); volumeSchema (AddType "volume");
   backupVolumeSchema (AddType "backupVolume"); settingSchema (AddType "setting");
   recurringSchema (AddType "recurringInput")].

(** [CheckSchema]; the names differ by more than their case. *)
Definition schema_of (name : string) : option Schema :=
  find (λ s, String.eqb (sc_Id s) name) NewSchema.
Definition declared (name : string) : Prop := is_Some (schema_of name).
End NewSchema.

(** ** What the API says, what it serves and what it offers *)

(** The types with routes of their own: where they are listed, and where one is. *)
Definition resources : list (string * string * string) :=
  [("volume", "/v1/volumes", "/v1/volumes/{name}");
   ("backupVolume", "/v1/backupvolumes", "/v1/backupvolumes/{volName}");
   ("setting", "/v1/settings", "/v1/settings/{name}");
   ("host", "/v1/hosts", "/v1/hosts/{id}")].

Section Agreement.
Context {E Mon : Type} `{Orchestrator E} `{ManagerDeps E Mon} `{Clock E} `{Random E}.
Context `{MapOrder} `{GoSched} `{CronSpec} `{UrlBuilder} `{Reader} `{Units} `{ScheduledOrchestrator E} `{TypeSchemas}.

Definition route_keys : list (string * string * option string) :=
  (λ r, r.1) <$> routes (E := E) (Mon := Mon).
Definition methods_served (path : string) : gset string :=
  list_to_set ((λ k, k.1.1) <$> filter (λ k : string * string * option string,
                                          k.1.2 = path ∧ k.2 = None) route_keys).
Definition actions_served (path : string) : gset string :=
  list_to_set (omap (λ k : string * string * option string,
    if bool_decide (k.1 = ("POST", path)) then k.2 else None) route_keys).

(** An input or an output that is named is a type of the API. *)
Definition well_typed (a : Action) : Prop :=
  (ac_Input a = "" ∨ declared (ac_Input a)) ∧ (ac_Output a = "" ∨ declared (ac_Output a)).

Definition described (t collection one : string) (s : Schema) : Prop :=
  schema_of t = Some s ∧
  list_to_set (sc_CollectionMethods s) = methods_served collection ∧
  list_to_set (sc_ResourceMethods s) = methods_served one ∧
  dom (sc_ResourceActions s) = actions_served one ∧
  map_Forall (λ _, well_typed) (sc_ResourceActions s).

Ltac find_schema := unfold schema_of, NewSchema; cbn -[String.eqb AddType]; rewrite ?added_id; reflexivity.

Lemma declared_types :
  Forall declared ["snapshot"; "attachInput"; "snapshotInput"; "backup"; "backupInput";
    "recurringJob"; "bgTask"; "replicaRemoveInput"; "host"; "volume"; "backupVolume";
    "setting"; "recurringInput"].
Proof. repeat constructor; eexists; find_schema. Qed.

Lemma well_typed_list (l : list (string * Action)) (m : gmap string Action) :
  m = list_to_map l →
  Forall (λ p, p.2.(ac_Input) ∈ [""; "attachInput"; "snapshotInput"; "recurringInput";
                                 "replicaRemoveInput"; "backupInput"] ∧
               p.2.(ac_Output) ∈ [""; "volume"; "snapshot"; "backup"; "backupVolume"]) l →
  map_Forall (λ _, well_typed) m.
Proof.
  intros -> Hl a x Hx. apply elem_of_list_to_map_2 in Hx.
  destruct (proj1 (Forall_forall _ _) Hl _ Hx) as [Hi Ho].
  pose proof (proj1 (Forall_forall _ _) declared_types) as Hd.
  split; [clear Ho; revert Hi|clear Hi; revert Ho]; cbn [snd];
    rewrite !elem_of_cons, elem_of_nil; intros Hcase;
    repeat (destruct Hcase as [->|Hcase]; [first [by left|right; apply Hd; by_deciding]|]);
    done.
Qed.

Lemma volume_described : ∃ s, described "volume" "/v1/volumes" "/v1/volumes/{name}" s.
Proof.
  eexists. split; [find_schema|]. split_and!; [by_deciding..|].
  eapply well_typed_list; [reflexivity|]. by_deciding.
Qed.

Lemma backup_volume_described :
  ∃ s, described "backupVolume" "/v1/backupvolumes" "/v1/backupvolumes/{volName}" s.
Proof.
  eexists. split; [find_schema|]. split_and!; [by_deciding..|].
  eapply well_typed_list; [reflexivity|]. by_deciding.
Qed.

Lemma plain_described t collection one s :
  schema_of t = Some s → sc_ResourceActions s = ∅ → actions_served one = ∅ →
  list_to_set (sc_CollectionMethods s) = methods_served collection →
  list_to_set (sc_ResourceMethods s) = methods_served one →
  described t collection one s.
Proof. intros Hs Ha Hn Hc Hr. split_and!; [done..| |]; by rewrite Ha, ?Hn, ?dom_empty_L. Qed.

Lemma offered_declared state :
  Forall (λ a, a ∈ volume_actions.*1) (state_actions state).
Proof. unfold state_actions. repeat case_match; by_deciding. Qed.

End Agreement.

(** ** The property at a concrete input *)
Module SchemaDemo.
Import ApiDemo.
#[local] Existing Instance orc.
#[local] Existing Instance deps.
#[local] Existing Instance clock.
#[local] Existing Instance random.
#[local] Existing Instance list_order.
#[local] Existing Instance in_order.
#[local] Existing Instance cronspec.
#[local] Existing Instance links.
#[local] Existing Instance reader.
#[local] Existing Instance units.
#[local] Existing Instance no_scheduler.

(** Types without fields. *)
#[local, refine] Instance plain : TypeSchemas := {| AddType n := mkSchema n ["GET"] ["GET"] ∅ ∅ |}.
Proof. all: done. Defined.

End SchemaDemo.
